(* ===== verification/_CoqProject ===== *)
-Q . S2P
Prelude.v
Text.v
Numerals.v
Crypto.v
Keys.v
RecordLoop.v
Record.v
FlowScheduler.v
FlowQueue.v
WsFrame.v
Transport.v
WebSocket.v
WsReceive.v
WsCloseProps.v
Pool.v
Traffic.v
Telemetry.v
Logging.v
Config.v
ConfigBounds.v
Tun.v
Admission.v
HttpUpgrade.v
Handshake.v
WsClosing.v
Agreement.v
Outbox.v
LoopOs.v
DeviceLog.v
Pacing.v
Sequence.v
TlsLoop.v
TlsProps.v
Budget.v
Carrier.v
CarrierLoop.v
CarrierProps.v
CarrierStream.v
EndToEnd.v
PoolLane.v
PoolLaneProps.v
PoolLoop.v
PoolProps.v
PoolTheorems.v
RunLoop.v
RunProps.v
Ptt3.v
Ptt3Props.v
NetOs.v
Dial.v
DialProps.v
TlsRun.v
TlsRunProps.v
TlsContext.v
Run.v
Control.v
DoubleText.v
Status.v
StatusProps.v
StatsLoop.v
CommandLine.v
Effective.v
