(* ===== verification/Prelude.v ===== *)
(** * Pacetun: a verification library for the PaceTun CDN tunnel

    PaceTun carries IP packets of a TUN device between a client and a server, as
    encrypted records over TLS or over WebSocket connections. This library
    models the C++ program under src/cdn (src/ and include/pacetun/) and proves
    what its parts and their composition promise. Every mapped definition has a
    comment with the function and the lines it translates.

    ** Conventions

    A byte string is a list of [Z]; machine integers are [Z] with the wrap-around
    written out ([u8], [u16], [u32], [u64]). A function that may throw returns
    [res], which keeps the text of the exception, because the runtime inspects it;
    a function that also changes an object is in the monad [M] below, where the
    state survives an exception as the code leaves it. What is not code of the
    repository is a type class: [Crypto] and [HttpLib] (OpenSSL), [Transport]
    (sockets and TLS under a WebSocket session), [TunSystem] (ioctl and ip
    commands), [LoopOs], [PoolOs], [RunOs], [NetOs], [ControlOs] (poll, clocks, flags, sockets).
    Documented behaviour that a proof relies on is a second class of laws beside
    it ([CryptoLaws], [TransportLaws], [LoopLaws], ...), and every module that
    ends in Demo or Toy gives concrete instances, on which the witnesses run.
    Members that only record what happened ([trace], [lane_trace], [departed],
    [history], [from_tun], [to_tun], [received], [wire], [waits], [trials], [unstarted], [said], [heard], [opened],
    [tls_opened], [tried], [orders]) are not in the code; no
    operation reads them.

    Loops of the sources that run until something outside happens have an
    argument for the number of turns, and the theorems hold for all of them.
    Inner loops have a bound that is proved to be enough: it comes from the
    length of what is left to do or from [Patience], [PoolPatience] and [NetPatience], the
    number of times the world still has data or asks for a retry ([feed_total_and_bounded],
    [ws_loops_terminate], [tls_inner_loops_finish], [pool_inner_loops_finish],
    [dial_waits_end]); for the writes of a session that have a deadline, from
    [TimePasses], the number of times the clock can be read before that deadline
    ([session_close_gives_back]).

    A thread that cannot be started is an exception, as the standard has it: of
    [std::async] for a dial of the pool ([begin_dial]) and a trial ([begin_trial]), of
    [std::thread] for the two threads of [run] ([begin_thread]) and those of the
    admission server ([begin_admission]).

    ** The parts

    - Prelude.v, Text.v, Crypto.v: shared notions, [std::string], the library calls.
    - Keys.v (record.cpp): hexadecimal, PSK file, key schedules, tokens.
    - RecordLoop.v, Record.v (record.cpp, record.hpp): the record formats PTT3,
      PTT4 and PTT5 and their streaming decoders. One loop with the interface
      [StepLaws]; the three versions are its instances.
    - FlowScheduler.v, FlowQueue.v (flow_scheduler.hpp): fair scheduling of packets
      and the queue of a lane, which refines per-flow FIFOs.
    - WsFrame.v, Transport.v, WebSocket.v, WsReceive.v (websocket.cpp): frames, and a
      session that sends and receives messages over an unreliable-sized stream.
    - WsCloseProps.v (websocket.cpp): what a close frame of the peer does.
    - WsClosing.v (websocket.cpp): the end of a session, with its writes that have a deadline.
    - HttpUpgrade.v, Handshake.v, Agreement.v (websocket.cpp): the HTTP upgrade and
      the authenticated handshake PTT6 and PTT8 of client and server.
    - Pool.v (pool.hpp), Traffic.v, Budget.v (traffic.hpp, edge_selection.hpp),
      Telemetry.v (telemetry.hpp), Logging.v (logging.hpp and the classification in
      runtime.cpp): lane affinity, timers, padding budgets in binary64, round
      trips, failure reports.
    - Config.v, ConfigBounds.v, Effective.v (config.cpp): the configuration file and
      its checks, the bounds the loops rely on, and the text of the settings in effect.
    - Tun.v (tun_linux.cpp), Admission.v (admission.cpp): the TUN device, and the
      admission server as interleaved steps of its threads.
    - Outbox.v, LoopOs.v, Sequence.v: what the packet loops share; DeviceLog.v: worlds
      that can tell what passed through the TUN device and the TLS connection, so that
      [tls_tunnel_end_to_end] speaks of the device and not of the members that note it.
    - TlsLoop.v, TlsProps.v ([tunnel_loop]); Carrier.v, CarrierLoop.v, CarrierProps.v
      ([carrier_tunnel_loop] over the abstract [Carrier]); CarrierStream.v (what a
      carrier promises, kept by WebSocket sessions); EndToEnd.v (the handshake and two
      loops over the bytes of a connection); PoolLane.v,
      PoolLaneProps.v, PoolLoop.v, PoolProps.v, PoolTheorems.v ([pool_tunnel_loop]):
      the three packet loops of runtime.cpp.
    - RunLoop.v, RunProps.v ([run], one connection): sessions one after the other,
      with replacement trials, waits and delays, over the carrier loop.
    - Ptt3.v, Ptt3Props.v: the handshake of the TLS transport.
    - NetOs.v, Dial.v, DialProps.v ([connect_tcp], [listen_tcp], [ssl_handshake],
      [dial_websocket]): connecting and listening, with the descriptors and TLS
      objects that are open at every moment; TlsRun.v, TlsRunProps.v ([run] for the TLS
      transport): the accepting server and the reconnecting client over Dial.v,
      Ptt3.v and TlsLoop.v; Pacing.v: the waits of both clients; TlsContext.v
      ([server_ctx], [client_ctx]): what TLS objects inherit.
    - Run.v ([run]): all of the above put together, from the check of the secrets to
      the end of the process.
    - Control.v ([control_loop], [control_command]) and CommandLine.v (main.cpp): what
      users ask of the process, and who may; Status.v, StatusProps.v: what it answers,
      StatsLoop.v ([stats_loop]): what it writes every interval,
      with DoubleText.v and Numerals.v, the numbers of a C++ stream.
    They interact as the program does: the loops encode and decode with Record.v,
    keep packets in FlowQueue.v and records in Outbox.v, ask Traffic.v and Budget.v
    for timers and padding, and talk to a [Carrier], whose instance is the session
    of WebSocket.v; the keys come from the handshakes. [CarrierContract] is the
    promise of a carrier the loop is proved against.

    ** What the theorems show

    - End to end: the packets that one end of a tunnel encodes, which for the TLS
      tunnel are those it reads from its TUN device, reach the TUN device of the
      other end in order, unaltered and at most once, whatever the cutting of the
      stream and the losses from queues ([tls_tunnel_end_to_end],
      [carrier_tunnel_end_to_end], [pool_tunnel_end_to_end] for every pair of lanes);
      for the WebSocket transport from the authenticated handshake down to the bytes
      of the connection, control frames and replies between them included
      ([authenticated_tunnel_end_to_end], [websocket_delivers]);
      below that, for records ([ptt5_stream_delivered], [ptt3_stream_delivered],
      [feed_independent_of_cutting]) and messages ([ws_messages_end_to_end]).
    - Security of the receiver: replays are refused, numbers increase, gaps are
      counted, deliveries are authentic, malformed frames are rejected
      ([ptt5_replay_refused], [deliveries_strictly_increase], [gap_counter_exact],
      [ptt5_deliveries_authentic], [ws_accepted_frames_conform]).
    - Agreement: two sides that return from a handshake hold the same keys, unless
      two named inputs of HMAC had the same tag ([handshake_agreement],
      [ptt3_agreement]).
    - Bounds: queues, messages, decoder buffers, tables and lanes stay within what
      the configuration allows ([queue_stays_within_limits], [pool_queues_bounded],
      [pool_connections_bounded], [affinity_bounded],
      [carrier_queue_and_messages_bounded], [carrier_record_fits_batch],
      [feed_total_and_bounded], [ws_session_within_bounds]).
    - Fairness and order: [schedule_fair], [queue_keeps_flow_order].
    - Survival: failures end what they belong to and nothing else
      ([pool_survives_its_lanes], [failed_lane_leaves_alone],
      [client_always_reconnects], [tls_client_waits], [session_left_for_a_replacement],
      [trials_spaced_and_counted], [ws_close_handled]); every accepted connection is
      accounted for ([admission_accounts_for_every_connection]).
    - Resources: [tun_device_configured_or_closed], [dial_releases_everything],
      [tls_client_survives], [tls_server_closes_connections], [session_close_gives_back],
      [contexts_as_configured]: what was opened is closed on every path; [run_winds_down]: so it is
      for the whole process, but for a thread that cannot be started; [addresses_tried_in_turn], [dial_waits_end], [endpoint_split_as_checked].
    - Configuration and diagnosis: [load_config_means_its_settings],
      [effective_config_reloads], [reports_read_back],
      [failures_explained_and_counted], [rtt_percentiles_nearest_rank], [stats_lines_add_up],
      [tunnel_runs_when].
    - Privileges: [secrets_must_be_private], [control_orders_need_privilege].

    ** What is not modelled

    The lines written to [std::cerr] other than those of [stats_loop], [g_state] as it changes,
    signals, socket options and kernel statistics ([update_tcp_info],
    [update_socket_family]). Memory is never short, locks are granted, and
    [std::random_device] works, except in [run], where its failure is modelled. Threads are modelled where they share queues (the admission server);
    elsewhere the flags another thread sets are answers of the world. X25519,
    HMAC, ChaCha20-Poly1305, SHA-1 and base64 are OpenSSL's. The Go adapter, the
    shell scripts, the web site and the other tunnels of the repository are
    separate programs. *)

From Stdlib Require Export ZArith Lia.
From stdpp Require Export base tactics list numbers strings gmap sorting.

Open Scope Z_scope.

(** ** Bytes and C++ integers *)

(** A byte string ([std::vector<unsigned char>], [std::span], [std::string]) is
    a list of integers, each of which is meant to be in [0, 256). *)
Abbreviation bytes := (list Z).

Declare Scope pt_scope.
Delimit Scope pt_scope with pt.

Definition byte_ok (b : Z) : Prop := 0 <= b < 256.
Abbreviation bytes_ok := (Forall byte_ok).

(** The bytes of a string literal of the source. *)
Definition str (s : string) : bytes :=
  map (λ a, Z.of_N (Ascii.N_of_ascii a)) (String.list_ascii_of_string s).

(** The byte at an index that is known to be in range. *)
Definition at_ (b : bytes) (i : nat) : Z := default 0 (b !! i).

(** [size()] of a container. *)
Definition zlen {A} (l : list A) : Z := Z.of_nat (length l).

(** Conversions to the unsigned widths of the source. *)
Definition u8 (z : Z) : Z := z mod 2 ^ 8.
Definition u16 (z : Z) : Z := z mod 2 ^ 16.
Definition u32 (z : Z) : Z := z mod 2 ^ 32.
Definition u64 (z : Z) : Z := z mod 2 ^ 64.

Arguments str : simpl never.
Arguments u8 : simpl never.
Arguments u16 : simpl never.
Arguments u32 : simpl never.
Arguments u64 : simpl never.

Definition u64_ok (z : Z) : Prop := 0 <= z < 2 ^ 64.

(** ** Errors

    A C++ function that may throw a [std::runtime_error] returns [res]; the
    message of the exception is kept, because the runtime inspects it. *)
Inductive res (A : Type) : Type :=
| Ok (a : A)
| Err (e : bytes).
Arguments Ok {A} a.
Arguments Err {A} e.

#[export] Instance res_ret : MRet res := @Ok.
#[export] Instance res_bind : MBind res := λ A B f m,
  match m with Ok a => f a | Err e => Err e end.
#[export] Instance res_fmap : FMap res := λ A B f m,
  match m with Ok a => Ok (f a) | Err e => Err e end.

Definition is_ok {A} (r : res A) : bool := match r with Ok _ => true | Err _ => false end.

(** [if (b) throw std::runtime_error(msg);] *)
Definition throw_if (b : bool) (msg : bytes) : res unit :=
  if b then Err msg else Ok tt.

(** [assert]-like reading of an [option] returned by a library call. *)
Definition or_throw {A} (o : option A) (msg : bytes) : res A :=
  match o with Some a => Ok a | None => Err msg end.

(** A library call that first allocates a context ([EVP_CIPHER_CTX_new],
    [EVP_PKEY_CTX_new_id]) and then runs. *)
Inductive CtxCall (A : Type) : Type :=
| NoContext
| CallFailed
| Returned (a : A).
Arguments NoContext {A}.
Arguments CallFailed {A}.
Arguments Returned {A} a.

Definition ctx_or_throw {A} (c : CtxCall A) (no_context failed : bytes) : res A :=
  match c with
  | NoContext => Err no_context
  | CallFailed => Err failed
  | Returned a => Ok a
  end.

Lemma ctx_or_throw_ok {A} (c : CtxCall A) m1 m2 a : ctx_or_throw c m1 m2 = Ok a → c = Returned a.
Proof. destruct c; simpl; by intros [=]; subst. Qed.

Lemma bind_ok {A B} (m : res A) (f : A → res B) b :
  (m ≫= f) = Ok b → ∃ a, m = Ok a ∧ f a = Ok b.
Proof. destruct m; simpl; [eauto|done]. Qed.

Lemma throw_if_ok b msg u : throw_if b msg = Ok u → b = false.
Proof. by destruct b. Qed.

(** ** Big-endian integers

    [be_bytes n v] are the [n] low bytes of [v], most significant first: the
    source writes them with [(v >> (8 * i)) & 0xff] for decreasing [i]. *)
Fixpoint be_bytes (n : nat) (v : Z) : bytes :=
  match n with
  | O => []
  | S n' => Z.land (Z.shiftr v (8 * Z.of_nat n')) 255 :: be_bytes n' v
  end.

(** [for (auto x : b) v = (v << 8) | x;] on a [uint64_t]. *)
Definition be_step (v x : Z) : Z := Z.lor (u64 (Z.shiftl v 8)) x.
Definition be_decode (b : bytes) : Z := fold_left be_step b 0.

(** ** Tactics *)

(** Linear arithmetic with division and remainder by constants. *)
Ltac dlia := unfold u8, u16, u32, u64, u64_ok, byte_ok, zlen in *;
  Z.div_mod_to_equations; lia.

(** Split every boolean conjunction and disjunction of the context and turn the
    integer comparisons into propositions. *)
Ltac bool_to_prop :=
  repeat match goal with
  | H : _ && _ = true |- _ => apply andb_true_iff in H as [? ?]
  | H : _ && _ = false |- _ => apply andb_false_iff in H
  | H : _ || _ = false |- _ => apply orb_false_iff in H as [? ?]
  | H : _ || _ = true |- _ => apply orb_true_iff in H
  | H : negb _ = true |- _ => apply negb_true_iff in H
  | H : negb _ = false |- _ => apply negb_false_iff in H
  | H : (_ =? _) = true |- _ => apply Z.eqb_eq in H
  | H : (_ =? _) = false |- _ => apply Z.eqb_neq in H
  | H : (_ <? _) = true |- _ => apply Z.ltb_lt in H
  | H : (_ <? _) = false |- _ => apply Z.ltb_ge in H
  | H : (_ <=? _) = true |- _ => apply Z.leb_le in H
  | H : (_ <=? _) = false |- _ => apply Z.leb_gt in H
  | H : bool_decide _ = true |- _ => apply bool_decide_eq_true in H
  | H : bool_decide _ = false |- _ => apply bool_decide_eq_false in H
  end.

(** Follow the control flow of a [res] computation that is known to return. *)
Ltac res_inv :=
  repeat match goal with
  | H : Ok _ = Ok _ |- _ => injection H as H; subst
  | H : Err _ = Ok _ |- _ => discriminate H
  | H : Ok _ = Err _ |- _ => discriminate H
  | H : mbind _ ?m = Ok _ |- _ => destruct m eqn:?; simpl in H
  | H : ctx_or_throw _ _ _ = Ok _ |- _ => apply ctx_or_throw_ok in H
  | H : throw_if ?b _ = Ok _ |- _ => destruct b eqn:?; simpl in H; [discriminate H|]
  | H : (if ?b then _ else _) = Ok _ |- _ => destruct b eqn:?
  | H : (let (_, _) := ?p in _) = Ok _ |- _ => destruct p
  | H : or_throw ?o _ = Ok _ |- _ => destruct o eqn:?; simpl in H; [|discriminate H]
  end.

Create HintDb pt.
Create Rewrite HintDb pt.

(** ** Lengths and slices *)

Lemma zlen_nil {A} : zlen (@nil A) = 0.
Proof. done. Qed.
Lemma zlen_cons {A} (x : A) l : zlen (x :: l) = zlen l + 1.
Proof. unfold zlen. simpl. lia. Qed.
Lemma zlen_app {A} (l k : list A) : zlen (l ++ k) = zlen l + zlen k.
Proof. unfold zlen. rewrite length_app. lia. Qed.
Lemma zlen_nonneg {A} (l : list A) : 0 <= zlen l.
Proof. unfold zlen. lia. Qed.
Lemma zlen_length {A} (l : list A) : Z.to_nat (zlen l) = length l.
Proof. unfold zlen. lia. Qed.

#[export] Hint Rewrite @zlen_nil @zlen_cons @zlen_app : pt.
#[export] Hint Resolve zlen_nonneg : pt.

Lemma take_app_le {A} (l k : list A) n : (n <= length l)%nat → take n (l ++ k) = take n l.
Proof. intros H. rewrite take_app. replace (n - length l)%nat with 0%nat by lia.
  by rewrite take_0, app_nil_r. Qed.

Lemma drop_app_le' {A} (l k : list A) n :
  (n <= length l)%nat → drop n (l ++ k) = drop n l ++ k.
Proof. intros H. rewrite drop_app. by replace (n - length l)%nat with 0%nat by lia. Qed.

(** ** Byte extraction *)

Lemma land_255 z : Z.land z 255 = z mod 256.
Proof. change 255 with (Z.ones 8). by rewrite Z.land_ones by lia. Qed.

Lemma length_be_bytes n v : length (be_bytes n v) = n.
Proof. induction n; simpl; congruence. Qed.

Lemma be_bytes_ok n v : bytes_ok (be_bytes n v).
Proof.
  induction n; simpl; constructor; [|done].
  rewrite land_255. unfold byte_ok. apply Z.mod_pos_bound; lia.
Qed.

Lemma testbit_above b k n : 0 <= b < 2 ^ k → 0 <= k <= n → Z.testbit b n = false.
Proof.
  intros Hb Hk. rewrite <- (Z.mod_small b (2 ^ k)) by lia.
  by apply Z.mod_pow2_bits_high.
Qed.

Lemma lor_disjoint_add a b k : 0 <= k → 0 <= b < 2 ^ k → Z.lor (a * 2 ^ k) b = a * 2 ^ k + b.
Proof.
  intros Hk Hb. symmetry. rewrite Z.add_nocarry_lxor; apply Z.bits_inj'; intros n Hn.
  - rewrite Z.lxor_spec, Z.lor_spec. destruct (Z.ltb_spec n k).
    + rewrite Z.mul_pow2_bits_low by lia. by destruct (Z.testbit b n).
    + rewrite (testbit_above b k n) by lia. by destruct (Z.testbit _ n).
  - rewrite Z.land_spec, Z.bits_0. destruct (Z.ltb_spec n k).
    + by rewrite Z.mul_pow2_bits_low by lia.
    + by rewrite (testbit_above b k n), andb_false_r by lia.
Qed.

Lemma be_step_add v x : 0 <= v < 2 ^ 56 → byte_ok x → be_step v x = v * 256 + x.
Proof.
  intros Hv Hx. unfold be_step, byte_ok in *.
  rewrite Z.shiftl_mul_pow2 by lia. unfold u64. rewrite Z.mod_small by lia.
  by rewrite lor_disjoint_add by lia.
Qed.

Lemma be_fold_bytes n v acc :
  (n <= 8)%nat → 0 <= acc < 2 ^ (64 - 8 * Z.of_nat n) →
  fold_left be_step (be_bytes n v) acc = acc * 2 ^ (8 * Z.of_nat n) + v mod 2 ^ (8 * Z.of_nat n).
Proof.
  revert acc. induction n as [|n IH]; intros acc Hn Hacc.
  { simpl. rewrite Z.mod_1_r. lia. }
  cbn [be_bytes fold_left]. rewrite land_255, Z.shiftr_div_pow2 by lia.
  set (k := 8 * Z.of_nat n) in *. replace (8 * Z.of_nat (S n)) with (k + 8) in * by lia.
  assert (0 <= k <= 56) by lia.
  assert (Hb : byte_ok ((v / 2 ^ k) mod 256)) by (apply Z.mod_pos_bound; lia).
  rewrite be_step_add; [|split; [lia|]|done].
  2:{ apply Z.lt_le_trans with (2 ^ (64 - (k + 8))); [lia|]. apply Z.pow_le_mono_r; lia. }
  assert (0 < 2 ^ k) by lia.
  rewrite IH; [|lia|].
  2:{ unfold byte_ok in Hb. replace (64 - k) with ((64 - (k + 8)) + 8) by lia.
      rewrite Z.pow_add_r by lia. lia. }
  rewrite Z.pow_add_r by lia. change (2 ^ 8) with 256.
  rewrite (Z.rem_mul_r v (2 ^ k) 256) by lia. lia.
Qed.

Lemma be_decode_be_bytes n v :
  (n <= 8)%nat → 0 <= v < 2 ^ (8 * Z.of_nat n) → be_decode (be_bytes n v) = v.
Proof.
  intros Hn Hv. unfold be_decode. rewrite be_fold_bytes; [|done|].
  - rewrite Z.mod_small by done. lia.
  - split; [lia|]. apply Z.pow_pos_nonneg; lia.
Qed.

(** ** Reading a buffer that grows at its end *)

Lemma at_app b x i : (i < length b)%nat → at_ (b ++ x) i = at_ b i.
Proof. intros H. unfold at_. by rewrite lookup_app_l. Qed.

Lemma slice_app {A} (b x : list A) i n :
  (i + n <= length b)%nat → take n (drop i (b ++ x)) = take n (drop i b).
Proof.
  intros H. rewrite drop_app_le' by lia. apply take_app_le. rewrite length_drop. lia.
Qed.

(** ** Integers read from bytes *)

Lemma bytes_ok_check b : forallb (λ z, (0 <=? z) && (z <? 256)) b = true → bytes_ok b.
Proof.
  intros H. apply Forall_forall. intros z Hz. rewrite forallb_forall in H.
  specialize (H z ltac:(by apply list_elem_of_In)). unfold byte_ok. lia.
Qed.

Lemma be_decode_range b : (length b <= 8)%nat → bytes_ok b → u64_ok (be_decode b).
Proof.
  intros Hl Hb. unfold be_decode.
  cut (∀ acc k, (length b + k <= 8)%nat → 0 <= acc < 2 ^ (8 * Z.of_nat k) →
       0 <= fold_left be_step b acc < 2 ^ (8 * Z.of_nat (length b + k))).
  { intros H. specialize (H 0 0%nat ltac:(lia) ltac:(simpl; lia)). unfold u64_ok. split; [lia|].
    eapply Z.lt_le_trans; [apply H|]. apply Z.pow_le_mono_r; lia. }
  clear Hl. induction Hb as [|x b Hx Hb IH]; intros acc k Hk Hacc; simpl; [lia|].
  assert (H56 : 2 ^ (8 * Z.of_nat k) <= 2 ^ 56) by (apply Z.pow_le_mono_r; simpl in Hk; lia).
  rewrite be_step_add; [|lia|done].
  replace (S (length b + k)) with (length b + S k)%nat by lia. apply IH; [simpl in Hk; lia|].
  replace (8 * Z.of_nat (S k)) with (8 * Z.of_nat k + 8) by lia.
  rewrite Z.pow_add_r by lia. unfold byte_ok in Hx. lia.
Qed.

Lemma shiftr8 n : Z.shiftr n 8 = n / 256.
Proof. by rewrite Z.shiftr_div_pow2. Qed.

(** Two bytes of a 16-bit length, put together again. *)
Lemma join16 n : 0 <= n < 65536 → Z.lor (Z.shiftl (u8 (Z.shiftr n 8)) 8) (u8 n) = n.
Proof.
  intros Hn. rewrite Z.shiftl_mul_pow2, shiftr8 by lia. unfold u8.
  rewrite lor_disjoint_add by (try apply Z.mod_pos_bound; lia). dlia.
Qed.

(** ** Filters *)

Lemma list_filter_all {A} (P : A → Prop) `{!∀ x, Decision (P x)} l : Forall P l → filter P l = l.
Proof. induction 1; [done|]. rewrite filter_cons, decide_True by done. by f_equal. Qed.

Lemma list_filter_none {A} (P : A → Prop) `{!∀ x, Decision (P x)} l :
  Forall (λ x, ¬ P x) l → filter P l = [].
Proof. induction 1; [done|]. by rewrite filter_cons, decide_False. Qed.

(** ** Sublists *)

Lemma Forall_sublist {A} (P : A → Prop) l k : l `sublist_of` k → Forall P k → Forall P l.
Proof.
  induction 1 as [|x l k _ IH|x l k _ IH]; intros Hk; [constructor| |];
    apply Forall_cons in Hk as [? ?]; [constructor; auto|auto].
Qed.

Lemma prefix_sublist {A} (l k : list A) : l `prefix_of` k → l `sublist_of` k.
Proof. intros [r ->]. by apply sublist_inserts_r. Qed.

Lemma sublist_map {A B} (f : A → B) l k : l `sublist_of` k → map f l `sublist_of` map f k.
Proof. induction 1; simpl; by constructor. Qed.

Lemma filter_sublists {A} (P : A → Prop) `{!∀ x, Decision (P x)} l k :
  l `sublist_of` k → filter P l `sublist_of` filter P k.
Proof.
  induction 1 as [|x l k _ IH|x l k _ IH]; rewrite ?filter_cons; [constructor| |];
    destruct (decide (P x)); by try constructor.
Qed.

Lemma sorted_sublist {A} (R : A → A → Prop) (l k : list A) :
  l `sublist_of` k → StronglySorted R k → StronglySorted R l.
Proof.
  induction 1 as [|x l k Hl IH|x l k Hl IH]; intros Hk; [constructor| |];
    apply StronglySorted_inv in Hk as [Hk Hx]; [|by apply IH].
  constructor; [by apply IH|]. by eapply Forall_sublist.
Qed.

(** ** Stateful operations

    An operation on a mutable object of type [S] that may throw: the state
    survives an exception as the code leaves it. *)
Definition M (S A : Type) : Type := S → res A * S.

#[export] Instance M_ret {S} : MRet (M S) := λ A a s, (Ok a, s).
#[export] Instance M_bind {S} : MBind (M S) := λ A B f m s,
  match m s with (Ok a, s') => f a s' | (Err e, s') => (Err e, s') end.

Section Monad.
Context {S : Type}.

Definition gets {A} (f : S → A) : M S A := λ s, (Ok (f s), s).
Definition modify (f : S → S) : M S unit := λ s, (Ok tt, f s).
Definition throw {A} (e : bytes) : M S A := λ s, (Err e, s).
Definition check (b : bool) (e : bytes) : M S unit := if b then throw e else mret tt.
(** [try { m } catch (...) {}] *)
Definition attempt (m : M S unit) : M S unit := λ s, (Ok tt, (m s).2).

(** [m] keeps the invariant [P], whether it returns or throws. *)
Definition keeps (P : S → Prop) {A} (m : M S A) : Prop := ∀ s, P s → P (m s).2.

Lemma keeps_ret P {A} (a : A) : keeps P (mret a : M S A).
Proof. by intros s. Qed.
Lemma keeps_throw P {A} e : keeps P (throw e : M S A).
Proof. by intros s. Qed.
Lemma keeps_gets P {A} (f : S → A) : keeps P (gets f).
Proof. by intros s. Qed.
Lemma keeps_modify P f : (∀ s, P s → P (f s)) → keeps P (modify f).
Proof. intros H s. apply H. Qed.
Lemma keeps_check P b e : keeps P (check b e).
Proof. by destruct b; intros s. Qed.
Lemma keeps_attempt P m : keeps P m → keeps P (attempt m).
Proof. intros H s. apply H. Qed.
Lemma keeps_bind P {A B} (m : M S A) (f : A → M S B) :
  keeps P m → (∀ a, keeps P (f a)) → keeps P (m ≫= f).
Proof.
  intros Hm Hf s Hs. specialize (Hm s Hs). unfold mbind, M_bind.
  destruct (m s) as [[a|e] s']; [by apply Hf|done].
Qed.
Lemma keeps_if P {A} (b : bool) (m n : M S A) :
  keeps P m → keeps P n → keeps P (if b then m else n).
Proof. by destruct b. Qed.

(** The rest of an operation that has read the state. *)
Lemma keeps_read P {A} (m : S → M S A) : (∀ s, P s → P (m s s).2) → keeps P (gets id ≫= m).
Proof. intros H s. apply H. Qed.
Lemma keeps_at (P : S → Prop) {A} (m : M S A) s : keeps P m → P s → P (m s).2.
Proof. intros H. apply H. Qed.
(** The rest of an operation that has set the state. *)
Lemma keeps_set (P : S → Prop) {A} s' (m : M S A) s : P s' → keeps P m → P ((modify (λ _, s') ;; m) s).2.
Proof. intros Hs Hm. by apply Hm. Qed.

(** Two operations that begin alike. *)
Lemma bind_same {A B} (m : M S A) (f g : A → M S B) s :
  (∀ a s', m s = (Ok a, s') → f a s' = g a s') → (m ≫= f) s = (m ≫= g) s.
Proof. unfold mbind, M_bind. intros H. destruct (m s) as [[a|e] s'] eqn:Hm; [by apply H|done]. Qed.

Lemma M_bind_ok {A B} (m : M S A) (f : A → M S B) s b s'' :
  (m ≫= f) s = (Ok b, s'') ↔ ∃ a s', m s = (Ok a, s') ∧ f a s' = (Ok b, s'').
Proof.
  unfold mbind, M_bind. destruct (m s) as [[a|e] s'].
  - split; [eauto|]. by intros (?&?&[= <- <-]&?).
  - split; [done|]. by intros (?&?&?&?).
Qed.
Lemma check_ok b e s s' u : check b e s = (Ok u, s') ↔ b = false ∧ s' = s.
Proof.
  destruct b, u; unfold check, throw, mret, M_ret; split; try done.
  - by intros [[=] _].
  - by intros [= ->].
  - by intros [_ ->].
Qed.
End Monad.

#[export] Hint Resolve keeps_ret keeps_throw keeps_gets keeps_check keeps_attempt keeps_bind keeps_if : pt.

(** Walk through an operation and leave the steps no hint shows to keep the invariant. *)
Ltac keep :=
  repeat first
    [ solve [auto with pt]
    | match goal with |- keeps _ (attempt _) => apply keeps_attempt end
    | apply keeps_bind; [|intros ?]
    | apply keeps_if ].
