(* ===== verification/Text.v ===== *)
(** * Strings of the C++ standard library

    What the sources use of [std::string] and [<cctype>] in the "C" locale:
    searching, trimming, lower case, and the conversions between integers and
    decimal text. Nothing here is code of the repository. *)

From stdpp Require Import pretty.
From S2P Require Import Prelude.

(** ** Characters *)

Definition isspace (c : Z) : bool := (9 <=? c) && (c <=? 13) || (c =? 32).
Definition isdigit (c : Z) : bool := (48 <=? c) && (c <=? 57).
Definition isupper (c : Z) : bool := (65 <=? c) && (c <=? 90).
Definition isalpha (c : Z) : bool := isupper c || (97 <=? c) && (c <=? 122).
Definition isalnum (c : Z) : bool := isalpha c || isdigit c.
Definition tolower (c : Z) : Z := if isupper c then c + 32 else c.

Lemma tolower_idem c : tolower (tolower c) = tolower c.
Proof.
  unfold tolower, isupper. destruct ((65 <=? c) && (c <=? 90)) eqn:E; [|by rewrite E].
  bool_to_prop. by rewrite (proj2 (Z.leb_gt (c + 32) 90)), andb_false_r by lia.
Qed.

(** ** Searching *)

Section Search.
Context (eq : Z → Z → bool).

(** [pattern] occurs at the beginning of [text], up to [eq]. *)
Fixpoint prefix_by (pattern text : bytes) : bool :=
  match pattern, text with
  | [], _ => true
  | p :: pattern, t :: text => eq t p && prefix_by pattern text
  | _ :: _, [] => false
  end.

(** [std::search(text.begin(), text.end(), pattern.begin(), pattern.end(), eq)]
    as an offset; [None] is [text.end()] when nothing was found. *)
Fixpoint search (pattern text : bytes) : option nat :=
  if prefix_by pattern text then Some 0%nat
  else match text with [] => None | _ :: text => S <$> search pattern text end.
End Search.

(** [text.find(pattern)] and [text.find(pattern, from)]. *)
Definition find (pattern text : bytes) : option nat := search Z.eqb pattern text.
Definition find_from (pattern text : bytes) (from : nat) : option nat :=
  Nat.add from <$> find pattern (drop from text).
Definition contains (pattern text : bytes) : bool := bool_decide (is_Some (find pattern text)).

(** [text.find(c)] and [text.rfind(c)] for a character. *)
Definition find_char (c : Z) (text : bytes) : option nat := find [c] text.
Fixpoint rfind_char (c : Z) (text : bytes) : option nat :=
  match text with
  | [] => None
  | x :: text =>
      match rfind_char c text with
      | Some i => Some (S i)
      | None => if x =? c then Some 0%nat else None
      end
  end.

(** [text.rfind(pattern, 0) == 0] *)
Definition starts_with (pattern text : bytes) : bool := prefix_by Z.eqb pattern text.

(** Comparison with a string literal. *)
Definition text_is (text : bytes) (literal : string) : bool := bool_decide (text = str literal).

(** [text.substr(from, n)] for a position in range. *)
Definition substr (from n : nat) (text : bytes) : bytes := take n (drop from text).

Lemma prefix_by_eq (p s : bytes) : prefix_by Z.eqb p s = true ↔ ∃ k, s = p ++ k.
Proof.
  revert s. induction p as [|x p IH]; intros [|y s]; simpl; split; try done; eauto.
  - by intros [k [=]].
  - rewrite andb_true_iff, Z.eqb_eq. intros [-> [k ->]%IH]. by exists k.
  - intros [k [= -> ->]]. rewrite Z.eqb_refl. simpl. apply IH. eauto.
Qed.

Lemma search_prefix eq (p s : bytes) i : search eq p s = Some i → prefix_by eq p (drop i s) = true.
Proof.
  revert i. induction s as [|x s IH]; intros i; simpl.
  - destruct (prefix_by eq p []) eqn:E; [|done]. by intros [= <-].
  - destruct (prefix_by eq p (x :: s)) eqn:E; [by intros [= <-]|].
    destruct (search eq p s) as [j|]; [|done]. intros [= <-]. by apply IH.
Qed.

Lemma search_first eq (p s : bytes) i j :
  search eq p s = Some i → (j < i)%nat → prefix_by eq p (drop j s) = false.
Proof.
  revert i j. induction s as [|x s IH]; intros i j; simpl.
  - destruct (prefix_by eq p []); [intros [= <-]; lia|done].
  - destruct (prefix_by eq p (x :: s)) eqn:E; [intros [= <-]; lia|].
    destruct (search eq p s) as [k|]; [|done]. intros [= <-] Hj.
    destruct j as [|j]; [done|]. apply (IH k j); [done|lia].
Qed.

Lemma search_none eq (p s : bytes) j : search eq p s = None → prefix_by eq p (drop j s) = false ∨ (length s < j)%nat.
Proof.
  revert j. induction s as [|x s IH]; intros j; simpl.
  - destruct (prefix_by eq p []) eqn:E; [done|]. intros _. destruct j; simpl; [by left|right; lia].
  - destruct (prefix_by eq p (x :: s)) eqn:E; [done|]. destruct (search eq p s); [done|]. intros _.
    destruct j as [|j]; [by left|]. destruct (IH j eq_refl); [by left|right; lia].
Qed.

Lemma search_le eq (p s : bytes) i : search eq p s = Some i → (i + length p <= length s)%nat.
Proof.
  revert i. induction s as [|x s IH]; intros i; simpl.
  - destruct p; simpl; [|done]. intros [= <-]. done.
  - destruct (prefix_by eq p (x :: s)) eqn:E.
    + intros [= <-]. clear IH. revert x s E. induction p as [|y p IHp]; intros x s; simpl; [lia|].
      rewrite andb_true_iff. intros [_ E]. destruct s as [|z s]; [destruct p; [simpl; lia|done]|].
      apply IHp in E. simpl in *. lia.
    + destruct (search eq p s) as [k|]; [|done]. intros [= <-]. specialize (IH k eq_refl). lia.
Qed.

(** The first occurrence of a pattern cuts the text. *)
Lemma find_cut p s i : find p s = Some i → s = take i s ++ p ++ drop (i + length p) s.
Proof.
  intros H%search_prefix. apply prefix_by_eq in H as [k Hk].
  rewrite <- (take_drop i s) at 1. f_equal. rewrite Hk. f_equal.
  by rewrite <- drop_drop, Hk, drop_app_length.
Qed.

Lemma find_char_at c s i : find_char c s = Some i → s !! i = Some c.
Proof.
  intros H. pose proof (find_cut _ _ _ H) as E. pose proof (search_le _ _ _ _ H) as Hl. simpl in *.
  rewrite E, lookup_app_r by (rewrite length_take; lia). rewrite length_take.
  by replace (i - i `min` length s)%nat with 0%nat by lia.
Qed.

Lemma find_char_before c s i : find_char c s = Some i → c ∉ take i s.
Proof.
  intros H [j Hj]%list_elem_of_lookup. pose proof (search_le _ _ _ _ H) as Hl. simpl in Hl.
  assert (j < i)%nat as Hlt by (apply lookup_lt_Some in Hj; rewrite length_take in Hj; lia).
  rewrite lookup_take_lt in Hj by done. pose proof (search_first _ _ _ _ _ H Hlt) as Hn.
  rewrite (drop_S _ _ _ Hj) in Hn. simpl in Hn. by rewrite Z.eqb_refl in Hn.
Qed.

Lemma find_char_none c s : find_char c s = None ↔ c ∉ s.
Proof.
  induction s as [|x s IH]; [by split; [intros _ ?%elem_of_nil|]|].
  unfold find_char, find in *. simpl. rewrite andb_true_r. rewrite not_elem_of_cons.
  destruct (Z.eqb_spec x c) as [->|Hx]; [split; [done|by intros [? _]]|].
  destruct (search Z.eqb [c] s); simpl; split; try done.
  - intros [_ H]. by apply IH in H.
  - intros _. split; [congruence|by apply IH].
Qed.

Lemma find_char_app c a b : c ∉ a → find_char c (a ++ c :: b) = Some (length a).
Proof.
  induction a as [|x a IH]; intros Ha; unfold find_char, find in *; simpl.
  - by rewrite Z.eqb_refl.
  - apply not_elem_of_cons in Ha as [Hx Ha]. rewrite (proj2 (Z.eqb_neq x c)) by congruence. simpl.
    by rewrite IH.
Qed.

Lemma rfind_char_at c s i : rfind_char c s = Some i → s !! i = Some c.
Proof.
  revert i. induction s as [|x s IH]; intros i; simpl; [done|].
  destruct (rfind_char c s) as [j|]; [intros [= <-]; by apply IH|].
  destruct (Z.eqb_spec x c) as [->|]; [by intros [= <-]|done].
Qed.

(** ** Trimming *)

Fixpoint drop_while (f : Z → bool) (s : bytes) : bytes :=
  match s with [] => [] | c :: s' => if f c then drop_while f s' else s end.

(** Both ends lose their white space: [s.erase(begin, find_if(...))] and the
    same from the other side. *)
Definition trim (s : bytes) : bytes := rev (drop_while isspace (rev (drop_while isspace s))).

Lemma drop_while_suffix f s : ∃ k, s = k ++ drop_while f s ∧ Forall (λ c, f c = true) k.
Proof.
  induction s as [|c s (k & Hk & Hf)]; simpl; [by exists []|].
  destruct (f c) eqn:E; [|by exists []]. exists (c :: k). split; [by rewrite Hk at 1|by constructor].
Qed.

(** ** Integers and text *)

(** [std::to_string], and an integer written to a stream. *)
Definition to_string (z : Z) : bytes := str (pretty z).

Definition digit_in (base : Z) (c : Z) : bool := isdigit c && (c - 48 <? base).

(** The value of the longest run of digits at the front; [None] without a digit. *)
Fixpoint digits (base : Z) (acc : option Z) (s : bytes) : option Z :=
  match s with
  | c :: s' =>
      if digit_in base c then digits base (Some (default 0 acc * base + (c - 48))) s' else acc
  | [] => acc
  end.

(** [strtol] and its relatives: white space, a sign, digits; what follows is
    ignored. The result is the sign and the magnitude. *)
Definition strto (base : Z) (s : bytes) : option (bool * Z) :=
  match drop_while isspace s with
  | c :: s' =>
      if c =? 45 then pair true <$> digits base None s'
      else if c =? 43 then pair false <$> digits base None s'
      else pair false <$> digits base None (c :: s')
  | [] => None
  end.

(** [std::stoi(s, nullptr, base)]; the texts are those of libstdc++. *)
Definition stoi_base (base : Z) (s : bytes) : res Z :=
  match strto base s with
  | None => Err (str "stoi")
  | Some (neg, m) =>
      let v := if neg : bool then - m else m in
      if (v <? - 2 ^ 31) || (2 ^ 31 - 1 <? v) then Err (str "stoi") else Ok v
  end.
Definition stoi : bytes → res Z := stoi_base 10.

(** [std::stoul] and [std::stoull] on 64 bits: a minus sign negates modulo 2^64. *)
Definition sto_unsigned (name : bytes) (s : bytes) : res Z :=
  match strto 10 s with
  | None => Err name
  | Some (neg, m) =>
      if 2 ^ 64 - 1 <? m then Err name else Ok (if neg : bool then u64 (- m) else m)
  end.
Definition stoul : bytes → res Z := sto_unsigned (str "stoul").
Definition stoull : bytes → res Z := sto_unsigned (str "stoull").

Lemma digits_nonneg base s : 0 < base → ∀ acc m, default 0 acc >= 0 → digits base acc s = Some m → 0 <= m.
Proof.
  intros Hb. induction s as [|c s IH]; intros acc m Ha; simpl.
  - intros ->. simpl in Ha. lia.
  - destruct (digit_in base c) eqn:E; [|intros ->; simpl in Ha; lia].
    apply IH. unfold digit_in, isdigit in E. bool_to_prop. simpl. nia.
Qed.

Lemma stoi_range base s v : stoi_base base s = Ok v → - 2 ^ 31 <= v < 2 ^ 31.
Proof.
  unfold stoi_base. destruct (strto base s) as [[neg m]|]; [|done].
  case_match eqn:E; [done|]. intros [= <-]. bool_to_prop. lia.
Qed.

Lemma strto_nonneg s neg m : strto 10 s = Some (neg, m) → 0 <= m.
Proof.
  unfold strto. destruct (drop_while isspace s) as [|c s']; [done|].
  assert (H : ∀ l x, digits 10 None l = Some x → 0 <= x) by (intros l x; apply digits_nonneg; simpl; lia).
  repeat case_match; intros E; apply fmap_Some in E as (x & Hx & [= -> ->]); eauto.
Qed.

Lemma stoull_range name s v : sto_unsigned name s = Ok v → u64_ok v.
Proof.
  unfold sto_unsigned. destruct (strto 10 s) as [[neg m]|] eqn:E; [|done].
  apply strto_nonneg in E. case_match eqn:Hm; [done|]. intros [= <-]. bool_to_prop.
  unfold u64_ok, u64. destruct neg; [apply Z.mod_pos_bound|]; lia.
Qed.

(** A text of digits only is read as its number. *)
Lemma strto_digits s : s ≠ [] → Forall (λ c, isdigit c = true) s → strto 10 s = pair false <$> digits 10 None s.
Proof.
  intros Hs Hd. destruct s as [|c s]; [done|]. unfold strto.
  assert (Hc : isdigit c = true) by by inversion Hd.
  assert (isspace c = false) as Hsp by (unfold isdigit, isspace in *; bool_to_prop; lia).
  simpl drop_while. rewrite Hsp. unfold isdigit in Hc. bool_to_prop.
  by rewrite !(proj2 (Z.eqb_neq _ _)) by lia.
Qed.
