(* ===== verification/Numerals.v ===== *)
(** * Integers as texts

    What [std::to_string] writes is read back by [std::stoi] and [std::stoull]. *)

From stdpp Require Import pretty.
From S2P Require Import Prelude.
From S2P Require Import Text.

Lemma str_app a b : str (a +:+ b) = str a ++ str b.
Proof. induction a as [|x a IH]; [done|]. unfold str in *. simpl. by rewrite IH. Qed.

Lemma digit_char (x : N) : (x < 10)%N → Z.of_N (Ascii.N_of_ascii (pretty_N_char x)) = 48 + Z.of_N x.
Proof.
  intros Hx. destruct x as [|p]; [done|].
  do 4 (destruct p as [p|p|]; try done; try lia).
Qed.

Lemma pretty_go_text (x : N) (s : string) :
  (0 < x)%N → ∃ t, str (pretty_N_go x s) = t ++ str s ∧ Forall (λ c, isdigit c = true) t ∧ t ≠ []
    ∧ ∀ acc rest, ∃ p, digits 10 acc (t ++ rest) = digits 10 (Some (default 0 acc * p + Z.of_N x)) rest.
Proof.
  revert s. induction (N.lt_wf_0 x) as [x _ IH]. intros s Hx. rewrite pretty_N_go_step by done.
  set (c := pretty_N_char (x `mod` 10)).
  assert (Hc : Z.of_N (Ascii.N_of_ascii c) = 48 + Z.of_N (x `mod` 10)) by (apply digit_char, N.mod_lt; done).
  assert (Hm : 0 <= Z.of_N (x `mod` 10) < 10) by (pose proof (N.mod_lt x 10 ltac:(done)); split; [apply N2Z.is_nonneg|by apply (N2Z.inj_lt _ 10)]).
  assert (Hd : digit_in 10 (Z.of_N (Ascii.N_of_ascii c)) = true).
  { unfold digit_in, isdigit. rewrite Hc. apply andb_true_iff. rewrite andb_true_iff, !Z.leb_le, Z.ltb_lt. lia. }
  assert (Hd' : Forall (λ c, isdigit c = true) [Z.of_N (Ascii.N_of_ascii c)])
    by (apply Forall_singleton; by apply andb_true_iff in Hd as [? _]).
  destruct (decide (x / 10 = 0)%N) as [Hz|Hz].
  - rewrite Hz, pretty_N_go_0. exists [Z.of_N (Ascii.N_of_ascii c)].
    assert (Hxm : x = (x `mod` 10)%N) by (pose proof (N.div_mod x 10 ltac:(done)) as E; by rewrite Hz, N.mul_0_r, N.add_0_l in E).
    split; [done|]. split; [done|]. split; [done|].
    intros acc rest. exists 10. cbn [app digits]. rewrite Hd, Hc, <- Hxm. do 2 f_equal. lia.
  - destruct (IH (x / 10)%N (N.div_lt x 10 Hx ltac:(done)) (String c s)) as (t & Ht & Hf & _ & Hv); [by apply N.neq_0_lt_0|].
    exists (t ++ [Z.of_N (Ascii.N_of_ascii c)]). split; [rewrite Ht, <- app_assoc; done|].
    split; [by apply Forall_app_2|].
    split; [by destruct t|]. intros acc rest. rewrite <- app_assoc.
    destruct (Hv acc (Z.of_N (Ascii.N_of_ascii c) :: rest)) as [p Hp]. exists (p * 10). cbn [app]. rewrite Hp. cbn [digits].
    rewrite Hd, Hc. do 2 f_equal. simpl.
    pose proof (N.div_mod x 10 ltac:(done)) as E. apply (f_equal Z.of_N) in E. rewrite N2Z.inj_add, N2Z.inj_mul in E. lia.
Qed.

Lemma digits_pretty (n : N) acc rest :
  ∃ p, digits 10 acc (str (pretty n) ++ rest) = digits 10 (Some (default 0 acc * p + Z.of_N n)) rest.
Proof.
  unfold pretty, pretty_N. destruct (decide (n = 0)%N) as [->|Hn].
  - by exists 10.
  - destruct (pretty_go_text n "" ltac:(lia)) as (t & -> & _ & _ & Hv). rewrite app_nil_r. apply Hv.
Qed.

Lemma pretty_digits (n : N) : str (pretty n) ≠ [] ∧ Forall (λ c, isdigit c = true) (str (pretty n)).
Proof.
  unfold pretty, pretty_N. destruct (decide (n = 0)%N) as [->|Hn].
  - split; [done|]. by apply Forall_singleton.
  - destruct (pretty_go_text n "" ltac:(lia)) as (t & -> & Hf & Ht & _). rewrite app_nil_r. by split.
Qed.

(** What a number is read as, whatever its sign. *)
Lemma strto_text (z : Z) : strto 10 (to_string z) = Some (z <? 0, Z.abs z).
Proof.
  assert (Hpos : ∀ n : N, strto 10 (str (pretty n)) = Some (false, Z.of_N n)).
  { intros n. destruct (pretty_digits n) as [Hne Hd]. rewrite strto_digits by done.
    destruct (digits_pretty n None []) as [p Hp]. rewrite app_nil_r in Hp. rewrite Hp. done. }
  unfold to_string. destruct z as [|p|p]; [done|exact (Hpos (N.pos p))|].
  change (pretty (Z.neg p)) with ("-" +:+ pretty (N.pos p)). rewrite str_app. unfold strto.
  change (str "-") with [45]. cbn [app drop_while]. change (isspace 45) with false. cbv iota. change (45 =? 45) with true. cbv iota.
  destruct (digits_pretty (N.pos p) None []) as [q Hq]. rewrite app_nil_r in Hq. rewrite Hq. done.
Qed.

Lemma stoi_to_string z : - 2 ^ 31 <= z < 2 ^ 31 → stoi (to_string z) = Ok z.
Proof.
  intros Hz. unfold stoi, stoi_base. rewrite strto_text.
  assert ((if z <? 0 then - Z.abs z else Z.abs z) = z) as -> by (destruct (Z.ltb_spec z 0); lia).
  rewrite (proj2 (Z.ltb_ge _ _)), (proj2 (Z.ltb_ge _ _)) by lia. done.
Qed.

Lemma stoull_to_string z : u64_ok z → stoull (to_string z) = Ok z.
Proof.
  unfold u64_ok. intros Hz. unfold stoull, sto_unsigned. rewrite strto_text.
  rewrite (proj2 (Z.ltb_ge z 0)), (proj2 (Z.ltb_ge _ _)) by lia. f_equal. lia.
Qed.

(** The characters of an integer. *)
Lemma to_string_numeral z : Forall (λ c, isdigit c = true ∨ c = 45) (to_string z).
Proof.
  assert (Hp : ∀ n : N, Forall (λ c, isdigit c = true ∨ c = 45) (str (pretty n))).
  { intros n. destruct (pretty_digits n) as [_ Hd]. eapply Forall_impl; [exact Hd|]. by left. }
  unfold to_string. destruct z as [|p|p]; [exact (Hp 0%N)|exact (Hp (N.pos p))|].
  change (pretty (Z.neg p)) with ("-" +:+ pretty (N.pos p)). rewrite str_app. apply Forall_app. split; [|apply Hp].
  apply Forall_singleton. by right.
Qed.

Lemma to_string_nonempty z : to_string z ≠ [].
Proof.
  unfold to_string. destruct z as [|p|p]; [done|exact (proj1 (pretty_digits (N.pos p)))|].
  change (pretty (Z.neg p)) with ("-" +:+ pretty (N.pos p)). by rewrite str_app.
Qed.
