(* ===== verification/Crypto.v ===== *)
(** * The cryptographic library as an interface

    [record.cpp] and [websocket.cpp] call OpenSSL: [HMAC(EVP_sha256(), ...)],
    [SHA256], [EVP_chacha20_poly1305] through the [EVP_*] calls, X25519 and
    [RAND_bytes]. None of that code is in the repository, so each call is an
    operation of a type class, and what the program relies on (documented
    sizes, decryption inverting encryption) is a second class of laws. *)

From S2P Require Import Prelude.

Class Crypto := {
  (** the state of the random generator *)
  rng : Type;
  (** [RAND_bytes(buf, n)]; [None] is a return value other than 1 *)
  rand_bytes : nat → rng → option (bytes * rng);
  (** [HMAC(EVP_sha256(), key, |key|, data, |data|, out, &n)]: [out], or [None] *)
  hmac_sha256 : bytes → bytes → option bytes;
  (** [SHA256(data)] *)
  sha256 : bytes → bytes;
  (** ChaCha20-Poly1305 with key, nonce, associated data and plaintext:
      ciphertext and tag, unless an [EVP_*] call fails *)
  chacha_seal : bytes → bytes → bytes → bytes → CtxCall (bytes * bytes);
  (** the inverse, with ciphertext and tag; [None] when the tag is wrong *)
  chacha_open : bytes → bytes → bytes → bytes → bytes → option bytes;
  (** [EVP_PKEY_keygen] for X25519 and the raw export of both keys *)
  x25519_keygen : rng → CtxCall ((bytes * bytes) * rng);
  (** both keys of a derivation are accepted by [EVP_PKEY_new_raw_*_key] *)
  x25519_import : bytes → bytes → bool;
  (** [EVP_PKEY_derive]: the shared secret of a private and a public key *)
  x25519_derive : bytes → bytes → option bytes;
}.

(** Documented behaviour of the library that the round trips rely on. *)
Class CryptoLaws (C : Crypto) : Prop := {
  rand_bytes_length n g b g' : rand_bytes n g = Some (b, g') → length b = n;
  rand_bytes_ok n g b g' : rand_bytes n g = Some (b, g') → bytes_ok b;
  chacha_seal_length k n a p c t :
    chacha_seal k n a p = Returned (c, t) → length c = length p ∧ length t = 16%nat;
  chacha_open_seal k n a p c t :
    chacha_seal k n a p = Returned (c, t) → chacha_open k n a c t = Some p;
}.

(** ** A concrete instance

    A toy library with which the definitions evaluate: the keystream is empty
    and the tag is a checksum of key, nonce, associated data and plaintext. It
    satisfies the laws, so no theorem that assumes them is vacuous. *)
Module Toy.

Definition checksum (seed : Z) (b : bytes) : Z :=
  fold_left (λ h x, (h * 31 + x + 7) mod 65521) b seed.

(** [n] bytes derived from a list of inputs. *)
Definition digest (n : nat) (ins : list bytes) : bytes :=
  let h := fold_left (λ h b, checksum ((h * 17 + 3) mod 65521) b) ins 1 in
  map (λ i, ((h + 1) * (Z.of_nat i * 97 + 13)) / 7 mod 256) (seq 0 n).

Definition seal (k n a p : bytes) : CtxCall (bytes * bytes) :=
  Returned (p, digest 16 [k; n; a; p]).

Definition open (k n a c t : bytes) : option bytes :=
  if decide (t = digest 16 [k; n; a; c]) then Some c else None.

#[export] Instance crypto : Crypto := {|
  rng := Z;
  rand_bytes n g := Some (map (λ i, (g * 73 + Z.of_nat i * 41 + 5) mod 256) (seq 0 n), g + 1);
  hmac_sha256 k d := Some (digest 32 [k; d]);
  sha256 d := digest 32 [d];
  chacha_seal := seal;
  chacha_open := open;
  x25519_keygen g := Returned ((digest 32 [[g]], digest 32 [[g]]), g + 1);
  x25519_import _ _ := true;
  x25519_derive a b := Some (zip_with (λ x y, (x + y) mod 255 + 1) a b);
|}.

Lemma length_digest n l : length (digest n l) = n.
Proof. unfold digest. by rewrite length_map, length_seq. Qed.

#[export] Instance crypto_laws : CryptoLaws crypto.
Proof.
  split; simpl; unfold seal, open.
  - intros n g b g' [= <- _]. by rewrite length_map, length_seq.
  - intros n g b g' [= <- _]. apply Forall_map, Forall_forall. intros i _.
    apply Z.mod_pos_bound. lia.
  - intros k n a p c t [= <- <-]. by rewrite length_digest.
  - intros k n a p c t [= <- <-]. by rewrite decide_True.
Qed.

End Toy.
