(* ===== verification/Keys.v ===== *)
(** * Key material (cdn/src/record.cpp)

    Hexadecimal, HMAC, the three key schedules, the handshake tokens, the X25519
    wrappers and the pre-shared key file. *)

From S2P Require Import Prelude Crypto.

(** ** Hexadecimal *)

(** [hex_nibble] src/cdn/src/record.cpp:23-28 *)
Definition hex_nibble (c : Z) : Z :=
  if (48 <=? c) && (c <=? 57) then c - 48
  else if (97 <=? c) && (c <=? 102) then c - 97 + 10
  else if (65 <=? c) && (c <=? 70) then c - 65 + 10
  else -1.

(** The loop of [hex_decode] over the pairs of characters.
    [hex_decode] src/cdn/src/record.cpp:31-37 *)
Fixpoint hex_decode_pairs (s : bytes) : res bytes :=
  match s with
  | c1 :: c2 :: s' =>
      let hi := hex_nibble c1 in
      let lo := hex_nibble c2 in
      throw_if ((hi <? 0) || (lo <? 0)) (str "invalid hex") ;;
      v ← hex_decode_pairs s' ;
      Ok (u8 (Z.lor (Z.shiftl hi 4) lo) :: v)
  | _ => Ok []
  end.

(** [hex_decode] src/cdn/src/record.cpp:29-39 *)
Definition hex_decode (s : bytes) : res bytes :=
  throw_if (negb (zlen s mod 2 =? 0)) (str "invalid hex") ;;
  hex_decode_pairs s.

(** The digit that [std::hex] prints for a nibble.
    [hex_encode] src/cdn/src/record.cpp:41-42 *)
Definition hex_digit (d : Z) : Z := if d <? 10 then 48 + d else 97 + (d - 10).

(** [hex_encode] src/cdn/src/record.cpp:40-44 *)
Definition hex_encode (v : bytes) : bytes :=
  v ≫= λ b, [hex_digit (b / 16); hex_digit (b mod 16)].

(** [SessionKeys] src/cdn/include/pacetun/record.hpp:18-18 *)
Record SessionKeys := { client_tx : bytes; server_tx : bytes; auth : bytes }.
(** [X25519KeyPair] src/cdn/include/pacetun/record.hpp:19-19 *)
Record X25519KeyPair := { private_key : bytes; public_key : bytes }.

Section Keys.
Context {C : Crypto}.

(** [mac] src/cdn/src/record.cpp:17-22 *)
Definition mac (key data : bytes) : res bytes :=
  throw_if (2 ^ 31 - 1 <? zlen key) (str "HMAC key too large") ;;
  out ← or_throw (hmac_sha256 key data) (str "HMAC-SHA256 failed") ;
  throw_if (negb (zlen out =? 32)) (str "HMAC-SHA256 failed") ;;
  Ok out.

(** [hkdf_expand_one] src/cdn/src/record.cpp:45-47 *)
Definition hkdf_expand_one (prk label : bytes) : res bytes := mac prk (label ++ [1]).

(** [random_nonce_hex] src/cdn/src/record.cpp:147-147 *)
Definition random_nonce_hex (g : rng) : res (bytes * rng) :=
  '(b, g) ← or_throw (rand_bytes 32 g) (str "RAND_bytes failed") ;
  Ok (hex_encode b, g).

(** The loop of [read_psk] that removes line ends and blanks, on the reversed
    file contents. *)
Fixpoint strip_psk_rev (r : bytes) : bytes :=
  match r with
  | c :: r' =>
      if (c =? 10) || (c =? 13) || (c =? 32) || (c =? 9) then strip_psk_rev r' else r
  | [] => []
  end.

(** [read_psk] src/cdn/src/record.cpp:140-146; [contents] is what the file
    holds, or [None] when it cannot be opened. *)
Definition read_psk (path : bytes) (contents : option bytes) : res bytes :=
  f ← or_throw contents (str "cannot open psk_file: " ++ path) ;
  let v := rev (strip_psk_rev (rev f)) in
  throw_if (zlen v <? 32) (str "PSK must contain at least 32 bytes") ;;
  Ok v.

(** The two nonces in binary, each checked to be 32 bytes long. *)
Definition decode_nonces (snonce cnonce : bytes) : res (bytes * bytes) :=
  s ← hex_decode snonce ;
  c ← hex_decode cnonce ;
  throw_if (negb (zlen s =? 32) || negb (zlen c =? 32)) (str "nonce must be 32 bytes") ;;
  Ok (s, c).

(** HKDF expansion of the three keys of a session under the labels of a version. *)
Definition expand_keys (prk l1 l2 l3 : bytes) : res SessionKeys :=
  k1 ← hkdf_expand_one prk l1 ;
  k2 ← hkdf_expand_one prk l2 ;
  k3 ← hkdf_expand_one prk l3 ;
  Ok {| client_tx := k1; server_tx := k2; auth := k3 |}.

(** [derive_session_keys] src/cdn/src/record.cpp:149-153 *)
Definition derive_session_keys (psk snonce cnonce : bytes) : res SessionKeys :=
  '(s, c) ← decode_nonces snonce cnonce ;
  prk ← mac (s ++ c) psk ;
  expand_keys prk (str "pacetun-v3 client-to-server") (str "pacetun-v3 server-to-client")
    (str "pacetun-v3 handshake-auth").

(** [derive_session_keys_v4] src/cdn/src/record.cpp:168-170 *)
Definition derive_session_keys_v4 (psk snonce cnonce : bytes) : res SessionKeys :=
  '(s, c) ← decode_nonces snonce cnonce ;
  prk ← mac (s ++ c) psk ;
  expand_keys prk (str "pacetun-v4 client-to-server") (str "pacetun-v4 server-to-client")
    (str "pacetun-v4 handshake-auth").

(** [derive_session_keys_v5] src/cdn/src/record.cpp:205-213 *)
Definition derive_session_keys_v5 (psk shared snonce cnonce cpub spub : bytes) : res SessionKeys :=
  throw_if (negb (zlen shared =? 32) || negb (zlen cpub =? 32) || negb (zlen spub =? 32))
    (str "PTT5 key material must be 32 bytes") ;;
  '(s, c) ← decode_nonces snonce cnonce ;
  let transcript := str "PaceTun-PTT5" ++ s ++ c ++ cpub ++ spub in
  let salt := sha256 transcript in
  prk ← mac salt (shared ++ psk) ;
  expand_keys prk (str "pacetun-v5 client-to-server") (str "pacetun-v5 server-to-client")
    (str "pacetun-v5 transcript-auth").

Definition nl : bytes := [10].

(** [handshake_token] src/cdn/src/record.cpp:154-156 *)
Definition handshake_token (auth_key authority path snonce cnonce : bytes) : res bytes :=
  m ← mac auth_key (str "pacetun-tls-v3" ++ nl ++ authority ++ nl ++ path ++ nl ++ snonce ++ nl ++ cnonce) ;
  Ok (hex_encode m).

(** [websocket_auth_token] src/cdn/src/record.cpp:171-171 *)
Definition websocket_auth_token (psk authority path cnonce : bytes) : res bytes :=
  m ← mac psk (str "pacetun-websocket-v4" ++ nl ++ authority ++ nl ++ path ++ nl ++ cnonce) ;
  Ok (hex_encode m).

(** [websocket_client_auth_token_v5] src/cdn/src/record.cpp:199-201 *)
Definition websocket_client_auth_token_v5 (psk authority path cnonce cpub : bytes) : res bytes :=
  m ← mac psk (str "pacetun-websocket-v5-client" ++ nl ++ authority ++ nl ++ path ++ nl
               ++ cnonce ++ nl ++ cpub) ;
  Ok (hex_encode m).

(** [websocket_server_proof_v5] src/cdn/src/record.cpp:202-204 *)
Definition websocket_server_proof_v5 (psk authority path cnonce snonce cpub spub : bytes) : res bytes :=
  m ← mac psk (str "pacetun-websocket-v5-server" ++ nl ++ authority ++ nl ++ path ++ nl
               ++ cnonce ++ nl ++ snonce ++ nl ++ cpub ++ nl ++ spub) ;
  Ok (hex_encode m).

(** [generate_x25519_keypair] src/cdn/src/record.cpp:176-183 *)
Definition generate_x25519_keypair (g : rng) : res (X25519KeyPair * rng) :=
  '((priv, pub), g) ← ctx_or_throw (x25519_keygen g) (str "X25519 context creation failed")
    (str "X25519 key generation failed") ;
  throw_if (negb (zlen priv =? 32) || negb (zlen pub =? 32)) (str "X25519 raw key export failed") ;;
  Ok ({| private_key := priv; public_key := pub |}, g).

(** [x25519_shared_secret] src/cdn/src/record.cpp:184-196 *)
Definition x25519_shared_secret (priv peer : bytes) : res bytes :=
  throw_if (negb (zlen priv =? 32) || negb (zlen peer =? 32)) (str "X25519 keys must be 32 bytes") ;;
  throw_if (negb (x25519_import priv peer)) (str "X25519 key import failed") ;;
  out ← or_throw (x25519_derive priv peer) (str "X25519 shared secret derivation failed") ;
  throw_if (negb (zlen out =? 32) || (fold_left Z.lor out 0 =? 0))
    (str "X25519 shared secret derivation failed") ;;
  Ok out.

(** [key32_hex] src/cdn/src/record.cpp:197-197 *)
Definition key32_hex (key : bytes) : res bytes :=
  throw_if (negb (zlen key =? 32)) (str "key must be 32 bytes") ;;
  Ok (hex_encode key).

(** [key32_from_hex] src/cdn/src/record.cpp:198-198 *)
Definition key32_from_hex (hex : bytes) : res bytes :=
  v ← hex_decode hex ;
  throw_if (negb (zlen v =? 32)) (str "key hex must encode 32 bytes") ;;
  Ok v.

(** Two different inputs of HMAC with the same tag. *)
Definition same_tag (k d k' d' : bytes) : Prop :=
  (k, d) ≠ (k', d') ∧ ∃ o, hmac_sha256 k d = Some o ∧ hmac_sha256 k' d' = Some o.
End Keys.

(** ** Properties *)

Lemma hex_nibble_digit d : 0 <= d < 16 → hex_nibble (hex_digit d) = d.
Proof.
  intros Hd. unfold hex_nibble, hex_digit. destruct (Z.ltb_spec d 10).
  - rewrite !(proj2 (Z.leb_le _ _)) by lia. simpl. lia.
  - rewrite (proj2 (Z.leb_le 48 _)), (proj2 (Z.leb_gt _ 57)) by lia. simpl.
    rewrite !(proj2 (Z.leb_le _ _)) by lia. simpl. lia.
Qed.

Lemma hex_encode_cons b v : hex_encode (b :: v) = hex_digit (b / 16) :: hex_digit (b mod 16) :: hex_encode v.
Proof. done. Qed.

Lemma length_hex_encode v : length (hex_encode v) = (2 * length v)%nat.
Proof. induction v; [done|]. rewrite hex_encode_cons. simpl. lia. Qed.

Lemma join_nibbles b : byte_ok b → u8 (Z.lor (Z.shiftl (b / 16) 4) (b mod 16)) = b.
Proof.
  unfold byte_ok. intros Hb. rewrite Z.shiftl_mul_pow2 by lia.
  rewrite (lor_disjoint_add (b / 16) (b mod 16) 4) by (try apply Z.mod_pos_bound; lia).
  unfold u8. rewrite Z.mod_small; dlia.
Qed.

Lemma hex_decode_pairs_encode v : bytes_ok v → hex_decode_pairs (hex_encode v) = Ok v.
Proof.
  induction 1 as [|b v Hb _ IH]; [done|]. rewrite hex_encode_cons. cbn [hex_decode_pairs].
  rewrite !hex_nibble_digit by (unfold byte_ok in Hb; dlia).
  rewrite !(proj2 (Z.ltb_ge _ _)) by (unfold byte_ok in Hb; dlia). cbn.
  rewrite IH. cbn. by rewrite join_nibbles.
Qed.

Lemma hex_decode_pairs_inv s v :
  zlen s mod 2 = 0 → hex_decode_pairs s = Ok v → zlen s = 2 * zlen v ∧ bytes_ok v.
Proof.
  revert v. induction s as [s IH] using (well_founded_induction (well_founded_ltof _ length)).
  intros v Hodd H. destruct s as [|c1 [|c2 s]]; cbn [hex_decode_pairs] in H.
  - injection H as <-. split; [done|constructor].
  - by vm_compute in Hodd.
  - apply bind_ok in H as (? & _ & (v' & Hv & [= <-])%bind_ok).
    destruct (IH s ltac:(unfold ltof; simpl; lia) v') as [Hl Hb]; [|done|].
    { rewrite <- Hodd, !zlen_cons. dlia. }
    rewrite !zlen_cons. split; [lia|]. constructor; [apply Z.mod_pos_bound; lia|done].
Qed.

Lemma hex_decode_inv s v : hex_decode s = Ok v → zlen s = 2 * zlen v ∧ bytes_ok v.
Proof.
  unfold hex_decode. intros (u & Hodd%throw_if_ok & H)%bind_ok. bool_to_prop.
  by apply hex_decode_pairs_inv.
Qed.

Lemma hex_decode_encode v : bytes_ok v → hex_decode (hex_encode v) = Ok v.
Proof.
  intros Hv. unfold hex_decode, throw_if.
  replace (zlen (hex_encode v) mod 2) with 0; [by apply hex_decode_pairs_encode|].
  unfold zlen. rewrite length_hex_encode. dlia.
Qed.

(** Hexadecimal is decoded to what was encoded, and what decodes has two
    digits for every byte. *)
Theorem hex_round_trip v s :
  (bytes_ok v → hex_decode (hex_encode v) = Ok v)
  ∧ (hex_decode s = Ok v → zlen s = 2 * zlen v ∧ bytes_ok v).
Proof. split; [apply hex_decode_encode|apply hex_decode_inv]. Qed.

Lemma hex_round_trip_witness :
  hex_decode (hex_encode [0; 127; 255]) = Ok [0; 127; 255] ∧ zlen (str "007fff") = 2 * zlen [0; 127; 255].
Proof.
  split.
  - apply (hex_round_trip [0; 127; 255] []). repeat constructor; vm_compute; intuition discriminate.
  - apply (hex_round_trip [0; 127; 255] (str "007fff")). by vm_compute.
Defined.

Section KeyProperties.
Context {C : Crypto}.

Lemma mac_zlen key data m : mac key data = Ok m → zlen m = 32.
Proof using Type. unfold mac. intros H. res_inv. bool_to_prop. done. Qed.

Lemma expand_keys_zlen prk l1 l2 l3 k :
  expand_keys prk l1 l2 l3 = Ok k →
  zlen (client_tx k) = 32 ∧ zlen (server_tx k) = 32 ∧ zlen (auth k) = 32.
Proof using Type.
  unfold expand_keys, hkdf_expand_one. intros H. res_inv. repeat split; simpl; eauto using mac_zlen.
Qed.

(** The PTT5 key schedule returns only for 32-byte key material and
    nonces of 64 hexadecimal digits, and then all three keys have 32 bytes, so
    that the record layer accepts them. *)
Theorem session_keys_v5_sizes psk shared snonce cnonce cpub spub k :
  derive_session_keys_v5 psk shared snonce cnonce cpub spub = Ok k →
  zlen shared = 32 ∧ zlen cpub = 32 ∧ zlen spub = 32
  ∧ zlen snonce = 64 ∧ zlen cnonce = 64
  ∧ zlen (client_tx k) = 32 ∧ zlen (server_tx k) = 32 ∧ zlen (auth k) = 32.
Proof using Type.
  unfold derive_session_keys_v5, decode_nonces. intros H. res_inv. bool_to_prop.
  repeat match goal with
  | Hd : hex_decode ?s = Ok ?v |- _ =>
      let Hl := fresh in assert (Hl : zlen s = 2 * zlen v) by (by apply hex_decode_inv); clear Hd
  end.
  apply expand_keys_zlen in H as (?&?&?). repeat split; auto; lia.
Qed.

End KeyProperties.

Definition demo_nonce : bytes := hex_encode (repeat 1 32).

Lemma session_keys_v5_sizes_witness :
  ∃ k, derive_session_keys_v5 (C:=Toy.crypto) (repeat 9 32) (repeat 2 32) demo_nonce demo_nonce
         (repeat 3 32) (repeat 4 32) = Ok k ∧ zlen (client_tx k) = 32.
Proof.
  eexists. split; [vm_compute; reflexivity|].
  eapply (session_keys_v5_sizes (C:=Toy.crypto) (repeat 9 32) (repeat 2 32) demo_nonce demo_nonce
            (repeat 3 32) (repeat 4 32)).
  vm_compute. reflexivity.
Defined.
