(* ===== verification/RecordLoop.v ===== *)
(** * The decoding loop of the record layer (cdn/src/record.cpp)

    [feed_aead] (PTT4, PTT5) and [RecordDecoder::feed] (PTT3) are one loop around
    different per-record bodies: this file holds the decoder state, the loop, the
    interface [StepLaws] a body has to satisfy, and what follows from it for any
    body: termination, independence of the way the stream is cut into messages,
    strictly increasing sequence numbers, the gap counter, and delivery of a
    stream of well-formed records. *)

From S2P Require Import Prelude.

(** ** Decoder state *)

(** [RecordDecoderV5] src/cdn/include/pacetun/record.hpp:112-125 *)
Record Decoder := mkDecoder {
  key_ : bytes;
  buffer_ : bytes;
  max_buffer_bytes_ : Z;
  have_seq_ : bool;
  highest_seq_ : Z;
  replay_drops_ : Z;
  sequence_gaps_ : Z;
}.

(** [RecordDecoderV5::RecordDecoderV5] src/cdn/src/record.cpp:238-238 *)
Definition new_decoder (key : bytes) (max : Z) : Decoder :=
  mkDecoder key [] max false 0 0 0.

Definition with_buffer (b : bytes) (d : Decoder) : Decoder :=
  mkDecoder (key_ d) b (max_buffer_bytes_ d) (have_seq_ d) (highest_seq_ d)
    (replay_drops_ d) (sequence_gaps_ d).

(** What one iteration of the decoding loop does. *)
Inductive Step :=
| NeedMore                                    (* [return true] *)
| Reject (d : Decoder) (e : bytes)            (* [error = e; return false] *)
| Throw (e : bytes)                           (* an exception leaves [feed] *)
| Deliver (flags seq : Z) (payload : bytes) (total : Z) (d : Decoder).
                                              (* [cb(flags, seq, payload)], then erase [total] bytes *)

(** How a call of [feed] ends. *)
Inductive FeedResult :=
| Accepted
| Rejected (e : bytes)
| Raised (e : bytes).

(** The replay check and the bookkeeping both decoders do once a record is
    authenticated: [inl] is the replay branch, [inr] the accepted one.
    [note_sequence] src/cdn/src/record.cpp:119-121 *)
Definition note_sequence (d : Decoder) (seq : Z) : Decoder + Decoder :=
  if have_seq_ d && (seq <=? highest_seq_ d) then
    inl (mkDecoder (key_ d) (buffer_ d) (max_buffer_bytes_ d) (have_seq_ d) (highest_seq_ d)
           (u64 (replay_drops_ d + 1)) (sequence_gaps_ d))
  else
    inr (mkDecoder (key_ d) (buffer_ d) (max_buffer_bytes_ d) true seq (replay_drops_ d)
           (if have_seq_ d && (u64 (highest_seq_ d + 1) <? seq)
            then u64 (sequence_gaps_ d + (seq - highest_seq_ d - 1))
            else sequence_gaps_ d)).

(** [uint16_t len = (buffer[6] << 8) | buffer[7]].
    [feed_aead] src/cdn/src/record.cpp:103-103 *)
Definition header_len (b : bytes) : Z := u16 (Z.lor (Z.shiftl (at_ b 6) 8) (at_ b 7)).
(** [for (i < 8) seq = (seq << 8) | buffer[8 + i]].
    [feed_aead] src/cdn/src/record.cpp:106-106 *)
Definition header_seq (b : bytes) : Z := be_decode (take 8 (drop 8 b)).

(** ** The decoding loop

    [feed_loop] is [while (true)] of both [feed_aead] and [RecordDecoder::feed]
    around one iteration [step]. The callback works on a state of its owner and
    may throw; when it does, the record is still in the buffer. *)
Section Loop.
Context {A : Type} (step : Decoder → Step).
Context (cb : Z → Z → bytes → A → A * option bytes).

(** [feed_aead] src/cdn/src/record.cpp:98-133 *)
Fixpoint feed_loop (fuel : nat) (d : Decoder) (a : A) : option (Decoder * A * FeedResult) :=
  match fuel with
  | O => None
  | S fuel' =>
      match step d with
      | NeedMore => Some (d, a, Accepted)
      | Reject d' e => Some (d', a, Rejected e)
      | Throw e => Some (d, a, Raised e)
      | Deliver flags seq payload total d' =>
          match cb flags seq payload a with
          | (a', Some e) => Some (d', a', Raised e)
          | (a', None) =>
              feed_loop fuel' (with_buffer (drop (Z.to_nat total) (buffer_ d')) d') a'
          end
      end
  end.

(** One call of [feed]: the limit, the insertion and the loop. Every delivered
    record removes at least 32 bytes, so the buffer length bounds the turns.
    [feed_aead] src/cdn/src/record.cpp:91-134 *)
Definition feed_with (limit_msg : bytes) (d : Decoder) (b : bytes) (a : A)
  : option (Decoder * A * FeedResult) :=
  if max_buffer_bytes_ d <? zlen (buffer_ d) + zlen b then Some (d, a, Rejected limit_msg)
  else
    let d' := with_buffer (buffer_ d ++ b) d in
    feed_loop (S (length (buffer_ d'))) d' a.

(** Several calls of [feed], one per message, until one does not return true. *)
Fixpoint feed_all (limit_msg : bytes) (d : Decoder) (chunks : list bytes) (a : A)
  : option (Decoder * A * FeedResult) :=
  match chunks with
  | [] => Some (d, a, Accepted)
  | b :: chunks' =>
      match feed_with limit_msg d b a with
      | Some (d', a', Accepted) => feed_all limit_msg d' chunks' a'
      | r => r
      end
  end.
End Loop.

(** A delivered record, as the callback receives it. *)
Record Delivery := mkDelivery { d_flags : Z; d_seq : Z; d_payload : bytes }.

(** The callback that only records what it was given. *)
Definition collect (flags seq : Z) (p : bytes) (acc : list Delivery) : list Delivery * option bytes :=
  (acc ++ [mkDelivery flags seq p], None).

(** ** The interface of a decoding step *)

(** [d'] is [d] after an accepted record of sequence number [seq]. *)
Definition noted (d : Decoder) (seq : Z) (d' : Decoder) : Prop := note_sequence d seq = inr d'.

Definition extend_buffer (b : bytes) (d : Decoder) : Decoder := with_buffer (buffer_ d ++ b) d.

Definition extend_step (b : bytes) (s : Step) : Step :=
  match s with
  | NeedMore => NeedMore
  | Reject d e => Reject (extend_buffer b d) e
  | Throw e => Throw e
  | Deliver f s p t d => Deliver f s p t (extend_buffer b d)
  end.

(** What the loop needs of a body: a delivered record lies in the buffer, has
    passed the replay check and takes at least a header and a tag; a rejection
    keeps the buffer; and the decision does not depend on bytes after the record. *)
Class StepLaws (step : Decoder → Step) : Prop := {
  step_deliver d f s p t d' :
    step d = Deliver f s p t d' → 32 <= t <= zlen (buffer_ d) ∧ noted d s d';
  step_reject d d' e :
    step d = Reject d' e →
    d' = d ∨ (∃ s, note_sequence d s = inl d') ∨ (∃ s, noted d s d');
  step_extend d b :
    step d ≠ NeedMore → step (extend_buffer b d) = extend_step b (step d);
  step_seq d f s p t d' :
    bytes_ok (buffer_ d) → step d = Deliver f s p t d' → u64_ok s;
  step_empty d : buffer_ d = [] → step d = NeedMore;
}.

Lemma noted_fields d s d' :
  noted d s d' →
  key_ d' = key_ d ∧ buffer_ d' = buffer_ d ∧ max_buffer_bytes_ d' = max_buffer_bytes_ d
  ∧ have_seq_ d' = true ∧ highest_seq_ d' = s ∧ replay_drops_ d' = replay_drops_ d
  ∧ (have_seq_ d = true → highest_seq_ d < s).
Proof.
  unfold noted, note_sequence. destruct (have_seq_ d) eqn:Hh; simpl.
  - destruct (Z.leb_spec s (highest_seq_ d)); intros [= <-]; simpl; intuition lia.
  - intros [= <-]; simpl; intuition lia.
Qed.

Lemma dropped_fields d s d' :
  note_sequence d s = inl d' →
  buffer_ d' = buffer_ d ∧ max_buffer_bytes_ d' = max_buffer_bytes_ d
  ∧ have_seq_ d' = true ∧ have_seq_ d = true ∧ highest_seq_ d' = highest_seq_ d
  ∧ s <= highest_seq_ d ∧ replay_drops_ d' = u64 (replay_drops_ d + 1)
  ∧ sequence_gaps_ d' = sequence_gaps_ d.
Proof.
  unfold note_sequence. destruct (have_seq_ d) eqn:Hh; simpl; [|done].
  destruct (Z.leb_spec s (highest_seq_ d)); intros [= <-]; simpl; intuition lia.
Qed.

Section LoopTheory.
Context {A : Type} (step : Decoder → Step) {L : StepLaws step}.
Context (cb : Z → Z → bytes → A → A * option bytes).

Abbreviation loop := (feed_loop step cb).
Abbreviation feed := (feed_with step cb).

Definition after (t : Z) (d : Decoder) : Decoder := with_buffer (drop (Z.to_nat t) (buffer_ d)) d.

(** *** Termination *)

Lemma loop_terminates fuel d a :
  (length (buffer_ d) < fuel)%nat → is_Some (loop fuel d a).
Proof.
  revert d a. induction fuel as [|fuel IH]; intros d a Hf; [lia|]. simpl.
  destruct (step d) as [|d' e|e|f s p t d'] eqn:Hs; eauto.
  destruct (cb f s p a) as [a' [e|]]; eauto.
  apply step_deliver in Hs as [Ht Hn]. apply noted_fields in Hn as (_ & Hb & _).
  apply IH. simpl. rewrite length_drop, Hb. unfold zlen in Ht. lia.
Qed.

Lemma feed_terminates msg d b a : is_Some (feed msg d b a).
Proof.
  unfold feed_with. destruct (_ <? _); eauto. apply loop_terminates. lia.
Qed.

Lemma loop_fuel_mono n m d a r : loop n d a = Some r → (n <= m)%nat → loop m d a = Some r.
Proof.
  revert m d a. induction n as [|n IH]; intros m d a Hr Hm; [done|].
  destruct m as [|m]; [lia|]. simpl in *.
  destruct (step d) as [|d' e|e|f s p t d']; try done.
  destruct (cb f s p a) as [a' [e|]]; try done. apply IH; [done|lia].
Qed.

Lemma loop_fuel_eq n m d a :
  (length (buffer_ d) < n)%nat → (length (buffer_ d) < m)%nat → loop n d a = loop m d a.
Proof.
  intros Hn Hm. destruct (loop_terminates n d a Hn) as [r Hr].
  destruct (loop_terminates m d a Hm) as [r' Hr'].
  pose proof (loop_fuel_mono n (n + m) d a r Hr ltac:(lia)).
  pose proof (loop_fuel_mono m (n + m) d a r' Hr' ltac:(lia)). congruence.
Qed.

(** *** An induction principle: what every delivery and the last step keep *)

Lemma loop_inv (P : Decoder → A → Prop) (Q : Decoder → A → FeedResult → Prop) fuel d a d' a' r :
  (∀ d a f s p t d', P d a → step d = Deliver f s p t d' →
     match cb f s p a with
     | (a', None) => P (after t d') a'
     | (a', Some e) => Q d' a' (Raised e)
     end) →
  (∀ d a, P d a → step d = NeedMore → Q d a Accepted) →
  (∀ d a d' e, P d a → step d = Reject d' e → Q d' a (Rejected e)) →
  (∀ d a e, P d a → step d = Throw e → Q d a (Raised e)) →
  P d a → loop fuel d a = Some (d', a', r) → Q d' a' r.
Proof using Type.
  intros HD HN HR HT. revert d a. induction fuel as [|fuel IH]; intros d a HP; simpl; [done|].
  destruct (step d) as [|d1 e|e|f s p t d1] eqn:Hs.
  - intros [= <- <- <-]. by apply HN.
  - intros [= <- <- <-]. by eapply HR.
  - intros [= <- <- <-]. by eapply HT.
  - specialize (HD _ _ _ _ _ _ _ HP Hs). destruct (cb f s p a) as [a1 [e|]].
    + by intros [= <- <- <-].
    + by apply IH.
Qed.

(** *** Bytes that arrive later *)

Lemma extend_after t d b :
  t <= zlen (buffer_ d) → after t (extend_buffer b d) = extend_buffer b (after t d).
Proof using Type.
  intros Ht. unfold after, extend_buffer, with_buffer, zlen in *. simpl. f_equal.
  rewrite drop_app. by replace (Z.to_nat t - length (buffer_ d))%nat with 0%nat by lia.
Qed.

Lemma loop_extend fuel d a d' a' r b :
  loop fuel d a = Some (d', a', r) →
  match r with
  | Accepted => ∀ fuel' x, loop fuel' (extend_buffer b d') a' = Some x →
                           ∃ k, loop k (extend_buffer b d) a = Some x
  | _ => ∃ k, loop k (extend_buffer b d) a = Some (extend_buffer b d', a', r)
  end.
Proof.
  revert d a. induction fuel as [|fuel IH]; intros d a; simpl; [done|].
  destruct (step d) as [|d1 e|e|f s p t d1] eqn:Hs.
  - intros [= <- <- <-] fuel' x Hx. by exists fuel'.
  - intros [= <- <- <-]. exists 1%nat. simpl. rewrite step_extend by (rewrite Hs; done).
    by rewrite Hs.
  - intros [= <- <- <-]. exists 1%nat. simpl. rewrite step_extend by (rewrite Hs; done).
    by rewrite Hs.
  - pose proof (step_deliver _ _ _ _ _ _ Hs) as [Ht Hn].
    apply noted_fields in Hn as (_ & Hb & _).
    assert (HsE : step (extend_buffer b d) = Deliver f s p t (extend_buffer b d1)).
    { rewrite step_extend by (rewrite Hs; done). by rewrite Hs. }
    destruct (cb f s p a) as [a1 [e|]] eqn:Hcb.
    + intros [= <- <- <-]. exists 1%nat. simpl. by rewrite HsE, Hcb.
    + intros Hl. specialize (IH _ _ Hl). fold (after t d1) in *.
      assert (HE : after t (extend_buffer b d1) = extend_buffer b (after t d1))
        by (apply extend_after; rewrite Hb; lia).
      destruct r.
      * intros fuel' x Hx. destruct (IH fuel' x Hx) as [k Hk]. exists (S k). simpl.
        rewrite HsE, Hcb. fold (after t (extend_buffer b d1)). by rewrite HE.
      * destruct IH as [k Hk]. exists (S k). simpl. rewrite HsE, Hcb.
        fold (after t (extend_buffer b d1)). by rewrite HE.
      * destruct IH as [k Hk]. exists (S k). simpl. rewrite HsE, Hcb.
        fold (after t (extend_buffer b d1)). by rewrite HE.
Qed.

(** *** What the loop never changes, and the size of the buffer *)

Definition same_config (d d' : Decoder) : Prop :=
  key_ d' = key_ d ∧ max_buffer_bytes_ d' = max_buffer_bytes_ d
  ∧ zlen (buffer_ d') <= zlen (buffer_ d).

Lemma same_config_refl d : same_config d d.
Proof using Type. repeat split; lia. Qed.

Lemma same_config_trans d1 d2 d3 :
  same_config d1 d2 → same_config d2 d3 → same_config d1 d3.
Proof using Type. intros (?&?&?) (?&?&?). repeat split; [congruence..|lia]. Qed.

Lemma noted_same d s d' : noted d s d' → same_config d d'.
Proof using Type. intros (?&Hb&?&_)%noted_fields. repeat split; [done..|rewrite Hb; lia]. Qed.

Lemma dropped_same d s d' : note_sequence d s = inl d' → same_config d d'.
Proof using Type.
  unfold note_sequence. destruct (_ && _); intros [= <-]. repeat split; simpl; lia.
Qed.

Lemma after_same t d : same_config d (after t d).
Proof using Type. repeat split. unfold zlen. simpl. rewrite length_drop. lia. Qed.

Lemma loop_same fuel d a d' a' r : loop fuel d a = Some (d', a', r) → same_config d d'.
Proof.
  intros Hl. apply (loop_inv (λ x _, same_config d x) (λ x _ _, same_config d x))
    in Hl; auto using same_config_refl.
  - intros x y f s p t x' Hx [_ Hn]%step_deliver. apply noted_same in Hn.
    destruct (cb f s p y) as [? [?|]]; eauto 3 using same_config_trans, after_same.
  - intros x y x' e Hx [->|[[s Hn]|[s Hn]]]%step_reject;
      eauto using same_config_trans, noted_same, dropped_same.
Qed.

Lemma feed_bound msg d b a d' a' r :
  zlen (buffer_ d) <= max_buffer_bytes_ d → feed msg d b a = Some (d', a', r) →
  zlen (buffer_ d') <= max_buffer_bytes_ d' ∧ max_buffer_bytes_ d' = max_buffer_bytes_ d
  ∧ key_ d' = key_ d.
Proof.
  unfold feed_with. destruct (Z.ltb_spec (max_buffer_bytes_ d) (zlen (buffer_ d) + zlen b)).
  - by intros ? [= <- _ _].
  - intros _ (Hk & Hm & Hl)%loop_same. simpl in *. rewrite zlen_app in Hl.
    repeat split; [lia|done|done].
Qed.

(** *** Cutting the stream differently *)

Lemma feed_app msg d b1 b2 a :
  zlen (buffer_ d) + zlen b1 + zlen b2 <= max_buffer_bytes_ d →
  feed msg d (b1 ++ b2) a =
    match feed msg d b1 a with
    | Some (d', a', Accepted) => feed msg d' b2 a'
    | Some (d', a', r) => Some (extend_buffer b2 d', a', r)
    | None => None
    end.
Proof.
  intros Hm. pose proof (zlen_nonneg b1). pose proof (zlen_nonneg b2).
  unfold feed_with at 1 2. rewrite zlen_app, !(proj2 (Z.ltb_ge _ _)) by lia.
  set (e := with_buffer (buffer_ d ++ b1) d).
  replace (with_buffer (buffer_ d ++ b1 ++ b2) d) with (extend_buffer b2 e)
    by (unfold extend_buffer, e, with_buffer; simpl; by rewrite app_assoc).
  destruct (loop_terminates (S (length (buffer_ e))) e a ltac:(lia)) as [[[d' a'] r] Hl].
  rewrite Hl. pose proof (loop_same _ _ _ _ _ _ Hl) as (Hk' & Hm' & Hb').
  pose proof (loop_extend _ _ _ _ _ _ b2 Hl) as He.
  destruct (loop_terminates (S (length (buffer_ (extend_buffer b2 e)))) (extend_buffer b2 e) a
              ltac:(lia)) as [y Hy].
  assert (Heq : ∀ k z, loop k (extend_buffer b2 e) a = Some z → y = z).
  { intros k z Hz. pose proof (loop_fuel_mono _ (k + S (length (buffer_ (extend_buffer b2 e)))) _ _ _ Hz ltac:(lia)).
    pose proof (loop_fuel_mono _ (k + S (length (buffer_ (extend_buffer b2 e)))) _ _ _ Hy ltac:(lia)).
    congruence. }
  rewrite Hy. destruct r; [|destruct He as [k Hk]; f_equal; by apply (Heq k)..].
  unfold feed_with. subst e. simpl in Hm', Hb'. rewrite zlen_app in Hb'.
  rewrite Hm', (proj2 (Z.ltb_ge _ _)) by lia.
  destruct (loop_terminates (S (length (buffer_ (extend_buffer b2 d')))) (extend_buffer b2 d') a'
              ltac:(lia)) as [x Hx].
  destruct (He _ _ Hx) as [k Hk]. fold (extend_buffer b2 d'). rewrite Hx. f_equal. by apply (Heq k).
Qed.
End LoopTheory.

(** ** Deliveries *)

(** Sequence numbers grow strictly, and none exceeds the highest one seen. *)
Definition increasing (d : Decoder) (acc : list Delivery) : Prop :=
  StronglySorted Z.lt (map d_seq acc)
  ∧ Forall (λ x, d_seq x <= highest_seq_ d) acc
  ∧ (acc ≠ [] → have_seq_ d = true).

(** How many sequence numbers were skipped between the first and the last one
    delivered, modulo the width of the counter. *)
Definition missing (acc : list Delivery) : Z :=
  match acc with
  | [] => 0
  | x :: _ => u64 (default 0 (d_seq <$> last acc) - d_seq x + 1 - zlen acc)
  end.

Definition gaps_counted (d : Decoder) (acc : list Delivery) : Prop :=
  match acc with
  | [] => have_seq_ d = false ∧ sequence_gaps_ d = 0
  | _ => have_seq_ d = true ∧ sequence_gaps_ d = missing acc
         ∧ default 0 (d_seq <$> last acc) = highest_seq_ d
  end.

Lemma u64_idem z : u64 (u64 z) = u64 z.
Proof. apply Z.mod_mod. lia. Qed.
Lemma u64_add_l a b : u64 (u64 a + b) = u64 (a + b).
Proof. unfold u64. by rewrite Zplus_mod_idemp_l. Qed.
Lemma u64_small z : u64_ok z → u64 z = z.
Proof. apply Z.mod_small. Qed.

Lemma increasing_snoc d acc f s p d' :
  noted d s d' → increasing d acc → increasing d' (acc ++ [mkDelivery f s p]).
Proof.
  intros (_&_&_&Hh&Hs&_&Hlt)%noted_fields (HS & HF & Hne).
  assert (Hall : Forall (λ x, d_seq x < s) acc).
  { destruct acc as [|x acc]; [done|]. specialize (Hlt (Hne ltac:(done))).
    eapply Forall_impl; [apply HF|]. simpl. lia. }
  split; [|split].
  - rewrite map_app. apply StronglySorted_app_2; [|done|repeat constructor].
    intros x1 x2 Hx1 Hx2. apply list_elem_of_fmap in Hx1 as (y & -> & Hy).
    apply list_elem_of_singleton in Hx2 as ->. rewrite Forall_forall in Hall. by apply Hall.
  - rewrite Hs. apply Forall_app; split; [|repeat constructor; simpl; lia].
    eapply Forall_impl; [apply Hall|]. simpl. lia.
  - done.
Qed.

Lemma gaps_snoc d acc f s p d' :
  noted d s d' → u64_ok s → (have_seq_ d = true → u64_ok (highest_seq_ d)) →
  gaps_counted d acc → gaps_counted d' (acc ++ [mkDelivery f s p]).
Proof.
  intros Hn Hs Hr. pose proof Hn as (_&_&_&Hh&Hhi&_&Hlt)%noted_fields.
  destruct acc as [|x acc]; simpl.
  - intros (Hh0 & Hg0). repeat split; [done| |done].
    unfold noted, note_sequence in Hn. rewrite Hh0 in Hn. injection Hn as <-. simpl.
    rewrite Hg0. unfold missing; simpl. unfold zlen; simpl.
    by replace (s - s + 1 - Z.of_nat 1) with 0 by lia.
  - intros (Hh1 & Hg & Hlast). specialize (Hlt Hh1). specialize (Hr Hh1).
    rewrite app_comm_cons, last_snoc. repeat split; [done| |done].
    unfold noted, note_sequence in Hn. rewrite Hh1 in Hn. simpl in Hn.
    destruct (Z.leb_spec s (highest_seq_ d)); [lia|]. injection Hn as <-. simpl.
    rewrite Hg, Hlast.
    rewrite (u64_small (highest_seq_ d + 1)) by (unfold u64_ok in *; lia).
    autorewrite with pt. destruct (Z.ltb_spec (highest_seq_ d + 1) s).
    + rewrite u64_add_l. f_equal. lia.
    + f_equal. lia.
Qed.

Section DeliveryTheory.
Context (step : Decoder → Step) {L : StepLaws step}.

Abbreviation feeds := (feed_all step collect).

(** An invariant of decoder and deliveries that every accepted record keeps
    holds at the end of a sequence of [feed] calls. *)
Lemma collect_extends fuel d acc d' acc' r :
  feed_loop step collect fuel d acc = Some (d', acc', r) → acc `prefix_of` acc'.
Proof using Type.
  revert d acc. induction fuel as [|fuel IH]; intros d acc; simpl; [done|].
  destruct (step d) as [|d1 e|e|f s p t d1]; [by intros [= _ <- _]..|].
  intros H%IH. etrans; [|exact H]. by apply prefix_app_r.
Qed.

Lemma feed_all_extends msg chunks d acc d' acc' r :
  feed_all step collect msg d chunks acc = Some (d', acc', r) → acc `prefix_of` acc'.
Proof using Type.
  revert d acc. induction chunks as [|b chunks IH]; intros d acc; simpl; [by intros [= _ <- _]|].
  unfold feed_with. destruct (_ <? _); [by intros [= _ <- _]|].
  destruct (feed_loop _ _ _ _ _) as [[[d1 acc1] r1]|] eqn:Hl; [|done]. apply collect_extends in Hl.
  destruct r1; [intros H%IH; by etrans|by intros [= _ <- _]..].
Qed.

Lemma feed_all_inv (P : Decoder → list Delivery → Prop) msg chunks d acc d' acc' r :
  (∀ d b acc, P d acc → P (with_buffer b d) acc) →
  (∀ d acc f s p t d', P d acc → step d = Deliver f s p t d' →
     P (after t d') (acc ++ [mkDelivery f s p])) →
  (∀ d acc d' e, P d acc → step d = Reject d' e → P d' acc) →
  P d acc → feeds msg d chunks acc = Some (d', acc', r) → P d' acc'.
Proof using Type.
  intros Hb Hd Hr. revert d acc. induction chunks as [|b chunks IH]; intros d acc HP; simpl.
  { by intros [= <- <- <-]. }
  destruct (feed_with step collect msg d b acc) as [[[d1 acc1] r1]|] eqn:Hf; [|done].
  assert (HP1 : P d1 acc1).
  { revert Hf. unfold feed_with. destruct (_ <? _); [by intros [= <- <- _]|].
    intros Hl. apply (loop_inv step collect P (λ d a _, P d a)) in Hl; simpl; eauto. }
  destruct r1; [by apply IH|by intros [= <- <- _]..].
Qed.

Lemma reject_increasing d d' e acc :
  step d = Reject d' e → increasing d acc → increasing d' acc.
Proof.
  intros [->|[[s Hn]|[s Hn]]]%step_reject (HS & HF & Hne); [done|..].
  - apply dropped_fields in Hn as (_&_&Hh&_&Hhi&_). split; [done|]. rewrite Hhi. done.
  - apply noted_fields in Hn as (_&_&_&Hh&Hhi&_&Hlt). split; [done|].
    split; [|done]. rewrite Hhi. destruct acc as [|x acc]; [done|].
    eapply Forall_impl; [apply HF|]. specialize (Hlt (Hne ltac:(done))). simpl. lia.
Qed.

(** A callback that works on a state of its own does not change what the decoder
    delivers: as long as it does not throw, the decoder ends as with [collect];
    when it throws, it has seen a prefix of those deliveries. *)
Section Mirror.
Context {A : Type} (cb : Z → Z → bytes → A → A * option bytes) (P : list Delivery → A → Prop).
Hypothesis cb_ok : ∀ d f s p t d' ds a, step d = Deliver f s p t d' → P ds a →
  P (ds ++ [mkDelivery f s p]) (cb f s p a).1.

Lemma loop_mirror fuel d a ds d' a' r :
  P ds a → (length (buffer_ d) < fuel)%nat → feed_loop step cb fuel d a = Some (d', a', r) →
  ∃ dc xs rc, feed_loop step collect fuel d ds = Some (dc, xs, rc)
    ∧ match r with Accepted => dc = d' ∧ rc = Accepted ∧ P xs a'
      | _ => ∃ ys, ys `prefix_of` xs ∧ P ys a' end.
Proof using L cb_ok.
  revert d a ds. induction fuel as [|fuel IH]; intros d a ds HP Hf; simpl; [done|].
  destruct (step d) as [|d1 e|e|f s p t d1] eqn:Hs.
  - intros [= <- <- <-]. eauto 10.
  - intros [= <- <- <-]. eauto 10.
  - intros [= <- <- <-]. eauto 10.
  - pose proof (cb_ok _ _ _ _ _ _ _ _ Hs HP) as HP1. pose proof (step_deliver _ _ _ _ _ _ Hs) as [Ht Hn].
    apply noted_fields in Hn as (_ & Hb1 & _).
    assert (Hlen : (length (buffer_ (with_buffer (drop (Z.to_nat t) (buffer_ d1)) d1)) < fuel)%nat).
    { simpl. rewrite Hb1, length_drop. unfold zlen in Ht. lia. }
    destruct (cb f s p a) as [a1 [e|]] eqn:Hcb; simpl in HP1.
    + intros [= <- <- <-].
      destruct (loop_terminates step collect fuel _ (ds ++ [mkDelivery f s p]) Hlen) as [[[dc xs] rc] Hl].
      exists dc, xs, rc. split; [done|]. exists (ds ++ [mkDelivery f s p]). split; [|done].
      eapply collect_extends, Hl.
    + intros H. by eapply IH in H.
Qed.
End Mirror.

Lemma feed_all_app {A} (cb : Z → Z → bytes → A → A * option bytes) msg c1 c2 d a :
  feed_all step cb msg d (c1 ++ c2) a =
    match feed_all step cb msg d c1 a with
    | Some (d', a', Accepted) => feed_all step cb msg d' c2 a'
    | r => r
    end.
Proof using Type.
  revert d a. induction c1 as [|b c1 IH]; intros d a; simpl; [done|].
  destruct (feed_with _ _ _ _ _ _) as [[[d' a'] []]|]; [apply IH|done..].
Qed.

Lemma feed_all_increasing msg chunks d acc d' acc' r :
  increasing d acc → feeds msg d chunks acc = Some (d', acc', r) → increasing d' acc'.
Proof.
  apply feed_all_inv.
  - by intros ? ? ? ?.
  - intros x y f s p t x' Hx [_ Hn]%step_deliver.
    by apply (increasing_snoc _ _ f s p _ Hn) in Hx.
  - intros; eauto using reject_increasing.
Qed.

Definition gaps_inv (d : Decoder) (acc : list Delivery) : Prop :=
  bytes_ok (buffer_ d) ∧ (have_seq_ d = true → u64_ok (highest_seq_ d)) ∧ gaps_counted d acc.

Lemma loop_gaps fuel d acc d' acc' :
  gaps_inv d acc → feed_loop step collect fuel d acc = Some (d', acc', Accepted) → gaps_inv d' acc'.
Proof.
  intros HI Hl.
  apply (loop_inv step collect gaps_inv (λ d a r, r = Accepted → gaps_inv d a)) in Hl;
    [done| |done..].
  intros x y f s p t x' (Hb & Hr & Hg) Hs. pose proof (step_seq _ _ _ _ _ _ Hb Hs) as Hok.
  apply step_deliver in Hs as [_ Hn]. pose proof Hn as (_&Hb'&_&Hh&Hhi&_&_)%noted_fields.
  unfold collect. split; [|split].
  - simpl. rewrite Hb'. by apply Forall_drop.
  - simpl. rewrite Hhi. done.
  - pose proof (gaps_snoc _ _ f s p _ Hn Hok Hr Hg) as HG. by destruct y.
Qed.

Lemma feed_all_gaps msg chunks d acc d' acc' :
  Forall (Forall byte_ok) chunks → gaps_inv d acc →
  feeds msg d chunks acc = Some (d', acc', Accepted) → gaps_inv d' acc'.
Proof.
  revert d acc. induction chunks as [|b chunks IH]; intros d acc Hc HI; simpl.
  { by intros [= <- <-]. }
  apply Forall_cons in Hc as [Hb Hc].
  destruct (feed_with step collect msg d b acc) as [[[d1 acc1] r1]|] eqn:Hf; [|done].
  destruct r1; [|done..]. intros Hrest. refine (IH _ _ Hc _ Hrest).
  revert Hf. unfold feed_with. destruct (_ <? _); [done|]. apply loop_gaps.
  destruct HI as (HB & HR & HG). split; [by apply Forall_app|by split].
Qed.
End DeliveryTheory.

Lemma increasing_new key max : increasing (new_decoder key max) [].
Proof. split; [constructor|]. by split. Qed.

Lemma gaps_inv_new key max : gaps_inv (new_decoder key max) [].
Proof. by repeat split. Qed.

#[export] Hint Resolve increasing_new gaps_inv_new : pt.

(** ** Streams of well-formed records

    [enc x r] says that the bytes [r] are a record an encoder produced for the
    delivery [x]. If a step delivers [x] whenever [r] is at the front of the
    buffer, a decoder delivers a whole stream of records, however it is cut. *)
Section Stream.
Context (step : Decoder → Step) {L : StepLaws step}.
Context (key : bytes) (enc : Delivery → bytes → Prop).
Hypothesis enc_step : ∀ d x r rest,
  enc x r → key_ d = key → buffer_ d = r ++ rest → zlen r <= max_buffer_bytes_ d →
  u64_ok (d_seq x) → (have_seq_ d = true → highest_seq_ d < d_seq x) →
  ∃ d', step d = Deliver (d_flags x) (d_seq x) (d_payload x) (zlen r) d'.

(** The records still to come and the bytes of the first ones that already
    arrived. *)
Definition pending (d : Decoder) (rest : bytes) (xs : list Delivery) (rs : list bytes) : Prop :=
  key_ d = key ∧ Forall2 enc xs rs ∧ buffer_ d ++ rest = concat rs
  ∧ StronglySorted Z.lt (map d_seq xs) ∧ Forall (λ x, u64_ok (d_seq x)) xs
  ∧ (have_seq_ d = true → Forall (λ x, highest_seq_ d < d_seq x) xs)
  ∧ Forall (λ r, zlen r <= max_buffer_bytes_ d) rs.

Lemma partial_needs_more d x r b :
  enc x r → key_ d = key → r = buffer_ d ++ b → b ≠ [] → zlen r <= max_buffer_bytes_ d →
  u64_ok (d_seq x) → (have_seq_ d = true → highest_seq_ d < d_seq x) → step d = NeedMore.
Proof.
  intros He Hk Hr Hb Hm Hu Hlt.
  destruct (enc_step (extend_buffer b d) x r [] He) as [d' Hd']; [done|simpl; by rewrite app_nil_r|done..|].
  destruct (step d) as [|d1 e|e|f s p t d1] eqn:Hs; [done|exfalso..];
    assert (Hx := step_extend d b ltac:(by rewrite Hs)); rewrite Hd', Hs in Hx; simpl in Hx; try done.
  injection Hx as _ _ _ <- _. apply step_deliver in Hs as [Ht _]. rewrite Hr, zlen_app in Ht.
  destruct b; [done|]. rewrite zlen_cons in Ht. pose proof (zlen_nonneg b). lia.
Qed.

Lemma split_front (b rest r tl : bytes) :
  b ++ rest = r ++ tl →
  (∃ b', b = r ++ b' ∧ b' ++ rest = tl) ∨ (∃ b', b' ≠ [] ∧ r = b ++ b' ∧ rest = b' ++ tl).
Proof using Type.
  intros [(k & -> & ->)|(k & -> & ->)]%app_eq_inv; [left; by exists k|].
  destruct k as [|z k]; [left|right]; [exists []|exists (z :: k)]; by rewrite ?app_nil_r.
Qed.

(** The front record has arrived in full. *)
Lemma pending_front d rest x xs r rs b :
  pending d rest (x :: xs) (r :: rs) → buffer_ d = r ++ b →
  ∃ d1, step d = Deliver (d_flags x) (d_seq x) (d_payload x) (zlen r) d1
        ∧ pending (after (zlen r) d1) rest xs rs ∧ buffer_ (after (zlen r) d1) = b
        ∧ max_buffer_bytes_ d1 = max_buffer_bytes_ d ∧ 0 < zlen r.
Proof.
  intros (Hk & HE & Hcat & HS & HU & Hlt & HM) Hb.
  apply Forall2_cons in HE as [He HE]. apply Forall_cons in HU as [Hux HU]. apply Forall_cons in HM as [Hmr HM].
  apply StronglySorted_inv in HS as [HS HSx].
  destruct (enc_step d x r b He Hk Hb Hmr Hux) as [d1 Hs].
  { intros Hh. by apply Forall_cons in Hlt as [? _]. }
  pose proof (step_deliver _ _ _ _ _ _ Hs) as [Ht Hn].
  pose proof (noted_fields _ _ _ Hn) as (Hk1&Hb1&Hm1&Hh1&Hhi1&_&_).
  assert (Hafter : buffer_ (after (zlen r) d1) = b).
  { simpl. rewrite Hb1, Hb, zlen_length. apply drop_app_length. }
  exists d1. split_and!; [done| |done|by rewrite <- Hm1|lia].
  repeat split; [simpl; congruence|done| |done|done| |simpl; by rewrite Hm1].
  - rewrite Hafter. simpl in Hcat. rewrite Hb, <- app_assoc in Hcat. by apply app_inv_head in Hcat.
  - intros _. simpl. rewrite Hhi1. apply Forall_forall. intros y Hy.
    rewrite Forall_forall in HSx. apply HSx. by apply list_elem_of_fmap_2.
Qed.

Lemma loop_stream fuel d rest xs rs acc :
  pending d rest xs rs → (length (buffer_ d) < fuel)%nat →
  ∃ d' xs1 xs2 rs2,
    feed_loop step collect fuel d acc = Some (d', acc ++ xs1, Accepted)
    ∧ xs = xs1 ++ xs2 ∧ pending d' rest xs2 rs2
    ∧ (∃ n, rs2 = drop n rs)
    ∧ (buffer_ d' = [] ∨ ∃ r, head rs2 = Some r ∧ zlen (buffer_ d') < zlen r)
    ∧ max_buffer_bytes_ d' = max_buffer_bytes_ d.
Proof.
  revert d xs rs acc. induction fuel as [|fuel IH]; intros d xs rs acc HP Hf; [lia|].
  pose proof HP as (Hk & HE & Hcat & HS & HU & Hlt & HM).
  destruct HE as [|x r xs rs He HE].
  { simpl in Hcat. apply app_nil in Hcat as [Hb Hrest]. simpl. rewrite step_empty by done.
    exists d, [], [], []. rewrite app_nil_r. repeat split; eauto.
    - by rewrite Hb, Hrest.
    - by exists 0%nat. }
  simpl in Hcat. destruct (split_front _ _ _ _ Hcat) as [(b' & Hb & Hrest)|(b' & Hne & Hb & _)].
  - (* the whole record has arrived *)
    destruct (pending_front d rest x xs r rs b' HP Hb) as (d1 & Hs & HP1 & Hafter & Hm1 & Hr).
    destruct (IH (after (zlen r) d1) xs rs (acc ++ [mkDelivery (d_flags x) (d_seq x) (d_payload x)]))
      as (d' & xs1 & xs2 & rs2 & Hl & -> & HP' & [n Hd] & Hres & Hmax); [done| |].
    { rewrite Hafter. rewrite Hb, length_app in Hf. unfold zlen in Hr. lia. }
    exists d', (x :: xs1), xs2, rs2. simpl. rewrite Hs. simpl.
    fold (after (zlen r) d1). rewrite Hl, <- app_assoc. simpl.
    split; [by destruct x|]. split; [done|]. split; [done|].
    split; [by exists (S n)|]. split; [done|]. by rewrite Hmax, <- Hm1.
  - (* the record is cut *)
    apply Forall_cons in HU as [Hux HU]. apply Forall_cons in HM as [Hmr HM].
    assert (Hnm : step d = NeedMore).
    { eapply partial_needs_more; eauto. intros Hh. by apply Forall_cons in Hlt as [? _]; [|done]. }
    exists d, [], (x :: xs), (r :: rs). simpl. rewrite Hnm, app_nil_r.
    split; [done|]. split; [done|]. split; [done|]. split; [by exists 0%nat|split; [|done]].
    right. exists r. split; [done|]. rewrite Hb, zlen_app. destruct b'; [done|].
    rewrite zlen_cons. pose proof (zlen_nonneg b'). lia.
Qed.

(** A buffer of whole records is decoded to its end. *)
Lemma loop_aligned fuel d xs rs1 rs2 acc :
  pending d (concat rs2) xs (rs1 ++ rs2) → buffer_ d = concat rs1 → (length (buffer_ d) < fuel)%nat →
  ∃ d' xs1 xs2,
    feed_loop step collect fuel d acc = Some (d', acc ++ xs1, Accepted)
    ∧ xs = xs1 ++ xs2 ∧ pending d' (concat rs2) xs2 rs2 ∧ buffer_ d' = []
    ∧ max_buffer_bytes_ d' = max_buffer_bytes_ d.
Proof.
  revert d xs rs1 acc. induction fuel as [|fuel IH]; intros d xs rs1 acc HP Hb Hf; [lia|].
  destruct rs1 as [|r rs1].
  { simpl. rewrite step_empty by done. exists d, [], xs. by rewrite app_nil_r. }
  pose proof HP as (_ & HE & _). apply Forall2_cons_inv_r in HE as (x & xs' & He & HE & ->).
  destruct (pending_front d _ x xs' r (rs1 ++ rs2) (concat rs1) HP Hb) as (d1 & Hs & HP1 & Hafter & Hm1 & Hr).
  destruct (IH (after (zlen r) d1) xs' rs1 (acc ++ [mkDelivery (d_flags x) (d_seq x) (d_payload x)]))
    as (d' & xs1 & xs2 & Hl & -> & HP' & Hb' & Hmax); [done..| |].
  { rewrite Hafter. rewrite Hb in Hf. simpl in Hf. rewrite length_app in Hf. unfold zlen in Hr. lia. }
  exists d', (x :: xs1), xs2. simpl. rewrite Hs. simpl.
  fold (after (zlen r) d1). rewrite Hl, <- app_assoc. simpl.
  split_and!; [by destruct x|done..|by rewrite Hmax, <- Hm1].
Qed.

Lemma enc_nonempty x r : enc x r → u64_ok (d_seq x) → 0 < zlen r.
Proof.
  intros He Hu. destruct r as [|z r]; [exfalso|rewrite zlen_cons; pose proof (zlen_nonneg r); lia].
  destruct (enc_step (new_decoder key 0) x [] [] He) as [d' Hd]; try done.
  by rewrite step_empty in Hd.
Qed.

(** What is left in the buffer is less than the next record. *)
Definition partial (d : Decoder) (rs : list bytes) : Prop :=
  buffer_ d = [] ∨ ∃ r, head rs = Some r ∧ zlen (buffer_ d) < zlen r.

Lemma feed_all_stream msg limit chunks d xs rs acc :
  pending d (concat chunks) xs rs → partial d rs →
  Forall (λ r, zlen r <= limit) rs →
  Forall (λ c, zlen c + limit <= max_buffer_bytes_ d) chunks → 0 <= limit →
  ∃ d', feed_all step collect msg d chunks acc = Some (d', acc ++ xs, Accepted)
        ∧ buffer_ d' = [].
Proof.
  revert d xs rs acc. induction chunks as [|c chunks IH]; intros d xs rs acc HP Hpart HL HC H0.
  { destruct HP as (_ & HE & Hcat & _ & HU & _). simpl in *. rewrite app_nil_r in Hcat.
    destruct HE as [|x r xs rs He HE]; simpl in *.
    - exists d. by rewrite app_nil_r.
    - exfalso. apply Forall_cons in HU as [Hu _]. pose proof (enc_nonempty x r He Hu).
      assert (Hz : zlen (buffer_ d) = zlen (r ++ concat rs)) by congruence.
      rewrite zlen_app in Hz. pose proof (zlen_nonneg (concat rs)).
      destruct Hpart as [Hb|(r' & [= <-] & Hlt)]; [rewrite Hb in Hz; unfold zlen in *; simpl in *|]; lia. }
  apply Forall_cons in HC as [Hc HC].
  assert (Hres : zlen (buffer_ d) <= limit).
  { destruct Hpart as [->|(r & Hr & Hlt)]; [done|]. destruct rs; [done|].
    injection Hr as <-. apply Forall_cons in HL as [? _]. lia. }
  set (e := with_buffer (buffer_ d ++ c) d).
  destruct (loop_stream (S (length (buffer_ e))) e (concat chunks) xs rs acc)
    as (d' & xs1 & xs2 & rs2 & Hl & -> & HP' & [n ->] & Hres' & Hmax).
  { destruct HP as (?&?&Hcat&?). split; [done|]. split; [done|]. split; [|done].
    simpl in *. by rewrite <- app_assoc. }
  { lia. }
  simpl. unfold feed_with. rewrite (proj2 (Z.ltb_ge _ _)) by lia.
  fold e. rewrite Hl.
  destruct (IH d' xs2 (drop n rs) (acc ++ xs1)) as [d2 [Hf Hb]]; auto.
  { by apply Forall_drop. }
  { by rewrite Hmax. }
  exists d2. by rewrite Hf, <- app_assoc.
Qed.

Lemma fresh_stream msg limit max chunks xs rs :
  Forall2 enc xs rs → concat chunks = concat rs →
  StronglySorted Z.lt (map d_seq xs) → Forall (λ x, u64_ok (d_seq x)) xs →
  Forall (λ r, zlen r <= limit) rs → Forall (λ c, zlen c + limit <= max) chunks →
  0 <= limit <= max →
  ∃ d', feed_all step collect msg (new_decoder key max) chunks [] = Some (d', xs, Accepted)
        ∧ buffer_ d' = [].
Proof.
  intros HE Hcat HS HU HL HC Hlim.
  apply (feed_all_stream msg limit chunks (new_decoder key max) xs rs []); simpl; auto; [|by left|lia].
  repeat split; simpl; auto; [done|]. eapply Forall_impl; [apply HL|]. simpl. lia.
Qed.

(** Messages of whole records. Nothing is left in the buffer between two of them,
    so only the size of one message counts. *)
Lemma feed_all_aligned msg d xs rss acc :
  pending d (concat (concat rss)) xs (concat rss) → buffer_ d = [] →
  Forall (λ rs, zlen (concat rs) <= max_buffer_bytes_ d) rss →
  ∃ d', feed_all step collect msg d (map (λ rs, concat rs) rss) acc = Some (d', acc ++ xs, Accepted).
Proof.
  revert d xs acc. induction rss as [|rs rss IH]; intros d xs acc HP Hb HL.
  { destruct HP as (_ & HE & _). apply Forall2_nil_inv_r in HE as ->. exists d. by rewrite app_nil_r. }
  apply Forall_cons in HL as [Hm HL]. simpl. unfold feed_with.
  rewrite (proj2 (Z.ltb_ge _ _)) by (rewrite Hb; unfold zlen in *; simpl; lia).
  set (e := with_buffer (buffer_ d ++ concat rs) d).
  destruct (loop_aligned (S (length (buffer_ e))) e xs rs (concat rss) acc)
    as (d1 & xs1 & xs2 & Hl & -> & HP1 & Hb1 & Hmax); [|simpl; by rewrite Hb|lia|].
  { destruct HP as (?&?&Hcat&?). repeat split; try tauto. simpl in *. by rewrite <- Hcat, Hb, concat_app. }
  rewrite Hl. destruct (IH d1 xs2 (acc ++ xs1) HP1 Hb1) as [d2 Hd2]; [by rewrite Hmax|].
  exists d2. by rewrite Hd2, <- app_assoc.
Qed.

Lemma fresh_aligned msg max xs rss :
  Forall2 enc xs (concat rss) →
  StronglySorted Z.lt (map d_seq xs) → Forall (λ x, u64_ok (d_seq x)) xs →
  Forall (λ rs, zlen (concat rs) <= max) rss →
  ∃ d', feed_all step collect msg (new_decoder key max) (map (λ rs, concat rs) rss) [] = Some (d', xs, Accepted).
Proof.
  intros HE HS HU HL.
  apply (feed_all_aligned msg (new_decoder key max) xs rss []); [|done|done].
  repeat split; simpl; auto; [done|]. apply Forall_concat. eapply Forall_impl; [exact HL|]. simpl.
  intros rs Hrs. clear -Hrs. induction rs as [|r rs IH]; [constructor|]. simpl in Hrs. rewrite zlen_app in Hrs.
  pose proof (zlen_nonneg r). pose proof (zlen_nonneg (concat rs)). constructor; [lia|]. apply IH. lia.
Qed.
End Stream.
