(* ===== verification/Record.v ===== *)
(** * The record layer (cdn/include/pacetun/record.hpp, cdn/src/record.cpp)

    Packets of the tunnel travel in records: a 16-byte header (magic, version,
    flags, length, sequence number), the ciphertext and a 16-byte tag. This file
    models the three wire versions (PTT3 with an HMAC tag, PTT4 and PTT5 with
    ChaCha20-Poly1305), the padded and enveloped records of PTT5, and the
    streaming decoders, which instantiate the loop of [RecordLoop]. *)

From S2P Require Import Prelude Crypto Keys RecordLoop.

(** ** Constants *)

(** [RECORD_KEEPALIVE] src/cdn/include/pacetun/record.hpp:10-10 *)
Definition RECORD_KEEPALIVE : Z := 0x01.
(** [RECORD_PING] src/cdn/include/pacetun/record.hpp:11-11 *)
Definition RECORD_PING : Z := 0x02.
(** [RECORD_PONG] src/cdn/include/pacetun/record.hpp:12-12 *)
Definition RECORD_PONG : Z := 0x04.
(** [RECORD_DRAIN] src/cdn/include/pacetun/record.hpp:13-13 *)
Definition RECORD_DRAIN : Z := 0x08.
(** [RECORD_PADDED] src/cdn/include/pacetun/record.hpp:15-15 *)
Definition RECORD_PADDED : Z := 0x10.
(** [RECORD_ENVELOPE] src/cdn/include/pacetun/record.hpp:16-16 *)
Definition RECORD_ENVELOPE : Z := 0x20.

(** ** Record shapes *)

(** [validate_record_shape] src/cdn/src/record.cpp:54-65 *)
Definition validate_record_shape (flags len : Z) (wire : bytes) : res unit :=
  let ptt5 := bool_decide (wire = str "PTT5") in
  if (flags =? RECORD_ENVELOPE) && ptt5 then
    throw_if (len <? 3) (str "invalid envelope length")
  else if (flags =? RECORD_PADDED) && ptt5 then
    throw_if (len <? 22) (str "invalid padded record length")
  else if (flags =? RECORD_DRAIN) && ptt5 then
    throw_if (negb (len =? 0)) (str "invalid drain length")
  else
    let known := Z.lor (Z.lor RECORD_KEEPALIVE RECORD_PING) RECORD_PONG in
    throw_if (negb (Z.land flags (Z.lnot known) =? 0))
      (str "unknown " ++ wire ++ str " flags") ;;
    throw_if (negb (flags =? 0) && negb (flags =? RECORD_KEEPALIVE)
              && negb (flags =? RECORD_PING) && negb (flags =? RECORD_PONG))
      (str "ambiguous " ++ wire ++ str " control flags") ;;
    throw_if ((flags =? 0) && (len <? 20)) (str "invalid inner packet length") ;;
    throw_if ((flags =? RECORD_KEEPALIVE) && negb (len =? 0)) (str "invalid keepalive") ;;
    throw_if (((flags =? RECORD_PING) || (flags =? RECORD_PONG)) && negb (len =? 8))
      (str "invalid control record").

(** The parameters that tell PTT4 and PTT5 apart: [magic4], [version] and
    [nonce_label]. *)
Record Variant := { magic4 : Z; version : Z; nonce_label : bytes }.

Definition PTT4 : Variant := {| magic4 := 52; version := 4; nonce_label := str "pacetun-v4-nonce" |}.
Definition PTT5 : Variant := {| magic4 := 53; version := 5; nonce_label := str "pacetun-v5-nonce" |}.

(** Which wire version the fourth magic byte names.
    [encode_aead_record] src/cdn/src/record.cpp:72-72 *)
Definition wire_of (magic4 : Z) : bytes := if magic4 =? 53 then str "PTT5" else str "PTT4".

(** The 16 header bytes every encoder writes: [v[0..15]].
    [encode_aead_record] src/cdn/src/record.cpp:73-76 *)
Definition record_header (m4 ver flags len seq : Z) : bytes :=
  [80; 84; 84; m4; ver; flags; Z.land (Z.shiftr len 8) 255; Z.land len 255] ++ be_bytes 8 seq.
Arguments record_header : simpl never.

Section Ops.
Context {C : Crypto}.

(** [nonce12_label] src/cdn/src/record.cpp:48-53 *)
Definition nonce12_label (key : bytes) (seq : Z) (label : bytes) : res bytes :=
  p ← mac key label ;
  Ok (take 4 p ++ be_bytes 8 seq).

(** [encode_aead_record] src/cdn/src/record.cpp:66-90 *)
Definition encode_aead_record (key : bytes) (seq : Z) (payload : bytes) (flags : Z) (v : Variant)
  : res bytes :=
  throw_if (negb (zlen key =? 32)) (str "AEAD key must be 32 bytes") ;;
  throw_if (seq =? 0) (str "record sequence exhausted") ;;
  throw_if (65535 <? zlen payload) (str "packet too large") ;;
  validate_record_shape flags (u16 (zlen payload)) (wire_of (magic4 v)) ;;
  let hdr := record_header (magic4 v) (version v) flags (zlen payload) seq in
  n ← nonce12_label key seq (nonce_label v) ;
  '(ct, tag) ← ctx_or_throw (chacha_seal key n hdr payload) (str "EVP_CIPHER_CTX_new failed")
    (str "ChaCha20-Poly1305 encrypt failed") ;
  throw_if (negb (zlen ct =? zlen payload)) (str "ChaCha20-Poly1305 encrypt failed") ;;
  Ok (hdr ++ ct ++ tag).

(** What the PTT4 and PTT5 decoders do with an authenticated record of
    plaintext [plain]: unwrap an envelope or a padded packet, or deliver it.
    [deliver_plain] src/cdn/src/record.cpp:122-131 *)
Definition deliver_plain (flags seq : Z) (plain : bytes) (total : Z) (d : Decoder) : Step :=
  if flags =? RECORD_ENVELOPE then
    let inner_flags := at_ plain 0 in
    let inner := Z.lor (Z.shiftl (at_ plain 1) 8) (at_ plain 2) in
    if (negb (inner_flags =? 0) && negb (inner_flags =? RECORD_KEEPALIVE)
        && negb (inner_flags =? RECORD_PING) && negb (inner_flags =? RECORD_PONG))
       || (zlen plain - 3 <? inner) || (1024 <? zlen plain - 3 - inner)
    then Reject d (str "invalid envelope payload")
    else match validate_record_shape inner_flags (u16 inner) (str "PTT5") with
         | Err e => Reject d e
         | Ok _ => Deliver inner_flags seq (take (Z.to_nat inner) (drop 3 plain)) total d
         end
  else if flags =? RECORD_PADDED then
    let inner := Z.lor (Z.shiftl (at_ plain 0) 8) (at_ plain 1) in
    if (inner <? 20) || (zlen plain - 2 <? inner) || (1024 <? zlen plain - 2 - inner)
    then Reject d (str "invalid padded payload")
    else Deliver 0 seq (take (Z.to_nat inner) (drop 2 plain)) total d
  else Deliver flags seq plain total d.

(** One iteration of the loop of [feed_aead].
    [feed_aead] src/cdn/src/record.cpp:91-134 *)
Definition aead_step (v : Variant) (d : Decoder) : Step :=
  let b := buffer_ d in
  if zlen b <? 16 then NeedMore
  else if negb ((at_ b 0 =? 80) && (at_ b 1 =? 84) && (at_ b 2 =? 84) && (at_ b 3 =? magic4 v))
          || negb (at_ b 4 =? version v)
  then Reject d (str "PTT" ++ [magic4 v] ++ str " record mismatch")
  else
    let flags := at_ b 5 in
    let len := header_len b in
    match validate_record_shape flags len (wire_of (magic4 v)) with
    | Err e => Reject d e
    | Ok _ =>
        let total := 16 + len + 16 in
        if max_buffer_bytes_ d <? total then Reject d (str "record exceeds buffer limit")
        else if zlen b <? total then NeedMore
        else
          let seq := header_seq b in
          if seq =? 0 then Reject d (str "invalid record sequence")
          else match nonce12_label (key_ d) seq (nonce_label v) with
          | Err e => Throw e
          | Ok n =>
              let ct := take (Z.to_nat len) (drop 16 b) in
              let tag := take 16 (drop (Z.to_nat (16 + len)) b) in
              match chacha_open (key_ d) n (take 16 b) ct tag with
              | None => Reject d (str "record authentication failed")
              | Some plain =>
                  if negb (zlen plain =? len) then Reject d (str "record authentication failed")
                  else match note_sequence d seq with
                  | inl d' => Reject d' (str "record replay detected")
                  | inr d' => deliver_plain flags seq plain total d'
                  end
              end
          end
    end.

Definition limit_exceeded : bytes := str "record buffer limit exceeded".

(** [RecordDecoderV4::feed] src/cdn/src/record.cpp:174-174 *)
Definition feed_v4 {A} (cb : Z → Z → bytes → A → A * option bytes) :=
  feed_with (aead_step PTT4) cb limit_exceeded.
(** [RecordDecoderV5::feed] src/cdn/src/record.cpp:239-239 *)
Definition feed_v5 {A} (cb : Z → Z → bytes → A → A * option bytes) :=
  feed_with (aead_step PTT5) cb limit_exceeded.

(** [encode_record_v4] src/cdn/src/record.cpp:172-172 *)
Definition encode_record_v4 (key : bytes) (seq : Z) (payload : bytes) (flags : Z) : res bytes :=
  encode_aead_record key seq payload flags PTT4.
(** [encode_record_v5] src/cdn/src/record.cpp:214-214 *)
Definition encode_record_v5 (key : bytes) (seq : Z) (payload : bytes) (flags : Z) : res bytes :=
  encode_aead_record key seq payload flags PTT5.

(** [((unsigned(r[0]) << 8) | r[1]) % unsigned(max_padding + 1)].
    [encode_padded_record_v5] src/cdn/src/record.cpp:219-220 *)
Definition pad_of (r : bytes) (max_padding : Z) : Z :=
  Z.lor (Z.shiftl (at_ r 0) 8) (at_ r 1) mod (max_padding + 1).

(** [if (pad && RAND_bytes(..., pad) != 1) throw ...]: the padding bytes.
    [encode_padded_record_v5] src/cdn/src/record.cpp:224-224 *)
Definition draw_padding (pad : Z) (g : rng) : res (bytes * rng) :=
  if pad =? 0 then Ok ([], g)
  else or_throw (rand_bytes (Z.to_nat pad) g) (str "padding RNG failed").

(** [encode_padded_record_v5] src/cdn/src/record.cpp:215-226 *)
Definition encode_padded_record_v5 (key : bytes) (seq : Z) (payload : bytes) (max_padding : Z)
  (g : rng) : res (bytes * rng) :=
  throw_if ((max_padding <? 0) || (1024 <? max_padding)) (str "padding out of range") ;;
  if max_padding =? 0 then
    rec ← encode_record_v5 key seq payload 0 ; Ok (rec, g)
  else
    throw_if ((zlen payload <? 20) || (65535 <? zlen payload + 2 + max_padding))
      (str "invalid padded packet size") ;;
    '(r, g) ← or_throw (rand_bytes 2 g) (str "padding RNG failed") ;
    let pad := pad_of r max_padding in
    '(padding, g) ← draw_padding pad g ;
    let out := [u8 (Z.shiftr (zlen payload) 8); u8 (zlen payload)] ++ payload ++ padding in
    rec ← encode_record_v5 key seq out RECORD_PADDED ;
    Ok (rec, g).

(** [encode_envelope_record_v5] src/cdn/src/record.cpp:227-237 *)
Definition encode_envelope_record_v5 (key : bytes) (seq : Z) (payload : bytes) (flags : Z)
  (max_padding : Z) (g : rng) : res (bytes * rng) :=
  throw_if (negb (flags =? 0) && negb (flags =? RECORD_KEEPALIVE)
            && negb (flags =? RECORD_PING) && negb (flags =? RECORD_PONG))
    (str "invalid envelope flags") ;;
  throw_if ((max_padding <? 0) || (1024 <? max_padding)
            || (65535 <? zlen payload + 3 + max_padding)) (str "invalid envelope size") ;;
  validate_record_shape flags (u16 (zlen payload)) (str "PTT5") ;;
  '(r, g) ← or_throw (rand_bytes 2 g) (str "padding RNG failed") ;
  let pad := pad_of r max_padding in
  '(padding, g) ← draw_padding pad g ;
  let out := [flags; u8 (Z.shiftr (zlen payload) 8); u8 (zlen payload)] ++ payload ++ padding in
  rec ← encode_record_v5 key seq out RECORD_ENVELOPE ;
  Ok (rec, g).

(** *** PTT3 *)

(** [encode_record] src/cdn/src/record.cpp:157-160 *)
Definition encode_record (key : bytes) (seq : Z) (payload : bytes) (flags : Z) : res bytes :=
  throw_if (65535 <? zlen payload) (str "packet too large") ;;
  let v := record_header 51 3 flags (zlen payload) seq ++ payload in
  m ← mac key v ;
  Ok (v ++ take 16 m).

(** [RecordDecoder::verify_one] src/cdn/src/record.cpp:162-162 *)
Definition verify_one (d : Decoder) (total : Z) : res bool :=
  m ← mac (key_ d) (take (Z.to_nat (total - 16)) (buffer_ d)) ;
  Ok (bool_decide (take 16 m = take 16 (drop (Z.to_nat (total - 16)) (buffer_ d)))).

(** One iteration of the loop of [RecordDecoder::feed].
    [RecordDecoder::feed] src/cdn/src/record.cpp:163-166 *)
Definition v3_step (d : Decoder) : Step :=
  let b := buffer_ d in
  if zlen b <? 16 then NeedMore
  else if negb ((at_ b 0 =? 80) && (at_ b 1 =? 84) && (at_ b 2 =? 84) && (at_ b 3 =? 51))
  then Reject d (str "record magic mismatch")
  else if negb (at_ b 4 =? 3) then Reject d (str "unsupported record version")
  else
    let flags := at_ b 5 in
    let len := header_len b in
    if (flags =? 0) && (len <? 20) then Reject d (str "invalid inner packet length")
    else if negb (Z.land flags RECORD_KEEPALIVE =? 0) && negb (len =? 0)
    then Reject d (str "invalid keepalive record")
    else if negb (Z.land flags (Z.lor RECORD_PING RECORD_PONG) =? 0) && negb (len =? 8)
    then Reject d (str "invalid RTT control record")
    else if negb (Z.land flags (Z.lnot (Z.lor (Z.lor RECORD_KEEPALIVE RECORD_PING) RECORD_PONG)) =? 0)
    then Reject d (str "unknown record flags")
    else
      let total := 16 + len + 16 in
      if max_buffer_bytes_ d <? total then Reject d (str "record exceeds configured buffer limit")
      else if zlen b <? total then NeedMore
      else match verify_one d total with
      | Err e => Throw e
      | Ok false => Reject d (str "record authentication failed")
      | Ok true =>
          let seq := header_seq b in
          match note_sequence d seq with
          | inl d' => Reject d' (str "record replay or reordering detected")
          | inr d' => Deliver flags seq (take (Z.to_nat len) (drop 16 b)) total d'
          end
      end.

(** [RecordDecoder] src/cdn/src/record.cpp:161-166 *)
Definition feed_v3 {A} (cb : Z → Z → bytes → A → A * option bytes) :=
  feed_with v3_step cb limit_exceeded.
End Ops.

(** ** Reading a buffer that grows at its end *)

Lemma header_len_range b : 0 <= header_len b < 2 ^ 16.
Proof. apply Z.mod_pos_bound. lia. Qed.

Lemma header_len_app b x : 16 <= zlen b → header_len (b ++ x) = header_len b.
Proof. unfold zlen, header_len. intros H. by rewrite !at_app by lia. Qed.

Lemma header_seq_app b x : 16 <= zlen b → header_seq (b ++ x) = header_seq b.
Proof. unfold zlen, header_seq. intros H. by rewrite slice_app by lia. Qed.

Lemma note_sequence_extend d s x :
  note_sequence (extend_buffer x d) s =
    match note_sequence d s with
    | inl d' => inl (extend_buffer x d')
    | inr d' => inr (extend_buffer x d')
    end.
Proof. unfold note_sequence, extend_buffer, with_buffer. simpl. by destruct (_ && _). Qed.

Lemma deliver_plain_extend f s p t d x :
  deliver_plain f s p t (extend_buffer x d) = extend_step x (deliver_plain f s p t d).
Proof.
  unfold deliver_plain. destruct (_ =? _).
  - destruct (_ || _); [done|]. by destruct (validate_record_shape _ _ _).
  - destruct (_ =? _); [|done]. by destruct (_ || _).
Qed.

Lemma deliver_plain_deliver f s p t d f' s' p' t' d' :
  deliver_plain f s p t d = Deliver f' s' p' t' d' → s' = s ∧ t' = t ∧ d' = d.
Proof. unfold deliver_plain. repeat case_match; naive_solver. Qed.

Lemma deliver_plain_reject f s p t d d' e :
  deliver_plain f s p t d = Reject d' e → d' = d.
Proof. unfold deliver_plain. repeat case_match; naive_solver. Qed.

Section Laws.
Context {C : Crypto}.

(** Everything an authenticated record has passed when the body delivers it. *)
Lemma aead_step_deliver v d f s p t d' :
  aead_step v d = Deliver f s p t d' →
  let b := buffer_ d in
  let len := header_len b in
  16 <= zlen b ∧ at_ b 3 = magic4 v ∧ at_ b 4 = version v
  ∧ validate_record_shape (at_ b 5) len (wire_of (magic4 v)) = Ok tt
  ∧ t = 16 + len + 16 ∧ t <= max_buffer_bytes_ d ∧ t <= zlen b
  ∧ s = header_seq b ∧ s ≠ 0
  ∧ (∃ n plain,
       nonce12_label (key_ d) s (nonce_label v) = Ok n
       ∧ chacha_open (key_ d) n (take 16 b) (take (Z.to_nat len) (drop 16 b))
           (take 16 (drop (Z.to_nat (16 + len)) b)) = Some plain
       ∧ zlen plain = len
       ∧ deliver_plain (at_ b 5) s plain t d' = Deliver f s p t d')
  ∧ noted d s d'.
Proof using Type.
  unfold aead_step. intros H. repeat case_match; simplify_eq; bool_to_prop; simplify_eq.
  pose proof (deliver_plain_deliver _ _ _ _ _ _ _ _ _ _ H) as (-> & -> & ->).
  repeat match goal with
  | H : (_ =? _) = _ |- _ => first [apply Z.eqb_eq in H | apply Z.eqb_neq in H]
  | H : (_ <? _) = _ |- _ => first [apply Z.ltb_lt in H | apply Z.ltb_ge in H]
  | u : unit |- _ => destruct u
  end.
  repeat split; eauto 10; lia.
Qed.

Lemma aead_step_extend v d x :
  aead_step v d ≠ NeedMore → aead_step v (extend_buffer x d) = extend_step x (aead_step v d).
Proof using Type.
  unfold aead_step. simpl.
  destruct (Z.ltb_spec (zlen (buffer_ d)) 16) as [|H16]; [done|]. intros Hne.
  pose proof (zlen_nonneg x). rewrite zlen_app, (proj2 (Z.ltb_ge _ _)) by lia.
  rewrite header_len_app, header_seq_app, !at_app, take_app_le by (unfold zlen in *; lia).
  pose proof (header_len_range (buffer_ d)) as Hr.
  destruct (_ || _); [done|].
  destruct (validate_record_shape _ _ _); [|done].
  destruct (_ <? _); [done|].
  destruct (Z.ltb_spec (zlen (buffer_ d)) (16 + header_len (buffer_ d) + 16)) as [|Ht]; [done|].
  rewrite (proj2 (Z.ltb_ge _ _)) by lia.
  rewrite !slice_app by (unfold zlen in *; lia).
  destruct (_ =? 0); [done|]. destruct (nonce12_label _ _ _); [|done].
  destruct (chacha_open _ _ _ _ _); [|done]. destruct (negb _); [done|].
  rewrite note_sequence_extend. destruct (note_sequence _ _); [done|].
  apply deliver_plain_extend.
Qed.

#[export] Instance aead_laws v : StepLaws (aead_step v).
Proof using Type.
  split.
  - intros d f s p t d' (?&_&_&_&->&_&?&_&_&_&Hn)%aead_step_deliver.
    pose proof (header_len_range (buffer_ d)). split; [lia|done].
  - intros d d' e. unfold aead_step. intros H. repeat case_match; simplify_eq; auto.
    + right; left. eauto.
    + apply deliver_plain_reject in H as ->. right; right. exists (header_seq (buffer_ d)). done.
  - apply aead_step_extend.
  - intros d f s p t d' Hb (_&_&_&_&_&_&_&->&_)%aead_step_deliver.
    unfold header_seq. apply be_decode_range.
    + rewrite length_take. lia.
    + by apply Forall_take, Forall_drop.
  - intros d Hb. unfold aead_step. by rewrite Hb.
Qed.

(** *** PTT3 *)

Lemma verify_one_extend d x total :
  0 <= total - 16 → total <= zlen (buffer_ d) → verify_one (extend_buffer x d) total = verify_one d total.
Proof using Type.
  intros H0 Ht. unfold verify_one, zlen in *. simpl.
  rewrite take_app_le, slice_app by lia. done.
Qed.

Lemma v3_step_deliver d f s p t d' :
  v3_step d = Deliver f s p t d' →
  let b := buffer_ d in
  let len := header_len b in
  16 <= zlen b ∧ at_ b 3 = 51 ∧ at_ b 4 = 3 ∧ f = at_ b 5
  ∧ t = 16 + len + 16 ∧ t <= max_buffer_bytes_ d ∧ t <= zlen b
  ∧ verify_one d t = Ok true ∧ s = header_seq b
  ∧ p = take (Z.to_nat len) (drop 16 b) ∧ noted d s d'.
Proof using Type.
  unfold v3_step. intros H. repeat case_match; simplify_eq; bool_to_prop; simplify_eq.
  repeat match goal with
  | H : (_ =? _) = _ |- _ => first [apply Z.eqb_eq in H | apply Z.eqb_neq in H]
  | H : (_ <? _) = _ |- _ => first [apply Z.ltb_lt in H | apply Z.ltb_ge in H]
  end; repeat split; eauto; lia.
Qed.

Lemma v3_step_extend d x :
  v3_step d ≠ NeedMore → v3_step (extend_buffer x d) = extend_step x (v3_step d).
Proof using Type.
  unfold v3_step. simpl.
  destruct (Z.ltb_spec (zlen (buffer_ d)) 16) as [|H16]; [done|]. intros Hne.
  pose proof (zlen_nonneg x). rewrite zlen_app, (proj2 (Z.ltb_ge _ _)) by lia.
  rewrite header_len_app, header_seq_app, !at_app by (unfold zlen in *; lia).
  pose proof (header_len_range (buffer_ d)) as Hr.
  destruct (negb _); [done|]. destruct (negb _); [done|]. destruct (_ && _); [done|].
  destruct (_ && _); [done|]. destruct (_ && _); [done|]. destruct (negb _); [done|].
  destruct (_ <? _); [done|].
  destruct (Z.ltb_spec (zlen (buffer_ d)) (16 + header_len (buffer_ d) + 16)) as [|Ht]; [done|].
  rewrite (proj2 (Z.ltb_ge _ _)), verify_one_extend, slice_app by (unfold zlen in *; lia).
  destruct (verify_one _ _) as [[]|]; [|done..].
  rewrite note_sequence_extend. by destruct (note_sequence _ _).
Qed.

#[export] Instance v3_laws : StepLaws v3_step.
Proof using Type.
  split.
  - intros d f s p t d' (?&_&_&_&->&_&?&_&_&_&Hn)%v3_step_deliver.
    pose proof (header_len_range (buffer_ d)). split; [lia|done].
  - intros d d' e. unfold v3_step. intros H. repeat case_match; simplify_eq; auto.
    right; left. eauto.
  - apply v3_step_extend.
  - intros d f s p t d' Hb (_&_&_&_&_&_&_&_&->&_)%v3_step_deliver.
    unfold header_seq. apply be_decode_range.
    + rewrite length_take. lia.
    + by apply Forall_take, Forall_drop.
  - intros d Hb. unfold v3_step. by rewrite Hb.
Qed.
End Laws.

(** ** Encoders against decoders *)

Lemma length_record_header m4 ver f len seq : length (record_header m4 ver f len seq) = 16%nat.
Proof. unfold record_header. by rewrite length_app, length_be_bytes. Qed.

Lemma header_fields m4 ver f len seq rest :
  0 <= len < 65536 → u64_ok seq →
  let b := record_header m4 ver f len seq ++ rest in
  at_ b 0 = 80 ∧ at_ b 1 = 84 ∧ at_ b 2 = 84 ∧ at_ b 3 = m4 ∧ at_ b 4 = ver ∧ at_ b 5 = f
  ∧ header_len b = len ∧ header_seq b = seq
  ∧ take 16 b = record_header m4 ver f len seq ∧ drop 16 b = rest.
Proof.
  intros Hl Hs b. do 6 (split; [done|]).
  split; [|split; [|split]].
  - unfold header_len, at_, b, record_header. simpl. rewrite !land_255. change 256 with (2 ^ 8).
    fold (u8 (Z.shiftr len 8)) (u8 len). rewrite join16 by done. unfold u16.
    apply Z.mod_small. lia.
  - unfold header_seq. unfold b, record_header.
    change (drop 8 _) with (be_bytes 8 seq ++ rest).
    rewrite take_app_length' by (by rewrite length_be_bytes).
    apply be_decode_be_bytes; [lia|]. unfold u64_ok in Hs. lia.
  - unfold b. by rewrite take_app_length' by (by rewrite length_record_header).
  - unfold b. by rewrite drop_app_length' by (by rewrite length_record_header).
Qed.

#[local] Opaque record_header.

Section RoundTrip.
Context {C : Crypto} {L : CryptoLaws C}.

(** What a successful [encode_aead_record] has checked and produced. *)
Lemma encode_aead_inv key seq p f v r :
  encode_aead_record key seq p f v = Ok r →
  zlen key = 32 ∧ seq ≠ 0 ∧ 0 <= zlen p < 65536
  ∧ validate_record_shape f (zlen p) (wire_of (magic4 v)) = Ok tt
  ∧ zlen r = 32 + zlen p
  ∧ ∃ n ct tag, nonce12_label key seq (nonce_label v) = Ok n
    ∧ chacha_seal key n (record_header (magic4 v) (version v) f (zlen p) seq) p = Returned (ct, tag)
    ∧ zlen ct = zlen p ∧ length tag = 16%nat
    ∧ r = record_header (magic4 v) (version v) f (zlen p) seq ++ ct ++ tag.
Proof.
  unfold encode_aead_record. intros H.
  pose proof (length_record_header (magic4 v) (version v) f (zlen p) seq) as Hh16.
  set (h := record_header _ _ _ _ _) in *. clearbody h. res_inv. bool_to_prop.
  pose proof (zlen_nonneg p).
  match goal with Hseal : chacha_seal _ _ _ _ = Returned _ |- _ =>
    pose proof (chacha_seal_length _ _ _ _ _ _ Hseal) as [Hc Ht] end.
  assert (u16 (zlen p) = zlen p) as Hu by (apply Z.mod_small; lia). rewrite Hu in *.
  repeat match goal with u : unit |- _ => destruct u end.
  repeat split; eauto 10; try lia.
  unfold zlen in *. rewrite !length_app. lia.
Qed.

(** A record at the front of the buffer is authenticated and unwrapped. *)
Lemma encode_aead_step key seq p f v r d rest :
  encode_aead_record key seq p f v = Ok r →
  key_ d = key → buffer_ d = r ++ rest → zlen r <= max_buffer_bytes_ d → u64_ok seq →
  magic4 v = 52 ∨ magic4 v = 53 →
  aead_step v d =
    match note_sequence d seq with
    | inl d' => Reject d' (str "record replay detected")
    | inr d' => deliver_plain f seq p (zlen r) d'
    end.
Proof.
  intros (Hk & Hs0 & Hp & Hv & Hlen & n & ct & tag & Hn & Hseal & Hct & Htag & Hr)%encode_aead_inv
    Hkey Hbuf Hmax Hu Hm4.
  rewrite Hr, <- !app_assoc in Hbuf.
  pose proof (header_fields (magic4 v) (version v) f (zlen p) seq (ct ++ tag ++ rest) Hp Hu)
    as (H0&H1&H2&H3&H4&H5&Hl&Hq&Ht&Hd).
  assert (Hzb : zlen (buffer_ d) = 32 + zlen p + zlen rest).
  { rewrite Hbuf. unfold zlen in *. rewrite !length_app, length_record_header. lia. }
  pose proof (zlen_nonneg rest).
  unfold aead_step. rewrite Hzb, (proj2 (Z.ltb_ge _ _)) by lia.
  rewrite Hbuf, H0, H1, H2, H3, H4, H5, Hl, Hq, Ht, Hv, !Z.eqb_refl. simpl.
  rewrite (proj2 (Z.ltb_ge _ _)) by lia. rewrite (proj2 (Z.ltb_ge _ _)) by lia.
  rewrite (proj2 (Z.eqb_neq _ _)) by done. rewrite Hkey, Hn, Hd.
  replace (drop (Z.to_nat (16 + zlen p)) _) with (tag ++ rest).
  2:{ replace (Z.to_nat (16 + zlen p)) with (16 + length ct)%nat by (unfold zlen in *; lia).
      rewrite <- drop_drop, Hd. by rewrite drop_app_length. }
  rewrite (take_app_length' ct), (take_app_length' tag) by (unfold zlen in *; lia).
  rewrite (chacha_open_seal _ _ _ _ _ _ Hseal), Z.eqb_refl. simpl.
  by replace (16 + zlen p + 16) with (zlen r) by lia.
Qed.

(** [r] is what one of the PTT5 encoders returned for the delivery [x]. *)
Inductive encodes (key : bytes) : Delivery → bytes → Prop :=
| encodes_plain f s p r :
    f ≠ RECORD_PADDED → f ≠ RECORD_ENVELOPE → encode_record_v5 key s p f = Ok r →
    encodes key (mkDelivery f s p) r
| encodes_padded s p m g r g' :
    encode_padded_record_v5 key s p m g = Ok (r, g') → encodes key (mkDelivery 0 s p) r
| encodes_envelope f s p m g r g' :
    encode_envelope_record_v5 key s p f m g = Ok (r, g') → encodes key (mkDelivery f s p) r.

Lemma pad_of_range r m : 0 <= m → 0 <= pad_of r m <= m.
Proof using Type.
  intros Hm. unfold pad_of. pose proof (Z.mod_pos_bound (Z.lor (at_ r 0 ≪ 8) (at_ r 1)) (m + 1)). lia.
Qed.

Lemma draw_padding_length pad g padding g' :
  0 <= pad → draw_padding pad g = Ok (padding, g') → zlen padding = pad.
Proof.
  intros H0. unfold draw_padding. destruct (Z.eqb_spec pad 0) as [->|].
  - by intros [= <- _].
  - intros H. res_inv. apply rand_bytes_length in Heqo. unfold zlen. lia.
Qed.

(** What a padded record carries, and how much longer it is. *)
Lemma encode_padded_inv key s p m g r g' :
  encode_padded_record_v5 key s p m g = Ok (r, g') →
  (m = 0 ∧ encode_record_v5 key s p 0 = Ok r) ∨
  (0 < m <= 1024 ∧ 20 <= zlen p ∧ zlen p + 2 + m < 65536 ∧ ∃ padding,
     0 <= zlen padding <= m ∧
     encode_record_v5 key s ([u8 (Z.shiftr (zlen p) 8); u8 (zlen p)] ++ p ++ padding)
       RECORD_PADDED = Ok r).
Proof.
  unfold encode_padded_record_v5. intros H.
  apply bind_ok in H as (u & Hc & H). apply throw_if_ok in Hc. bool_to_prop.
  destruct (Z.eqb_spec m 0) as [->|Hm]; [left; res_inv; done|right].
  apply bind_ok in H as (u' & Hc & H). apply throw_if_ok in Hc. bool_to_prop.
  res_inv. split; [lia|]. split; [lia|]. split; [lia|].
  match goal with Hp : draw_padding _ _ = Ok (?x, _) |- _ =>
    exists x; apply draw_padding_length in Hp; [|apply pad_of_range; lia];
    rewrite Hp; split; [apply pad_of_range; lia|done] end.
Qed.

Lemma encode_envelope_inv key s p f m g r g' :
  encode_envelope_record_v5 key s p f m g = Ok (r, g') →
  0 <= m <= 1024 ∧ zlen p + 3 + m < 65536 ∧ f ∈ [0; RECORD_KEEPALIVE; RECORD_PING; RECORD_PONG]
  ∧ validate_record_shape f (zlen p) (str "PTT5") = Ok tt ∧ ∃ padding,
     0 <= zlen padding <= m ∧
     encode_record_v5 key s ([f; u8 (Z.shiftr (zlen p) 8); u8 (zlen p)] ++ p ++ padding)
       RECORD_ENVELOPE = Ok r.
Proof.
  unfold encode_envelope_record_v5. intros H. pose proof (zlen_nonneg p).
  apply bind_ok in H as (u & Hf & H). apply throw_if_ok in Hf.
  apply bind_ok in H as (u' & Hc & H). apply throw_if_ok in Hc. bool_to_prop.
  apply bind_ok in H as ([] & Hv & H).
  assert (u16 (zlen p) = zlen p) as Hu by (apply Z.mod_small; lia). rewrite Hu in Hv.
  res_inv. split; [lia|]. split; [lia|]. split; [|split; [done|]].
  { rewrite !andb_false_iff, !negb_false_iff, !Z.eqb_eq in Hf. rewrite !elem_of_cons. tauto. }
  match goal with Hp : draw_padding _ _ = Ok (?x, _) |- _ =>
    exists x; apply draw_padding_length in Hp; [|apply pad_of_range; lia];
    rewrite Hp; split; [apply pad_of_range; lia|done] end.
Qed.

Lemma note_sequence_fresh d s :
  (have_seq_ d = true → highest_seq_ d < s) → ∃ d', note_sequence d s = inr d'.
Proof using Type.
  intros H. unfold note_sequence. destruct (have_seq_ d) eqn:Hh; simpl; [|eauto].
  specialize (H eq_refl). rewrite (proj2 (Z.leb_gt _ _)) by lia. eauto.
Qed.

Lemma deliver_padded p padding s t d :
  20 <= zlen p < 65536 → zlen padding <= 1024 →
  deliver_plain RECORD_PADDED s ([u8 (Z.shiftr (zlen p) 8); u8 (zlen p)] ++ p ++ padding) t d
  = Deliver 0 s p t d.
Proof using Type.
  intros Hp Hpad. unfold deliver_plain. simpl. pose proof (zlen_nonneg padding).
  unfold at_; simpl. rewrite join16 by lia. autorewrite with pt.
  rewrite (proj2 (Z.ltb_ge _ _)) by lia. simpl.
  rewrite !(proj2 (Z.ltb_ge _ _)) by lia. simpl.
  by rewrite drop_0, zlen_length, take_app_length.
Qed.

Lemma deliver_envelope f p padding s t d :
  zlen p < 65536 → zlen padding <= 1024 → f ∈ [0; RECORD_KEEPALIVE; RECORD_PING; RECORD_PONG] →
  validate_record_shape f (zlen p) (str "PTT5") = Ok tt →
  deliver_plain RECORD_ENVELOPE s ([f; u8 (Z.shiftr (zlen p) 8); u8 (zlen p)] ++ p ++ padding) t d
  = Deliver f s p t d.
Proof using Type.
  intros Hp Hpad Hf Hv. unfold deliver_plain. pose proof (zlen_nonneg padding).
  pose proof (zlen_nonneg p). unfold at_; simpl. rewrite join16 by lia. autorewrite with pt.
  rewrite (proj2 (Z.ltb_ge _ _)) by lia. rewrite (proj2 (Z.ltb_ge 1024 _)) by lia.
  assert (u16 (zlen p) = zlen p) as -> by (apply Z.mod_small; lia). rewrite Hv.
  rewrite drop_0, zlen_length, take_app_length.
  assert (negb (f =? 0) && negb (f =? RECORD_KEEPALIVE) && negb (f =? RECORD_PING)
          && negb (f =? RECORD_PONG) = false) as ->; [|done].
  rewrite !elem_of_cons, elem_of_nil in Hf. rewrite !andb_false_iff, !negb_false_iff, !Z.eqb_eq.
  tauto.
Qed.

(** The decoder delivers exactly what an encoder was given. *)
Lemma encodes_step key d x r rest :
  encodes key x r → key_ d = key → buffer_ d = r ++ rest → zlen r <= max_buffer_bytes_ d →
  u64_ok (d_seq x) → (have_seq_ d = true → highest_seq_ d < d_seq x) →
  ∃ d', aead_step PTT5 d = Deliver (d_flags x) (d_seq x) (d_payload x) (zlen r) d'.
Proof.
  intros He Hk Hb Hm Hu Hlt. destruct (note_sequence_fresh d (d_seq x) Hlt) as [d' Hd'].
  exists d'. destruct He as [f s p r Hf1 Hf2 He|s p m g r g' He|f s p m g r g' He]; simpl in *.
  - erewrite encode_aead_step; [|done..|by right]. rewrite Hd'. unfold deliver_plain.
    by rewrite !(proj2 (Z.eqb_neq f _)) by done.
  - apply encode_padded_inv in He as [[-> He]|(Hm1 & Hp & Hp2 & padding & Hpad & He)];
      (erewrite encode_aead_step; [|done..|by right]); rewrite Hd'; [done|].
    apply deliver_padded; lia.
  - apply encode_envelope_inv in He as (Hm1 & Hp & Hf & Hv & padding & Hpad & He).
    erewrite encode_aead_step; [|done..|by right]. rewrite Hd'.
    apply deliver_envelope; auto; lia.
Qed.

Lemma encodes_length key x r :
  encodes key x r → zlen (d_payload x) + 32 <= zlen r <= zlen (d_payload x) + 32 + 3 + 1024.
Proof.
  destruct 1 as [f s p r _ _ He|s p m g r g' He|f s p m g r g' He]; simpl.
  - apply encode_aead_inv in He as (_&_&_&_&?&_). lia.
  - apply encode_padded_inv in He as [[-> He]|(?&?&?&padding&?&He)];
      apply encode_aead_inv in He as (_&_&_&_&Hl&_); [lia|].
    rewrite !zlen_app in Hl. change (zlen [_; _]) with 2 in Hl. lia.
  - apply encode_envelope_inv in He as (?&?&_&_&padding&?&He).
    apply encode_aead_inv in He as (_&_&_&_&Hl&_).
    rewrite !zlen_app in Hl. change (zlen [_; _; _]) with 3 in Hl. lia.
Qed.

Lemma encodes_small key x r : encodes key x r → zlen r <= 65535 + 32.
Proof.
  destruct 1 as [f s p r _ _ He|s p m g r g' He|f s p m g r g' He].
  - apply encode_aead_inv in He as (_&_&?&_&?&_). lia.
  - apply encode_padded_inv in He as [[-> He]|(_&_&_&padding&_&He)]; apply encode_aead_inv in He as (_&_&?&_&?&_); lia.
  - apply encode_envelope_inv in He as (_&_&_&_&padding&_&He). apply encode_aead_inv in He as (_&_&?&_&?&_). lia.
Qed.
End RoundTrip.

(** ** PTT3 round trip *)

(** The checks the PTT3 decoder makes on flags and length. *)
Definition v3_shape (flags len : Z) : bool :=
  negb ((flags =? 0) && (len <? 20))
  && negb (negb (Z.land flags RECORD_KEEPALIVE =? 0) && negb (len =? 0))
  && negb (negb (Z.land flags (Z.lor RECORD_PING RECORD_PONG) =? 0) && negb (len =? 8))
  && (Z.land flags (Z.lnot (Z.lor (Z.lor RECORD_KEEPALIVE RECORD_PING) RECORD_PONG)) =? 0).

Lemma v3_step_shape {C : Crypto} d f s p t d' :
  v3_step d = Deliver f s p t d' → v3_shape f (zlen p) = true.
Proof.
  intros H. pose proof (v3_step_deliver _ _ _ _ _ _ H) as (_&_&_&Hf&Ht&_&Hb&_&_&Hp&_).
  pose proof (header_len_range (buffer_ d)) as Hr.
  assert (Hz : zlen p = header_len (buffer_ d)).
  { rewrite Hp. unfold zlen in *. rewrite length_take, length_drop. lia. }
  rewrite Hz. unfold v3_step in H. unfold v3_shape. subst f.
  repeat case_match; simplify_eq;
    repeat match goal with
    | E : negb _ = false |- _ => apply negb_false_iff in E
    | E : (_ && _) = false |- _ => rewrite E; clear E
    end; done.
Qed.

Definition encodes3 {C : Crypto} (key : bytes) (x : Delivery) (r : bytes) : Prop :=
  v3_shape (d_flags x) (zlen (d_payload x)) = true
  ∧ encode_record key (d_seq x) (d_payload x) (d_flags x) = Ok r.

Section RoundTrip3.
Context {C : Crypto}.

Lemma mac_length key data m : mac key data = Ok m → zlen m = 32.
Proof using Type. unfold mac. intros H. res_inv. bool_to_prop. done. Qed.

Lemma encode_record_inv key s p f r :
  encode_record key s p f = Ok r →
  0 <= zlen p < 65536 ∧ zlen r = 32 + zlen p ∧
  ∃ m, mac key (record_header 51 3 f (zlen p) s ++ p) = Ok m
       ∧ length (take 16 m) = 16%nat ∧ r = record_header 51 3 f (zlen p) s ++ p ++ take 16 m.
Proof using Type.
  unfold encode_record. intros H. apply bind_ok in H as (u & Hc & H). apply throw_if_ok in Hc.
  bool_to_prop. apply bind_ok in H as (m & Hm & [= <-]). pose proof (mac_length _ _ _ Hm) as Hl.
  pose proof (zlen_nonneg p).
  assert (length (take 16 m) = 16%nat) as H16 by (rewrite length_take; unfold zlen in Hl; lia).
  split; [lia|]. split.
  - unfold zlen in *. rewrite !length_app, length_record_header. lia.
  - exists m. by rewrite <- app_assoc.
Qed.

Lemma encodes3_step key d x r rest :
  encodes3 key x r → key_ d = key → buffer_ d = r ++ rest → zlen r <= max_buffer_bytes_ d →
  u64_ok (d_seq x) → (have_seq_ d = true → highest_seq_ d < d_seq x) →
  ∃ d', v3_step d = Deliver (d_flags x) (d_seq x) (d_payload x) (zlen r) d'.
Proof using Type.
  destruct x as [f s p]. intros [Hshape (Hp & Hlen & m & Hm & Ht & Hr)%encode_record_inv] Hk Hb Hmax Hu Hlt.
  simpl in *. destruct (note_sequence_fresh d s Hlt) as [d' Hd']. exists d'.
  rewrite Hr, <- !app_assoc in Hb.
  pose proof (header_fields 51 3 f (zlen p) s (p ++ take 16 m ++ rest) Hp Hu)
    as (H0&H1&H2&H3&H4&H5&Hl&Hq&Htk&Hd).
  assert (Hzb : zlen (buffer_ d) = 32 + zlen p + zlen rest).
  { rewrite Hb. unfold zlen in *. rewrite !length_app, length_record_header. lia. }
  pose proof (zlen_nonneg rest).
  assert (Hcut : take (Z.to_nat (16 + zlen p)) (buffer_ d) = record_header 51 3 f (zlen p) s ++ p
                 ∧ drop (Z.to_nat (16 + zlen p)) (buffer_ d) = take 16 m ++ rest).
  { rewrite Hb, app_assoc. split; [apply take_app_length'|apply drop_app_length'];
      rewrite length_app, length_record_header; unfold zlen; lia. }
  unfold v3_step, verify_one. rewrite Hzb, (proj2 (Z.ltb_ge _ _)) by lia.
  unfold v3_shape in Hshape. rewrite !andb_true_iff, !negb_true_iff in Hshape.
  destruct Hshape as [[[E1 E2] E3] E4].
  rewrite Hb, H0, H1, H2, H3, H4, H5, Hl, Hq, Hd, E1, E2, E3, E4. rewrite Hb in Hcut.
  destruct Hcut as [Hc1 Hc2].
  replace (16 + zlen p + 16 - 16) with (16 + zlen p) by lia. rewrite Hc1, Hc2, Hk, Hm.
  rewrite (proj2 (Z.ltb_ge _ _)) by lia. rewrite (proj2 (Z.ltb_ge _ _)) by lia.
  rewrite (take_app_length' (take 16 m)), zlen_length, take_app_length, Hd' by lia.
  simpl. rewrite bool_decide_true by done. by replace (16 + zlen p + 16) with (zlen r) by lia.
Qed.
End RoundTrip3.

(** ** Properties *)

(** The per-record bodies of the three wire versions. *)
Definition decoders {C : Crypto} : list (Decoder → Step) :=
  [v3_step; aead_step PTT4; aead_step PTT5].

Lemma decoders_laws {C : Crypto} step : step ∈ decoders → StepLaws step.
Proof.
  unfold decoders. rewrite !elem_of_cons, elem_of_nil.
  intros [->|[->|[->|[]]]]; apply _.
Qed.

(** The header, ciphertext and tag of a record authenticate under the key and
    the nonce of the delivered sequence number, and the delivery is what the
    plaintext holds. *)
Definition authentic {C : Crypto} (v : Variant) (key : bytes) (x : Delivery) : Prop :=
  ∃ n hdr ct tag plain t d0,
    length hdr = 16%nat ∧ header_seq hdr = d_seq x
    ∧ nonce12_label key (d_seq x) (nonce_label v) = Ok n
    ∧ chacha_open key n hdr ct tag = Some plain
    ∧ deliver_plain (at_ hdr 5) (d_seq x) plain t d0
      = Deliver (d_flags x) (d_seq x) (d_payload x) t d0.

Lemma deliver_plain_any f s plain t d f' s' p t' d' t2 d2 :
  deliver_plain f s plain t d = Deliver f' s' p t' d' →
  deliver_plain f s plain t2 d2 = Deliver f' s p t2 d2.
Proof. unfold deliver_plain. repeat case_match; naive_solver. Qed.

(** The last five checks of [validate_record_shape], which both AEAD versions make. *)
Definition control_shape (flags len : Z) (wire : bytes) : res unit :=
  throw_if (negb (Z.land flags (Z.lnot (Z.lor (Z.lor RECORD_KEEPALIVE RECORD_PING) RECORD_PONG)) =? 0))
    (str "unknown " ++ wire ++ str " flags") ;;
  throw_if (negb (flags =? 0) && negb (flags =? RECORD_KEEPALIVE)
            && negb (flags =? RECORD_PING) && negb (flags =? RECORD_PONG))
    (str "ambiguous " ++ wire ++ str " control flags") ;;
  throw_if ((flags =? 0) && (len <? 20)) (str "invalid inner packet length") ;;
  throw_if ((flags =? RECORD_KEEPALIVE) && negb (len =? 0)) (str "invalid keepalive") ;;
  throw_if (((flags =? RECORD_PING) || (flags =? RECORD_PONG)) && negb (len =? 8))
    (str "invalid control record").

(** Decide a [throw_if] at concrete flags. *)
Ltac by_shape := unfold RECORD_KEEPALIVE, RECORD_PING, RECORD_PONG, RECORD_DRAIN, RECORD_PADDED,
  RECORD_ENVELOPE in *; cbn; unfold throw_if;
  repeat match goal with
  | |- context [?a <? ?b] => destruct (Z.ltb_spec a b)
  | |- context [negb (?a =? ?b)] => destruct (Z.eqb_spec a b)
  end; cbn; split; intros; try done; try lia.

Lemma control_shape_spec flags len wire :
  control_shape flags len wire = Ok tt ↔
    (flags = 0 ∧ 20 <= len) ∨ (flags = RECORD_KEEPALIVE ∧ len = 0)
    ∨ ((flags = RECORD_PING ∨ flags = RECORD_PONG) ∧ len = 8).
Proof.
  unfold control_shape.
  destruct (decide (flags = 0)) as [->|]; [by_shape|].
  destruct (decide (flags = RECORD_KEEPALIVE)) as [->|]; [by_shape|].
  destruct (decide (flags = RECORD_PING)) as [->|]; [by_shape|].
  destruct (decide (flags = RECORD_PONG)) as [->|]; [by_shape|].
  rewrite !(proj2 (Z.eqb_neq flags _)) by done. split; [by intros (u & _ & H)%bind_ok|lia].
Qed.

Section Properties.
Context {C : Crypto}.

(** C4: a PTT5 stream is delivered as it was sent. For records the three PTT5
    encoders returned for deliveries with increasing sequence numbers, none longer
    than [limit], however the byte stream is cut into messages each of which leaves
    room for [limit] bytes in the decoder's buffer (the longest message and the
    longest record together are within its limit; [feed] throws when they do not
    fit), the decoder accepts every message, hands the callback exactly those
    deliveries in order, and ends with an empty buffer. *)
Theorem ptt5_stream_delivered {L : CryptoLaws C} key max limit chunks xs rs :
  Forall2 (encodes key) xs rs → concat chunks = concat rs →
  StronglySorted Z.lt (map d_seq xs) → Forall (λ x, u64_ok (d_seq x)) xs →
  Forall (λ r, zlen r <= limit) rs → Forall (λ c, zlen c + limit <= max) chunks →
  0 <= limit <= max →
  ∃ d', feed_all (aead_step PTT5) collect limit_exceeded (new_decoder key max) chunks []
          = Some (d', xs, Accepted)
        ∧ buffer_ d' = [].
Proof.
  apply (fresh_stream (aead_step PTT5) key (encodes key)). intros. eapply encodes_step; eauto.
Qed.

(** The same for the PTT3 encoder and decoder, for flags and payloads of a
    shape the decoder knows. *)
Theorem ptt3_stream_delivered key max limit chunks xs rs :
  Forall2 (encodes3 key) xs rs → concat chunks = concat rs →
  StronglySorted Z.lt (map d_seq xs) → Forall (λ x, u64_ok (d_seq x)) xs →
  Forall (λ r, zlen r <= limit) rs → Forall (λ c, zlen c + limit <= max) chunks →
  0 <= limit <= max →
  ∃ d', feed_all v3_step collect limit_exceeded (new_decoder key max) chunks []
          = Some (d', xs, Accepted)
        ∧ buffer_ d' = [].
Proof.
  apply (fresh_stream v3_step key (encodes3 key)). intros. eapply encodes3_step; eauto.
Qed.

(** C5: anti-replay. Whatever bytes arrive, in whatever messages, the sequence
    numbers a decoder delivers grow strictly. *)
Theorem deliveries_strictly_increase step key max msg chunks d' ds r :
  step ∈ decoders →
  feed_all step collect msg (new_decoder key max) chunks [] = Some (d', ds, r) →
  StronglySorted Z.lt (map d_seq ds).
Proof.
  intros Hs H. pose proof (decoders_laws step Hs).
  apply (feed_all_increasing step) in H as [H _]; auto with pt.
Qed.

(** C6: a record that authenticates but repeats or precedes the highest
    sequence number seen is refused, nothing is delivered, and the replay
    counter grows by one. *)
Theorem ptt5_replay_refused {L : CryptoLaws C} {A} (cb : Z → Z → bytes → A → A * option bytes)
  d s p f r a :
  encode_record_v5 (key_ d) s p f = Ok r → buffer_ d = [] → zlen r <= max_buffer_bytes_ d →
  u64_ok s → have_seq_ d = true → s <= highest_seq_ d →
  ∃ d', feed_v5 cb d r a = Some (d', a, Rejected (str "record replay detected"))
        ∧ replay_drops_ d' = u64 (replay_drops_ d + 1) ∧ highest_seq_ d' = highest_seq_ d.
Proof.
  intros He Hb Hm Hu Hh Hle.
  pose proof (encode_aead_step (key_ d) s p f PTT5 r (with_buffer r d) [] He) as Hstep.
  unfold feed_v5, feed_with. rewrite Hb, (proj2 (Z.ltb_ge _ _)) by (rewrite zlen_nil; lia).
  simpl. rewrite Hstep; [|done|simpl; by rewrite app_nil_r|done|done|by right].
  unfold note_sequence. simpl. rewrite Hh, (proj2 (Z.leb_le _ _)) by lia. simpl.
  eexists. by repeat split.
Qed.

(** C7: nothing is delivered that the AEAD did not authenticate: every delivery
    comes from a header, ciphertext and tag that open under the session key
    with the nonce of the delivered sequence number. *)
Theorem ptt5_deliveries_authentic key max chunks d' ds r :
  feed_all (aead_step PTT5) collect limit_exceeded (new_decoder key max) chunks []
    = Some (d', ds, r) →
  Forall (authentic PTT5 key) ds.
Proof.
  intros H. apply (feed_all_inv _ (λ d acc, key_ d = key ∧ Forall (authentic PTT5 key) acc)) in H;
    [by destruct H| done | | |by split].
  - intros d acc f s p t d1 [Hk HF] (H16&_&_&_&_&_&_&Hs&_&(n&plain&Hn&Ho&_&Hd)&Hnote)%aead_step_deliver.
    apply noted_fields in Hnote as (Hk1&_). split; [simpl; congruence|].
    apply Forall_app. split; [done|]. apply Forall_singleton.
    exists n, (take 16 (buffer_ d)). do 3 eexists. exists t, d1. simpl.
    assert (Hcut : at_ (take 16 (buffer_ d)) 5 = at_ (buffer_ d) 5
                   ∧ header_seq (take 16 (buffer_ d)) = header_seq (buffer_ d)).
    { rewrite <- (take_drop 16 (buffer_ d)) at 2 4.
      assert (length (take 16 (buffer_ d)) = 16%nat) by (rewrite length_take; unfold zlen in *; lia).
      rewrite at_app, header_seq_app by (unfold zlen; lia). done. }
    destruct Hcut as [-> ->]. rewrite Hk in *. repeat split; eauto.
    rewrite length_take. unfold zlen in *. lia.
  - intros d acc d1 e [Hk HF] [->|[[s Hn]|[s Hn]]]%(step_reject (step := aead_step PTT5)); [done|..].
    + unfold note_sequence in Hn. destruct (_ && _); [|done]. by injection Hn as <-.
    + apply noted_fields in Hn as (Hk1&_). by rewrite Hk1.
Qed.

(** The gap counter. After any accepted messages, it is the number of
    sequence numbers missing between the first and the last delivered record,
    modulo the width of the counter. *)
Theorem gap_counter_exact step key max msg chunks d' ds :
  step ∈ decoders → Forall (Forall byte_ok) chunks →
  feed_all step collect msg (new_decoder key max) chunks [] = Some (d', ds, Accepted) →
  sequence_gaps_ d' = missing ds.
Proof.
  intros Hs Hb H. pose proof (decoders_laws step Hs).
  apply (feed_all_gaps step) in H as (_ & _ & HG); auto with pt.
  destruct ds; simpl in *; [tauto|]. by destruct HG as (_ & HG & _).
Qed.

(** C8: where a message ends does not matter: two messages that fit in the
    buffer limit have the effect of their concatenation, until the first error. *)
Theorem feed_independent_of_cutting step {A} (cb : Z → Z → bytes → A → A * option bytes)
  msg d b1 b2 a :
  step ∈ decoders → zlen (buffer_ d) + zlen b1 + zlen b2 <= max_buffer_bytes_ d →
  feed_with step cb msg d (b1 ++ b2) a =
    match feed_with step cb msg d b1 a with
    | Some (d', a', Accepted) => feed_with step cb msg d' b2 a'
    | Some (d', a', r) => Some (with_buffer (buffer_ d' ++ b2) d', a', r)
    | None => None
    end.
Proof. intros Hs. pose proof (decoders_laws step Hs). by apply feed_app. Qed.

(** C9: [feed] returns for every input, and the buffer never grows past the
    configured limit. *)
Theorem feed_total_and_bounded step {A} (cb : Z → Z → bytes → A → A * option bytes) msg d b a :
  step ∈ decoders → zlen (buffer_ d) <= max_buffer_bytes_ d →
  ∃ d' a' r, feed_with step cb msg d b a = Some (d', a', r)
             ∧ zlen (buffer_ d') <= max_buffer_bytes_ d.
Proof.
  intros Hs Hb. pose proof (decoders_laws step Hs).
  destruct (feed_terminates step cb msg d b a) as [[[d' a'] r] Hf].
  exists d', a', r. split; [done|]. by apply (feed_bound step cb) in Hf as (? & <- & _).
Qed.

(** The shapes [validate_record_shape] accepts on PTT5, and on PTT4, where
    padded, enveloped and drain records do not exist. *)
Theorem record_shapes flags len :
  (validate_record_shape flags len (str "PTT5") = Ok tt ↔
     (flags = 0 ∧ 20 <= len) ∨ (flags = RECORD_KEEPALIVE ∧ len = 0)
     ∨ ((flags = RECORD_PING ∨ flags = RECORD_PONG) ∧ len = 8)
     ∨ (flags = RECORD_DRAIN ∧ len = 0) ∨ (flags = RECORD_PADDED ∧ 22 <= len)
     ∨ (flags = RECORD_ENVELOPE ∧ 3 <= len))
  ∧ (validate_record_shape flags len (str "PTT4") = Ok tt ↔
     (flags = 0 ∧ 20 <= len) ∨ (flags = RECORD_KEEPALIVE ∧ len = 0)
     ∨ ((flags = RECORD_PING ∨ flags = RECORD_PONG) ∧ len = 8)).
Proof.
  unfold RECORD_DRAIN, RECORD_PADDED, RECORD_ENVELOPE.
  split; unfold validate_record_shape;
    [rewrite bool_decide_true by done; fold (control_shape flags len (str "PTT5"))
    |rewrite bool_decide_false by done; fold (control_shape flags len (str "PTT4"))].
  - destruct (Z.eqb_spec flags RECORD_ENVELOPE) as [->|]; [by_shape|].
    destruct (Z.eqb_spec flags RECORD_PADDED) as [->|]; [by_shape|].
    destruct (Z.eqb_spec flags RECORD_DRAIN) as [->|]; [by_shape|].
    simpl andb. rewrite control_shape_spec. unfold RECORD_ENVELOPE, RECORD_PADDED, RECORD_DRAIN in *. lia.
  - rewrite !andb_false_r. apply control_shape_spec.
Qed.

(** Padding never costs more than configured: a padded record is at most
    [2 + max_padding], an enveloped one at most [3 + max_padding] bytes longer
    than the unpadded record of the same payload. *)
Theorem padding_cost_bounded {L : CryptoLaws C} key s p f m g r g' :
  (encode_padded_record_v5 key s p m g = Ok (r, g') →
     0 <= m <= 1024 ∧ zlen p + 32 <= zlen r <= zlen p + 32 + (if m =? 0 then 0 else 2 + m))
  ∧ (encode_envelope_record_v5 key s p f m g = Ok (r, g') →
     0 <= m <= 1024 ∧ zlen p + 35 <= zlen r <= zlen p + 35 + m).
Proof.
  split; intros H.
  - apply encode_padded_inv in H as [[-> He]|(?&?&?&padding&?&He)];
      apply encode_aead_inv in He as (_&_&_&_&Hl&_); [simpl; lia|].
    rewrite (proj2 (Z.eqb_neq _ _)) by lia.
    rewrite !zlen_app in Hl. change (zlen [_; _]) with 2 in Hl. lia.
  - apply encode_envelope_inv in H as (?&?&_&_&padding&?&He).
    apply encode_aead_inv in He as (_&_&_&_&Hl&_).
    rewrite !zlen_app in Hl. change (zlen [_; _; _]) with 3 in Hl. lia.
Qed.
End Properties.

(** ** Witnesses *)

Module Demo.
Import Toy.

Definition key : bytes := repeat 7 32.
Definition packet : bytes := repeat 69 20.
Definition ping : bytes := be_bytes 8 123456789.
Definition get (r : res bytes) : bytes := match r with Ok b => b | Err _ => [] end.
Definition get1 (r : res (bytes * Z)) : bytes := match r with Ok (b, _) => b | Err _ => [] end.

Definition r1 := get (encode_record_v5 key 1 packet 0).
Definition r2 := get1 (encode_envelope_record_v5 key 2 ping RECORD_PING 9 5).
Definition r3 := get1 (encode_padded_record_v5 key 4 packet 30 6).
Definition xs := [mkDelivery 0 1 packet; mkDelivery RECORD_PING 2 ping; mkDelivery 0 4 packet].
Definition stream := concat [r1; r2; r3].
Definition chunks := [take 13 stream; take 70 (drop 13 stream); drop 83 stream].
Definition p1 := get (encode_record key 1 packet 0).
Definition p2 := get (encode_record key 2 [] RECORD_KEEPALIVE).

(** A decoder that has seen sequence number 4. *)
Definition seen : Decoder := mkDecoder key [] 65536 true 4 0 1.
End Demo.

Import Toy.

(** Discharge a closed hypothesis by evaluating it. *)
Ltac eval_hyp := by vm_compute.
Ltac eval_bounds := repeat constructor; vm_compute; intuition discriminate.

Lemma ptt5_stream_delivered_witness :
  ∃ d', feed_all (aead_step PTT5) collect limit_exceeded (new_decoder Demo.key 65536) Demo.chunks []
          = Some (d', Demo.xs, Accepted)
        ∧ buffer_ d' = [].
Proof.
  apply (ptt5_stream_delivered Demo.key 65536 100 Demo.chunks Demo.xs [Demo.r1; Demo.r2; Demo.r3]).
  - constructor; [|constructor; [|constructor; [|constructor]]].
    + apply encodes_plain; by vm_compute.
    + eapply (encodes_envelope (C:=crypto) _ _ _ _ 9 5 _ 7). by vm_compute.
    + eapply (encodes_padded (C:=crypto) _ _ _ 30 6 _ 8). by vm_compute.
  - by vm_compute.
  - repeat constructor.
  - eval_bounds.
  - eval_bounds.
  - eval_bounds.
  - lia.
Defined.

Lemma ptt3_stream_delivered_witness :
  ∃ d', feed_all v3_step collect limit_exceeded (new_decoder Demo.key 65536)
          [take 20 Demo.p1; drop 20 Demo.p1 ++ Demo.p2] []
          = Some (d', [mkDelivery 0 1 Demo.packet; mkDelivery RECORD_KEEPALIVE 2 []], Accepted)
        ∧ buffer_ d' = [].
Proof.
  apply (ptt3_stream_delivered Demo.key 65536 100 _ _ [Demo.p1; Demo.p2]).
  - repeat constructor; by vm_compute.
  - by vm_compute.
  - repeat constructor.
  - eval_bounds.
  - eval_bounds.
  - eval_bounds.
  - lia.
Defined.

Lemma deliveries_strictly_increase_witness :
  StronglySorted Z.lt (map d_seq Demo.xs).
Proof.
  eapply (deliveries_strictly_increase (aead_step PTT5) Demo.key 65536 [] Demo.chunks).
  - unfold decoders. set_solver.
  - by vm_compute.
Defined.

Lemma ptt5_replay_refused_witness :
  ∃ d', feed_v5 collect Demo.seen Demo.r1 [] = Some (d', [], Rejected (str "record replay detected"))
        ∧ replay_drops_ d' = u64 (replay_drops_ Demo.seen + 1)
        ∧ highest_seq_ d' = highest_seq_ Demo.seen.
Proof.
  apply (ptt5_replay_refused collect Demo.seen 1 Demo.packet 0); by vm_compute.
Defined.

Lemma ptt5_deliveries_authentic_witness : Forall (authentic PTT5 Demo.key) Demo.xs.
Proof.
  eapply (ptt5_deliveries_authentic Demo.key 65536 Demo.chunks). by vm_compute.
Defined.

Lemma gap_counter_exact_witness :
  ∃ d', feed_all (aead_step PTT5) collect [] (new_decoder Demo.key 65536) Demo.chunks []
        = Some (d', Demo.xs, Accepted) ∧ sequence_gaps_ d' = missing Demo.xs.
Proof.
  eexists. split.
  { vm_compute. reflexivity. }
  eapply (gap_counter_exact (aead_step PTT5) Demo.key 65536 [] Demo.chunks).
  - unfold decoders. set_solver.
  - eval_bounds.
  - by vm_compute.
Defined.

Lemma feed_independent_of_cutting_witness :
  feed_with (aead_step PTT5) collect [] (new_decoder Demo.key 200) (Demo.r1 ++ Demo.r2) []
  = match feed_with (aead_step PTT5) collect [] (new_decoder Demo.key 200) Demo.r1 [] with
    | Some (d', a', Accepted) => feed_with (aead_step PTT5) collect [] d' Demo.r2 a'
    | Some (d', a', r) => Some (with_buffer (buffer_ d' ++ Demo.r2) d', a', r)
    | None => None
    end.
Proof.
  apply (feed_independent_of_cutting (aead_step PTT5) collect).
  - unfold decoders. set_solver.
  - vm_compute. discriminate.
Defined.

Lemma feed_total_and_bounded_witness :
  ∃ d' a' r, feed_with v3_step collect [] (new_decoder Demo.key 60) Demo.p1 [] = Some (d', a', r)
             ∧ zlen (buffer_ d') <= 60.
Proof.
  apply (feed_total_and_bounded v3_step collect [] (new_decoder Demo.key 60)).
  - unfold decoders. set_solver.
  - vm_compute. discriminate.
Defined.

Lemma padding_cost_bounded_witness :
  0 <= 30 <= 1024
  ∧ zlen Demo.packet + 32 <= zlen Demo.r3 <= zlen Demo.packet + 32 + (if 30 =? 0 then 0 else 2 + 30).
Proof.
  apply (proj1 (padding_cost_bounded (C:=crypto) Demo.key 4 Demo.packet 0 30 6 Demo.r3 8)).
  vm_compute. reflexivity.
Defined.
