(* ===== verification/FlowScheduler.v ===== *)
(** * Flows and their round robin (cdn/include/pacetun/flow_scheduler.hpp)

    Packets are scheduled before encryption. This file models the flow key of an
    IP packet, the burst scheduler [schedule_packet_batch], and what the two
    schedulers share: lists of flows, each with its items in arrival order, and
    the choice of the flow to serve next. [FlowQueue] builds on it. *)

From S2P Require Import Prelude.

(** ** The flow of a packet *)

(** [PacketFlow] src/cdn/include/pacetun/flow_scheduler.hpp:15-22 *)
Record PacketFlow := mkPacketFlow { pf_bytes : bytes; pf_length : nat }.

(** What [operator==] compares.
    [PacketFlow::operator==] src/cdn/include/pacetun/flow_scheduler.hpp:19-20 *)
Definition key_of (f : PacketFlow) : nat * bytes := (pf_length f, take (pf_length f) (pf_bytes f)).

(** [PacketFlow::operator==] src/cdn/include/pacetun/flow_scheduler.hpp:18-21 *)
Definition flow_eqb (f g : PacketFlow) : bool :=
  (pf_length f =? pf_length g)%nat
  && bool_decide (take (pf_length f) (pf_bytes f) = take (pf_length f) (pf_bytes g)).

(** [std::copy_n(src, src.size(), dst.begin() + i)] *)
Definition blit (src : bytes) (i : nat) (dst : bytes) : bytes :=
  take i dst ++ src ++ drop (i + length src) dst.

Definition slice (p : bytes) (from n : nat) : bytes := take n (drop from p).

(** The last step of [packet_flow]: append the ports when there are some.
    [packet_flow] src/cdn/include/pacetun/flow_scheduler.hpp:45-49 *)
Definition with_ports (p : bytes) (ports : nat) (f : PacketFlow) : PacketFlow :=
  if (ports =? 0)%nat then f
  else mkPacketFlow (blit (slice p ports 4) (pf_length f) (pf_bytes f)) (pf_length f + 4).

(** [PacketFlow result{}].
    [packet_flow] src/cdn/include/pacetun/flow_scheduler.hpp:24-24 *)
Definition no_flow : PacketFlow := mkPacketFlow (repeat 0 38) 0.

(** [packet_flow] src/cdn/include/pacetun/flow_scheduler.hpp:23-51 *)
Definition packet_flow (p : bytes) : PacketFlow :=
  if (length p =? 0)%nat then no_flow
  else
    let version := Z.shiftr (at_ p 0) 4 in
    if (version =? 4) && (20 <=? length p)%nat then
      let ihl := (Z.to_nat (Z.land (at_ p 0) 15) * 4)%nat in
      let total := Z.to_nat (Z.lor (Z.shiftl (at_ p 2) 8) (at_ p 3)) in
      if ((ihl <? 20) || (total <? ihl) || (length p <? ihl) || (length p <? total))%nat
      then no_flow
      else
        let result :=
          mkPacketFlow (blit (slice p 12 8) 2 (blit [4; at_ p 9] 0 (pf_bytes no_flow))) 10 in
        let fragmented := negb (Z.land (at_ p 6) 0x3f =? 0) || negb (at_ p 7 =? 0) in
        let ports :=
          if negb fragmented && ((at_ p 9 =? 6) || (at_ p 9 =? 17))
             && (ihl + 4 <=? total)%nat then ihl else 0%nat in
        with_ports p ports result
    else if (version =? 6) && (40 <=? length p)%nat then
      let result :=
        mkPacketFlow (blit (slice p 8 32) 2 (blit [6; at_ p 6] 0 (pf_bytes no_flow))) 34 in
      let ports :=
        if ((at_ p 6 =? 6) || (at_ p 6 =? 17)) && (44 <=? length p)%nat
        then 40%nat else 0%nat in
      with_ports p ports result
    else no_flow.

(** ** Flows with pending items *)

(** [Flow] src/cdn/include/pacetun/flow_scheduler.hpp:62-66 *)
Record Flow (A : Type) := mkFlow { fl_id : PacketFlow; fl_items : list A; fl_interactive : bool }.
Arguments mkFlow {A}.
Arguments fl_id {A}.
Arguments fl_items {A}.
Arguments fl_interactive {A}.

(** The positions of the two round robins and the interactive turns taken since
    the last bulk turn.
    [FlowQueue] src/cdn/include/pacetun/flow_scheduler.hpp:118-118 *)
Record Turns := mkTurns { interactive_cursor : nat; bulk_cursor : nat; interactive_turns : nat }.

(** [schedule_packet_batch] src/cdn/include/pacetun/flow_scheduler.hpp:79-79 *)
Definition no_turns : Turns := mkTurns 0 0 0.

Section Flows.
Context {A : Type}.

Definition fl_key (f : Flow A) : nat * bytes := key_of (fl_id f).

(** [std::find_if] on the flows, then [push_back] on the flow found or on a
    new one.
    [schedule_packet_batch] src/cdn/include/pacetun/flow_scheduler.hpp:70-77 *)
Definition add_item (id : PacketFlow) (interactive : bool) (x : A) (flows : list (Flow A))
  : list (Flow A) :=
  match list_find (λ f, flow_eqb (fl_id f) id = true) flows with
  | Some (i, f) => <[i := mkFlow (fl_id f) (fl_items f ++ [x]) (fl_interactive f)]> flows
  | None => flows ++ [mkFlow id [x] interactive]
  end.

(** [take] src/cdn/include/pacetun/flow_scheduler.hpp:85-85 *)
Definition ready (interactive : bool) (f : Flow A) : bool :=
  Bool.eqb (fl_interactive f) interactive && negb (length (fl_items f) =? 0)%nat.

(** The loop of [take] over [visited], [k] visits before its end.
    [take] src/cdn/include/pacetun/flow_scheduler.hpp:82-92 *)
Fixpoint visit (interactive : bool) (cursor : nat) (flows : list (Flow A)) (k visited : nat)
  : option nat :=
  match k with
  | O => None
  | S k' =>
      let index := ((cursor + visited) mod length flows)%nat in
      if match flows !! index with Some f => ready interactive f | None => false end
      then Some index
      else visit interactive cursor flows k' (S visited)
  end.

(** [take] src/cdn/include/pacetun/flow_scheduler.hpp:80-93 *)
Definition take_index (interactive : bool) (cursor : nat) (flows : list (Flow A)) : option nat :=
  visit interactive cursor flows (length flows) 0.

(** [take] src/cdn/include/pacetun/flow_scheduler.hpp:88-88 *)
Definition advance (flows : list (Flow A)) (index : nat) : nat := (S index mod length flows)%nat.

(** Which flow is served next: at most two interactive turns in a row while a
    bulk flow waits.
    [schedule_packet_batch] src/cdn/include/pacetun/flow_scheduler.hpp:95-101 *)
Definition next_turn (flows : list (Flow A)) (t : Turns) : option (nat * Turns) :=
  let first :=
    if (interactive_turns t <? 2)%nat then take_index true (interactive_cursor t) flows else None in
  match first with
  | Some i =>
      Some (i, mkTurns (advance flows i) (bulk_cursor t) (S (interactive_turns t)))
  | None =>
      match take_index false (bulk_cursor t) flows with
      | Some i => Some (i, mkTurns (interactive_cursor t) (advance flows i) 0)
      | None =>
          match take_index true (interactive_cursor t) flows with
          | Some i => Some (i, mkTurns (advance flows i) (bulk_cursor t) 1)
          | None => None
          end
      end
  end.

(** [front] and [pop_front] of the items of a flow.
    [take] src/cdn/include/pacetun/flow_scheduler.hpp:86-87 *)
Definition pop_item (index : nat) (flows : list (Flow A)) : option (A * list (Flow A)) :=
  match flows !! index with
  | Some f =>
      match fl_items f with
      | x :: rest => Some (x, <[index := mkFlow (fl_id f) rest (fl_interactive f)]> flows)
      | [] => None
      end
  | None => None
  end.
End Flows.

(** ** The burst scheduler *)

(** [schedule_packet_batch] src/cdn/include/pacetun/flow_scheduler.hpp:74-74 *)
Definition is_interactive (p : bytes) : bool := zlen p <=? 256.

(** The flows of a batch, with the packets' indices.
    [schedule_packet_batch] src/cdn/include/pacetun/flow_scheduler.hpp:67-78 *)
Fixpoint collect_flows (i : nat) (packets : list bytes) (flows : list (Flow nat)) : list (Flow nat) :=
  match packets with
  | [] => flows
  | p :: packets' =>
      collect_flows (S i) packets' (add_item (packet_flow p) (is_interactive p) i flows)
  end.

(** The loop that drains the flows, at most [fuel] turns of it.
    [schedule_packet_batch] src/cdn/include/pacetun/flow_scheduler.hpp:94-102 *)
Fixpoint drain (fuel n : nat) (flows : list (Flow nat)) (t : Turns) (order : list nat) : list nat :=
  match fuel with
  | O => order
  | S fuel' =>
      if (length order <? n)%nat then
        match next_turn flows t with
        | Some (i, t') =>
            match pop_item i flows with
            | Some (x, flows') => drain fuel' n flows' t' (order ++ [x])
            | None => order
            end
        | None => order
        end
      else order
  end.

(** [schedule_packet_batch] src/cdn/include/pacetun/flow_scheduler.hpp:54-104 *)
Definition schedule_packet_batch (packets : list bytes) (enabled : bool) : list nat :=
  if negb enabled || (length packets <? 2)%nat then seq 0 (length packets)
  else drain (S (length packets)) (length packets) (collect_flows 0 packets []) no_turns [].

(** ** Flow keys *)

Lemma flow_eqb_spec f g : flow_eqb f g = true ↔ key_of f = key_of g.
Proof.
  unfold flow_eqb, key_of. rewrite andb_true_iff, Nat.eqb_eq, bool_decide_eq_true.
  split; [intros [-> ->]; done|intros [= H1 H2]; rewrite H1 in *; done].
Qed.

#[export] Instance packet_flow_equiv : Equiv PacketFlow := λ f g, key_of f = key_of g.

#[export] Instance packet_flow_equivalence : Equivalence (≡@{PacketFlow}).
Proof. unfold equiv, packet_flow_equiv. split; congruence || (intros ?; done). Qed.

#[export] Instance packet_flow_decision (f g : PacketFlow) : Decision (f ≡ g).
Proof. unfold equiv, packet_flow_equiv. apply _. Defined.

#[export] Instance key_of_proper : Proper ((≡@{PacketFlow}) ==> (=)) key_of.
Proof. by intros f g. Qed.

#[export] Instance flow_eqb_proper : Proper ((≡) ==> (≡) ==> (=)) flow_eqb.
Proof.
  intros f f' Hf g g' Hg. apply eq_true_iff_eq. rewrite !flow_eqb_spec.
  by rewrite (key_of_proper f f' Hf), (key_of_proper g g' Hg).
Qed.

Lemma length_blit src i dst :
  (i + length src <= length dst)%nat → length (blit src i dst) = length dst.
Proof. intros. unfold blit. rewrite !length_app, length_take, length_drop. lia. Qed.

Lemma take_blit src i dst n :
  (i + length src <= length dst)%nat → n = (i + length src)%nat →
  take n (blit src i dst) = take i dst ++ src.
Proof.
  intros H ->. unfold blit. rewrite app_assoc. apply take_app_length'.
  rewrite length_app, length_take. lia.
Qed.

Lemma length_slice p from n : (from + n <= length p)%nat → length (slice p from n) = n.
Proof. intros. unfold slice. rewrite length_take, length_drop. lia. Qed.

(** What tells two flows apart: protocol, addresses, and the ports when the
    packet carries them. *)
Inductive FlowId :=
| Unclassified
| V4 (proto : Z) (addresses : bytes) (ports : option bytes)
| V6 (proto : Z) (addresses : bytes) (ports : option bytes).

Definition transport (proto : Z) : bool := (proto =? 6) || (proto =? 17).
Definition ihl_of (p : bytes) : nat := (Z.to_nat (Z.land (at_ p 0) 15) * 4)%nat.
Definition total_of (p : bytes) : nat := Z.to_nat (Z.lor (Z.shiftl (at_ p 2) 8) (at_ p 3)).
Definition version_of (p : bytes) : Z := Z.shiftr (at_ p 0) 4.

(** A whole IPv4 header whose lengths agree with the packet. *)
Definition ipv4 (p : bytes) : bool :=
  (version_of p =? 4) && (20 <=? ihl_of p)%nat && (ihl_of p <=? total_of p)%nat
  && (total_of p <=? length p)%nat.
Definition ipv6 (p : bytes) : bool := (version_of p =? 6) && (40 <=? length p)%nat.
(** The fragment offset and the more-fragments flag are zero. *)
Definition unfragmented (p : bytes) : bool := (Z.land (at_ p 6) 0x3f =? 0) && (at_ p 7 =? 0).

Definition flow_id (p : bytes) : FlowId :=
  if ipv4 p then
    V4 (at_ p 9) (slice p 12 8)
      (if unfragmented p && transport (at_ p 9) && (ihl_of p + 4 <=? total_of p)%nat
       then Some (slice p (ihl_of p) 4) else None)
  else if ipv6 p then
    V6 (at_ p 6) (slice p 8 32)
      (if transport (at_ p 6) && (44 <=? length p)%nat then Some (slice p 40 4) else None)
  else Unclassified.

Definition id_key (i : FlowId) : nat * bytes :=
  let f v pr a ports := let b := v :: pr :: a ++ default [] ports in (length b, b) in
  match i with
  | Unclassified => (0%nat, [])
  | V4 pr a ports => f 4 pr a ports
  | V6 pr a ports => f 6 pr a ports
  end.

Definition id_ok (i : FlowId) : Prop :=
  match i with
  | Unclassified => True
  | V4 _ a ports => length a = 8%nat ∧ from_option (λ q, length q = 4%nat) True ports
  | V6 _ a ports => length a = 32%nat ∧ from_option (λ q, length q = 4%nat) True ports
  end.

Lemma id_key_inj i j : id_ok i → id_ok j → id_key i = id_key j → i = j.
Proof.
  destruct i as [|pr a po|pr a po], j as [|pr' a' po'|pr' a' po']; simpl; try done;
    intros [Ha Hp] [Ha' Hp'] [= _ -> He]; (apply app_inj_1 in He as [-> He]; [|congruence]);
    destruct po, po'; simpl in *; subst; done.
Qed.

(** Writing version, protocol and addresses, then possibly ports, into [result]. *)
Lemma key_of_written p v pr a n ports :
  length a = (n - 2)%nat → (2 <= n)%nat → (n + 4 <= 38)%nat →
  (ports = 0 ∨ ports + 4 <= length p)%nat →
  key_of (with_ports p ports (mkPacketFlow (blit a 2 (blit [v; pr] 0 (pf_bytes no_flow))) n))
  = let b := v :: pr :: a ++ (if (ports =? 0)%nat then [] else slice p ports 4) in (length b, b).
Proof.
  intros Ha Hn Hn4 Hp. change (pf_bytes no_flow) with (repeat 0 38).
  set (z := repeat 0 38). assert (Hz : length z = 38%nat) by done.
  assert (H1 : length (blit [v; pr] 0 z) = 38%nat) by (rewrite length_blit; simpl; lia).
  assert (H2 : length (blit a 2 (blit [v; pr] 0 z)) = 38%nat) by (rewrite length_blit; lia).
  assert (H3 : take n (blit a 2 (blit [v; pr] 0 z)) = v :: pr :: a)
    by (rewrite take_blit by lia; by rewrite take_blit by (simpl; lia)).
  clearbody z. unfold with_ports. destruct (Nat.eqb_spec ports 0).
  - unfold key_of. cbn [pf_length pf_bytes].
    rewrite H3, app_nil_r. simpl. f_equal. lia.
  - pose proof (length_slice p ports 4 ltac:(lia)) as H4.
    unfold key_of. cbn [pf_length pf_bytes].
    rewrite take_blit, H3 by lia. simpl. rewrite length_app. f_equal. lia.
Qed.

Lemma flow_id_key p : id_ok (flow_id p) ∧ key_of (packet_flow p) = id_key (flow_id p).
Proof.
  unfold flow_id, packet_flow.
  change ((Z.to_nat (Z.land (at_ p 0) 15) * 4)%nat) with (ihl_of p).
  change (Z.to_nat (Z.lor (Z.shiftl (at_ p 2) 8) (at_ p 3))) with (total_of p).
  change (Z.shiftr (at_ p 0) 4) with (version_of p).
  destruct (Nat.eqb_spec (length p) 0) as [Hl|Hl].
  { apply nil_length_inv in Hl as ->. done. }
  cbv zeta. unfold ipv4.
  destruct (Z.eqb_spec (version_of p) 4) as [Hv|Hv]; cbn [andb].
  2:{ unfold ipv6. destruct ((version_of p =? 6) && _) eqn:H6; [|done].
      apply andb_true_iff in H6 as [_ H6%Nat.leb_le].
      pose proof (length_slice p 8 32 ltac:(lia)). fold (transport (at_ p 6)).
      destruct (transport (at_ p 6) && (44 <=? length p)%nat) eqn:Hp.
      - apply andb_true_iff in Hp as [_ Hp%Nat.leb_le]. cbv iota.
        rewrite key_of_written by lia.
        simpl.
        split; [split; [done|apply length_slice; lia]|done].
      - cbv iota; by rewrite key_of_written by lia. }
  assert (Hno6 : ipv6 p = false) by (unfold ipv6; rewrite Hv; done).
  rewrite Hno6. unfold ipv6 in Hno6. rewrite Hno6.
  destruct (Nat.leb_spec 20 (length p)), (Nat.leb_spec 20 (ihl_of p)),
    (Nat.leb_spec (ihl_of p) (total_of p)), (Nat.leb_spec (total_of p) (length p)),
    (Nat.ltb_spec (ihl_of p) 20), (Nat.ltb_spec (total_of p) (ihl_of p)),
    (Nat.ltb_spec (length p) (ihl_of p)), (Nat.ltb_spec (length p) (total_of p));
    cbn [andb orb]; try done; try lia.
  pose proof (length_slice p 12 8 ltac:(lia)).
  fold (transport (at_ p 9)).
  assert (Hf : negb (negb (Z.land (at_ p 6) 63 =? 0) || negb (at_ p 7 =? 0)) = unfragmented p)
    by (unfold unfragmented; by rewrite negb_orb, !negb_involutive).
  rewrite Hf.
  destruct (unfragmented p && transport (at_ p 9) && (ihl_of p + 4 <=? total_of p)%nat) eqn:Hp.
  - apply andb_true_iff in Hp as [_ Hp%Nat.leb_le]. cbv iota; rewrite key_of_written by lia.
    rewrite (proj2 (Nat.eqb_neq _ _)) by lia. cbn [id_key id_ok from_option default].
    split; [split; [done|apply length_slice; lia]|done].
  - cbv iota; rewrite key_of_written by lia. done.
Qed.

(** ** Lists of flows *)

Section FlowTheory.
Context {A : Type}.
Implicit Types (flows : list (Flow A)) (k : nat * bytes) (x : A).

Definition keys flows : list (nat * bytes) := map fl_key flows.
(** Everything that waits, and what waits in the flow of a key. *)
Definition items flows : list A := flows ≫= fl_items.
Definition queue_of k flows : list A :=
  flows ≫= (λ f, if decide (fl_key f = k) then fl_items f else []).

Lemma fl_key_same (f : Flow A) (l : list A) b : fl_key (mkFlow (fl_id f) l b) = fl_key f.
Proof. done. Qed.

Lemma items_app l1 l2 : items (l1 ++ l2) = items l1 ++ items l2.
Proof. apply bind_app. Qed.
Lemma items_cons f l : items (f :: l) = fl_items f ++ items l.
Proof. done. Qed.
Lemma queue_of_app k l1 l2 : queue_of k (l1 ++ l2) = queue_of k l1 ++ queue_of k l2.
Proof. apply bind_app. Qed.
Lemma queue_of_cons k f l :
  queue_of k (f :: l) = (if decide (fl_key f = k) then fl_items f else []) ++ queue_of k l.
Proof. done. Qed.

Lemma elem_of_queue k x flows : x ∈ queue_of k flows → x ∈ items flows.
Proof.
  intros (f & Hf & Hin)%list_elem_of_bind. apply list_elem_of_bind. exists f.
  case_decide; [done|by apply elem_of_nil in Hf].
Qed.

Lemma empty_queue k flows : items flows = [] → queue_of k flows = [].
Proof.
  intros Hi. destruct (queue_of k flows) as [|x l] eqn:Hq; [done|].
  assert (Hx : x ∈ items flows) by (apply (elem_of_queue k); rewrite Hq; left).
  rewrite Hi in Hx. by apply elem_of_nil in Hx.
Qed.

Lemma queue_of_absent k flows : k ∉ keys flows → queue_of k flows = [].
Proof.
  induction flows as [|f l IH]; [done|]. intros H. apply not_elem_of_cons in H as [Hn H].
  rewrite queue_of_cons, decide_False by congruence. by apply IH.
Qed.

Lemma lookup_middle flows i f :
  flows !! i = Some f →
  ∃ l1 l2, flows = l1 ++ f :: l2 ∧ length l1 = i ∧ ∀ g, <[i := g]> flows = l1 ++ g :: l2.
Proof.
  intros H. exists (take i flows), (drop (S i) flows).
  pose proof (lookup_lt_Some _ _ _ H). repeat split.
  - by rewrite take_drop_middle.
  - rewrite length_take. lia.
  - intros g. by apply insert_take_drop.
Qed.

(** In a list with distinct keys, the flow at hand is all there is of its key. *)
Lemma queue_of_middle k l1 f l2 :
  NoDup (keys (l1 ++ f :: l2)) →
  queue_of k (l1 ++ f :: l2) = if decide (fl_key f = k) then fl_items f else queue_of k (l1 ++ l2).
Proof.
  unfold keys. rewrite map_app. simpl. intros (_ & Hd & Hn)%NoDup_app.
  rewrite !queue_of_app, queue_of_cons. destruct (decide _) as [<-|]; [|done].
  rewrite (queue_of_absent _ l1), (queue_of_absent _ l2).
  - by rewrite app_nil_r.
  - by apply NoDup_cons in Hn as [? _].
  - intros Hin. apply (Hd _ Hin). by left.
Qed.

Lemma add_item_cases id b x flows :
  (∃ l1 f l2, flows = (l1 ++ f :: l2) ∧ fl_key f = key_of id
              ∧ add_item id b x flows
                = (l1 ++ mkFlow (fl_id f) (fl_items f ++ [x]) (fl_interactive f) :: l2))
  ∨ ((key_of id ∉ keys flows) ∧ add_item id b x flows = (flows ++ [mkFlow id [x] b])).
Proof.
  unfold add_item. destruct (list_find _ flows) as [[i f]|] eqn:Hf.
  - left. apply list_find_Some in Hf as (Hi & Hid%flow_eqb_spec & _).
    destruct (lookup_middle flows i f Hi) as (l1 & l2 & -> & _ & Hins).
    exists l1, f, l2. by rewrite Hins.
  - right. split; [|done]. apply list_find_None in Hf.
    unfold keys. intros (f & He & Hin)%list_elem_of_fmap.
    rewrite Forall_forall in Hf. by apply (Hf f Hin), flow_eqb_spec.
Qed.

Lemma add_item_keys id b x flows :
  keys (add_item id b x flows) =
    if decide (key_of id ∈ keys flows) then keys flows else keys flows ++ [key_of id].
Proof.
  destruct (add_item_cases id b x flows) as [(l1 & f & l2 & -> & Hk & ->)|[Hn ->]].
  - rewrite decide_True.
    + unfold keys. by rewrite !map_app.
    + unfold keys. rewrite map_app. simpl. rewrite Hk. set_solver.
  - rewrite decide_False by done. unfold keys. by rewrite map_app.
Qed.

Lemma add_item_NoDup id b x flows : NoDup (keys flows) → NoDup (keys (add_item id b x flows)).
Proof.
  intros H. rewrite add_item_keys. case_decide as Hd; [done|].
  apply NoDup_app. split; [done|]. split; [|apply NoDup_singleton].
  intros k Hk ->%list_elem_of_singleton. done.
Qed.

Lemma queue_of_add k id b x flows :
  NoDup (keys flows) →
  queue_of k (add_item id b x flows)
  = queue_of k flows ++ (if decide (key_of id = k) then [x] else []).
Proof.
  intros Hn. pose proof (add_item_NoDup id b x flows Hn) as Hn'.
  destruct (add_item_cases id b x flows) as [(l1 & f & l2 & -> & Hk & Ha)|[Ha' Ha]];
    rewrite Ha in *.
  - rewrite !queue_of_middle, fl_key_same, Hk by done.
    case_decide; [done|by rewrite app_nil_r].
  - rewrite queue_of_app, queue_of_cons. unfold fl_key. simpl. by rewrite app_nil_r.
Qed.

Lemma items_add id b x flows : items (add_item id b x flows) ≡ₚ x :: items flows.
Proof.
  destruct (add_item_cases id b x flows) as [(l1 & f & l2 & -> & _ & ->)|[_ ->]];
    rewrite !items_app, !items_cons; simpl; solve_Permutation.
Qed.

Lemma pop_item_cases i x flows flows' :
  pop_item i flows = Some (x, flows') →
  ∃ l1 f r l2, flows = l1 ++ f :: l2 ∧ length l1 = i ∧ fl_items f = x :: r
               ∧ flows' = l1 ++ mkFlow (fl_id f) r (fl_interactive f) :: l2.
Proof.
  unfold pop_item. destruct (flows !! i) as [f|] eqn:Hi; [|done].
  destruct (fl_items f) as [|y r] eqn:Hr; [done|]. intros [= <- <-].
  destruct (lookup_middle flows i f Hi) as (l1 & l2 & -> & <- & Hins).
  exists l1, f, r, l2. by rewrite Hins.
Qed.

Lemma pop_item_keys i x flows flows' : pop_item i flows = Some (x, flows') → keys flows' = keys flows.
Proof.
  intros (l1 & f & r & l2 & -> & _ & _ & ->)%pop_item_cases. unfold keys. by rewrite !map_app.
Qed.

Lemma queue_of_pop i x flows flows' f k :
  NoDup (keys flows) → flows !! i = Some f → pop_item i flows = Some (x, flows') →
  queue_of k flows = (if decide (fl_key f = k) then [x] else []) ++ queue_of k flows'.
Proof.
  intros Hn Hf Hp. pose proof (pop_item_keys _ _ _ _ Hp) as Hk.
  apply pop_item_cases in Hp as (l1 & g & r & l2 & -> & <- & Hg & ->).
  rewrite list_lookup_middle in Hf by done. injection Hf as ->.
  rewrite !queue_of_middle, fl_key_same by (done || by rewrite Hk).
  by case_decide; [rewrite Hg|].
Qed.

Lemma items_pop i x flows flows' : pop_item i flows = Some (x, flows') → items flows ≡ₚ x :: items flows'.
Proof.
  intros (l1 & f & r & l2 & -> & _ & Hf & ->)%pop_item_cases.
  rewrite !items_app, !items_cons, Hf. simpl. solve_Permutation.
Qed.

(** *** Whose turn it is *)

Lemma ready_spec b (f : Flow A) : ready b f = true ↔ fl_interactive f = b ∧ fl_items f ≠ [].
Proof.
  unfold ready. rewrite andb_true_iff, eqb_true_iff, negb_true_iff, Nat.eqb_neq.
  by rewrite length_zero_iff_nil.
Qed.

Lemma visit_Some b c flows m v i :
  visit b c flows m v = Some i → ∃ f, flows !! i = Some f ∧ ready b f = true.
Proof.
  revert v. induction m as [|m IH]; simpl; [done|]. intros v.
  destruct (flows !! ((c + v) mod length flows)%nat) as [f|] eqn:Hf; [|apply IH].
  destruct (ready b f) eqn:Hr; [|apply IH]. intros [= <-]. eauto.
Qed.

Lemma visit_None b c flows m v j f :
  visit b c flows m v = None → (v <= j < v + m)%nat →
  flows !! ((c + j) mod length flows)%nat = Some f → ready b f = false.
Proof.
  revert v. induction m as [|m IH]; simpl; [lia|]. intros v Hv Hj Hf.
  destruct (decide (j = v)) as [->|].
  - rewrite Hf in Hv. by destruct (ready b f).
  - eapply (IH (S v)); [|lia|done].
    by destruct (flows !! ((c + v) mod length flows)%nat) as [g|]; [destruct (ready b g)|].
Qed.

Lemma take_index_None b c flows : take_index b c flows = None ↔ Forall (λ f, ready b f = false) flows.
Proof.
  split.
  - intros H. apply Forall_lookup. intros i f Hi.
    pose proof (lookup_lt_Some _ _ _ Hi) as Hl. set (n := length flows) in *.
    pose proof (Nat.mod_upper_bound c n ltac:(lia)).
    eapply (visit_None b c flows n 0 ((i + n - c mod n) mod n)); [done| |].
    + pose proof (Nat.mod_upper_bound (i + n - c mod n) n). lia.
    + fold n. rewrite <- Nat.Div0.add_mod_idemp_l, Nat.Div0.add_mod_idemp_r.
      replace (c mod n + (i + n - c mod n))%nat with (i + 1 * n)%nat by lia.
      by rewrite Nat.Div0.mod_add, Nat.mod_small.
  - intros H. destruct (take_index b c flows) as [i|] eqn:Hi; [|done].
    apply visit_Some in Hi as (f & Hf & Hr). by rewrite Forall_lookup in H; rewrite (H _ _ Hf) in Hr.
Qed.

(** No flow of class [b] has an item. *)
Definition idle (b : bool) flows : Prop := Forall (λ f, ready b f = false) flows.

(** A turn serves a flow with an item; after two interactive turns in a row a
    waiting bulk flow comes first, before that a waiting interactive one. *)
Lemma next_turn_Some flows t i t' :
  next_turn flows t = Some (i, t') →
  ∃ f x r, flows !! i = Some f ∧ fl_items f = x :: r
    ∧ if fl_interactive f
      then (interactive_turns t < 2 ∧ interactive_turns t' = S (interactive_turns t))%nat
           ∨ ((2 <= interactive_turns t)%nat ∧ interactive_turns t' = 1%nat ∧ idle false flows)
      else interactive_turns t' = 0%nat ∧ ((interactive_turns t < 2)%nat → idle true flows).
Proof.
  intros H.
  assert (Hready : ∀ b c j, take_index b c flows = Some j →
    ∃ f x r, flows !! j = Some f ∧ fl_items f = x :: r ∧ fl_interactive f = b).
  { intros b c j (f & Hf & [Hb Hne]%ready_spec)%visit_Some.
    destruct (fl_items f) as [|x r] eqn:Hi; [done|]. by exists f, x, r. }
  unfold next_turn in H. destruct (Nat.ltb_spec (interactive_turns t) 2) as [Hlt|Hge].
  - destruct (take_index true _ flows) as [j|] eqn:H1.
    + injection H as <- <-. destruct (Hready _ _ _ H1) as (f & x & r & Hf & Hr & Hb).
      exists f, x, r. rewrite Hb. simpl. eauto.
    + destruct (take_index false _ flows) as [j|] eqn:H2; [|done].
      injection H as <- <-. destruct (Hready _ _ _ H2) as (f & x & r & Hf & Hr & Hb).
      exists f, x, r. rewrite Hb. simpl. repeat split; try done. intros _. by apply take_index_None in H1.
  - destruct (take_index false _ flows) as [j|] eqn:H2.
    + injection H as <- <-. destruct (Hready _ _ _ H2) as (f & x & r & Hf & Hr & Hb).
      exists f, x, r. rewrite Hb. simpl. repeat split; try done. lia.
    + apply take_index_None in H2. destruct (take_index true _ flows) as [j|] eqn:H3; [|done].
      injection H as <- <-. destruct (Hready _ _ _ H3) as (f & x & r & Hf & Hr & Hb).
      exists f, x, r. rewrite Hb. simpl. eauto 10.
Qed.

(** There is a turn as long as something waits. *)
Lemma next_turn_None flows t : next_turn flows t = None → items flows = [].
Proof.
  intros H. assert (Hi : idle true flows ∧ idle false flows).
  { unfold idle. rewrite <- (take_index_None true (interactive_cursor t)),
      <- (take_index_None false (bulk_cursor t)).
    unfold next_turn in H. destruct (_ <? _)%nat;
      destruct (take_index true _ flows), (take_index false _ flows); done. }
  destruct Hi as [Ht Hf]. clear H. induction flows as [|f l IH]; [done|].
  apply Forall_cons in Ht as [H1 Ht]. apply Forall_cons in Hf as [H2 Hf].
  rewrite items_cons, IH by done. rewrite app_nil_r.
  destruct (fl_items f) eqn:Hi; [done|]. unfold ready in *. rewrite Hi in *.
  by destruct (fl_interactive f).
Qed.

Lemma next_turn_pop flows t i t' :
  next_turn flows t = Some (i, t') → ∃ x flows', pop_item i flows = Some (x, flows').
Proof.
  intros (f & x & r & Hf & Hr & _)%next_turn_Some. unfold pop_item. rewrite Hf, Hr. eauto.
Qed.
End FlowTheory.

(** ** The burst scheduler *)

(** The key of the [i]th packet, and the class of a key: that of its first packet. *)
Definition flow_key (packets : list bytes) (i : nat) : nat * bytes :=
  key_of (packet_flow (default [] (packets !! i))).
Definition class_of (packets : list bytes) (k : nat * bytes) : bool :=
  match list_find (λ p, key_of (packet_flow p) = k) packets with
  | Some (_, p) => is_interactive p
  | None => false
  end.
Definition flow_class (packets : list bytes) (i : nat) : bool := class_of packets (flow_key packets i).

(** The classes of a sequence of turns, [t] interactive turns after the last bulk one. *)
Fixpoint fair (t : nat) (classes : list bool) : Prop :=
  match classes with
  | [] => True
  | true :: cs => ((t < 2)%nat ∧ fair (S t) cs) ∨ (Forall (eq true) cs ∧ fair 1 cs)
  | false :: cs => ((t < 2)%nat → Forall (eq false) cs) ∧ fair 0 cs
  end.

Lemma fair_app t l1 l2 : fair t (l1 ++ l2) → ∃ t', fair t' l2.
Proof.
  revert t. induction l1 as [|[] l1 IH]; simpl; [eauto| |]; intros t.
  - intros [[_ H]|[_ H]]; by apply IH in H.
  - intros [_ H]. by apply IH in H.
Qed.

Lemma fair_interactive t l1 l2 :
  fair t (l1 ++ true :: true :: true :: l2) → Forall (eq true) l2.
Proof.
  intros [u H]%fair_app. simpl in H.
  destruct H as [[? [[? [[? _]|[H _]]]|[H _]]]|[H _]]; [lia|done|..].
  - by apply Forall_cons in H as [_ H].
  - apply Forall_cons in H as [_ H]. by apply Forall_cons in H as [_ H].
Qed.

Lemma fair_bulk t l1 l2 : fair t (l1 ++ false :: false :: l2) → Forall (eq false) l2.
Proof. intros [u H]%fair_app. simpl in H. apply H. lia. Qed.

Section Batch.
Context (packets : list bytes).
Abbreviation key := (flow_key packets).
Abbreviation class := (flow_class packets).

Definition sound (flows : list (Flow nat)) : Prop :=
  Forall (λ f, Forall (λ i, key i = fl_key f ∧ class i = fl_interactive f) (fl_items f)) flows.

(** The flows collected from the first packets [pre]. *)
Record collected (pre : list bytes) (flows : list (Flow nat)) : Prop := {
  collected_NoDup : NoDup (keys flows);
  collected_items : items flows ≡ₚ seq 0 (length pre);
  collected_queues k :
    queue_of k flows = filter (λ i, key i = k) (seq 0 (length pre));
  collected_keys p : p ∈ pre → key_of (packet_flow p) ∈ keys flows;
  collected_class : Forall (λ f, fl_interactive f = class_of packets (fl_key f)) flows;
}.

Lemma class_of_new pre p rest k :
  packets = pre ++ p :: rest → (∀ q, q ∈ pre → key_of (packet_flow q) ≠ k) →
  key_of (packet_flow p) = k → class_of packets k = is_interactive p.
Proof.
  intros -> Hpre Hk. unfold class_of.
  assert (list_find (λ q, key_of (packet_flow q) = k) (pre ++ p :: rest) = Some (length pre, p))
    as ->; [|done].
  apply list_find_app_Some. right. split; [done|]. split.
  - apply list_find_None, Forall_forall. auto.
  - rewrite Nat.sub_diag. simpl. by rewrite decide_True.
Qed.

Lemma collected_add pre p rest flows :
  packets = pre ++ p :: rest → collected pre flows →
  collected (pre ++ [p]) (add_item (packet_flow p) (is_interactive p) (length pre) flows).
Proof.
  intros Hp [Hn Hi Hq Hk Hc].
  assert (Hkey : key (length pre) = key_of (packet_flow p)).
  { unfold flow_key. by rewrite Hp, list_lookup_middle. }
  assert (Hlen : length (pre ++ [p]) = S (length pre)) by (rewrite length_app; simpl; lia).
  split; rewrite ?Hlen.
  - by apply add_item_NoDup.
  - by rewrite items_add, Hi, seq_S, Permutation_app_comm.
  - intros k. rewrite queue_of_add, Hq, seq_S, filter_app by done.
    f_equal. rewrite filter_cons, filter_nil.
    change (0 + length pre)%nat with (length pre).
    case_decide as H1; case_decide as H2; congruence.
  - intros q. rewrite elem_of_app, add_item_keys. intros [?%Hk | ->%list_elem_of_singleton];
      case_decide; rewrite ?elem_of_app, ?list_elem_of_singleton; auto.
  - destruct (add_item_cases (packet_flow p) (is_interactive p) (length pre) flows)
      as [(l1 & f & l2 & -> & Hf & ->)|[Hnew ->]].
    + apply Forall_app in Hc as [H1 H2]. apply Forall_cons in H2 as [H H2].
      apply Forall_app. by repeat constructor.
    + apply Forall_app. split; [done|]. apply Forall_singleton. unfold fl_key. simpl.
      symmetry. eapply class_of_new; [done| |done]. intros q Hq' He. apply Hnew. rewrite <- He. auto.
Qed.

Lemma collect_flows_collected rest : ∀ pre flows,
  packets = pre ++ rest → collected pre flows →
  collected packets (collect_flows (length pre) rest flows).
Proof.
  induction rest as [|p rest IH]; intros pre flows Hp Hc; simpl.
  - rewrite app_nil_r in Hp. by subst.
  - replace (S (length pre)) with (length (pre ++ [p])) by (rewrite length_app; simpl; lia).
    apply IH; [by rewrite <- app_assoc|]. by eapply collected_add.
Qed.

Lemma collected_sound pre flows : collected pre flows → sound flows.
Proof.
  intros [Hn _ Hq _ Hc]. apply Forall_forall. intros f Hf. apply Forall_forall. intros i Hi.
  assert (Hin : i ∈ queue_of (fl_key f) flows).
  { apply list_elem_of_bind. exists f. by rewrite decide_True. }
  rewrite Hq in Hin. apply list_elem_of_filter in Hin as [Hk _]. split; [done|].
  unfold flow_class. rewrite Hk. rewrite Forall_forall in Hc. by rewrite Hc.
Qed.

Lemma idle_classes b flows : sound flows → idle b flows → Forall (λ i, class i = negb b) (items flows).
Proof.
  unfold sound, idle. rewrite !Forall_forall. intros Hs Hb i (f & Hf & Hi)%list_elem_of_bind.
  specialize (Hs _ Hi). rewrite Forall_forall in Hs. destruct (Hs _ Hf) as [_ ->].
  specialize (Hb _ Hi). destruct (fl_interactive f) eqn:He, b; try done;
    exfalso; revert Hb; apply not_false_iff_true, ready_spec; (split; [done|]);
    intros Hnil; rewrite Hnil in Hf; by apply elem_of_nil in Hf.
Qed.

Lemma sound_pop i x flows flows' f :
  sound flows → flows !! i = Some f → pop_item i flows = Some (x, flows') →
  sound flows' ∧ key x = fl_key f ∧ class x = fl_interactive f.
Proof.
  intros Hs Hf (l1 & g & r & l2 & -> & <- & Hg & ->)%pop_item_cases.
  rewrite list_lookup_middle in Hf by done. injection Hf as ->.
  apply Forall_app in Hs as [H1 [H H2]%Forall_cons]. rewrite Hg in H.
  apply Forall_cons in H as [Hx H]. split; [|done].
  apply Forall_app. split; [done|]. by constructor.
Qed.

(** Draining appends a permutation of what waits, keeps the order of each
    flow, and takes fair turns. *)
Lemma drain_spec n fuel : ∀ flows t order,
  NoDup (keys flows) → sound flows → (length order + length (items flows) = n)%nat →
  (length (items flows) < fuel)%nat →
  ∃ s, drain fuel n flows t order = order ++ s ∧ s ≡ₚ items flows
       ∧ (∀ k, filter (λ i, key i = k) s = queue_of k flows)
       ∧ fair (interactive_turns t) (map class s).
Proof.
  induction fuel as [|fuel IH]; intros flows t order Hn Hs Hlen Hfuel; [lia|]. simpl.
  destruct (Nat.ltb_spec (length order) n) as [Hlt|Hge].
  2:{ assert (Hi : items flows = []) by (apply nil_length_inv; lia).
      exists []. rewrite app_nil_r, Hi. repeat split; try done. intros k. by rewrite empty_queue. }
  destruct (next_turn flows t) as [[i t']|] eqn:Ht.
  2:{ apply next_turn_None in Ht. rewrite Ht in Hlen. simpl in Hlen. lia. }
  destruct (next_turn_pop _ _ _ _ Ht) as (x & flows' & Hp). rewrite Hp.
  pose proof (items_pop _ _ _ _ Hp) as Hi.
  apply next_turn_Some in Ht as (f & y & r & Hf & Hr & Hfair).
  destruct (sound_pop _ _ _ _ _ Hs Hf Hp) as (Hs' & Hkx & Hcx).
  destruct (IH flows' t' (order ++ [x])) as (s & -> & Hperm & Hq & Hf');
    [by rewrite (pop_item_keys _ _ _ _ Hp)|done|..].
  { rewrite Hi in Hlen. rewrite length_app. simpl in *. lia. }
  { rewrite Hi in Hfuel. simpl in Hfuel. lia. }
  exists (x :: s). rewrite <- app_assoc. split; [done|]. split; [by rewrite Hi, Hperm|]. split.
  - intros k. rewrite (queue_of_pop _ _ _ _ f k Hn Hf Hp), <- Hq, <- Hkx, filter_cons.
    by case_decide.
  - assert (Hrest : ∀ b, idle b flows → Forall (eq (negb b)) (map class s)).
    { intros b Hb. apply (idle_classes b) in Hb; [|done].
      rewrite Hi in Hb. apply Forall_cons in Hb as [_ Hb]. rewrite <- Hperm in Hb.
      apply Forall_map. by apply (Forall_impl _ _ _ Hb). }
    simpl. rewrite Hcx. destruct (fl_interactive f); simpl.
    + destruct Hfair as [[Hlt' He]|(Hge & He & Hb%Hrest)]; rewrite He in Hf'; auto.
    + destruct Hfair as [He Hb]. rewrite He in Hf'. split; [|done]. intros H%Hb. by apply Hrest in H.
Qed.

Lemma batch_drained : ∃ s,
  drain (S (length packets)) (length packets) (collect_flows 0 packets []) no_turns [] = s
  ∧ s ≡ₚ seq 0 (length packets)
  ∧ (∀ k, filter (λ i, key i = k) s = filter (λ i, key i = k) (seq 0 (length packets)))
  ∧ fair 0 (map class s).
Proof.
  assert (Hc : collected packets (collect_flows 0 packets [])).
  { apply (collect_flows_collected packets []); [done|].
    split; try done; try constructor. intros p H. by apply elem_of_nil in H. }
  pose proof (collected_sound _ _ Hc). destruct Hc as [Hn Hi Hq _ _].
  assert (Hlen : length (items (collect_flows 0 packets [])) = length packets)
    by (rewrite Hi; apply length_seq).
  destruct (drain_spec (length packets) (S (length packets)) (collect_flows 0 packets []) no_turns [])
    as (s & Hd & Hp & Hk & Hf); [done|done|simpl; lia|lia|].
  exists s. repeat split; [done|by rewrite Hp|intros k; by rewrite Hk, Hq|done].
Qed.
End Batch.

(** ** Properties *)

Section Properties.
(** Two packets belong to the same flow exactly when version, protocol and
    addresses agree and so do the ports, which count only for whole TCP and
    UDP packets (not for IPv4 fragments); malformed packets share one flow. *)
Theorem same_flow_iff p q : flow_eqb (packet_flow p) (packet_flow q) = true ↔ flow_id p = flow_id q.
Proof.
  rewrite flow_eqb_spec. destruct (flow_id_key p) as [Hp ->], (flow_id_key q) as [Hq ->].
  split; [by apply id_key_inj|by intros ->].
Qed.

(** The scheduler sends every packet of a batch exactly once, and the
    packets of each flow in the order in which they came. *)
Theorem schedule_each_once_in_flow_order packets enabled :
  schedule_packet_batch packets enabled ≡ₚ seq 0 (length packets)
  ∧ ∀ p, filter (λ i, packet_flow (default [] (packets !! i)) ≡ packet_flow p)
           (schedule_packet_batch packets enabled)
         = filter (λ i, packet_flow (default [] (packets !! i)) ≡ packet_flow p)
             (seq 0 (length packets)).
Proof.
  unfold schedule_packet_batch. destruct (_ || _); [done|].
  destruct (batch_drained packets) as (s & -> & Hp & Hk & _). split; [done|].
  intros p. apply (Hk (key_of (packet_flow p))).
Qed.

(** C15: the scheduler is fair between interactive flows (whose first packet
    has at most 256 bytes) and bulk flows: after three interactive packets in a
    row no bulk packet is left, after two bulk packets in a row no interactive
    one is. *)
Theorem schedule_fair packets before a b c after order :
  order = schedule_packet_batch packets true →
  (order = before ++ a :: b :: c :: after →
   flow_class packets a = true → flow_class packets b = true → flow_class packets c = true →
   ∀ i, i ∈ after → flow_class packets i = true)
  ∧ (order = before ++ a :: b :: after →
     flow_class packets a = false → flow_class packets b = false →
     ∀ i, i ∈ after → flow_class packets i = false).
Proof.
  unfold schedule_packet_batch. intros Ho. simpl negb in Ho. cbn [orb] in Ho.
  destruct (Nat.ltb_spec (length packets) 2) as [Hlt|_].
  { split; intros He; exfalso; apply (f_equal length) in Ho; rewrite He in Ho;
      rewrite length_app, length_seq in Ho; simpl in Ho; lia. }
  destruct (batch_drained packets) as (s & Hd & _ & _ & Hf). rewrite Hd in Ho. subst order.
  split; intros -> Ha Hb; rewrite map_app in Hf; simpl in Hf; rewrite Ha, Hb in Hf.
  - intros Hc. rewrite Hc in Hf. apply fair_interactive in Hf. rewrite Forall_map, Forall_forall in Hf.
    intros i Hi. symmetry. by apply Hf.
  - apply fair_bulk in Hf. rewrite Forall_map, Forall_forall in Hf.
    intros i Hi. symmetry. by apply Hf.
Qed.
End Properties.

(** ** Witnesses *)

Module FlowDemo.
(** A UDP packet over IPv4 between ports [a] and 53, [n] bytes long. *)
Definition udp (a n : Z) : bytes :=
  [69; 0; Z.shiftr n 8; Z.land n 255; 0; 0; 0; 0; 64; 17; 0; 0; 10; 0; 0; 1; 10; 0; 0; 2; 0; a; 0; 53]
    ++ repeat 0 (Z.to_nat n - 24).

(** Three small flows with one packet each, then two packets of a bulk flow. *)
Definition batch : list bytes := [udp 1 60; udp 2 60; udp 3 60; udp 9 600; udp 9 100].

(** Four interactive packets; one interactive packet and a bulk flow. *)
Definition small : list bytes := [udp 1 60; udp 2 60; udp 3 60; udp 4 60].
Definition large : list bytes := [udp 1 60; udp 9 600; udp 9 100; udp 9 40].

Example batch_order : schedule_packet_batch batch true = [0; 1; 3; 2; 4]%nat.
Proof. vm_compute. reflexivity. Qed.
End FlowDemo.

Lemma schedule_fair_witness :
  (∀ i, i ∈ [3%nat] → flow_class FlowDemo.small i = true)
  ∧ (∀ i, i ∈ [3%nat] → flow_class FlowDemo.large i = false).
Proof.
  split.
  - apply (proj1 (schedule_fair FlowDemo.small [] 0 1 2 [3%nat]
             (schedule_packet_batch FlowDemo.small true) eq_refl)); vm_compute; reflexivity.
  - apply (proj2 (schedule_fair FlowDemo.large [0%nat] 1 2 0 [3%nat]
             (schedule_packet_batch FlowDemo.large true) eq_refl)); vm_compute; reflexivity.
Defined.
