(* ===== verification/FlowQueue.v ===== *)
(** * The queue of a lane (cdn/include/pacetun/flow_scheduler.hpp, [FlowQueue])

    Packets read from the tunnel device wait in per-flow FIFOs under a packet
    and a byte limit until the lane can send; expired ones are dropped. The
    lists of flows and the choice of the next flow come from [FlowScheduler]. *)

From S2P Require Import Prelude FlowScheduler.

(** [FlowPacket] src/cdn/include/pacetun/flow_scheduler.hpp:106-109 *)
Record FlowPacket := mkFlowPacket { fp_bytes : bytes; enqueued_us : Z }.

(** [FlowQueue] src/cdn/include/pacetun/flow_scheduler.hpp:110-118 *)
Record FlowQueue := mkFlowQueue {
  flows_ : list (Flow FlowPacket);
  packets_ : Z;
  bytes_ : Z;
  turns_ : Turns;
}.

(** [FlowQueue::clear] src/cdn/include/pacetun/flow_scheduler.hpp:197-200 *)
Definition clear : FlowQueue := mkFlowQueue [] 0 0 no_turns.

(** [FlowQueue::prune_if_needed] src/cdn/include/pacetun/flow_scheduler.hpp:119-124 *)
Definition prune_if_needed (q : FlowQueue) : FlowQueue :=
  if zlen (flows_ q) <=? u64 (packets_ q + 32) then q
  else mkFlowQueue (filter (λ f, fl_items f ≠ []) (flows_ q)) (packets_ q) (bytes_ q) no_turns.

(** [FlowQueue::empty] src/cdn/include/pacetun/flow_scheduler.hpp:129-129 *)
Definition queue_empty (q : FlowQueue) : bool := packets_ q =? 0.

(** [FlowQueue::oldest_age_us] src/cdn/include/pacetun/flow_scheduler.hpp:130-135 *)
Definition oldest_age_us (now : Z) (q : FlowQueue) : Z :=
  fold_left (λ age f,
      match fl_items f with
      | p :: _ => if enqueued_us p <=? now then Z.max age (now - enqueued_us p) else age
      | [] => age
      end) (flows_ q) 0.

(** [FlowQueue::push] src/cdn/include/pacetun/flow_scheduler.hpp:136-151 *)
Definition push (packet : bytes) (at_us max_packets max_bytes : Z) (q : FlowQueue) : bool * FlowQueue :=
  if (zlen packet =? 0) || (max_packets <=? packets_ q) || (max_bytes <? zlen packet)
     || (max_bytes - zlen packet <? bytes_ q)
  then (false, q)
  else
    let q := prune_if_needed q in
    (true, mkFlowQueue
             (add_item (packet_flow packet) (is_interactive packet) (mkFlowPacket packet at_us) (flows_ q))
             (u64 (packets_ q + 1)) (u64 (bytes_ q + zlen packet)) (turns_ q)).

(** The [break] of the loop of [drop_expired], negated.
    [FlowQueue::drop_expired] src/cdn/include/pacetun/flow_scheduler.hpp:157-157 *)
Definition expired (now_us ttl_us : Z) (p : FlowPacket) : bool :=
  negb ((now_us <? enqueued_us p) || (now_us - enqueued_us p <=? ttl_us)).

(** The counters that [drop_expired] updates: [bytes_], [packets_], [dropped]. *)
Record Counts := mkCounts { c_bytes : Z; c_packets : Z; c_dropped : Z }.

(** [while (!f.packets.empty()) ...]
    [FlowQueue::drop_expired] src/cdn/include/pacetun/flow_scheduler.hpp:155-160 *)
Fixpoint drop_front (now_us ttl_us : Z) (l : list FlowPacket) (c : Counts) : list FlowPacket * Counts :=
  match l with
  | [] => ([], c)
  | p :: l' =>
      if expired now_us ttl_us p then
        drop_front now_us ttl_us l'
          (mkCounts (u64 (c_bytes c - zlen (fp_bytes p))) (u64 (c_packets c - 1)) (u64 (c_dropped c + 1)))
      else (l, c)
  end.

(** [for (auto& f : flows_) ...]
    [FlowQueue::drop_expired] src/cdn/include/pacetun/flow_scheduler.hpp:154-161 *)
Fixpoint drop_flows (now_us ttl_us : Z) (fs : list (Flow FlowPacket)) (c : Counts)
  : list (Flow FlowPacket) * Counts :=
  match fs with
  | [] => ([], c)
  | f :: fs' =>
      let (l, c) := drop_front now_us ttl_us (fl_items f) c in
      let (fs', c) := drop_flows now_us ttl_us fs' c in
      (mkFlow (fl_id f) l (fl_interactive f) :: fs', c)
  end.

(** [if (packets_ == 0) clear(); else prune_if_needed();]
    [FlowQueue::drop_expired] src/cdn/include/pacetun/flow_scheduler.hpp:162-162 *)
Definition tidy (q : FlowQueue) : FlowQueue := if packets_ q =? 0 then clear else prune_if_needed q.

(** [FlowQueue::drop_expired] src/cdn/include/pacetun/flow_scheduler.hpp:152-164 *)
Definition drop_expired (now_us ttl_us : Z) (q : FlowQueue) : Z * FlowQueue :=
  let (fs, c) := drop_flows now_us ttl_us (flows_ q) (mkCounts (bytes_ q) (packets_ q) 0) in
  (c_dropped c, tidy (mkFlowQueue fs (c_packets c) (c_bytes c) (turns_ q))).

(** [FlowPacket{}] *)
Definition no_packet : FlowPacket := mkFlowPacket [] 0.

(** [FlowQueue::pop] src/cdn/include/pacetun/flow_scheduler.hpp:165-196 *)
Definition pop (q : FlowQueue) : FlowPacket * FlowQueue :=
  if queue_empty q then (no_packet, q)
  else
    match next_turn (flows_ q) (turns_ q) with
    | None => (no_packet, q)
    | Some (i, t) =>
        match pop_item i (flows_ q) with
        | None => (no_packet, q)
        | Some (result, fs) =>
            (result, tidy (mkFlowQueue fs (u64 (packets_ q - 1))
                                       (u64 (bytes_ q - zlen (fp_bytes result))) t))
        end
    end.

(** ** Sizes *)

Definition size_of (l : list FlowPacket) : Z := foldr (λ p s, zlen (fp_bytes p) + s) 0 l.

Lemma size_of_app l1 l2 : size_of (l1 ++ l2) = size_of l1 + size_of l2.
Proof. induction l1; simpl; lia. Qed.
Lemma size_of_cons p l : size_of (p :: l) = zlen (fp_bytes p) + size_of l.
Proof. done. Qed.
Lemma size_of_nonneg l : 0 <= size_of l.
Proof. induction l as [|p l]; simpl; [lia|]. pose proof (zlen_nonneg (fp_bytes p)). lia. Qed.

#[export] Instance size_of_proper : Proper ((≡ₚ) ==> (=)) size_of.
Proof. induction 1; simpl; lia. Qed.
#[export] Instance zlen_proper {A} : Proper ((≡ₚ@{A}) ==> (=)) zlen.
Proof. intros l l' H. unfold zlen. by rewrite H. Qed.

#[export] Hint Resolve size_of_nonneg : pt.

(** ** Pruning *)

Definition pruned (fs : list (Flow FlowPacket)) : list (Flow FlowPacket) :=
  filter (λ f, fl_items f ≠ []) fs.

Lemma items_pruned fs : items (pruned fs) = items fs.
Proof.
  induction fs as [|f fs IH]; [done|]. unfold pruned. rewrite filter_cons, items_cons.
  case_decide as H; [by rewrite items_cons; f_equal|]. by rewrite H.
Qed.

Lemma queue_of_pruned k fs : queue_of k (pruned fs) = queue_of k fs.
Proof.
  induction fs as [|f fs IH]; [done|]. unfold pruned. rewrite filter_cons, queue_of_cons.
  case_decide as H; [by rewrite queue_of_cons; f_equal|]. rewrite H.
  by case_decide.
Qed.

Lemma keys_pruned fs : NoDup (keys fs) → NoDup (keys (pruned fs)).
Proof. intros H. eapply sublist_NoDup; [exact H|]. apply (fmap_sublist fl_key), sublist_filter. Qed.

Lemma length_pruned fs : (length (pruned fs) <= length (items fs))%nat.
Proof.
  induction fs as [|f fs IH]; [done|]. unfold pruned. rewrite filter_cons, items_cons, length_app.
  case_decide as H; simpl; [|unfold pruned in IH; lia].
  destruct (fl_items f); [done|]. simpl. unfold pruned in IH. lia.
Qed.

(** ** The invariant *)

Definition fp_key (p : FlowPacket) : nat * bytes := key_of (packet_flow (fp_bytes p)).
Definition fifo (k : nat * bytes) (q : FlowQueue) : list FlowPacket := queue_of k (flows_ q).

(** Every packet waits in the flow of its key, and the counters are exact. *)
Record counted (q : FlowQueue) : Prop := {
  ok_keys : NoDup (keys (flows_ q));
  ok_filed : Forall (λ f, Forall (λ p, fp_key p = fl_key f) (fl_items f)) (flows_ q);
  ok_packets : packets_ q = zlen (items (flows_ q));
  ok_bytes : bytes_ q = size_of (items (flows_ q));
  ok_turns : (interactive_turns (turns_ q) <= 2)%nat;
  ok_limits : packets_ q <= 2 ^ 63 ∧ bytes_ q < 2 ^ 64;
}.

(** At most 32 flows more than packets: the queue remembers few idle flows. *)
Record queue_ok (q : FlowQueue) : Prop := {
  ok_counted : counted q;
  ok_flows : zlen (flows_ q) <= packets_ q + 32;
}.

(** [q'] holds what [q] holds. *)
Definition same_contents (q q' : FlowQueue) : Prop :=
  (∀ k, fifo k q' = fifo k q) ∧ packets_ q' = packets_ q ∧ bytes_ q' = bytes_ q.

Lemma clear_ok : queue_ok clear.
Proof. repeat constructor; simpl; try lia. unfold zlen. simpl. lia. Qed.

Lemma prune_ok q : counted q → queue_ok (prune_if_needed q) ∧ same_contents q (prune_if_needed q).
Proof.
  intros H. pose proof (ok_packets q H) as Hp. pose proof (ok_limits q H) as [Hl _].
  pose proof (zlen_nonneg (items (flows_ q))) as Hnn.
  unfold prune_if_needed. unfold u64. rewrite (Z.mod_small (_ + _)) by lia.
  destruct (Z.leb_spec (zlen (flows_ q)) (packets_ q + 32)) as [Hle|Hgt]; [by split; [split|]|].
  fold (pruned (flows_ q)). destruct H as [Hk Hf _ Hb _ Hl2]. split; [split; [split|]|]; simpl.
  - by apply keys_pruned.
  - rewrite Forall_forall in *. intros f [_ Hin]%list_elem_of_filter. auto.
  - by rewrite items_pruned.
  - by rewrite items_pruned.
  - lia.
  - done.
  - pose proof (length_pruned (flows_ q)). rewrite Hp. unfold zlen. lia.
  - repeat split. intros k. apply queue_of_pruned.
Qed.

Lemma tidy_ok q : counted q → queue_ok (tidy q) ∧ same_contents q (tidy q).
Proof.
  intros H. unfold tidy. destruct (Z.eqb_spec (packets_ q) 0) as [H0|]; [|by apply prune_ok].
  split; [apply clear_ok|]. destruct H as [_ _ Hp Hb _ _].
  assert (Hi : items (flows_ q) = []).
  { apply nil_length_inv. unfold zlen in Hp. lia. }
  rewrite Hi in Hb. repeat split; simpl; [|done|done].
  intros k. symmetry. apply (empty_queue k). done.
Qed.

(** ** push *)

Lemma push_spec p at_us mp mb q b q' :
  queue_ok q → 0 <= mp <= 2 ^ 63 → u64_ok mb → push p at_us mp mb q = (b, q') →
  queue_ok q' ∧
  if b then p ≠ [] ∧ packets_ q' = packets_ q + 1 ∧ packets_ q' <= mp
            ∧ bytes_ q' = bytes_ q + zlen p ∧ bytes_ q' <= mb
            ∧ ∀ k, fifo k q' = fifo k q
                               ++ (if decide (key_of (packet_flow p) = k) then [mkFlowPacket p at_us] else [])
  else q' = q ∧ (p = [] ∨ mp < packets_ q + 1 ∨ mb < bytes_ q + zlen p).
Proof.
  intros Hq Hmp Hmb. unfold push.
  destruct (Z.eqb_spec (zlen p) 0) as [H0|H0]; cbn [orb].
  { intros [= <- <-]. split; [done|]. split; [done|]. left. apply nil_length_inv. unfold zlen in H0. lia. }
  destruct (Z.leb_spec mp (packets_ q)); cbn [orb]; [intros [= <- <-]; intuition lia|].
  destruct (Z.ltb_spec mb (zlen p)); cbn [orb].
  { intros [= <- <-]. split; [done|]. split; [done|]. right. right.
    rewrite (ok_bytes q (ok_counted q Hq)). pose proof (size_of_nonneg (items (flows_ q))). lia. }
  destruct (Z.ltb_spec (mb - zlen p) (bytes_ q)); [intros [= <- <-]; intuition lia|].
  destruct (prune_ok q (ok_counted q Hq)) as [Hr (Hfifo & Hp & Hb)].
  pose proof (ok_packets q (ok_counted q Hq)) as Hpk. pose proof (ok_bytes q (ok_counted q Hq)) as Hbk.
  pose proof (size_of_nonneg (items (flows_ q))). pose proof (zlen_nonneg (items (flows_ q))).
  pose proof (zlen_nonneg p). unfold u64_ok in Hmb.
  unfold u64. rewrite !Z.mod_small by lia.
  set (r := prune_if_needed q) in *. clearbody r.
  intros [= <- <-]. simpl. rewrite Hp, Hb.
  assert (Hps : p ≠ []) by (intros ->; done).
  destruct Hr as [[Hk Hf Hp' Hb' Ht Hl] Hfl].
  pose proof (items_add (packet_flow p) (is_interactive p) (mkFlowPacket p at_us) (flows_ r)) as Hadd.
  split; [split; [split|]|]; simpl.
  - by apply add_item_NoDup.
  - destruct (add_item_cases (packet_flow p) (is_interactive p) (mkFlowPacket p at_us) (flows_ r))
      as [(l1 & f & l2 & He & Hkey & ->)|[_ ->]].
    + rewrite He in Hf. apply Forall_app in Hf as [H1' [H2' H3']%Forall_cons].
      apply Forall_app. split; [done|]. constructor; [|done]. simpl.
      apply Forall_app. split; [done|]. apply Forall_singleton. done.
    + apply Forall_app. split; [done|]. by apply Forall_singleton, Forall_singleton.
  - rewrite Hadd, zlen_cons. lia.
  - rewrite Hadd, size_of_cons. simpl. lia.
  - done.
  - lia.
  - pose proof (add_item_keys (packet_flow p) (is_interactive p) (mkFlowPacket p at_us) (flows_ r)) as Hks.
    apply (f_equal length) in Hks. unfold keys in Hks. rewrite length_map in Hks.
    unfold zlen in *. case_decide; rewrite ?length_app, !length_map in Hks; simpl in Hks; lia.
  - repeat split; try lia; [done|]. intros k. unfold fifo. simpl.
    rewrite queue_of_add by done. f_equal. apply Hfifo.
Qed.

(** ** pop *)

Lemma pop_spec q p q' :
  queue_ok q → pop q = (p, q') →
  queue_ok q' ∧
  ((packets_ q = 0 ∧ p = no_packet ∧ q' = q)
   ∨ (0 < packets_ q ∧ packets_ q' = packets_ q - 1 ∧ bytes_ q' = bytes_ q - zlen (fp_bytes p)
      ∧ ∀ k, fifo k q = (if decide (fp_key p = k) then [p] else []) ++ fifo k q')).
Proof.
  intros Hq. unfold pop, queue_empty.
  destruct (Z.eqb_spec (packets_ q) 0); [by intros [= <- <-]; auto|].
  destruct Hq as [[Hk Hf Hp Hb Ht Hl] Hfl].
  pose proof (zlen_nonneg (items (flows_ q))) as Hnn.
  destruct (next_turn (flows_ q) (turns_ q)) as [[i t]|] eqn:Hturn.
  2:{ apply next_turn_None in Hturn. rewrite Hturn in Hp. done. }
  destruct (next_turn_pop _ _ _ _ Hturn) as (x & fs & Hpop). rewrite Hpop.
  apply next_turn_Some in Hturn as (f & y & r & Hi & Hr & Hturns).
  intros [= <- <-].
  pose proof (items_pop _ _ _ _ Hpop) as Hperm. rewrite Hperm in Hp, Hb.
  rewrite zlen_cons in Hp. rewrite size_of_cons in Hb. pose proof (size_of_nonneg (items fs)).
  pose proof (zlen_nonneg (fp_bytes x)). pose proof (zlen_nonneg (items fs)).
  unfold u64. rewrite !Z.mod_small by lia.
  set (q2 := mkFlowQueue fs (packets_ q - 1) (bytes_ q - zlen (fp_bytes x)) t).
  assert (Hx : fp_key x = fl_key f ∧ Forall (λ g, Forall (λ p, fp_key p = fl_key g) (fl_items g)) fs).
  { apply pop_item_cases in Hpop as (l1 & g & r' & l2 & He & <- & Hg & ->).
    rewrite He, list_lookup_middle in Hi by done. injection Hi as ->. rewrite He in Hf.
    apply Forall_app in Hf as [H1' [H2' H3']%Forall_cons].
    rewrite Hg in H2'. apply Forall_cons in H2' as [Hx Hr'].
    split; [done|]. apply Forall_app. by repeat constructor. }
  destruct Hx as [Hx Hfs].
  assert (Hq2 : counted q2).
  { split; simpl; [|done|lia|lia| |lia].
    - by rewrite (pop_item_keys _ _ _ _ Hpop).
    - destruct (fl_interactive f); [destruct Hturns as [[? ->]|(? & -> & _)]; lia|].
      destruct Hturns as [-> _]. lia. }
  destruct (tidy_ok q2 Hq2) as [Hok (Hfifo & Hp2 & Hb2)]. split; [done|]. right.
  rewrite Hp2, Hb2. repeat split; try (simpl; lia).
  intros k. rewrite Hfifo. unfold fifo. rewrite Hx. by apply (queue_of_pop i).
Qed.

(** ** drop_expired *)

Definition head_fresh (now_us ttl_us : Z) (l : list FlowPacket) : Prop :=
  match l with p :: _ => expired now_us ttl_us p = false | [] => True end.

Lemma drop_front_spec now ttl l : ∀ c l' c',
  drop_front now ttl l c = (l', c') →
  zlen l <= c_packets c < 2 ^ 64 → size_of l <= c_bytes c < 2 ^ 64 →
  0 <= c_dropped c → c_dropped c + zlen l < 2 ^ 64 →
  ∃ gone, l = gone ++ l' ∧ Forall (λ p, expired now ttl p = true) gone ∧ head_fresh now ttl l'
          ∧ c' = mkCounts (c_bytes c - size_of gone) (c_packets c - zlen gone) (c_dropped c + zlen gone).
Proof.
  induction l as [|p l IH]; intros [cb cp cd] l' c' H; simpl in *.
  - injection H as <- <-. intros. exists []. repeat split; simpl; autorewrite with pt; try done; f_equal; lia.
  - destruct (expired now ttl p) eqn:He.
    + intros Hp Hb Hd Hd2. rewrite zlen_cons in *. pose proof (size_of_nonneg l).
      pose proof (zlen_nonneg (fp_bytes p)). pose proof (zlen_nonneg l).
      unfold u64 in H. rewrite !Z.mod_small in H by lia.
      destruct (IH _ _ _ H) as (gone & -> & Hg & Hh & ->); simpl; try lia.
      exists (p :: gone). rewrite zlen_cons. simpl. repeat split; [by constructor|done|f_equal; lia].
    + injection H as <- <-. intros. exists []. repeat split; simpl; autorewrite with pt; try done; f_equal; lia.
Qed.

Lemma drop_flows_spec now ttl fs : ∀ c fs' c',
  drop_flows now ttl fs c = (fs', c') → NoDup (keys fs) →
  Forall (λ f, Forall (λ p, fp_key p = fl_key f) (fl_items f)) fs →
  zlen (items fs) <= c_packets c < 2 ^ 64 → size_of (items fs) <= c_bytes c < 2 ^ 64 →
  0 <= c_dropped c → c_dropped c + zlen (items fs) < 2 ^ 64 →
  keys fs' = keys fs ∧ length fs' = length fs
  ∧ Forall (λ f, Forall (λ p, fp_key p = fl_key f) (fl_items f)) fs'
  ∧ Forall (λ f, head_fresh now ttl (fl_items f)) fs'
  ∧ ∃ gone, items fs ≡ₚ gone ++ items fs' ∧ Forall (λ p, expired now ttl p = true) gone
            ∧ (∀ k, queue_of k fs = filter (λ p, fp_key p = k) gone ++ queue_of k fs')
            ∧ c' = mkCounts (c_bytes c - size_of gone) (c_packets c - zlen gone) (c_dropped c + zlen gone).
Proof.
  induction fs as [|f fs IH]; intros c fs' c' H Hn Hf Hp Hb Hd Hd2; simpl in H.
  { injection H as <- <-. repeat (split; [done|]). exists []. repeat split; try done.
    autorewrite with pt. destruct c; simpl. f_equal; lia. }
  rewrite items_cons in *. autorewrite with pt in *. rewrite size_of_app in Hb.
  pose proof (size_of_nonneg (items fs)). pose proof (zlen_nonneg (items fs)).
  destruct (drop_front now ttl (fl_items f) c) as [l c1] eqn:Hdf.
  destruct (drop_flows now ttl fs c1) as [fs1 c2] eqn:Hds. injection H as <- <-.
  apply Forall_cons in Hf as [Hf Hfs]. apply NoDup_cons in Hn as [Hnew Hn].
  destruct (drop_front_spec now ttl (fl_items f) c l c1 Hdf) as (g1 & Hitems & Hg1 & Hh1 & ->); try lia.
  rewrite Hitems in *. autorewrite with pt in *. rewrite size_of_app in *.
  pose proof (size_of_nonneg l). pose proof (zlen_nonneg l).
  pose proof (size_of_nonneg g1). pose proof (zlen_nonneg g1).
  destruct (IH _ _ _ Hds Hn Hfs) as (Hk & Hl & Hf1 & Hh & g2 & Hperm & Hg2 & Hq & ->);
    [simpl; lia..|].
  apply Forall_app in Hf as [Hfg Hfl].
  split; [by unfold keys in *; simpl; f_equal|]. split; [simpl; lia|]. split; [by constructor|].
  split; [by constructor|]. exists (g1 ++ g2). split; [|split; [|split]].
  - rewrite Hperm, items_cons. simpl. solve_Permutation.
  - by apply Forall_app.
  - intros k. rewrite !queue_of_cons, fl_key_same, Hq, filter_app. cbn [fl_items]. rewrite Hitems.
    destruct (decide (fl_key f = k)) as [<-|Hne].
    + specialize (Hq (fl_key f)). rewrite (queue_of_absent _ fs) in Hq by done.
      apply eq_sym, app_nil in Hq as [-> ->]. rewrite !app_nil_r. f_equal. symmetry.
      by apply list_filter_all.
    + assert (filter (λ p, fp_key p = k) g1 = []) as ->; [|done].
      apply list_filter_none. eapply Forall_impl; [exact Hfg|]. by intros p ->.
  - autorewrite with pt. rewrite size_of_app. simpl. f_equal; lia.
Qed.

Lemma drop_spec now ttl q n q' :
  queue_ok q → drop_expired now ttl q = (n, q') →
  queue_ok q' ∧ Forall (λ f, head_fresh now ttl (fl_items f)) (flows_ q')
  ∧ ∃ gone, n = zlen gone ∧ Forall (λ p, expired now ttl p = true) gone
            ∧ packets_ q = zlen gone + packets_ q' ∧ bytes_ q = size_of gone + bytes_ q'
            ∧ ∀ k, fifo k q = filter (λ p, fp_key p = k) gone ++ fifo k q'.
Proof.
  intros [[Hk Hf Hp Hb Ht Hl] Hfl] H. unfold drop_expired in H.
  pose proof (zlen_nonneg (items (flows_ q))). pose proof (size_of_nonneg (items (flows_ q))).
  destruct (drop_flows now ttl (flows_ q) _) as [fs c] eqn:Hd. injection H as <- <-.
  destruct (drop_flows_spec now ttl (flows_ q) _ _ _ Hd Hk Hf)
    as (Hk' & Hlen & Hf' & Hh & gone & Hperm & Hg & Hq & ->); [simpl; lia..|].
  rewrite Hperm in Hp, Hb. autorewrite with pt in Hp. rewrite size_of_app in Hb. cbn [c_bytes c_packets c_dropped].
  set (q2 := mkFlowQueue fs _ _ _).
  pose proof (size_of_nonneg gone). pose proof (zlen_nonneg gone).
  assert (Hq2 : counted q2) by (split; simpl; [by rewrite Hk'|done|lia..|done|lia]).
  destruct (tidy_ok q2 Hq2) as [Hok (Hfifo & Hp2 & Hb2)]. split; [done|]. split.
  - unfold tidy, prune_if_needed. repeat case_match; [done|done|].
    rewrite Forall_forall in *. intros f [_ Hin]%list_elem_of_filter. auto.
  - exists gone. rewrite Hp2, Hb2. simpl. repeat split; [done|lia|lia|].
    intros k. rewrite Hfifo. apply Hq.
Qed.

(** ** Runs *)

(** What an owner of a queue does with it. *)
Inductive QueueOp :=
| DoPush (packet : bytes) (at_us max_packets max_bytes : Z)
| DoDrop (now_us ttl_us : Z)
| DoPop.

(** The packets accepted and popped so far, and how many expired. *)
Record Log := mkLog { accepted : list FlowPacket; popped : list FlowPacket; expirations : Z }.

Definition queue_step (s : FlowQueue * Log) (op : QueueOp) : FlowQueue * Log :=
  let (q, l) := s in
  match op with
  | DoPush p at_us mp mb =>
      let (b, q') := push p at_us mp mb q in
      (q', if b then mkLog (accepted l ++ [mkFlowPacket p at_us]) (popped l) (expirations l) else l)
  | DoDrop now ttl =>
      let (n, q') := drop_expired now ttl q in
      (q', mkLog (accepted l) (popped l) (expirations l + n))
  | DoPop =>
      let (p, q') := pop q in
      (q', if queue_empty q then l else mkLog (accepted l) (popped l ++ [p]) (expirations l))
  end.

Definition queue_run (ops : list QueueOp) : FlowQueue * Log :=
  fold_left queue_step ops (clear, mkLog [] [] 0).

Definition limits_ok (op : QueueOp) : Prop :=
  match op with DoPush _ _ mp mb => 0 <= mp <= 2 ^ 63 ∧ u64_ok mb | _ => True end.

(** The log accounts for every packet: what left, in order, and what waits. *)
Record logged (s : FlowQueue * Log) : Prop := {
  log_ok : queue_ok s.1;
  log_gone : ∃ gone, popped s.2 `sublist_of` gone
    ∧ zlen gone = zlen (popped s.2) + expirations s.2
    ∧ (∀ k, filter (λ p, fp_key p = k) (accepted s.2) = filter (λ p, fp_key p = k) gone ++ fifo k s.1)
    ∧ zlen (accepted s.2) = zlen gone + packets_ s.1;
}.

Lemma filter_snoc (k : nat * bytes) (l : list FlowPacket) p :
  filter (λ p, fp_key p = k) (l ++ [p])
  = filter (λ p, fp_key p = k) l ++ (if decide (fp_key p = k) then [p] else []).
Proof. rewrite filter_app, filter_cons. by case_decide. Qed.

Lemma queue_step_logged s op : limits_ok op → logged s → logged (queue_step s op).
Proof.
  destruct s as [q l]. intros Ho [Hok (gone & Hsub & Hlen & Hk & Hn)]. simpl in *.
  destruct op as [p at_us mp mb|now ttl|]; simpl in *.
  - destruct Ho as [H1 H2]. destruct (push p at_us mp mb q) as [b q'] eqn:Hp.
    apply push_spec in Hp as [Hok' Hb]; [|done..]. destruct b; simpl.
    + destruct Hb as (_ & Hp1 & _ & _ & _ & Hf). split; [done|]. exists gone. simpl.
      repeat split; [done|done| |autorewrite with pt; lia].
      intros k. by rewrite filter_snoc, Hk, Hf, app_assoc.
    + destruct Hb as [-> _]. split; [done|]. by exists gone.
  - destruct (drop_expired now ttl q) as [n q'] eqn:Hd.
    apply drop_spec in Hd as (Hok' & _ & g & -> & _ & Hp & _ & Hf); [|done].
    split; [done|]. exists (gone ++ g). simpl. autorewrite with pt. repeat split; [|lia| |lia].
    + by apply sublist_inserts_r.
    + intros k. by rewrite filter_app, <- app_assoc, Hk, Hf.
  - destruct (pop q) as [p q'] eqn:Hp. apply pop_spec in Hp as [Hok' Hp]; [|done].
    unfold queue_empty. destruct Hp as [(H0 & -> & ->)|(H0 & Hp & _ & Hf)].
    + rewrite H0. split; [done|]. by exists gone.
    + rewrite (proj2 (Z.eqb_neq _ _)) by lia. split; [done|]. exists (gone ++ [p]). simpl.
      autorewrite with pt. repeat split; [|lia| |lia].
      * by apply sublist_app.
      * intros k. by rewrite filter_snoc, <- app_assoc, Hk, Hf.
Qed.

Lemma queue_run_logged ops : Forall limits_ok ops → logged (queue_run ops).
Proof.
  unfold queue_run. intros Ho.
  assert (H : logged (clear, mkLog [] [] 0)).
  { split; [apply clear_ok|]. exists []. by repeat split. }
  revert H. generalize (clear, mkLog [] [] 0). induction Ho as [|op ops Hop _ IH]; intros s H; [done|].
  simpl. apply IH. by apply queue_step_logged.
Qed.

Lemma oldest_age_bound now ttl q :
  0 <= ttl → Forall (λ f, head_fresh now ttl (fl_items f)) (flows_ q) → 0 <= oldest_age_us now q <= ttl.
Proof.
  intros Ht. unfold oldest_age_us. set (step := λ (age : Z) (f : Flow FlowPacket), _).
  enough (H : ∀ fs age, 0 <= age <= ttl → Forall (λ f, head_fresh now ttl (fl_items f)) fs →
                        0 <= fold_left step fs age <= ttl) by (apply H; lia).
  induction fs as [|f fs IH]; intros age Ha Hf; simpl; [lia|].
  apply Forall_cons in Hf as [Hf Hfs]. apply IH; [|done]. unfold step.
  unfold head_fresh, expired in Hf. destruct (fl_items f) as [|p l]; [done|].
  destruct (Z.leb_spec (enqueued_us p) now); [|done].
  rewrite (proj2 (Z.ltb_ge now _)) in Hf by lia. apply negb_false_iff, Z.leb_le in Hf. lia.
Qed.

Definition within (mp mb : Z) (op : QueueOp) : Prop :=
  match op with DoPush _ _ mp' mb' => mp' = mp ∧ mb' = mb | _ => True end.

Lemma queue_step_bounded mp mb s op :
  0 <= mp <= 2 ^ 63 → u64_ok mb → queue_ok s.1 → within mp mb op →
  packets_ s.1 <= mp → bytes_ s.1 <= mb →
  packets_ (queue_step s op).1 <= mp ∧ bytes_ (queue_step s op).1 <= mb.
Proof.
  destruct s as [q l]. simpl. intros Hmp Hmb Hok Hw Hp Hb.
  destruct op as [p at_us mp' mb'|now ttl|]; simpl in *.
  - destruct Hw as [-> ->]. destruct (push p at_us mp mb q) as [b q'] eqn:He.
    apply push_spec in He as [_ He]; [|done..]. simpl. destruct b; [tauto|]. by destruct He as [-> _].
  - destruct (drop_expired now ttl q) as [n q'] eqn:He.
    apply drop_spec in He as (_ & _ & g & _ & _ & H1 & H2 & _); [|done]. simpl.
    pose proof (size_of_nonneg g). pose proof (zlen_nonneg g). lia.
  - destruct (pop q) as [p q'] eqn:He. apply pop_spec in He as [_ He]; [|done]. simpl.
    destruct He as [(_ & _ & ->)|(_ & H1 & H2 & _)]; [done|].
    pose proof (zlen_nonneg (fp_bytes p)). lia.
Qed.

(** ** Properties *)

Section Properties.
(** C16: whatever is done with a queue, no packet is lost, duplicated or
    overtaken within its flow: of each flow, the packets accepted are, in
    order, those that left and those that wait; what left was popped, or
    expired and counted. *)
Theorem queue_keeps_flow_order ops q l :
  Forall limits_ok ops → queue_run ops = (q, l) →
  ∃ gone, popped l `sublist_of` gone ∧ zlen gone = zlen (popped l) + expirations l
    ∧ ∀ k, filter (λ p, fp_key p = k) (accepted l) = filter (λ p, fp_key p = k) gone ++ fifo k q.
Proof.
  intros Ho Hr. pose proof (queue_run_logged ops Ho) as H. rewrite Hr in H.
  destruct H as [_ (gone & H1 & H2 & H3 & _)]. by exists gone.
Qed.

(** The limits given to [push] hold at all times, the counters are the
    exact number and size of the packets that wait, and idle flows are
    forgotten: at most 32 flows more than packets. *)
Theorem queue_stays_within_limits ops mp mb q l :
  0 <= mp <= 2 ^ 63 → u64_ok mb → Forall (within mp mb) ops → queue_run ops = (q, l) →
  packets_ q = zlen (items (flows_ q)) ∧ packets_ q <= mp
  ∧ bytes_ q = size_of (items (flows_ q)) ∧ bytes_ q <= mb
  ∧ zlen (flows_ q) <= packets_ q + 32.
Proof.
  intros Hmp Hmb Hw Hrun.
  assert (Hi : logged (clear, mkLog [] [] 0) ∧ 0 <= mp ∧ 0 <= mb).
  { split; [|unfold u64_ok in Hmb; lia]. split; [apply clear_ok|]. exists []. by repeat split. }
  enough (H : ∀ s, logged s ∧ packets_ s.1 <= mp ∧ bytes_ s.1 <= mb →
            let s' := fold_left queue_step ops s in
            logged s' ∧ packets_ s'.1 <= mp ∧ bytes_ s'.1 <= mb).
  { specialize (H _ Hi). unfold queue_run in Hrun. rewrite Hrun in H.
    destruct H as (Hl & Hp & Hb). destruct (log_ok _ Hl) as [[_ _ H1 H2 _ _] H3]. done. }
  clear Hrun. induction Hw as [|op ops Hop _ IH]; intros s (Hl & Hp & Hb); [done|].
  simpl. apply IH. split.
  - apply queue_step_logged; [|done]. destruct op; [destruct Hop as [-> ->]|..]; done.
  - apply queue_step_bounded; try done. apply Hl.
Qed.

(** After [drop_expired] nothing at the head of a flow is older than the
    limit, so the age reported to the telemetry is within it; and only
    expired packets were dropped. *)
Theorem drop_expired_bounds_age now ttl q n q' :
  queue_ok q → 0 <= ttl → drop_expired now ttl q = (n, q') →
  0 <= oldest_age_us now q' <= ttl ∧ n = packets_ q - packets_ q'
  ∧ ∀ k, ∃ gone, fifo k q = gone ++ fifo k q' ∧ Forall (λ p, ttl < now - enqueued_us p) gone.
Proof.
  intros Hq Ht (_ & Hh & g & -> & Hg & Hp & _ & Hf)%drop_spec; [|done].
  split; [by apply oldest_age_bound|]. split; [lia|]. intros k. eexists. split; [apply Hf|].
  apply Forall_forall. intros p [_ Hin]%list_elem_of_filter. rewrite Forall_forall in Hg.
  specialize (Hg p Hin). unfold expired in Hg.
  destruct (Z.ltb_spec now (enqueued_us p)), (Z.leb_spec (now - enqueued_us p) ttl); simpl in Hg;
    done || lia.
Qed.
End Properties.

(** ** Witnesses *)

Module QueueDemo.
Definition ops : list QueueOp :=
  [DoPush (FlowDemo.udp 1 60) 10 2 1000; DoPush (FlowDemo.udp 2 600) 20 2 1000;
   DoPush (FlowDemo.udp 3 60) 30 2 1000; DoPop; DoPush (FlowDemo.udp 2 100) 40 2 1000; DoDrop 1020 999].

Definition final : FlowQueue * Log := queue_run ops.

Lemma ops_within : Forall (within 2 1000) ops.
Proof. by repeat constructor. Qed.
Lemma ops_limits : Forall limits_ok ops.
Proof. repeat constructor; simpl; unfold u64_ok; lia. Qed.
End QueueDemo.

Lemma queue_keeps_flow_order_witness :
  ∃ gone, popped QueueDemo.final.2 `sublist_of` gone
    ∧ zlen gone = zlen (popped QueueDemo.final.2) + expirations QueueDemo.final.2
    ∧ ∀ k, filter (λ p, fp_key p = k) (accepted QueueDemo.final.2)
           = filter (λ p, fp_key p = k) gone ++ fifo k QueueDemo.final.1.
Proof.
  apply (queue_keeps_flow_order QueueDemo.ops); [apply QueueDemo.ops_limits|].
  by destruct (queue_run QueueDemo.ops) eqn:H; unfold QueueDemo.final; rewrite H.
Defined.

Lemma queue_stays_within_limits_witness :
  packets_ QueueDemo.final.1 = 1 ∧ packets_ QueueDemo.final.1 <= 2.
Proof.
  split; [vm_compute; reflexivity|].
  apply (queue_stays_within_limits QueueDemo.ops 2 1000 QueueDemo.final.1 QueueDemo.final.2);
    [lia|unfold u64_ok; lia|apply QueueDemo.ops_within|vm_compute; reflexivity].
Defined.

Lemma drop_expired_bounds_age_witness :
  let q := (push (FlowDemo.udp 1 60) 10 2 1000 clear).2 in
  0 <= oldest_age_us 100 (drop_expired 100 50 q).2 <= 50.
Proof.
  assert (Hq : queue_ok (push (FlowDemo.udp 1 60) 10 2 1000 clear).2).
  { apply (push_spec (FlowDemo.udp 1 60) 10 2 1000 clear true);
      [apply clear_ok|lia|unfold u64_ok; lia|vm_compute; reflexivity]. }
  apply (drop_expired_bounds_age 100 50 _
           (drop_expired 100 50 (push (FlowDemo.udp 1 60) 10 2 1000 clear).2).1 _ Hq); [lia|].
  vm_compute. reflexivity.
Defined.
