(* ===== verification/WsFrame.v ===== *)
(** * WebSocket frames (cdn/src/websocket.cpp)

    The wire format: [make_frame] as a function of the payload and the mask key,
    the header and payload part of the loop of [websocket_read_messages], and the
    close codes. The session that owns the buffers is in [WebSocket]. *)

From S2P Require Import Prelude.

(** [kMaxWsMessageBytes] src/cdn/src/websocket.cpp:24-24 *)
Definition kMaxWsMessageBytes : Z := 16 * 1024 * 1024.
(** [kMaxWsTxBytes] src/cdn/src/websocket.cpp:25-25 *)
Definition kMaxWsTxBytes : Z := kMaxWsMessageBytes + 64 * 1024.
(** [kMaxWsRxBufferedBytes] src/cdn/src/websocket.cpp:26-26 *)
Definition kMaxWsRxBufferedBytes : Z := 2 * kMaxWsMessageBytes + 64 * 1024.
(** [kMaxRememberedPongs] src/cdn/src/websocket.cpp:27-27 *)
Definition kMaxRememberedPongs : Z := 16.

(** [for (i < size) p[i] ^= mk[i % 4]]
    [make_frame] src/cdn/src/websocket.cpp:204-204 *)
Definition mask_bytes (mk : bytes) (p : bytes) : bytes :=
  imap (λ i x, Z.lxor x (at_ mk (i mod 4))) p.

(** [make_frame] src/cdn/src/websocket.cpp:185-185 *)
Definition is_control (opcode : Z) : bool := negb (Z.land opcode 0x8 =? 0).

(** The length bytes of the header.
    [make_frame] src/cdn/src/websocket.cpp:191-196 *)
Definition length_field (mask : bool) (n : Z) : bytes :=
  let mbit := if mask then 0x80 else 0 in
  if n <? 126 then [u8 (Z.lor mbit n)]
  else if n <=? 65535 then [Z.lor mbit 126; u8 (Z.shiftr n 8); u8 n]
  else Z.lor mbit 127 :: be_bytes 8 n.

(** The frame [make_frame] returns for a mask key [mk], which is unused by the server.
    [make_frame] src/cdn/src/websocket.cpp:188-205 *)
Definition frame_bytes (mask : bool) (opcode : Z) (p mk : bytes) : bytes :=
  u8 (Z.lor 0x80 opcode) :: length_field mask (zlen p)
    ++ (if mask then mk ++ mask_bytes mk p else p).

(** What the loop of [websocket_read_messages] sees at [off]. *)
Inductive Parsed :=
| Incomplete                                        (* [break]: more bytes are needed *)
| Malformed (e : bytes)                             (* an exception *)
| Frame (fin : bool) (op : Z) (payload : bytes) (size : nat).

(** The 16- or 64-bit length: the value and the position after it.
    [websocket_read_messages] src/cdn/src/websocket.cpp:572-577 *)
Definition extended_length (len7 : Z) (b : bytes) : option (res (Z * nat)) :=
  if len7 =? 126 then
    if zlen b <? 4 then None
    else Some (Ok (Z.lor (Z.shiftl (at_ b 2) 8) (at_ b 3), 4%nat))
  else if len7 =? 127 then
    if zlen b <? 10 then None
    else if negb (Z.land (at_ b 2) 0x80 =? 0) then Some (Err (str "invalid WebSocket 64-bit length"))
    else Some (Ok (be_decode (take 8 (drop 2 b)), 10%nat))
  else Some (Ok (len7, 2%nat)).

(** The frame at the head of [b], the received bytes from [off] on.
    [websocket_read_messages] src/cdn/src/websocket.cpp:555-586 *)
Definition parse_frame (client authenticated : bool) (off : Z) (b : bytes) : Parsed :=
  if zlen b <? 2 then Incomplete
  else
    let b0 := at_ b 0 in
    let b1 := at_ b 1 in
    let fin := negb (Z.land b0 0x80 =? 0) in
    let masked := negb (Z.land b1 0x80 =? 0) in
    let op := Z.land b0 0x0f in
    let len7 := Z.land b1 0x7f in
    if negb (Z.land b0 0x70 =? 0) then Malformed (str "WebSocket RSV bits are not supported")
    else if is_control op && negb fin then Malformed (str "fragmented WebSocket control frame rejected")
    else if is_control op && (126 <=? len7) then Malformed (str "invalid WebSocket control frame length")
    else if client && masked then Malformed (str "masked server WebSocket frame rejected")
    else if negb client && negb masked then Malformed (str "unmasked client WebSocket frame rejected")
    else
      match extended_length len7 b with
      | None => Incomplete
      | Some (Err e) => Malformed e
      | Some (Ok (n, pos)) =>
          if masked && (zlen b <? Z.of_nat pos + 4) then Incomplete
          else
            let mk := if masked then take 4 (drop pos b) else [] in
            let pos := if masked then (pos + 4)%nat else pos in
            if (if authenticated then kMaxWsMessageBytes else 1024) <? n
            then Malformed (str "WebSocket frame too large")
            else if 2 ^ 64 - 1 - (off + Z.of_nat pos) <? n
            then Malformed (str "WebSocket frame length overflow")
            else if zlen b <? Z.of_nat pos + n then Incomplete
            else
              let raw := take (Z.to_nat n) (drop pos b) in
              Frame fin op (if masked then mask_bytes mk raw else raw) (pos + Z.to_nat n)
      end.

(** [valid_close_status] src/cdn/src/websocket.cpp:447-450 *)
Definition valid_close_status (code : Z) : bool :=
  ((1000 <=? code) && (code <=? 1014) && negb (code =? 1004) && negb (code =? 1005)
   && negb (code =? 1006))
  || ((3000 <=? code) && (code <=? 4999)).

(** [close_category] src/cdn/src/websocket.cpp:451-467 *)
Definition close_category (code : Z) : bytes :=
  if code =? 1000 then str "normal"
  else if code =? 1001 then str "going_away"
  else if code =? 1002 then str "protocol_error"
  else if code =? 1003 then str "unsupported_data"
  else if code =? 1007 then str "invalid_payload"
  else if code =? 1008 then str "policy_violation"
  else if code =? 1009 then str "message_too_big"
  else if code =? 1010 then str "extension_required"
  else if code =? 1011 then str "server_error"
  else if code =? 1012 then str "service_restart"
  else if code =? 1013 then str "try_again_later"
  else if code =? 1014 then str "bad_gateway"
  else if (3000 <=? code) && (code <=? 3999) then str "registered" else str "private".

(** ** Masking *)

Lemma length_mask mk p : length (mask_bytes mk p) = length p.
Proof. apply length_imap. Qed.

Lemma mask_involutive mk p : mask_bytes mk (mask_bytes mk p) = p.
Proof.
  unfold mask_bytes. apply list_eq. intros i. rewrite !list_lookup_imap.
  destruct (p !! i); simpl; [|done]. by rewrite Z.lxor_assoc, Z.lxor_nilpotent, Z.lxor_0_r.
Qed.

(** ** Header bits *)

(** A property of the integers below [n] that evaluates to true for each. *)
Lemma below (n : nat) (P : Z → bool) :
  forallb P (map Z.of_nat (seq 0 n)) = true → ∀ z, 0 <= z < Z.of_nat n → P z = true.
Proof.
  intros H z Hz. rewrite forallb_forall in H. apply H, in_map_iff.
  exists (Z.to_nat z). rewrite in_seq. lia.
Qed.

Lemma first_byte op :
  0 <= op < 16 →
  let b0 := u8 (Z.lor 0x80 op) in
  negb (Z.land b0 0x80 =? 0) = true ∧ Z.land b0 0x0f = op ∧ negb (Z.land b0 0x70 =? 0) = false.
Proof.
  intros H.
  pose proof (below 16 (λ op, let b0 := u8 (Z.lor 0x80 op) in
    negb (Z.land b0 0x80 =? 0) && (Z.land b0 0x0f =? op) && (Z.land b0 0x70 =? 0))
    ltac:(vm_compute; reflexivity) op H) as Hb.
  cbv zeta in *. rewrite !andb_true_iff, Z.eqb_eq in Hb. destruct Hb as [[-> ->] ->]. done.
Qed.

Lemma second_byte (mask : bool) n :
  0 <= n < 128 →
  let b1 := u8 (Z.lor (if mask then 0x80 else 0) n) in
  negb (Z.land b1 0x80 =? 0) = mask ∧ Z.land b1 0x7f = n.
Proof.
  intros H.
  pose proof (below 128 (λ n, forallb (λ m : bool, let b1 := u8 (Z.lor (if m then 0x80 else 0) n) in
    Bool.eqb (negb (Z.land b1 0x80 =? 0)) m && (Z.land b1 0x7f =? n)) [true; false])
    ltac:(vm_compute; reflexivity) n H) as Hb.
  rewrite forallb_forall in Hb. specialize (Hb mask). cbv zeta in *.
  rewrite andb_true_iff, eqb_true_iff, Z.eqb_eq in Hb. apply Hb. destruct mask; simpl; auto.
Qed.

(** ** Parsing what was built *)

Lemma length_length_field mask n :
  length (length_field mask n) = if n <? 126 then 1%nat else if n <=? 65535 then 3%nat else 9%nat.
Proof. unfold length_field. by repeat case_match. Qed.

Lemma length_frame mask op p mk :
  length mk = 4%nat →
  length (frame_bytes mask op p mk)
  = (1 + length (length_field mask (zlen p)) + (if mask then 4 else 0) + length p)%nat.
Proof.
  intros H. unfold frame_bytes. simpl. rewrite length_app.
  destruct mask; [rewrite length_app, length_mask|]; lia.
Qed.

(** A 64-bit length below 2^63 has its top bit clear. *)
Lemma top_bit_clear n : 0 <= n < 2 ^ 63 → negb (Z.land (at_ (be_bytes 8 n) 0) 0x80 =? 0) = false.
Proof.
  intros Hn. change (at_ (be_bytes 8 n) 0) with (Z.land (Z.shiftr n 56) 255).
  rewrite land_255, Z.shiftr_div_pow2 by lia.
  assert (0 <= n / 2 ^ 56 < 2 ^ 7) by (split; [apply Z.div_pos|apply Z.div_lt_upper_bound]; lia).
  rewrite Z.mod_small by lia. apply negb_false_iff.
  apply (below 128 (λ x, Z.land x 128 =? 0)); [vm_compute; reflexivity|lia].
Qed.

(** Reading the header back gives the mask bit, the length and the position of
    what follows. *)
Lemma length_field_parsed b0 mask n tail :
  0 <= n < 2 ^ 63 →
  let b := b0 :: length_field mask n ++ tail in
  ∃ pos, extended_length (Z.land (at_ b 1) 0x7f) b = Some (Ok (n, pos))
         ∧ pos = S (length (length_field mask n)) ∧ drop pos b = tail
         ∧ negb (Z.land (at_ b 1) 0x80 =? 0) = mask
         ∧ (n < 126 → Z.land (at_ b 1) 0x7f = n).
Proof.
  intros Hn b. exists (S (length (length_field mask n))).
  assert (Hdrop : drop (S (length (length_field mask n))) b = tail)
    by (unfold b; simpl; by apply drop_app_length').
  unfold b in *. clear b. unfold length_field, extended_length in *.
  destruct (Z.ltb_spec n 126).
  - destruct (second_byte mask n ltac:(lia)) as [Hm Hl].
    change (at_ (b0 :: [u8 (Z.lor (if mask then 128 else 0) n)] ++ tail) 1)
      with (u8 (Z.lor (if mask then 128 else 0) n)).
    rewrite Hl, (proj2 (Z.eqb_neq n 126)), (proj2 (Z.eqb_neq n 127)) by lia.
    repeat split; done.
  - destruct (Z.leb_spec n 65535).
    + replace (at_ _ 1) with (Z.lor (if mask then 128 else 0) 126) by done.
      replace (Z.land (Z.lor (if mask then 128 else 0) 126) 127) with 126 by by destruct mask.
      rewrite (proj2 (Z.ltb_ge _ 4)).
      2:{ unfold zlen. simpl. lia. }
      change (126 =? 126) with true. cbv iota.
      replace (Z.lor _ _) with n by (symmetry; exact (join16 n ltac:(lia))).
      repeat split.
      all: [> by destruct mask|lia].
    + pose proof (top_bit_clear n Hn) as Hhead.
      assert (Hdec : be_decode (be_bytes 8 n) = n) by (apply be_decode_be_bytes; lia).
      assert (Hw : length (be_bytes 8 n) = 8%nat) by apply length_be_bytes.
      revert Hhead Hdec Hw Hdrop. generalize (be_bytes 8 n). intros w Hhead Hdec Hw Hdrop.
      rewrite <- (at_app w tail) in Hhead by lia.
      replace (at_ (b0 :: (Z.lor (if mask then 128 else 0) 127 :: w) ++ tail) 1)
        with (Z.lor (if mask then 128 else 0) 127) by done.
      replace (Z.land (Z.lor (if mask then 128 else 0) 127) 127) with 127 by by destruct mask.
      rewrite (proj2 (Z.ltb_ge _ 10)).
      2:{ unfold zlen. simpl. rewrite length_app. lia. }
      change (at_ (b0 :: (Z.lor (if mask then 128 else 0) 127 :: w) ++ tail) 2)
        with (at_ (w ++ tail) 0). rewrite Hhead.
      change (drop 2 (b0 :: (Z.lor (if mask then 128 else 0) 127 :: w) ++ tail)) with (w ++ tail).
      rewrite take_app_length' by lia. rewrite Hdec. cbn [Z.eqb Pos.eqb].
      repeat split; [simpl; by rewrite Hw|done|by destruct mask|lia].
Qed.

Lemma parse_frame_encoded (client authenticated : bool) off op p mk rest :
  0 <= op < 16 → (is_control op = true → zlen p <= 125) →
  zlen p <= (if authenticated then kMaxWsMessageBytes else 1024) →
  length mk = 4%nat → 0 <= off <= kMaxWsRxBufferedBytes →
  parse_frame client authenticated off (frame_bytes (negb client) op p mk ++ rest)
  = Frame true op p (length (frame_bytes (negb client) op p mk)).
Proof.
  intros Hop Hctl Hmax Hmk Hoff. set (mask := negb client).
  assert (Hcap : zlen p <= kMaxWsMessageBytes)
    by (destruct authenticated; unfold kMaxWsMessageBytes in *; lia).
  pose proof (zlen_nonneg p) as Hp0.
  set (body := (if mask then mk ++ mask_bytes mk p else p) ++ rest).
  assert (Hb : frame_bytes mask op p mk ++ rest
               = u8 (Z.lor 0x80 op) :: length_field mask (zlen p) ++ body).
  { unfold frame_bytes, body. simpl. by rewrite <- app_assoc. }
  rewrite Hb. destruct (length_field_parsed (u8 (Z.lor 0x80 op)) mask (zlen p) body)
    as (pos & Hext & Hpos & Hdrop & Hmask & Hsmall).
  { unfold kMaxWsMessageBytes in Hcap. lia. }
  destruct (first_byte op Hop) as (Hfin & Hopc & Hrsv).
  set (b := u8 (Z.lor 0x80 op) :: length_field mask (zlen p) ++ body) in *.
  assert (Hlen : length b = (pos + length body)%nat).
  { rewrite Hpos. unfold b. simpl. by rewrite length_app. }
  assert (Hpos2 : (2 <= pos <= 10)%nat).
  { rewrite Hpos, length_length_field. repeat case_match; lia. }
  change (at_ b 0) with (u8 (Z.lor 0x80 op)) in *.
  unfold parse_frame. rewrite (proj2 (Z.ltb_ge _ 2)) by (unfold zlen; lia).
  cbv zeta. change (at_ b 0) with (u8 (Z.lor 0x80 op)). rewrite Hrsv, Hfin, Hopc, Hmask. rewrite Hext.
  rewrite andb_false_r.
  assert (is_control op && (126 <=? Z.land (at_ b 1) 127) = false) as ->.
  { destruct (is_control op); [|done]. specialize (Hctl eq_refl). rewrite Hsmall by lia.
    apply Z.leb_gt. lia. }
  assert (client && mask = false ∧ negb client && negb mask = false) as [-> ->]
    by (unfold mask; by destruct client).
  assert (Hbody : length body = ((if mask then 4 else 0) + length p + length rest)%nat).
  { unfold body. rewrite length_app. destruct mask; [rewrite length_app, length_mask|]; lia. }
  rewrite (proj2 (Z.ltb_ge _ (zlen p))) by done.
  rewrite (proj2 (Z.ltb_ge _ (zlen p)))
    by (unfold kMaxWsRxBufferedBytes, kMaxWsMessageBytes in *; destruct mask; lia).
  assert (Hn : Z.to_nat (zlen p) = length p) by (unfold zlen; lia). rewrite Hn.
  assert (Hfl : length (frame_bytes mask op p mk) = (pos + (if mask then 4 else 0) + length p)%nat)
    by (rewrite length_frame by done; lia).
  rewrite Hfl. rewrite Hbody in Hlen. unfold body in Hdrop. clearbody b. clear Hbody body Hb Hfl Hpos Hext.
  clearbody mask. clear Hsmall. destruct mask; cbn [andb].
  - rewrite (proj2 (Z.ltb_ge _ (Z.of_nat pos + 4))) by (unfold zlen; lia).
    rewrite (proj2 (Z.ltb_ge _ (_ + zlen p))) by (unfold zlen; lia).
    rewrite <- drop_drop, Hdrop, <- app_assoc.
    rewrite take_app_length' by done. rewrite drop_app_length' by done.
    rewrite take_app_length' by by rewrite length_mask. by rewrite mask_involutive.
  - rewrite (proj2 (Z.ltb_ge _ (_ + zlen p))) by (unfold zlen; lia).
    rewrite Hdrop, take_app_length' by done. by rewrite Nat.add_0_r.
Qed.

(** ** More bytes do not change a frame that was complete *)

Lemma extended_length_extend len7 b x r :
  2 <= zlen b → extended_length len7 b = Some r → extended_length len7 (b ++ x) = Some r.
Proof.
  unfold extended_length. rewrite zlen_app. pose proof (zlen_nonneg x). intros Hb.
  destruct (len7 =? 126).
  - destruct (Z.ltb_spec (zlen b) 4); [done|]. rewrite (proj2 (Z.ltb_ge _ _)) by lia.
    unfold zlen in *. by rewrite !at_app by lia.
  - destruct (len7 =? 127); [|done].
    destruct (Z.ltb_spec (zlen b) 10); [done|]. rewrite (proj2 (Z.ltb_ge _ _)) by lia.
    unfold zlen in *. by rewrite at_app, slice_app by lia.
Qed.

Lemma extended_length_pos len7 b n pos :
  2 <= zlen b → extended_length len7 b = Some (Ok (n, pos)) → (2 <= pos <= length b)%nat.
Proof.
  unfold extended_length, zlen. intros. repeat case_match; simplify_eq;
    rewrite ?Z.ltb_ge in *; lia.
Qed.

Lemma parse_frame_extend client auth off b x :
  parse_frame client auth off b ≠ Incomplete →
  parse_frame client auth off (b ++ x) = parse_frame client auth off b.
Proof.
  unfold parse_frame. rewrite zlen_app. pose proof (zlen_nonneg x).
  destruct (Z.ltb_spec (zlen b) 2); [done|]. rewrite (proj2 (Z.ltb_ge (_ + _) 2)) by lia.
  cbv zeta. rewrite !at_app by (unfold zlen in *; lia).
  set (c1 := negb (Z.land (at_ b 0) 112 =? 0)). destruct c1; [done|].
  destruct (is_control _ && negb _); [done|]. destruct (is_control _ && _); [done|].
  destruct (client && _); [done|]. destruct (negb client && _); [done|].
  destruct (extended_length _ b) as [[[n pos]|e]|] eqn:He; [| |done].
  2:{ by rewrite (extended_length_extend _ _ x _ ltac:(done) He). }
  rewrite (extended_length_extend _ _ x _ ltac:(done) He).
  apply extended_length_pos in He as Hpos; [|done]. clear He.
  set (masked := negb (Z.land (at_ b 1) 128 =? 0)).
  destruct (masked && (zlen b <? Z.of_nat pos + 4)) eqn:Hm; [done|].
  assert (masked && (zlen b + zlen x <? Z.of_nat pos + 4) = false) as ->.
  { destruct masked; [|done]. simpl in *. rewrite Z.ltb_ge in *. lia. }
  destruct (_ <? n); [done|]. destruct (_ <? n); [done|].
  set (pos' := if masked then (pos + 4)%nat else pos).
  destruct (Z.ltb_spec (zlen b) (Z.of_nat pos' + n)) as [|Hle]; [done|].
  rewrite (proj2 (Z.ltb_ge _ _)) by lia. intros _.
  assert (Hpos' : (pos' <= length b)%nat).
  { unfold pos', zlen in *. destruct masked; [simpl in Hm; rewrite Z.ltb_ge in Hm; lia|lia]. }
  assert (Hraw : take (Z.to_nat n) (drop pos' (b ++ x)) = take (Z.to_nat n) (drop pos' b)).
  { destruct (Z.leb_spec 0 n); [apply slice_app; unfold zlen in *; lia|].
    by rewrite Z2Nat.nonpos by lia. }
  rewrite Hraw. unfold pos', masked in *. destruct (negb (Z.land (at_ b 1) 128 =? 0)); [|done].
  simpl in Hm. rewrite Z.ltb_ge in Hm. by rewrite slice_app by (unfold zlen in *; lia).
Qed.

Lemma land_nonneg a m : 0 <= m → 0 <= Z.land a m.
Proof. intros. apply Z.land_nonneg. by right. Qed.

Lemma at_byte b i : bytes_ok b → 0 <= at_ b i < 256.
Proof.
  intros Hb. unfold at_. destruct (b !! i) as [x|] eqn:Hx; simpl; [|lia].
  by apply (Forall_lookup_1 _ _ _ _ Hb Hx).
Qed.

Lemma extended_length_nonneg len7 b n pos :
  bytes_ok b → 0 <= len7 → extended_length len7 b = Some (Ok (n, pos)) → 0 <= n.
Proof.
  intros Hb Hl. unfold extended_length.
  destruct (len7 =? 126); [|destruct (len7 =? 127)]; try case_match; try case_match; intros [= <- <-].
  - apply Z.lor_nonneg. split; [apply Z.shiftl_nonneg|]; by apply at_byte.
  - apply be_decode_range; [rewrite length_take; lia|]. by apply Forall_take, Forall_drop.
  - done.
Qed.

(** A frame lies in the bytes received and respects the size limits. *)
Lemma parse_frame_inv client auth off b fin op p n :
  bytes_ok b → parse_frame client auth off b = Frame fin op p n →
  (2 <= n <= length b)%nat ∧ zlen p <= (if auth then kMaxWsMessageBytes else 1024)
  ∧ 0 <= op < 16 ∧ (is_control op = true → fin = true ∧ zlen p <= 125)
  ∧ negb (Z.land (at_ b 1) 0x80 =? 0) = negb client.
Proof.
  intros Hb. unfold parse_frame.
  destruct (Z.ltb_spec (zlen b) 2) as [|H2]; [done|]. cbv zeta.
  destruct (negb (Z.land (at_ b 0) 112 =? 0)); [done|].
  set (op0 := Z.land (at_ b 0) 15). set (len7 := Z.land (at_ b 1) 127).
  set (fin0 := negb (Z.land (at_ b 0) 128 =? 0)). set (masked := negb (Z.land (at_ b 1) 128 =? 0)).
  destruct (is_control op0 && negb fin0) eqn:Hc1; [done|].
  destruct (is_control op0 && (126 <=? len7)) eqn:Hc2; [done|].
  destruct (client && masked) eqn:Hm1; [done|].
  destruct (negb client && negb masked) eqn:Hm2; [done|].
  destruct (extended_length len7 b) as [[[m pos]|e]|] eqn:He; [|done|done].
  pose proof (extended_length_pos _ _ _ _ H2 He) as Hpos.
  pose proof (extended_length_nonneg _ _ _ _ Hb (land_nonneg (at_ b 1) 127 ltac:(lia)) He) as Hm.
  destruct (masked && (zlen b <? Z.of_nat pos + 4)) eqn:Hmk; [done|].
  destruct (Z.ltb_spec (if auth then kMaxWsMessageBytes else 1024) m) as [|Hcap]; [done|].
  destruct (_ <? m); [done|].
  destruct (Z.ltb_spec (zlen b) (Z.of_nat (if masked then (pos + 4)%nat else pos) + m)) as [|Hfit]; [done|].
  intros [= <- <- <- <-].
  set (raw := take (Z.to_nat m) (drop (if masked then (pos + 4)%nat else pos) b)).
  assert (Hraw : zlen raw = m).
  { unfold raw, zlen in *. rewrite length_take, length_drop. destruct masked; lia. }
  assert (Hpay : ∀ mk, zlen (if masked then mask_bytes mk raw else raw) = m)
    by (intros mk; destruct masked; [unfold zlen; rewrite length_mask|]; exact Hraw).
  rewrite Hpay. split; [unfold zlen in *; destruct masked; lia|]. split; [done|].
  split; [unfold op0; change 15 with (Z.ones 4); rewrite Z.land_ones by lia; apply Z.mod_pos_bound; lia|].
  split.
  - intros Hctl. rewrite Hctl in *. simpl in *. split; [by destruct fin0|].
    apply Z.leb_gt in Hc2. unfold extended_length in He.
    rewrite (proj2 (Z.eqb_neq _ 126)), (proj2 (Z.eqb_neq _ 127)) in He by lia.
    injection He as <- <-. lia.
  - by destruct client, masked.
Qed.
