(* ===== verification/Transport.v ===== *)
(** * What a session needs from OpenSSL, the kernel and the clock

    The sockets, TLS objects and the clock a [WsSession] works on are not part
    of the source: they are the class [Transport], an unknown [world] with the
    calls the code makes on it. [TransportLaws] states what their documentation
    promises and the proofs use. *)

From S2P Require Import Prelude.

(** [SSL_read_ex]/[SSL_write_ex] and [SSL_get_error]; a failed call leaves some
    [errno], of which the code asks whether it is [EAGAIN]. *)
Inductive SslOutcome (A : Type) :=
| SslDone (a : A)
| SslWantRead
| SslWantWrite
| SslZeroReturn
| SslFailed (errno_again : bool).
Arguments SslDone {A}.
Arguments SslWantRead {A}.
Arguments SslWantWrite {A}.
Arguments SslZeroReturn {A}.
Arguments SslFailed {A}.

(** [recv] and [send]. *)
Inductive SockOutcome (A : Type) :=
| SockDone (a : A)
| SockAgain
| SockFailed.
Arguments SockDone {A}.
Arguments SockAgain {A}.
Arguments SockFailed {A}.

(** The result of [poll] on one descriptor: an error, a timeout, or [revents]. *)
Inductive PollOutcome :=
| PollError (interrupted : bool)
| PollTimeout
| PollReady (invalid wanted hangup : bool).

(** The two events the code polls for: [POLLIN] and [POLLOUT]. *)
Inductive PollEvent := POLLIN | POLLOUT.
#[export] Instance poll_event_eq_dec : EqDecision PollEvent.
Proof. solve_decision. Defined.

Class Transport := {
  world : Type;
  now_ms : world → Z * world;
  ssl_read_ex : nat → world → SslOutcome bytes * world;
  ssl_write_ex : bytes → world → SslOutcome nat * world;
  ssl_pending : world → Z;
  recv : nat → world → SockOutcome bytes * world;
  send : bytes → world → SockOutcome nat * world;
  poll : PollEvent → Z → world → PollOutcome * world;
}.

(** A read returns at most what was asked for; a write takes at most what it
    was given; the steady clock, in milliseconds, is positive and fits its type. *)
Class TransportLaws (T : Transport) : Prop := {
  now_ms_range w : 0 < (now_ms w).1 < 2 ^ 64;
  ssl_read_ex_fits n w b w' :
    ssl_read_ex n w = (SslDone b, w') → bytes_ok b ∧ (length b <= n)%nat;
  ssl_write_ex_fits b w n w' : ssl_write_ex b w = (SslDone n, w') → (n <= length b)%nat;
  recv_fits n w b w' : recv n w = (SockDone b, w') → bytes_ok b ∧ (length b <= n)%nat;
  send_fits b w n w' : send b w = (SockDone n, w') → (n <= length b)%nat;
}.

(** What a connection promises on top: it is a reliable ordered stream in each
    direction. [outgoing] are the bytes the peer will see of what was written so
    far, [incoming] those that reading will still return. *)
Class Wire (T : Transport) := {
  outgoing : world → bytes;
  incoming : world → bytes;
  wire_send b w :
    let (o, w') := send b w in
    outgoing w' = outgoing w ++ match o with SockDone n => take n b | _ => [] end
    ∧ incoming w' = incoming w;
  wire_ssl_write b w :
    let (o, w') := ssl_write_ex b w in
    outgoing w' = outgoing w ++ match o with SslDone n => take n b | _ => [] end
    ∧ incoming w' = incoming w;
  wire_recv n w :
    let (o, w') := recv n w in
    outgoing w' = outgoing w
    ∧ incoming w = match o with SockDone b => b | _ => [] end ++ incoming w';
  wire_ssl_read n w :
    let (o, w') := ssl_read_ex n w in
    outgoing w' = outgoing w
    ∧ incoming w = match o with SslDone b => b | _ => [] end ++ incoming w';
  wire_poll e t w : outgoing (poll e t w).2 = outgoing w ∧ incoming (poll e t w).2 = incoming w;
  wire_now w : outgoing (now_ms w).2 = outgoing w ∧ incoming (now_ms w).2 = incoming w;
}.

(** A loopback transport that satisfies the laws: it writes at most three bytes
    at a time to [sent] and reads what is scripted in [inbox]. *)
Module Loop.
Record Net := mkNet { sent : bytes; inbox : list bytes; clock : Z }.

#[export] Instance transport : Transport := {|
  world := Net;
  now_ms w := (1 + clock w mod 2 ^ 40, mkNet (sent w) (inbox w) (clock w + 1));
  ssl_read_ex n w := (SslWantRead, w);
  ssl_write_ex b w := (SslWantWrite, w);
  ssl_pending w := 0;
  recv n w :=
    match inbox w with
    | [] => (SockAgain, w)
    | b :: rest =>
        (SockDone (take n (map u8 b)),
         mkNet (sent w) (if (length b <=? n)%nat then rest else drop n b :: rest) (clock w))
    end;
  send b w := (SockDone (Nat.min 3 (length b)), mkNet (sent w ++ take 3 b) (inbox w) (clock w));
  poll e t w := (PollReady false true false, w);
|}.

#[export] Instance transport_laws : TransportLaws transport.
Proof.
  split.
  - intros w. change (0 < 1 + clock w mod 2 ^ 40 < 2 ^ 64).
    pose proof (Z.mod_pos_bound (clock w) (2 ^ 40) ltac:(lia)). lia.
  - done.
  - done.
  - intros n w b w'. cbn [recv transport]. destruct (inbox w) as [|x rest]; [done|]. intros H.
    assert (b = take n (map u8 x)) as -> by congruence. split.
    + apply Forall_take, Forall_map, Forall_true. intros z. apply Z.mod_pos_bound. lia.
    + rewrite length_take. lia.
  - intros b w n w'. cbn [send transport]. intros H.
    assert (n = Nat.min 3 (length b)) by congruence. lia.
Qed.

#[export] Program Instance wire : Wire transport := {|
  outgoing := sent;
  incoming w := map u8 (concat (inbox w));
|}.
Next Obligation. intros b w. cbn [send transport]. by destruct b as [|? [|? [|? ?]]]. Qed.
Next Obligation. intros b w. simpl. by rewrite app_nil_r. Qed.
Next Obligation.
  intros n w. cbn [recv transport]. destruct (inbox w) as [|b rest] eqn:Hi; simpl.
  { by rewrite Hi. }
  split; [done|]. destruct (Nat.leb_spec (length b) n).
  - rewrite take_ge by (rewrite length_map; lia). by rewrite map_app.
  - simpl. by rewrite firstn_map, !map_app, app_assoc, <- (map_app u8 (take n b)), take_drop.
Qed.
Next Obligation. done. Qed.
Next Obligation. done. Qed.
Next Obligation. done. Qed.
End Loop.
