(* ===== verification/WebSocket.v ===== *)
(** * A WebSocket session (cdn/src/websocket.cpp, cdn/include/pacetun/websocket.hpp)

    The state of a session, its transmit queue, flushing, reading and closing.
    Operations that throw leave the session as the code does, so they are in
    the state monad [M Conn] of the prelude. *)

From S2P Require Import Prelude Text Crypto Transport WsFrame.

(** ** State *)

(** [WsTxFrame] src/cdn/include/pacetun/websocket.hpp:13-18 *)
Record WsTxFrame := mkTxFrame { data : bytes; offset : nat; payload_bytes : Z; opcode : Z }.

(** The configuration of a session; [ssl] and [open] stand for [ssl != nullptr]
    and [fd >= 0].
    [WsSession] src/cdn/include/pacetun/websocket.hpp:20-27 *)
Record WsConf := mkConf {
  ssl : bool; open : bool; client : bool; io_timeout_ms : Z; upgraded : bool; authenticated : bool }.

(** [WsSession] src/cdn/include/pacetun/websocket.hpp:29-35 *)
Record WsStats := mkStats {
  rx_frames : Z; rx_ping_frames : Z; rx_pong_frames : Z; rx_binary_payload_bytes : Z;
  tx_binary_frames : Z; tx_binary_payload_bytes : Z; tx_ping_frames : Z; tx_pong_frames : Z }.

(** [WsSession] src/cdn/include/pacetun/websocket.hpp:37-44 *)
Record WsClose := mkClose {
  close_received : bool; close_has_code : bool; close_code : Z; close_reason_bytes : Z }.

(** [WsSession] src/cdn/include/pacetun/websocket.hpp:46-49 *)
Record WsTx := mkTx {
  tx : list WsTxFrame; tx_queued_bytes : Z; tx_last_progress_ms : Z; tx_wait : Z }.

(** [WsSession] src/cdn/include/pacetun/websocket.hpp:50-55 *)
Record WsRx := mkRx {
  rx : bytes; prefetched_messages : list bytes; rx_wait : Z; peer_eof : bool;
  fragment_opcode : Z; fragment_payload : bytes; pong_payloads : list bytes }.

(** [WsSession] src/cdn/include/pacetun/websocket.hpp:20-56 *)
Record WsSession := mkSession {
  conf : WsConf; stats : WsStats; closing : WsClose; txs : WsTx; rxs : WsRx }.

(** A new session: the member initialisers.
    [WsSession] src/cdn/include/pacetun/websocket.hpp:20-56 *)
Definition new_session (is_client : bool) : WsSession :=
  mkSession (mkConf false true is_client 30000 false false) (mkStats 0 0 0 0 0 0 0 0)
    (mkClose false false 0 0) (mkTx [] 0 0 0) (mkRx [] [] 0 false 0 [] []).

Definition set_conf (c : WsConf) (w : WsSession) := mkSession c (stats w) (closing w) (txs w) (rxs w).
Definition set_stats (s : WsStats) (w : WsSession) := mkSession (conf w) s (closing w) (txs w) (rxs w).
Definition set_closing (c : WsClose) (w : WsSession) := mkSession (conf w) (stats w) c (txs w) (rxs w).
Definition set_txs (t : WsTx) (w : WsSession) := mkSession (conf w) (stats w) (closing w) t (rxs w).
Definition set_rxs (r : WsRx) (w : WsSession) := mkSession (conf w) (stats w) (closing w) (txs w) r.

Definition set_tx (l : list WsTxFrame) (q : Z) (t : WsTx) := mkTx l q (tx_last_progress_ms t) (tx_wait t).
Definition set_progress (ms : Z) (t : WsTx) := mkTx (tx t) (tx_queued_bytes t) ms (tx_wait t).
Definition set_tx_wait (x : Z) (t : WsTx) := mkTx (tx t) (tx_queued_bytes t) (tx_last_progress_ms t) x.

Definition set_rx (b : bytes) (r : WsRx) :=
  mkRx b (prefetched_messages r) (rx_wait r) (peer_eof r) (fragment_opcode r) (fragment_payload r)
    (pong_payloads r).
Definition set_prefetched (l : list bytes) (r : WsRx) :=
  mkRx (rx r) l (rx_wait r) (peer_eof r) (fragment_opcode r) (fragment_payload r) (pong_payloads r).
Definition set_rx_wait (x : Z) (r : WsRx) :=
  mkRx (rx r) (prefetched_messages r) x (peer_eof r) (fragment_opcode r) (fragment_payload r)
    (pong_payloads r).
Definition set_eof (r : WsRx) :=
  mkRx (rx r) (prefetched_messages r) (rx_wait r) true (fragment_opcode r) (fragment_payload r)
    (pong_payloads r).
Definition set_fragment (op : Z) (p : bytes) (r : WsRx) :=
  mkRx (rx r) (prefetched_messages r) (rx_wait r) (peer_eof r) op p (pong_payloads r).
Definition set_pongs (l : list bytes) (r : WsRx) :=
  mkRx (rx r) (prefetched_messages r) (rx_wait r) (peer_eof r) (fragment_opcode r)
    (fragment_payload r) l.

Section Session.
Context {C : Crypto} {T : Transport}.

(** A session with the world it acts on. *)
Record Conn := mkConn { ws : WsSession; net : world; entropy : rng }.

Abbreviation W := (M Conn).

Definition on_ws (f : WsSession → WsSession) : W unit :=
  modify (λ c, mkConn (f (ws c)) (net c) (entropy c)).
Definition on_tx (f : WsTx → WsTx) : W unit := on_ws (λ w, set_txs (f (txs w)) w).
Definition on_rx (f : WsRx → WsRx) : W unit := on_ws (λ w, set_rxs (f (rxs w)) w).
Definition on_stats (f : WsStats → WsStats) : W unit := on_ws (λ w, set_stats (f (stats w)) w).
Definition session : W WsSession := gets ws.
(** A call on the world. *)
Definition os {A} (f : world → A * world) : W A := λ c,
  let (a, n) := f (net c) in (Ok a, mkConn (ws c) n (entropy c)).

(** [mono_ms] src/cdn/src/websocket.cpp:40-43 *)
Definition mono_ms : W Z := os now_ms.

(** [RAND_bytes], or the exception of the caller. *)
Definition random (n : nat) (e : bytes) : W bytes := λ c,
  match rand_bytes n (entropy c) with
  | Some (b, g) => (Ok b, mkConn (ws c) (net c) g)
  | None => (Err e, c)
  end.

(** ** I/O *)

(** What [io_read] and [io_write] return: a positive count, 0, -1 with [EAGAIN],
    or another negative value with whatever [errno] holds. *)
Inductive Io (A : Type) := IoGot (a : A) | IoZero | IoAgain | IoFailed (errno_again : bool).
Arguments IoGot {A}.
Arguments IoZero {A}.
Arguments IoAgain {A}.
Arguments IoFailed {A}.

Definition got_bytes (b : bytes) : Io bytes := if zlen b =? 0 then IoZero else IoGot b.
Definition got_count (n : nat) : Io nat := if (n =? 0)%nat then IoZero else IoGot n.

(** [io_read] src/cdn/src/websocket.cpp:111-124 *)
Definition io_read (n : nat) : W (Io bytes) :=
  w ← session ;
  if ssl (conf w) then
    r ← os (ssl_read_ex n) ;
    match r with
    | SslDone b => on_rx (set_rx_wait 0) ;; mret (got_bytes b)
    | SslWantRead => on_rx (set_rx_wait 1) ;; mret IoAgain
    | SslWantWrite => on_rx (set_rx_wait 2) ;; mret IoAgain
    | SslZeroReturn => mret IoZero
    | SslFailed again => mret (IoFailed again)
    end
  else
    r ← os (recv n) ;
    match r with
    | SockDone b => on_rx (set_rx_wait 0) ;; mret (got_bytes b)
    | SockAgain => on_rx (set_rx_wait 1) ;; mret IoAgain
    | SockFailed => mret (IoFailed false)
    end.

(** [io_write] src/cdn/src/websocket.cpp:125-139 *)
Definition io_write (b : bytes) : W (Io nat) :=
  w ← session ;
  if ssl (conf w) then
    r ← os (ssl_write_ex b) ;
    match r with
    | SslDone n => on_tx (set_tx_wait 0) ;; mret (got_count n)
    | SslWantRead => on_tx (set_tx_wait 1) ;; mret IoAgain
    | SslWantWrite => on_tx (set_tx_wait 2) ;; mret IoAgain
    | SslZeroReturn => mret IoZero
    | SslFailed again => mret (IoFailed again)
    end
  else
    r ← os (send b) ;
    match r with
    | SockDone n => on_tx (set_tx_wait 0) ;; mret (got_count n)
    | SockAgain => on_tx (set_tx_wait 2) ;; mret IoAgain
    | SockFailed => mret (IoFailed false)
    end.

(** ** Sending *)

(** [make_frame] src/cdn/src/websocket.cpp:184-206 *)
Definition make_frame (op : Z) (p : bytes) : W bytes :=
  check (is_control op && (125 <? zlen p)) (str "WebSocket control payload too large") ;;
  check (negb (is_control op) && (kMaxWsMessageBytes <? zlen p)) (str "WebSocket payload too large") ;;
  w ← session ;
  if client (conf w) then
    mk ← random 4 (str "RAND_bytes failed") ;
    mret (frame_bytes true op p mk)
  else mret (frame_bytes false op p []).

(** [queue_frame] src/cdn/src/websocket.cpp:208-216 *)
Definition queue_frame (op : Z) (p : bytes) : W unit :=
  d ← make_frame op p ;
  w ← session ;
  check ((kMaxWsTxBytes <? zlen d) || (kMaxWsTxBytes - zlen d <? tx_queued_bytes (txs w)))
    (str "WebSocket TX queue limit exceeded") ;;
  let was_empty := (length (tx (txs w)) =? 0)%nat in
  on_tx (λ t, set_tx (tx t ++ [mkTxFrame d 0 (zlen p) op]) (u64 (tx_queued_bytes t + zlen d)) t) ;;
  if was_empty then (ms ← mono_ms ; on_tx (set_progress ms)) else mret tt.

(** [account_completed_frame] src/cdn/src/websocket.cpp:218-222 *)
Definition account_completed_frame (f : WsTxFrame) (s : WsStats) : WsStats :=
  let '(mkStats a b c d e g h i) := s in
  if opcode f =? 2 then mkStats a b c d (u64 (e + 1)) (u64 (g + payload_bytes f)) h i
  else if opcode f =? 9 then mkStats a b c d e g (u64 (h + 1)) i
  else if opcode f =? 10 then mkStats a b c d e g h (u64 (i + 1))
  else s.

(** [websocket_send_binary] src/cdn/src/websocket.cpp:476-476 *)
Definition websocket_send_binary (p : bytes) : W unit := queue_frame 2 p.
(** [websocket_send_ping] src/cdn/src/websocket.cpp:477-477 *)
Definition websocket_send_ping (p : bytes) : W unit := queue_frame 9 p.
(** [websocket_send_pong] src/cdn/src/websocket.cpp:478-478 *)
Definition websocket_send_pong (p : bytes) : W unit := queue_frame 10 p.

(** [n] bytes of the first frame were written.
    [websocket_flush] src/cdn/src/websocket.cpp:493-500 *)
Definition wrote (f : WsTxFrame) (rest : list WsTxFrame) (n : nat) : W unit :=
  let f' := mkTxFrame (data f) (offset f + n) (payload_bytes f) (opcode f) in
  on_tx (λ t, set_tx (f' :: rest) (u64 (tx_queued_bytes t - Z.of_nat n)) t) ;;
  ms ← mono_ms ;
  on_tx (set_progress ms) ;;
  if (offset f' =? length (data f'))%nat then
    on_stats (account_completed_frame f') ;;
    on_tx (λ t, set_tx rest (tx_queued_bytes t) t) ;;
    if (length rest =? 0)%nat then on_tx (set_progress 0)
    else (ms ← mono_ms ; on_tx (set_progress ms))
  else mret tt.

(** The loop of [websocket_flush], at most [fuel] turns of it.
    [websocket_flush] src/cdn/src/websocket.cpp:483-506 *)
Fixpoint flush_loop (fuel : nat) (byte_budget written : nat) : W nat :=
  match fuel with
  | O => mret written
  | S fuel' =>
      w ← session ;
      match tx (txs w) with
      | [] => mret written
      | f :: rest =>
          if (byte_budget <=? written)%nat then mret written
          else if (length (data f) <=? offset f)%nat then
            on_stats (account_completed_frame f) ;;
            on_tx (λ t, set_tx rest (tx_queued_bytes t) t) ;;
            flush_loop fuel' byte_budget written
          else
            let want := Nat.min (length (data f) - offset f) (byte_budget - written) in
            r ← io_write (take want (drop (offset f) (data f))) ;
            match r with
            | IoGot n => wrote f rest n ;; flush_loop fuel' byte_budget (written + n)
            | IoAgain => mret written
            | _ => throw (str "WebSocket I/O write failed")
            end
      end
  end.

(** Turns enough for [flush_loop]: each one removes a frame or writes a byte. *)
Definition flush_fuel (l : list WsTxFrame) : nat :=
  S (foldr (λ f n, length (data f) - offset f + 1 + n)%nat 0%nat l).

(** [websocket_flush] src/cdn/src/websocket.cpp:480-507 *)
Definition websocket_flush (byte_budget : nat) : W nat :=
  if (byte_budget =? 0)%nat then mret 0%nat
  else w ← session ; flush_loop (flush_fuel (tx (txs w))) byte_budget 0.

(** [websocket_tx_pending] src/cdn/src/websocket.cpp:509-509 *)
Definition websocket_tx_pending (w : WsSession) : bool := negb (length (tx (txs w)) =? 0)%nat.

(** [websocket_tx_poll_events] src/cdn/src/websocket.cpp:510-514 *)
Definition websocket_tx_poll_events (w : WsSession) : option PollEvent :=
  if (length (tx (txs w)) =? 0)%nat then None
  else if tx_wait (txs w) =? 1 then Some POLLIN
  else Some POLLOUT.

(** [websocket_rx_poll_events] src/cdn/src/websocket.cpp:515-518 *)
Definition websocket_rx_poll_events (w : WsSession) : PollEvent :=
  if rx_wait (rxs w) =? 2 then POLLOUT else POLLIN.

(** [websocket_tx_stalled] src/cdn/src/websocket.cpp:520-524 *)
Definition websocket_tx_stalled (timeout_ms : Z) : W bool :=
  w ← session ;
  let t := txs w in
  if (length (tx t) =? 0)%nat || (tx_last_progress_ms t =? 0) || (timeout_ms <=? 0) then mret false
  else
    now ← mono_ms ;
    mret ((tx_last_progress_ms t <=? now) && (timeout_ms <? now - tx_last_progress_ms t)).

(** [websocket_take_pongs] src/cdn/src/websocket.cpp:525-530 *)
Definition websocket_take_pongs : W (list bytes) :=
  w ← session ; on_rx (set_pongs []) ;; mret (pong_payloads (rxs w)).
(** ** Closing *)

(** [websocket_close_summary] src/cdn/src/websocket.cpp:469-475 *)
Definition websocket_close_summary (w : WsSession) : bytes :=
  let c := closing w in
  if negb (close_received c) then str "WebSocket peer close not received"
  else if negb (close_has_code c) then
    str "WebSocket peer close received code=none category=unspecified reason_bytes=0"
  else
    str "WebSocket peer close received code=" ++ to_string (close_code c)
      ++ str " category=" ++ close_category (close_code c)
      ++ str " reason_bytes=" ++ to_string (close_reason_bytes c).

(** ** Receiving *)

(** The bytes one call reads at most, give or take the last read.
    [websocket_read_messages] src/cdn/src/websocket.cpp:540-540 *)
Definition kReadBudget : Z := 256 * 1024.
(** [sizeof(b)]
    [websocket_read_messages] src/cdn/src/websocket.cpp:538-538 *)
Definition kReadChunk : Z := 65536.

(** [while (received < 256*1024) ...]
    [websocket_read_messages] src/cdn/src/websocket.cpp:539-550 *)
Fixpoint read_loop (fuel : nat) (received : Z) : W unit :=
  match fuel with
  | O => mret tt
  | S fuel' =>
      if received <? kReadBudget then
        r ← io_read (Z.to_nat kReadChunk) ;
        match r with
        | IoGot b =>
            w ← session ;
            check (kMaxWsRxBufferedBytes - zlen b <? zlen (rx (rxs w)))
              (str "WebSocket RX buffer limit exceeded") ;;
            on_rx (λ r, set_rx (rx r ++ b) r) ;;
            read_loop fuel' (received + zlen b)
        | IoAgain => mret tt
        | IoZero => on_rx set_eof
        | IoFailed again => if again then mret tt else throw (str "WebSocket read failed")
        end
      else mret tt
  end.

(** [websocket_read_messages] src/cdn/src/websocket.cpp:587-587 *)
Definition count_frame (s : WsStats) : WsStats :=
  let '(mkStats a b c d e f g h) := s in mkStats (u64 (a + 1)) b c d e f g h.
(** [websocket_read_messages] src/cdn/src/websocket.cpp:605-605 *)
Definition count_ping (s : WsStats) : WsStats :=
  let '(mkStats a b c d e f g h) := s in mkStats a (u64 (b + 1)) c d e f g h.
(** [websocket_read_messages] src/cdn/src/websocket.cpp:607-607 *)
Definition count_pong (s : WsStats) : WsStats :=
  let '(mkStats a b c d e f g h) := s in mkStats a b (u64 (c + 1)) d e f g h.
(** [websocket_read_messages] src/cdn/src/websocket.cpp:591-591 *)
Definition count_message (n : Z) (s : WsStats) : WsStats :=
  let '(mkStats a b c d e f g h) := s in mkStats a b c (u64 (d + n)) e f g h.

(** A close frame: its status, the reply and the end of the loop.
    [websocket_read_messages] src/cdn/src/websocket.cpp:611-622 *)
Definition handle_close (pay : bytes) (out : list bytes) : W (list bytes * bool) :=
  check (zlen pay =? 1) (str "invalid WebSocket close payload") ;;
  (if 2 <=? zlen pay then
     let code := u16 (Z.lor (Z.shiftl (at_ pay 0) 8) (at_ pay 1)) in
     check (negb (valid_close_status code)) (str "invalid WebSocket close status") ;;
     on_ws (λ w, set_closing (mkClose (close_received (closing w)) true code (zlen pay - 2)) w)
   else mret tt) ;;
  attempt (queue_frame 8 pay) ;;
  on_ws (λ w, let c := closing w in
              set_closing (mkClose true (close_has_code c) (close_code c) (close_reason_bytes c)) w) ;;
  w ← session ;
  check (length out =? 0)%nat (websocket_close_summary w) ;;
  mret (out, true).

(** One frame of the loop; the result tells the messages so far and whether the
    loop breaks.
    [websocket_read_messages] src/cdn/src/websocket.cpp:589-624 *)
Definition handle_frame (fin : bool) (op : Z) (pay : bytes) (out : list bytes) : W (list bytes * bool) :=
  w ← session ;
  if op =? 2 then
    check (negb (fragment_opcode (rxs w) =? 0)) (str "new WebSocket data frame during fragmented message") ;;
    if fin then on_stats (count_message (zlen pay)) ;; mret (out ++ [pay], false)
    else on_rx (set_fragment 2 pay) ;; mret (out, false)
  else if op =? 0 then
    check (fragment_opcode (rxs w) =? 0) (str "unexpected WebSocket continuation frame") ;;
    check (kMaxWsMessageBytes - zlen pay <? zlen (fragment_payload (rxs w)))
      (str "fragmented WebSocket message too large") ;;
    let whole := fragment_payload (rxs w) ++ pay in
    on_rx (set_fragment (fragment_opcode (rxs w)) whole) ;;
    if fin then
      check (negb (fragment_opcode (rxs w) =? 2)) (str "unsupported fragmented WebSocket message") ;;
      on_stats (count_message (zlen whole)) ;;
      on_rx (set_fragment 0 []) ;;
      mret (out ++ [whole], false)
    else mret (out, false)
  else if op =? 9 then
    on_stats count_ping ;; websocket_send_pong pay ;; mret (out, false)
  else if op =? 10 then
    on_stats count_pong ;;
    on_rx (λ r,
      let l := pong_payloads r in
      set_pongs ((if kMaxRememberedPongs <=? zlen l then drop 1 l else l) ++ [pay]) r) ;;
    mret (out, false)
  else if op =? 8 then handle_close pay out
  else if op =? 1 then throw (str "text WebSocket messages unsupported")
  else throw (str "unsupported WebSocket opcode").

(** The loop over the frames in [rx], at most [fuel] of them.
    [websocket_read_messages] src/cdn/src/websocket.cpp:552-625 *)
Fixpoint read_frames (fuel off : nat) (out : list bytes) : W (nat * list bytes) :=
  match fuel with
  | O => mret (off, out)
  | S fuel' =>
      w ← session ;
      match parse_frame (client (conf w)) (authenticated (conf w)) (Z.of_nat off) (drop off (rx (rxs w))) with
      | Incomplete => mret (off, out)
      | Malformed e => throw e
      | Frame fin op pay size =>
          on_stats count_frame ;;
          r ← handle_frame fin op pay out ;
          let '(out', stop) := (r : list bytes * bool) in
          if stop then mret ((off + size)%nat, out') else read_frames fuel' (off + size) out'
      end
  end.

(** What follows the reads: parse, erase what was consumed, check for truncation.
    [websocket_read_messages] src/cdn/src/websocket.cpp:552-633 *)
Definition take_messages : W (list bytes) :=
  w ← session ;
  r ← read_frames (length (rx (rxs w))) 0 [] ;
  let '(off, out) := (r : nat * list bytes) in
  (if (off =? 0)%nat then mret tt
   else on_rx (λ r, set_rx (if (off =? length (rx r))%nat then [] else drop off (rx r)) r)) ;;
  w ← session ;
  let r := rxs w in
  check (peer_eof r && negb (length (rx r) =? 0)%nat) (str "truncated WebSocket frame at EOF") ;;
  check (peer_eof r && negb (fragment_opcode r =? 0))
    (str "truncated fragmented WebSocket message at EOF") ;;
  check (peer_eof r && (length out =? 0)%nat) (str "WebSocket peer closed") ;;
  mret out.

(** Whether there may be something to read: bytes in hand, or [poll(...) > 0].
    [websocket_read_messages] src/cdn/src/websocket.cpp:536-537 *)
Definition input_ready (w : WsSession) (timeout_ms : Z) : W bool :=
  pending ← gets (λ c, ssl_pending (net c)) ;
  if (negb (ssl (conf w)) || (pending =? 0)) && (length (rx (rxs w)) =? 0)%nat then
    p ← os (poll (websocket_rx_poll_events w) timeout_ms) ;
    mret (match p with PollReady _ _ _ => true | _ => false end)
  else mret true.

(** [websocket_read_messages] src/cdn/src/websocket.cpp:532-634 *)
Definition websocket_read_messages (timeout_ms : Z) : W (list bytes) :=
  w ← session ;
  let r := rxs w in
  if negb (length (prefetched_messages r) =? 0)%nat then
    on_rx (set_prefetched []) ;; mret (prefetched_messages r)
  else
    check (close_received (closing w)) (websocket_close_summary w) ;;
    check (peer_eof r && (length (rx r) =? 0)%nat) (str "WebSocket peer closed") ;;
    ready ← input_ready w timeout_ms ;
    if negb ready then mret []
    else read_loop (Z.to_nat kReadBudget) 0 ;; take_messages.
End Session.

Arguments Conn {C T}.
Arguments Io A : clear implicits.
Arguments IoGot {A}.
Arguments IoZero {A}.
Arguments IoAgain {A}.
Arguments IoFailed {A}.

(** ** The invariant of a session *)

Definition left_of (f : WsTxFrame) : bytes := drop (offset f) (data f).
(** The bytes that wait to be written. *)
Definition unsent (t : WsTx) : bytes := concat (map left_of (tx t)).

(** Every queued frame has bytes left, the counter is their number and within
    the limit, and progress is timed exactly while something waits. *)
Record tx_ok (t : WsTx) : Prop := {
  tx_frames : Forall (λ f, (offset f < length (data f))%nat) (tx t);
  tx_counted : tx_queued_bytes t = zlen (unsent t);
  tx_limit : tx_queued_bytes t <= kMaxWsTxBytes;
  tx_timed : tx_last_progress_ms t = 0 ↔ tx t = [];
}.

(** The receive side stays within its limits. *)
Record rx_ok (r : WsRx) : Prop := {
  rx_bytes : bytes_ok (rx r);
  rx_limit : zlen (rx r) <= kMaxWsRxBufferedBytes;
  rx_fragment : zlen (fragment_payload r) <= kMaxWsMessageBytes;
  rx_opcode : fragment_opcode r = 0 ∨ fragment_opcode r = 2;
  rx_pongs : zlen (pong_payloads r) <= kMaxRememberedPongs;
}.

Definition ws_ok (w : WsSession) : Prop := tx_ok (txs w) ∧ rx_ok (rxs w).

Lemma new_session_ok c : ws_ok (new_session c).
Proof.
  split; split; simpl; try done; try (vm_compute; congruence); by left.
Qed.

Section Theory.
Context {C : Crypto} {T : Transport} {CL : CryptoLaws C} {TL : TransportLaws T} {WR : Wire T}.
Abbreviation W := (M Conn).

Definition conn_ok (c : Conn) : Prop := ws_ok (ws c).

Lemma keeps_stats f : keeps conn_ok (on_stats f).
Proof. intros c H. exact H. Qed.
Lemma keeps_session (P : Conn → Prop) : keeps P session.
Proof. by intros c. Qed.
Lemma keeps_os {A} (f : world → A * world) : keeps conn_ok (os f).
Proof. intros c H. unfold os. by destruct (f (net c)). Qed.
Lemma keeps_tx f : (∀ t, tx_ok t → tx_ok (f t)) → keeps conn_ok (on_tx f).
Proof. intros Hf c [Ht Hr]. split; [by apply Hf|done]. Qed.
Lemma keeps_rx f : (∀ r, rx_ok r → rx_ok (f r)) → keeps conn_ok (on_rx f).
Proof. intros Hf c [Ht Hr]. split; [done|by apply Hf]. Qed.
Lemma keeps_random n e : keeps conn_ok (random n e).
Proof. intros c H. unfold random. by destruct (rand_bytes n (entropy c)) as [[? ?]|]. Qed.

Lemma tx_wait_ok x t : tx_ok t → tx_ok (set_tx_wait x t).
Proof. by intros []. Qed.
Lemma rx_wait_ok x r : rx_ok r → rx_ok (set_rx_wait x r).
Proof. by intros []. Qed.
Lemma eof_ok r : rx_ok r → rx_ok (set_eof r).
Proof. by intros []. Qed.
Lemma prefetched_ok l r : rx_ok r → rx_ok (set_prefetched l r).
Proof. by intros []. Qed.

(** *** Sending *)

Lemma unsent_cons f l a b c : unsent (mkTx (f :: l) a b c) = left_of f ++ unsent (mkTx l a b c).
Proof. done. Qed.

Lemma make_frame_spec op p c r c' :
  make_frame op p c = (r, c') →
  ws c' = ws c ∧ net c' = net c ∧
  ∀ d, r = Ok d →
    ∃ mk, length mk = 4%nat ∧ d = frame_bytes (client (conf (ws c))) op p mk
          ∧ zlen p <= kMaxWsMessageBytes ∧ (is_control op = true → zlen p <= 125).
Proof.
  unfold make_frame, check.
  destruct (is_control op && (125 <? zlen p)) eqn:H1; [by intros [= <- <-]|].
  destruct (negb (is_control op) && (kMaxWsMessageBytes <? zlen p)) eqn:H2; [by intros [= <- <-]|].
  assert (Hsize : zlen p <= kMaxWsMessageBytes ∧ (is_control op = true → zlen p <= 125)).
  { destruct (is_control op); simpl in *; rewrite Z.ltb_ge in *; [|done].
    unfold kMaxWsMessageBytes. lia. }
  unfold mbind, M_bind, mret, M_ret, session, gets. cbn beta iota.
  destruct (client (conf (ws c))) eqn:Hcl; intros H.
  - unfold random in H. destruct (rand_bytes 4 (entropy c)) as [[mk g]|] eqn:Hr;
      injection H as <- <-; (split; [done|]; split; [done|]); [|done].
    intros d [= <-]. exists mk. apply rand_bytes_length in Hr. tauto.
  - injection H as <- <-. split; [done|]. split; [done|]. intros d [= <-].
    exists [0; 0; 0; 0]. by destruct Hsize.
Qed.

Lemma frame_nonempty mask op p mk : (0 < length (frame_bytes mask op p mk))%nat.
Proof. simpl. lia. Qed.

Lemma unsent_app t l : unsent (set_tx (tx t ++ l) (tx_queued_bytes t) t) = unsent t ++ concat (map left_of l).
Proof. unfold unsent. simpl. by rewrite map_app, concat_app. Qed.

(** The calls on the world do not touch the streams, except to read and write. *)
Definition same_wire (c c' : Conn) : Prop :=
  outgoing (net c') = outgoing (net c) ∧ incoming (net c') = incoming (net c).

(** A queued frame goes to the end of the queue, or nothing changes. *)
Lemma queue_frame_spec op p c r c' :
  conn_ok c → queue_frame op p c = (r, c') →
  conn_ok c' ∧ same_wire c c' ∧
  match r with
  | Err _ => ws c' = ws c
  | Ok _ => ∃ d mk t, length mk = 4%nat ∧ d = frame_bytes (client (conf (ws c))) op p mk
      ∧ zlen p <= kMaxWsMessageBytes ∧ (is_control op = true → zlen p <= 125)
      ∧ ws c' = set_txs t (ws c) ∧ tx t = tx (txs (ws c)) ++ [mkTxFrame d 0 (zlen p) op]
      ∧ tx_wait t = tx_wait (txs (ws c))
  end.
Proof.
  intros [Ht Hr] H. unfold queue_frame, mbind, M_bind at 1 in H.
  destruct (make_frame op p c) as [[d|e] c1] eqn:Hm;
    apply make_frame_spec in Hm as (Hws & Hnet & Hd);
    (assert (Hw : same_wire c c1) by (unfold same_wire; by rewrite Hnet)).
  2:{ injection H as <- <-. split; [split; by rewrite Hws|by split]. }
  destruct (Hd d eq_refl) as (mk & Hmk & -> & Hp1 & Hp2). clear Hd.
  set (d := frame_bytes _ op p mk) in *. unfold M_bind, session, gets in H. rewrite Hws in H.
  unfold check in H.
  destruct ((kMaxWsTxBytes <? zlen d) || (kMaxWsTxBytes - zlen d <? tx_queued_bytes (txs (ws c)))) eqn:Hc.
  { injection H as <- <-. split; [split; by rewrite Hws|by split]. }
  apply orb_false_iff in Hc as [Hc1%Z.ltb_ge Hc2%Z.ltb_ge].
  pose proof (frame_nonempty (client (conf (ws c))) op p mk) as Hne. fold d in Hne.
  destruct Ht as [Hf Hq Hl Htm].
  pose proof (zlen_nonneg (unsent (txs (ws c)))) as H0. pose proof (zlen_nonneg d) as H1.
  assert (Hu64 : u64 (tx_queued_bytes (txs (ws c)) + zlen d) = tx_queued_bytes (txs (ws c)) + zlen d).
  { unfold u64. apply Z.mod_small. unfold kMaxWsTxBytes, kMaxWsMessageBytes in *. lia. }
  set (x := mkTxFrame d 0 (zlen p) op) in *.
  assert (Hnew : ∀ ms, ms ≠ 0 →
    tx_ok (mkTx (tx (txs (ws c)) ++ [x]) (tx_queued_bytes (txs (ws c)) + zlen d) ms (tx_wait (txs (ws c))))).
  { intros ms Hms. split; simpl.
    - apply Forall_app. split; [done|]. by apply Forall_singleton.
    - unfold unsent in *. simpl. rewrite map_app, concat_app, zlen_app, <- Hq. simpl.
      rewrite app_nil_r. unfold left_of. simpl. done.
    - lia.
    - split; [done|]. by intros [_ ?]%app_nil. }
  cbn [mret M_ret] in H. unfold on_tx, on_ws, modify in H. cbn beta iota in H. rewrite Hws in H.
  destruct (length (tx (txs (ws c))) =? 0)%nat eqn:Hempty.
  - unfold mono_ms, os in H. cbn [net ws entropy] in H.
    pose proof (now_ms_range (net c1)) as Hms. pose proof (wire_now (net c1)) as Hw2.
    destruct (now_ms (net c1)) as [ms n2]. simpl in Hms, Hw2.
    injection H as <- <-. cbn [ws]. split; [|split].
    + split; [|done]. simpl. rewrite Hu64. apply Hnew. lia.
    + destruct Hw, Hw2. split; simpl; congruence.
    + exists d, mk. eexists. by repeat split.
  - injection H as <- <-. cbn [ws]. split; [|split; [exact Hw|]].
    + split; [|done]. simpl. unfold set_tx. rewrite Hu64. apply Hnew. rewrite Htm.
      intros Hnil. by rewrite Hnil in Hempty.
    + exists d, mk. eexists. by repeat split.
Qed.

Lemma keeps_queue_frame op p : keeps conn_ok (queue_frame op p).
Proof.
  intros c Hc. destruct (queue_frame op p c) as [r c'] eqn:H. by apply queue_frame_spec in H as [? _].
Qed.

(** *** Writing *)

Lemma io_write_spec b c r c' :
  io_write b c = (r, c') →
  ∃ x i, ws c' = set_txs (set_tx_wait x (txs (ws c))) (ws c) ∧ r = Ok i
    ∧ (∀ n, i = IoGot n → (0 < n <= length b)%nat)
    ∧ outgoing (net c') = outgoing (net c) ++ match i with IoGot n => take n b | _ => [] end
    ∧ incoming (net c') = incoming (net c).
Proof.
  assert (Hsame : ws c = set_txs (set_tx_wait (tx_wait (txs (ws c))) (txs (ws c))) (ws c))
    by (by destruct (ws c) as [? ? ? [] ?]).
  assert (Hgot : ∀ m, (m <= length b)%nat →
    (∀ n, got_count m = IoGot n → (0 < n <= length b)%nat)
    ∧ take m b = match got_count m with IoGot n => take n b | _ => [] end).
  { intros m Hm. unfold got_count. destruct (Nat.eqb_spec m 0) as [->|Hm0]; [done|]. split; [|done].
    intros n [= <-]. lia. }
  unfold io_write, mbind, M_bind, session, gets. destruct (ssl (conf (ws c))).
  - unfold os. pose proof (wire_ssl_write b (net c)) as Hw.
    destruct (ssl_write_ex b (net c)) as [o n'] eqn:Ho.
    destruct o; intros [= <- <-]; eexists _, _; (split; [reflexivity || exact Hsame|]);
      (split; [reflexivity|]); try done.
    apply ssl_write_ex_fits, Hgot in Ho as [Hn Ht]. split; [done|]. by rewrite <- Ht.
  - unfold os. pose proof (wire_send b (net c)) as Hw. destruct (send b (net c)) as [o n'] eqn:Ho.
    destruct o; intros [= <- <-]; eexists _, _; (split; [reflexivity || exact Hsame|]);
      (split; [reflexivity|]); try done.
    apply send_fits, Hgot in Ho as [Hn Ht]. split; [done|]. by rewrite <- Ht.
Qed.

(** After [n] bytes of the first frame: [tx] and [progress] of the queue. *)
Lemma wrote_spec f rest n c r c' :
  conn_ok c → tx (txs (ws c)) = f :: rest → (0 < n <= length (left_of f))%nat →
  wrote f rest n c = (r, c') →
  r = Ok tt ∧ conn_ok c' ∧ unsent (txs (ws c')) = drop n (unsent (txs (ws c)))
  ∧ rxs (ws c') = rxs (ws c) ∧ conf (ws c') = conf (ws c)
  ∧ (flush_fuel (tx (txs (ws c'))) < flush_fuel (tx (txs (ws c))))%nat ∧ same_wire c c'.
Proof.
  intros [[Hf Hq Hl Htm] Hr] Htx Hn H. unfold left_of in Hn. rewrite length_drop in Hn.
  destruct c as [[cf st cl [l q ms tw] rr] w g]. cbn [ws txs tx tx_queued_bytes tx_last_progress_ms
    tx_wait rxs conf] in *. subst l.
  apply Forall_cons in Hf as [Hf1 Hf]. unfold unsent in Hq. simpl in Hq. rewrite zlen_app in Hq.
  set (tl := concat (map left_of rest)) in *. pose proof (zlen_nonneg tl) as Htl.
  assert (Hz : zlen (left_of f) = Z.of_nat (length (data f) - offset f))
    by (unfold zlen, left_of; by rewrite length_drop).
  assert (Hq' : u64 (q - Z.of_nat n) = q - Z.of_nat n).
  { unfold u64. apply Z.mod_small. unfold kMaxWsTxBytes, kMaxWsMessageBytes in *. lia. }
  unfold wrote, mbind, M_bind, on_tx, on_ws, modify, mono_ms, os in H. cbn in H.
  rewrite Hq' in H. pose proof (now_ms_range w) as Hms. pose proof (wire_now w) as Hw.
  destruct (now_ms w) as [ms1 w1].
  simpl in Hms. cbn in H. destruct (Nat.eqb_spec (offset f + n) (length (data f))) as [Hd|Hd].
  - assert (Hcnt : q - Z.of_nat n = zlen tl) by lia.
    assert (Hgone : drop n (left_of f ++ tl) = tl).
    { apply drop_app_length'. unfold left_of. rewrite length_drop. lia. }
    cbn in H. destruct rest as [|f2 rest]; cbn in H.
    + injection H as <- <-. split; [done|]. split; [split; [split|done]|]; simpl; try done; try lia.
      split; [symmetry; exact Hgone|]. repeat split; try apply Hw. unfold flush_fuel. simpl. lia.
    + pose proof (now_ms_range w1) as Hms2. pose proof (wire_now w1) as Hw1. simpl in Hw. destruct (now_ms w1) as [ms2 w2]. simpl in Hms2. cbn in H.
      injection H as <- <-. split; [done|].
      assert (Htm2 : ms2 = 0 ↔ f2 :: rest = []) by (split; [lia|done]).
      split; [split; [split; simpl; [done|exact Hcnt|lia|exact Htm2]|done]|]; simpl.
      split; [symmetry; exact Hgone|]. split; [done|]. split; [done|].
      split; [unfold flush_fuel; simpl; lia|]. destruct Hw, Hw1. split; simpl in *; congruence.
  - cbn in H. injection H as <- <-. split; [done|].
    assert (Hgone : drop n (left_of f) = drop (offset f + n) (data f))
      by (unfold left_of; by rewrite drop_drop).
    assert (Happ : drop n (left_of f ++ tl) = drop (offset f + n) (data f) ++ tl).
    { rewrite <- Hgone. apply drop_app_le'. unfold left_of. rewrite length_drop. lia. }
    split; [split; [split|done]|]; simpl.
    + constructor; [simpl; lia|done].
    + unfold unsent. simpl. fold tl. rewrite zlen_app. unfold left_of at 1. simpl.
      unfold zlen at 1. rewrite length_drop. lia.
    + lia.
    + split; [lia|done].
    + unfold unsent. simpl. fold tl. unfold left_of at 1. simpl. split; [by rewrite Happ|].
      repeat split; try apply Hw. unfold flush_fuel. simpl. lia.
Qed.

(** A call that had written [written] bytes at [c] ends at [c'] with [r], and
    wrote from the front of what waited, within the budget. *)
Definition flushed (budget written : nat) (c : Conn) (r : res nat) (c' : Conn) : Prop :=
  conn_ok c' ∧ rxs (ws c') = rxs (ws c) ∧ conf (ws c') = conf (ws c)
  ∧ ∃ k, unsent (txs (ws c')) = drop k (unsent (txs (ws c))) ∧ (k <= length (unsent (txs (ws c))))%nat
         ∧ (written + k <= budget)%nat ∧ (∀ n, r = Ok n → n = (written + k)%nat)
         ∧ outgoing (net c') = outgoing (net c) ++ take k (unsent (txs (ws c)))
         ∧ incoming (net c') = incoming (net c).

Lemma flushed_stop budget written c c1 r :
  conn_ok c1 → rxs (ws c1) = rxs (ws c) → conf (ws c1) = conf (ws c) →
  unsent (txs (ws c1)) = unsent (txs (ws c)) → same_wire c c1 → (written <= budget)%nat →
  (∀ n, r = Ok n → n = written) → flushed budget written c r c1.
Proof.
  intros ? ? ? ? [Ho Hi] ? ?. repeat (split; [done|]). exists 0%nat.
  rewrite drop_0, Nat.add_0_r, take_0, app_nil_r. repeat split; try done. lia.
Qed.

(** Flushing writes bytes from the front of what waits, at most the budget. *)
Lemma flush_loop_spec fuel budget : ∀ written c r c',
  conn_ok c → (written <= budget)%nat → flush_loop fuel budget written c = (r, c') →
  flushed budget written c r c'.
Proof.
  assert (Hstop : ∀ written c r c', conn_ok c → (written <= budget)%nat →
    (Ok written, c) = (r, c') → flushed budget written c r c').
  { intros written c r c' Hc Hw [= <- <-]. apply flushed_stop; try done. by intros n [= <-]. }
  induction fuel as [|fuel IH]; intros written c r c' Hc Hw H; simpl in H; [by eapply Hstop|].
  unfold mbind, M_bind, session, gets in H.
  destruct (tx (txs (ws c))) as [|f rest] eqn:Htx; [by eapply Hstop|].
  destruct (Nat.leb_spec budget written); [by eapply Hstop|].
  assert (Hf : (offset f < length (data f))%nat).
  { destruct Hc as [[Hf _ _ _] _]. rewrite Htx in Hf. by apply Forall_cons in Hf as [? _]. }
  rewrite (proj2 (Nat.leb_gt _ _)) in H by lia.
  destruct (io_write _ c) as [[i|e] c1] eqn:Hio;
    apply io_write_spec in Hio as (x & j & Hws1 & Hj & Hn & Hout & Hin); [injection Hj as <-|done].
  assert (Hc1 : conn_ok c1) by (destruct Hc; split; rewrite Hws1; [by apply tx_wait_ok|done]).
  assert (Heq : rxs (ws c1) = rxs (ws c) ∧ conf (ws c1) = conf (ws c) ∧ unsent (txs (ws c1)) = unsent (txs (ws c))
                ∧ tx (txs (ws c1)) = f :: rest) by (rewrite Hws1; by repeat split).
  destruct Heq as (E1 & E2 & E3 & E4).
  assert (Hfail : ∀ r', same_wire c c1 → (∀ n, r' = Ok n → n = written) → (r', c1) = (r, c') →
    flushed budget written c r c').
  { intros r' Hw' Hr' [= <- <-]. by apply flushed_stop. }
  destruct i as [n| | |again];
    [|rewrite app_nil_r in Hout..];
    [|by eapply Hfail; [done| |exact H]|eapply Hfail; [done| |exact H]; by intros n [= <-]
     |by eapply Hfail; [done| |exact H]].
  specialize (Hn n eq_refl). rewrite length_take, length_drop in Hn.
  destruct (wrote f rest n c1) as [[u|e] c2] eqn:Hwr;
    apply wrote_spec in Hwr as (Hu & Hc2 & Huns & Er & Ec & _ & Ho2 & Hi2); try done;
    try (unfold left_of; rewrite length_drop; lia).
  assert (Hle : (written + n <= budget)%nat) by lia.
  destruct (IH _ _ _ _ Hc2 Hle H) as (Hc' & Er' & Ec' & k & Hk & Hkl & Hb & Hr & Ho & Hi).
  split; [done|]. split; [congruence|]. split; [congruence|].
  exists (n + k)%nat. rewrite Hk, Huns, E3, drop_drop.
  rewrite Huns, E3, length_drop in Hkl.
  assert (Hlen : (n <= length (unsent (txs (ws c))))%nat).
  { unfold unsent. rewrite Htx. simpl. rewrite length_app. unfold left_of at 1. rewrite length_drop. lia. }
  split; [done|]. split; [lia|]. split; [lia|]. split; [intros m Hm; rewrite (Hr m Hm); lia|].
  split; [|congruence]. rewrite Ho, Ho2, Hout, Huns, E3, <- app_assoc. f_equal.
  rewrite take_take, Nat.min_l by lia.
  rewrite <- take_take_drop. f_equal.
  unfold unsent. rewrite Htx. simpl. symmetry. apply take_app_le.
  unfold left_of. rewrite length_drop. lia.
Qed.

(** The loop ends by itself: more fuel than [flush_fuel] changes nothing. *)
Lemma flush_loop_fuel fuel k budget : ∀ written c,
  conn_ok c → (flush_fuel (tx (txs (ws c))) <= fuel)%nat →
  flush_loop (fuel + k) budget written c = flush_loop fuel budget written c.
Proof.
  induction fuel as [|fuel IH]; intros written c Hc Hfuel; [unfold flush_fuel in Hfuel; lia|].
  simpl. unfold mbind, M_bind, session, gets.
  destruct (tx (txs (ws c))) as [|f rest] eqn:Htx; [done|].
  destruct (budget <=? written)%nat; [done|].
  assert (Hf : (offset f < length (data f))%nat).
  { destruct Hc as [[Hf _ _ _] _]. rewrite Htx in Hf. by apply Forall_cons in Hf as [? _]. }
  rewrite (proj2 (Nat.leb_gt _ _)) by lia.
  destruct (io_write _ c) as [[i|e] c1] eqn:Hio; [|done].
  apply io_write_spec in Hio as (x & j & Hws1 & [= <-] & Hn & _).
  destruct i as [n| | |again]; try done. specialize (Hn n eq_refl). rewrite length_take, length_drop in Hn.
  assert (Hc1 : conn_ok c1) by (destruct Hc; split; rewrite Hws1; [by apply tx_wait_ok|done]).
  destruct (wrote f rest n c1) as [[u|e] c2] eqn:Hwr; [|done].
  apply wrote_spec in Hwr as (_ & Hc2 & _ & _ & _ & Hless & _); [|done|by rewrite Hws1|
    unfold left_of; rewrite length_drop; lia].
  apply IH; [done|]. rewrite Hws1 in Hless. simpl in Hless. rewrite Htx in Hless. lia.
Qed.
End Theory.

#[export] Hint Resolve keeps_session keeps_stats keeps_os keeps_tx keeps_rx keeps_random tx_wait_ok rx_wait_ok eof_ok
  prefetched_ok : pt.
