(* ===== verification/WsReceive.v ===== *)
(** * Receiving on a WebSocket session: invariants and delivery

    What [websocket_read_messages] of [WebSocket] guarantees: the session keeps
    its invariant whatever the peer sends, and the messages a peer framed are
    delivered in order, once, however the stream is cut into reads. *)

From S2P Require Import Prelude Crypto Transport WsFrame WebSocket.

Section Receive.
Context {C : Crypto} {T : Transport} {CL : CryptoLaws C} {TL : TransportLaws T} {WR : Wire T}.

(** ** Reading into the buffer *)

Lemma io_read_spec n c r c' :
  io_read n c = (r, c') →
  ∃ x i, ws c' = set_rxs (set_rx_wait x (rxs (ws c))) (ws c) ∧ r = Ok i
    ∧ (∀ b, i = IoGot b → bytes_ok b ∧ 0 < zlen b)
    ∧ outgoing (net c') = outgoing (net c)
    ∧ incoming (net c) = match i with IoGot b => b | _ => [] end ++ incoming (net c').
Proof.
  assert (Hsame : ws c = set_rxs (set_rx_wait (rx_wait (rxs (ws c))) (rxs (ws c))) (ws c))
    by (by destruct (ws c) as [? ? ? ? []]).
  assert (Hgot : ∀ b, bytes_ok b →
    (∀ b', got_bytes b = IoGot b' → bytes_ok b' ∧ 0 < zlen b')
    ∧ b = match got_bytes b with IoGot b => b | _ => [] end).
  { intros b Hb. unfold got_bytes. pose proof (zlen_nonneg b).
    destruct (Z.eqb_spec (zlen b) 0) as [Hz|Hz]; split; try done.
    - apply nil_length_inv. unfold zlen in Hz. lia.
    - intros b' [= <-]. split; [done|lia]. }
  unfold io_read, mbind, M_bind, session, gets. destruct (ssl (conf (ws c))).
  - unfold os. pose proof (wire_ssl_read n (net c)) as Hw.
    destruct (ssl_read_ex n (net c)) as [o w'] eqn:Ho.
    destruct o; intros [= <- <-]; eexists _, _; (split; [reflexivity || exact Hsame|]);
      (split; [reflexivity|]); try done.
    apply ssl_read_ex_fits in Ho as [Ho _]. apply Hgot in Ho as [H1 H2]. split; [done|]. by rewrite <- H2.
  - unfold os. pose proof (wire_recv n (net c)) as Hw. destruct (recv n (net c)) as [o w'] eqn:Ho.
    destruct o; intros [= <- <-]; eexists _, _; (split; [reflexivity || exact Hsame|]);
      (split; [reflexivity|]); try done.
    apply recv_fits in Ho as [Ho _]. apply Hgot in Ho as [H1 H2]. split; [done|]. by rewrite <- H2.
Qed.

(** [r'] is [r] after bytes [b] were read. *)
Definition read_more (b : bytes) (r r' : WsRx) : Prop :=
  rx r' = rx r ++ b ∧ prefetched_messages r' = prefetched_messages r
  ∧ fragment_opcode r' = fragment_opcode r ∧ fragment_payload r' = fragment_payload r
  ∧ pong_payloads r' = pong_payloads r.

(** [w'] is [w] but for the receive side. *)
Definition same_but_rx (w w' : WsSession) : Prop :=
  conf w' = conf w ∧ stats w' = stats w ∧ closing w' = closing w ∧ txs w' = txs w.

Lemma rx_ok_more b r r' :
  rx_ok r → read_more b r r' → bytes_ok b → zlen (rx r) + zlen b <= kMaxWsRxBufferedBytes → rx_ok r'.
Proof.
  intros [H1 H2 H3 H4 H5] (E1 & E2 & E3 & E4 & E5) Hb Hl. split; rewrite ?E1, ?E3, ?E4, ?E5; try done.
  - by apply Forall_app.
  - by rewrite zlen_app.
Qed.

(** The ways in which a read fails that are the connection's doing. *)
Definition connection_errors : list bytes :=
  [str "WebSocket RX buffer limit exceeded"; str "WebSocket read failed"; str "WebSocket peer closed";
   str "truncated WebSocket frame at EOF"].

Lemma read_loop_spec fuel : ∀ received c r c',
  rx_ok (rxs (ws c)) → read_loop fuel received c = (r, c') →
  same_but_rx (ws c) (ws c') ∧ rx_ok (rxs (ws c')) ∧ outgoing (net c') = outgoing (net c)
  ∧ (∃ b, read_more b (rxs (ws c)) (rxs (ws c')) ∧ (r = Ok tt → incoming (net c) = b ++ incoming (net c')))
  ∧ (∀ e, r = Err e → e ∈ connection_errors).
Proof.
  assert (Hstop : ∀ c r c' b (w : WsSession),
    rx_ok (rxs w) → same_but_rx w (ws c') → rx_ok (rxs (ws c')) → read_more b (rxs w) (rxs (ws c')) →
    outgoing (net c') = outgoing (net c) →
    (r = Ok tt → incoming (net c) = b ++ incoming (net c')) →
    (∀ e, r = Err e → e ∈ connection_errors) →
    same_but_rx w (ws c') ∧ rx_ok (rxs (ws c')) ∧ outgoing (net c') = outgoing (net c)
    ∧ (∃ b, read_more b (rxs w) (rxs (ws c')) ∧ (r = Ok tt → incoming (net c) = b ++ incoming (net c')))
    ∧ (∀ e, r = Err e → e ∈ connection_errors)) by eauto 10.
  assert (Hnone : ∀ rr : WsRx, read_more [] rr rr) by (intros rr; unfold read_more; by rewrite app_nil_r).
  induction fuel as [|fuel IH]; intros received c r c' Hok H; simpl in H.
  { injection H as <- <-. apply (Hstop c (Ok tt) c []); try done. }
  destruct (received <? kReadBudget); [|injection H as <- <-; by apply (Hstop c (Ok tt) c [])].
  unfold mbind, M_bind in H. destruct (io_read _ c) as [[i|e] c1] eqn:Hio;
    apply io_read_spec in Hio as (x & j & Hws & Hj & Hb & Ho & Hi); [injection Hj as <-|done].
  assert (Hok1 : rx_ok (rxs (ws c1))) by (rewrite Hws; by apply rx_wait_ok).
  assert (Hsame : same_but_rx (ws c) (ws c1)) by (rewrite Hws; done).
  assert (Hmore : read_more [] (rxs (ws c)) (rxs (ws c1)))
    by (rewrite Hws; unfold read_more; simpl; by rewrite app_nil_r).
  destruct i as [b| | |again].
  - destruct (Hb b eq_refl) as [Hbok Hbl]. unfold session, gets, check, throw, mret, M_ret in H.
    destruct (Z.ltb_spec (kMaxWsRxBufferedBytes - zlen b) (zlen (rx (rxs (ws c1))))) as [|Hle].
    { injection H as <- <-. apply (Hstop c _ c1 []); try done.
      intros e [= <-]. unfold connection_errors. left. }
    unfold on_rx, on_ws, modify in H. cbn beta iota in H.
    apply IH in H as (Hs2 & Hok2 & Ho2 & (b2 & Hm2 & Hi2) & He2).
    + cbn [ws net] in *. apply (Hstop c _ c' (b ++ b2)); try done.
      * destruct Hs2 as (?&?&?&?), Hsame as (?&?&?&?). unfold same_but_rx. simpl in *.
        repeat split; congruence.
      * destruct Hm2 as (F1 & F2 & F3 & F4 & F5), Hmore as (E1 & E2 & E3 & E4 & E5). simpl in *.
        rewrite app_nil_r in E1. unfold read_more. rewrite F1, F2, F3, F4, F5, E1, app_assoc. done.
      * congruence.
      * intros Hr. rewrite Hi, (Hi2 Hr). by rewrite app_assoc.
    + cbn [ws]. simpl. eapply (rx_ok_more b); [exact Hok1| |done|lia]. done.
  - injection H as <- <-.
    apply (Hstop c (Ok tt) (mkConn (set_rxs (set_eof (rxs (ws c1))) (ws c1)) (net c1) (entropy c1)) []);
      try done. by apply eof_ok.
  - injection H as <- <-. by apply (Hstop c (Ok tt) c1 []).
  - destruct again; injection H as <- <-; eapply (Hstop c _ c1 []); try done.
    intros e [= <-]. unfold connection_errors. right. left.
Qed.

(** ** Parsing what was read *)

(** While the loop parses, the buffer, the configuration, the streams and what
    was prefetched stay; to the bytes that wait to be written, of which [U] holds,
    come control frames only. *)
Record parsing (b : bytes) (cf : WsConf) (e : bool) (o i : bytes) (pre : list bytes) (U : bytes → Prop) (c : Conn) : Prop := {
  parsing_ok : conn_ok c;
  parsing_buffer : rx (rxs (ws c)) = b;
  parsing_conf : conf (ws c) = cf;
  parsing_eof : peer_eof (rxs (ws c)) = e;
  parsing_out : outgoing (net c) = o;
  parsing_in : incoming (net c) = i;
  parsing_pre : prefetched_messages (rxs (ws c)) = pre;
  parsing_unsent : U (unsent (txs (ws c)));
}.

Definition grows_by_control (mask : bool) (U : bytes → Prop) : Prop := ∀ u op p mk,
  U u → op ∈ [8; 9; 10] → zlen p <= 125 → length mk = 4%nat → U (u ++ frame_bytes mask op p mk).

Section Parsing.
Context (b : bytes) (cf : WsConf) (e : bool) (o i : bytes) (pre : list bytes) (U : bytes → Prop).
Context (U_control : grows_by_control (client cf) U).
Abbreviation P := (parsing b cf e o i pre U).

Lemma parsing_stats f : keeps P (on_stats f).
Proof. by intros c []. Qed.

Lemma parsing_closing f : keeps P (on_ws (λ w, set_closing (f w) w)).
Proof. by intros c []. Qed.

Lemma parsing_queue op p : op ∈ [8; 9; 10] → keeps P (queue_frame op p).
Proof.
  intros Hop c []. destruct (queue_frame op p c) as [r c'] eqn:H.
  apply queue_frame_spec in H as (Hc' & [Ho' Hi'] & Hr); [|done]. destruct r as [u|err].
  - destruct Hr as (d & mk & t & Hmk & -> & _ & Hp & Hw & Htx & _).
    split; simpl; try congruence; rewrite Hw; simpl; try done.
    unfold unsent. rewrite Htx, map_app, concat_app. simpl. rewrite app_nil_r.
    change (left_of (mkTxFrame ?d 0 _ _)) with d. rewrite parsing_conf0. apply U_control; auto. apply Hp. set_unfold in Hop. by destruct Hop as [->|[->|[->|[]]]].
  - split; simpl; rewrite ?Hr; congruence || done.
Qed.

Lemma parsing_rx f :
  (∀ r, rx_ok r → rx_ok (f r)) → (∀ r, rx (f r) = rx r) → (∀ r, peer_eof (f r) = peer_eof r) →
  (∀ r, prefetched_messages (f r) = prefetched_messages r) → keeps P (on_rx f).
Proof.
  intros Hok Hrx Heof Hpre c [[Ht Hr] ????]. split; simpl; rewrite ?Hrx, ?Heof, ?Hpre; try done.
  split; [done|]. by apply Hok.
Qed.

Lemma fragment_ok op p r :
  rx_ok r → (op = 0 ∨ op = 2) → zlen p <= kMaxWsMessageBytes → rx_ok (set_fragment op p r).
Proof. intros [] ? ?. by split. Qed.

Lemma pongs_ok l r : rx_ok r → zlen l <= kMaxRememberedPongs → rx_ok (set_pongs l r).
Proof. intros [] ?. by split. Qed.

Lemma remembered_ok p r :
  rx_ok r →
  rx_ok (let l := pong_payloads r in
         set_pongs ((if kMaxRememberedPongs <=? zlen l then drop 1 l else l) ++ [p]) r).
Proof.
  intros H. pose proof (rx_pongs r H) as Hl. apply pongs_ok; [done|].
  destruct (Z.leb_spec kMaxRememberedPongs (zlen (pong_payloads r))); autorewrite with pt; [|lia].
  unfold zlen in *. rewrite length_drop. unfold kMaxRememberedPongs in *. lia.
Qed.

Hint Resolve parsing_stats parsing_closing parsing_queue parsing_rx remembered_ok fragment_ok : pt.

#[local] Hint Extern 1 (_ ∈ [8; 9; 10]) => set_solver : pt.

Lemma parsing_close pay out : keeps P (handle_close pay out).
Proof.
  unfold handle_close. keep.
Qed.

Lemma parsing_frame fin op pay out :
  zlen pay <= kMaxWsMessageBytes → keeps P (handle_frame fin op pay out).
Proof.
  intros Hpay. unfold handle_frame, websocket_send_pong.
  destruct (Z.eqb_spec op 2) as [->|]; [keep|].
  destruct (Z.eqb_spec op 0) as [->|].
  2:{ apply keeps_bind; [apply keeps_session|intros w]. keep. }
  intros c Hc. unfold mbind, M_bind, session, gets. cbn beta iota.
  pose proof (rx_opcode _ (proj2 (parsing_ok _ _ _ _ _ _ _ _ Hc))) as Hop.
  unfold check. destruct (fragment_opcode (rxs (ws c)) =? 0); [done|]. cbn [mret M_ret].
  destruct (Z.ltb_spec (kMaxWsMessageBytes - zlen pay) (zlen (fragment_payload (rxs (ws c))))) as [|Hle];
    [done|].
  set (whole := fragment_payload (rxs (ws c)) ++ pay).
  assert (Hwhole : zlen whole <= kMaxWsMessageBytes) by (unfold whole; rewrite zlen_app; lia).
  assert (Hk : keeps P (on_rx (set_fragment (fragment_opcode (rxs (ws c))) whole) ;;
    if fin then check (negb (fragment_opcode (rxs (ws c)) =? 2)) (str "unsupported fragmented WebSocket message") ;;
                on_stats (count_message (zlen whole)) ;; on_rx (set_fragment 0 []) ;; mret (out ++ [whole], false)
    else mret (out, false)));
    [|by apply Hk].
  keep; apply parsing_rx; try done; intros r Hr; apply fragment_ok; auto. unfold kMaxWsMessageBytes. done.
Qed.

Lemma read_frames_parsing fuel : ∀ off out c r c',
  P c → (off <= length b)%nat → read_frames fuel off out c = (r, c') →
  P c' ∧ ∀ off' out', r = Ok (off', out') → (off <= off' <= length b)%nat.
Proof.
  induction fuel as [|fuel IH]; intros off out c r c' Hc Hoff H; simpl in H.
  { injection H as <- <-. split; [done|]. intros ? ? [= <- <-]. lia. }
  unfold mbind, M_bind, session, gets in H.
  destruct (parse_frame _ _ _ _) as [|e1|fin op pay size] eqn:Hp.
  - injection H as <- <-. split; [done|]. intros ? ? [= <- <-]. lia.
  - injection H as <- <-. by split.
  - destruct (parse_frame_inv _ _ _ _ _ _ _ _
      (Forall_drop _ _ _ (rx_bytes _ (proj2 (parsing_ok _ _ _ _ _ _ _ _ Hc)))) Hp) as (Hsize & Hpay & _).
    rewrite (parsing_buffer _ _ _ _ _ _ _ _ Hc), length_drop in Hsize.
    assert (Hpay' : zlen pay <= kMaxWsMessageBytes)
      by (destruct (authenticated _); unfold kMaxWsMessageBytes in *; lia).
    assert (Hc1 : P (on_stats count_frame c).2) by (by apply parsing_stats).
    unfold on_stats, on_ws, modify in H, Hc1. cbn beta iota in H. simpl snd in Hc1.
    pose proof (parsing_frame fin op pay out Hpay' _ Hc1) as Hc2.
    destruct (handle_frame fin op pay out _) as [[[out2 stop]|e2] c2]; simpl in Hc2.
    + destruct stop.
      * injection H as <- <-. split; [done|]. intros ? ? [= <- <-]. lia.
      * apply IH in H as [Hc3 Hr]; [|done|lia]. split; [done|]. intros ? ? Hr'. apply Hr in Hr'. lia.
    + injection H as <- <-. by split.
Qed.
End Parsing.

Lemma erase_ok b' r :
  rx_ok r → bytes_ok b' → zlen b' <= zlen (rx r) → rx_ok (set_rx b' r).
Proof. intros [] ? ?. split; simpl; try done. lia. Qed.

(** Parsing keeps the invariant and the streams, the consumed bytes leave the
    buffer, and replies to control frames are queued. *)
Lemma take_messages_ok U c r c' :
  conn_ok c → grows_by_control (client (conf (ws c))) U → U (unsent (txs (ws c))) →
  take_messages c = (r, c') →
  parsing (rx (rxs (ws c'))) (conf (ws c)) (peer_eof (rxs (ws c))) (outgoing (net c)) (incoming (net c))
    (prefetched_messages (rxs (ws c))) U c'.
Proof.
  intros Hc HU Hu H.
  assert (HP : parsing (rx (rxs (ws c))) (conf (ws c)) (peer_eof (rxs (ws c))) (outgoing (net c))
                 (incoming (net c)) (prefetched_messages (rxs (ws c))) U c) by (by split).
  unfold take_messages, mbind, M_bind, session, gets in H.
  destruct (read_frames _ 0 [] c) as [[[off out]|e] c1] eqn:Hr;
    (destruct (read_frames_parsing _ _ _ _ _ _ _ HU _ _ _ _ _ _ HP (Nat.le_0_l _) Hr)
      as [Hc1 Hoff]); [|injection H as <- <-; by rewrite (parsing_buffer _ _ _ _ _ _ _ _ Hc1)].
  specialize (Hoff off out eq_refl).
  set (erase := if (off =? 0)%nat then _ else _) in H.
  assert (He : ∃ b, erase c1 = (Ok tt, mkConn (set_rxs (set_rx b (rxs (ws c1))) (ws c1)) (net c1) (entropy c1))
                    ∧ bytes_ok b ∧ zlen b <= zlen (rx (rxs (ws c1)))).
  { pose proof (rx_bytes _ (proj2 (parsing_ok _ _ _ _ _ _ _ _ Hc1))) as Hb. unfold erase.
    destruct (off =? 0)%nat.
    - exists (rx (rxs (ws c1))). by destruct c1 as [[? ? ? ? []] ? ?].
    - eexists. split; [reflexivity|]. destruct (off =? length (rx (rxs (ws c1))))%nat.
      + split; [constructor|apply zlen_nonneg].
      + split; [by apply Forall_drop|]. unfold zlen. rewrite length_drop. lia. }
  destruct He as (b & He & Hb & Hbl). rewrite He in H. unfold check, throw, mret, M_ret in H.
  assert (c' = mkConn (set_rxs (set_rx b (rxs (ws c1))) (ws c1)) (net c1) (entropy c1)) as ->
    by (repeat case_match; by simplify_eq).
  destruct Hc1 as [[Ht Hrx]]. split; try done. split; [done|]. by apply erase_ok.
Qed.

(** Every public operation keeps the invariant. *)
Lemma read_messages_ok t : keeps conn_ok (websocket_read_messages t).
Proof.
  unfold websocket_read_messages. apply keeps_bind; [auto with pt|intros w]. apply keeps_if; [keep|].
  apply keeps_bind; [auto with pt|intros _]. apply keeps_bind; [auto with pt|intros _].
  apply keeps_bind; [unfold input_ready; keep|intros ready]. apply keeps_if; [auto with pt|].
  apply keeps_bind; [|intros _].
  - intros c [Ht Hr]. destruct (read_loop _ 0 c) as [r c'] eqn:H.
    apply read_loop_spec in H as ((_ & _ & _ & E) & Hr' & _); [|done].
    split; simpl; [by rewrite E|done].
  - intros c Hc. destruct (take_messages c) as [r c'] eqn:H.
    by apply (take_messages_ok (λ _, True)) in H as [].
Qed.

Lemma flush_ok n : keeps conn_ok (websocket_flush n).
Proof.
  unfold websocket_flush. apply keeps_if; [auto with pt|]. apply keeps_bind; [auto with pt|intros w].
  intros c Hc. destruct (flush_loop _ n 0 c) as [r c'] eqn:H.
  by apply flush_loop_spec in H as [? _]; [|done|lia].
Qed.

Lemma take_pongs_ok : keeps conn_ok websocket_take_pongs.
Proof.
  unfold websocket_take_pongs. keep. apply keeps_rx. intros r Hr. apply pongs_ok; [done|].
  unfold kMaxRememberedPongs. done.
Qed.

Lemma stalled_ok t : keeps conn_ok (websocket_tx_stalled t).
Proof. unfold websocket_tx_stalled, mono_ms. keep. Qed.

(** ** Streams of frames *)

(** A frame: its opcode and its payload. *)
Abbreviation frame := (Z * bytes)%type.

(** The messages among some frames. *)
Definition data_of (fs : list frame) : list bytes := map snd (filter (λ f, f.1 = 2) fs).

Lemma data_of_app fs gs : data_of (fs ++ gs) = data_of fs ++ data_of gs.
Proof. unfold data_of. by rewrite filter_app, map_app. Qed.
Lemma data_of_messages ms : data_of (map (pair 2) ms) = ms.
Proof. unfold data_of. induction ms as [|m ms IH]; [done|]. simpl. by rewrite IH. Qed.

(** [s] is the frames [fs], binary messages and control frames, as [make_frame]
    builds them ([mask] on the client's side). *)
Inductive framed (mask : bool) (cap : Z) : bytes → list frame → Prop :=
| framed_nil : framed mask cap [] []
| framed_cons op m mk s fs :
    op ∈ [2; 8; 9; 10] → length mk = 4%nat → zlen m <= cap → (is_control op = true → zlen m <= 125) →
    framed mask cap s fs → framed mask cap (frame_bytes mask op m mk ++ s) ((op, m) :: fs).

Lemma framed_snoc mask cap s fs op m mk :
  framed mask cap s fs → op ∈ [2; 8; 9; 10] → length mk = 4%nat → zlen m <= cap →
  (is_control op = true → zlen m <= 125) →
  framed mask cap (s ++ frame_bytes mask op m mk) (fs ++ [(op, m)]).
Proof.
  induction 1 as [|op' m' mk' s fs H0 H1 H2 H3 H IH]; intros Hop Hmk Hm Hc; simpl app.
  - rewrite <- (app_nil_r (frame_bytes _ _ _ _)). constructor; auto. constructor.
  - rewrite <- app_assoc. constructor; auto.
Qed.

Definition cap_of (w : WsSession) : Z := if authenticated (conf w) then kMaxWsMessageBytes else 1024.

(** [b] is the front of a framed stream: its first frame is parsed, or is not
    complete yet. *)
Lemma framed_front cl au off b later fs :
  bytes_ok b → 0 <= off <= kMaxWsRxBufferedBytes →
  framed (negb cl) (if au : bool then kMaxWsMessageBytes else 1024) (b ++ later) fs →
  parse_frame cl au off b = Incomplete
  ∨ ∃ op m n fs', fs = (op, m) :: fs' ∧ op ∈ [2; 8; 9; 10] ∧ zlen m <= kMaxWsMessageBytes
      ∧ parse_frame cl au off b = Frame true op m n ∧ (0 < n <= length b)%nat
      ∧ framed (negb cl) (if au then kMaxWsMessageBytes else 1024) (drop n b ++ later) fs'.
Proof.
  intros Hb Hoff Hs. remember (b ++ later) as st eqn:Hcut. destruct Hs as [|op m mk s fs Hop Hmk Hcap Hctl Hs].
  { left. apply eq_sym, app_nil in Hcut as [-> _]. done. }
  assert (Hcode : 0 <= op < 16) by (set_unfold in Hop; lia).
  pose proof (parse_frame_encoded cl au off op m mk s Hcode Hctl Hcap Hmk Hoff) as Henc.
  pose proof (frame_nonempty (negb cl) op m mk) as Hne.
  set (f := frame_bytes (negb cl) op m mk) in *.
  destruct (decide (length f <= length b)%nat) as [Hwhole|Hpart].
  - right. exists op, m, (length f), fs.
    assert (Hd : b = f ++ drop (length f) b ∧ drop (length f) b ++ later = s).
    { apply app_eq_inv in Hcut as [(x & E1 & E2)|(x & E1 & E2)].
      - rewrite E1, length_app in Hwhole. assert (x = []) as -> by (apply nil_length_inv; lia).
        rewrite app_nil_r in E1. by rewrite E2, E1, drop_all, app_nil_r.
      - rewrite E1, drop_app_length. done. }
    destruct Hd as [Hd Hlater]. rewrite Hlater. repeat (split; [try done|]); try done.
    + destruct au; unfold kMaxWsMessageBytes in *; lia.
    + rewrite Hd. by apply parse_frame_encoded.
  - left. destruct (parse_frame cl au off b) as [|e|fin op' p size] eqn:Hp; [done|exfalso..];
      (assert (Hx := parse_frame_extend cl au off b later ltac:(by rewrite Hp)));
      rewrite <- Hcut, Henc, Hp in Hx; [done|].
    assert (size = length f) as -> by congruence.
    apply parse_frame_inv in Hp as [Hsize _]; [lia|done].
Qed.

(** No message is half received. *)
Definition calm (c : Conn) : Prop := conn_ok c ∧ fragment_opcode (rxs (ws c)) = 0.

Lemma calm_queue op p : keeps calm (queue_frame op p).
Proof.
  intros c [Hc Hf]. destruct (queue_frame op p c) as [r c'] eqn:H.
  apply queue_frame_spec in H as (Hc' & _ & Hr); [|done]. split; [done|]. simpl.
  destruct r; [destruct Hr as (?&?&?&_&_&_&_&->&_)|rewrite Hr]; done.
Qed.
#[local] Hint Resolve calm_queue : pt.

Lemma calm_frame op m out : op ∈ [2; 8; 9; 10] → keeps calm (handle_frame true op m out).
Proof.
  intros Hop. assert (∀ f, keeps calm (on_stats f)) by by intros f c [].
  assert (∀ f, keeps calm (on_ws (λ w, set_closing (f w) w))) by by intros f c [].
  unfold handle_frame, handle_close, websocket_send_pong. apply keeps_bind; [by intros c []|intros w].
  set_unfold in Hop. destruct Hop as [->|[->|[->|[->|[]]]]]; simpl; keep; try (by intros ? []).
  intros c [[Ht Hr] Hf]. split; [|done]. split; [done|]. by apply remembered_ok.
Qed.

(** What a frame adds to the messages so far; a binary message changes nothing but
    the statistics. *)
Lemma frame_result op m out c r c' :
  op ∈ [2; 8; 9; 10] → calm c → handle_frame true op m out c = (r, c') →
  (∀ out' stop, r = Ok (out', stop) → out' = out ++ data_of [(op, m)])
  ∧ (op = 2 → r = Ok (out ++ [m], false) ∧ closing (ws c') = closing (ws c)).
Proof.
  intros Hop [_ Hf] H. unfold handle_frame in H.
  set_unfold in Hop. destruct Hop as [->|[->|[->|[->|[]]]]]; simpl in H;
    (split; [intros out' stop ->; try rewrite app_nil_r|done || intros _]).
  - unfold mbind, M_bind, session, gets, check in H. rewrite Hf in H. simpl in H. by injection H as <- _ _.
  - unfold mbind, M_bind, session, gets, check in H. rewrite Hf in H. simpl in H. by injection H as <- <-.
  - unfold handle_close in H. repeat (apply M_bind_ok in H as (? & ? & _ & H)). by injection H as <- _ _.
  - repeat (apply M_bind_ok in H as (? & ? & _ & H)). by injection H as <- _ _.
  - repeat (apply M_bind_ok in H as (? & ? & _ & H)). by injection H as <- _ _.
Qed.

(** The buffer and the configuration stay. *)
Definition same_buffer (c c' : Conn) : Prop := rx (rxs (ws c')) = rx (rxs (ws c)) ∧ conf (ws c') = conf (ws c).

Lemma frame_step op m out c r c' :
  op ∈ [2; 8; 9; 10] → zlen m <= kMaxWsMessageBytes → calm c →
  (on_stats count_frame ;; handle_frame true op m out) c = (r, c') → calm c' ∧ same_buffer c c'.
Proof.
  intros Hop Hm Hc H. set (c1 := (on_stats count_frame c).2).
  assert (Hc1 : calm c1) by (by destruct Hc).
  change ((on_stats count_frame ;; handle_frame true op m out) c) with (handle_frame true op m out c1) in H.
  assert (HP : parsing (rx (rxs (ws c))) (conf (ws c)) (peer_eof (rxs (ws c1))) (outgoing (net c1))
                 (incoming (net c1)) (prefetched_messages (rxs (ws c1))) (λ _, True) c1) by (by split; try apply Hc1).
  apply (parsing_frame _ _ _ _ _ _ _ (λ _ _ _ _ _ _ _ _, I) true op m out Hm) in HP.
  pose proof (calm_frame op m out Hop c1 Hc1) as Hcalm. rewrite H in HP, Hcalm. by destruct HP.
Qed.

(** What is in the buffer is the front of a framed stream: the loop takes the
    frames that are complete and stops inside the next one, after a close, or by
    an exception that a control frame caused. *)
Lemma read_frames_framed fuel : ∀ off out c r c' later fs,
  calm c →
  let b := rx (rxs (ws c)) in
  (off <= length b)%nat → (length (drop off b) <= fuel)%nat →
  framed (negb (client (conf (ws c)))) (cap_of (ws c)) (drop off b ++ later) fs →
  read_frames fuel off out c = (r, c') →
  calm c' ∧ same_buffer c c'
  ∧ (∀ off' out', r = Ok (off', out') → ∃ fs1 fs2, out' = out ++ data_of fs1 ∧ fs = fs1 ++ fs2
       ∧ (off' <= length b)%nat ∧ framed (negb (client (conf (ws c)))) (cap_of (ws c)) (drop off' b ++ later) fs2)
  ∧ (Forall (λ f, f.1 = 2) fs → is_ok r = true ∧ closing (ws c') = closing (ws c)).
Proof.
  induction fuel as [|fuel IH]; intros off out c r c' later fs Hc b Hoff Hfuel Hs H; simpl in H.
  { injection H as <- <-. repeat (split; [done|]). split; [|done].
    intros ? ? [= <- <-]. exists [], fs. by rewrite app_nil_r. }
  unfold mbind at 1, M_bind at 1, session, gets in H. fold b in H.
  assert (Hlimit : Z.of_nat off <= kMaxWsRxBufferedBytes).
  { pose proof (rx_limit _ (proj2 (proj1 Hc))) as Hl. fold b in Hl. unfold zlen in Hl. lia. }
  destruct (framed_front _ _ (Z.of_nat off) _ _ _ (Forall_drop _ off _ (rx_bytes _ (proj2 (proj1 Hc)))) ltac:(lia) Hs)
    as [Hp|(op & m & n & fs' & -> & Hop & Hm & Hp & Hn & Hs')]; fold b in Hp; rewrite Hp in H.
  { injection H as <- <-. repeat (split; [done|]). split; [|done].
    intros ? ? [= <- <-]. exists [], fs. by rewrite app_nil_r. }
  rewrite length_drop in *. change (rx (rxs (ws c))) with b in Hn, Hs'. rewrite drop_drop in Hs'.
  assert (Hsplit : ∃ q c1, (on_stats count_frame ;; handle_frame true op m out) c = (q, c1)
    ∧ match q with
      | Ok (out', stop) => (if stop : bool then mret ((off + n)%nat, out') else read_frames fuel (off + n) out') c1 = (r, c')
      | Err e => r = Err e ∧ c' = c1
      end).
  { unfold mbind, M_bind, on_stats, on_ws, modify in H |- *. cbv beta iota in H |- *.
    destruct (handle_frame true op m out _) as [[[out' stop]|e] c1]; eexists _, _; (split; [reflexivity|]); [done|].
    by injection H as <- <-. }
  clear H. destruct Hsplit as (q & c1 & Hstep & H).
  destruct (frame_step _ _ _ _ _ _ Hop Hm Hc Hstep) as [Hc1 Hb1].
  apply frame_result in Hstep as [Hout Hdata]; [|done|by destruct Hc].
  destruct q as [[out' stop]|e].
  2:{ destruct H as [-> ->]. repeat (split; [done|]).
      intros [Hd _]%Forall_cons. by destruct (Hdata Hd). }
  specialize (Hout _ _ eq_refl). subst out'. destruct stop.
  - injection H as <- <-. repeat (split; [done|]). split.
    + intros ? ? [= <- <-]. exists [(op, m)], fs'. repeat split; [lia|done].
    + intros [Hd _]%Forall_cons. by destruct (Hdata Hd).
  - destruct Hb1 as [B1 B2]. apply (IH _ _ _ _ _ later fs') in H as (Hc2 & [B3 B4] & Hres & Hall); [|done|..].
    + split; [done|]. split; [split; congruence|]. rewrite B1, B2 in Hres.
      split.
      * intros off' out' Hr. destruct (Hres off' out' Hr) as (fs1 & fs2 & -> & -> & Ho & Hfr).
        exists ((op, m) :: fs1), fs2. rewrite <- app_assoc, <- data_of_app. unfold cap_of in *. rewrite B2 in Hfr. done.
      * intros [Hd Hrest]%Forall_cons. destruct (Hall Hrest) as [? ->]. split; [done|]. by apply Hdata.
    + rewrite B1. fold b. lia.
    + rewrite B1, length_drop. fold b. lia.
    + rewrite B1, B2. unfold cap_of in *. rewrite B2. done.
Qed.

(** After the parse the buffer holds what is left of the stream. *)
Lemma take_messages_framed c r c' later fs :
  calm c → framed (negb (client (conf (ws c)))) (cap_of (ws c)) (rx (rxs (ws c)) ++ later) fs →
  take_messages c = (r, c') →
  calm c' ∧ conf (ws c') = conf (ws c)
  ∧ (∀ out, r = Ok out → ∃ fs1 fs2, fs = fs1 ++ fs2 ∧ out = data_of fs1
       ∧ framed (negb (client (conf (ws c)))) (cap_of (ws c)) (rx (rxs (ws c')) ++ later) fs2)
  ∧ (Forall (λ f, f.1 = 2) fs → closing (ws c') = closing (ws c) ∧ ∀ e, r = Err e → e ∈ connection_errors).
Proof.
  intros Hc Hs H. set (b := rx (rxs (ws c))) in *.
  assert (Hok : conn_ok c') by (apply (take_messages_ok (λ _, True)) in H as []; try done; apply Hc).
  unfold take_messages, mbind, M_bind, session, gets in H.
  destruct (read_frames _ 0 [] c) as [q c1] eqn:Hr.
  apply (read_frames_framed _ _ _ _ _ _ later fs) in Hr as (Hc1 & [Hrx Hcf] & Hout & Hdata);
    [|done|lia|done|by rewrite drop_0].
  destruct q as [[off out]|e].
  2:{ injection H as <- <-. repeat (split; [done|]). intros Hd. by destruct (Hdata Hd). }
  destruct (Hout _ _ eq_refl) as (fs1 & fs2 & -> & -> & Hoff & Hfr). cbn [app] in *.
  set (erase := if (off =? 0)%nat then _ else _) in H.
  assert (He : erase c1 = (Ok tt, mkConn (set_rxs (set_rx (drop off b) (rxs (ws c1))) (ws c1)) (net c1) (entropy c1))).
  { unfold erase. destruct (Nat.eqb_spec off 0) as [->|].
    - unfold b. rewrite <- Hrx. by destruct c1 as [[? ? ? ? []] ? ?].
    - unfold on_rx, on_ws, modify. rewrite Hrx. fold b. destruct (Nat.eqb_spec off (length b)) as [->|];
        [by rewrite drop_all|done]. }
  rewrite He in H. unfold check, throw, mret, M_ret in H. cbn [ws rxs set_rxs set_rx rx fragment_opcode peer_eof] in H.
  rewrite (proj2 Hc1) in H. change (negb (0 =? 0)) with false in H. rewrite andb_false_r in H.
  set (c2 := mkConn _ _ _) in H.
  assert (Hc' : c' = c2 ∧ (r = Ok (data_of fs1) ∨ ∃ e, r = Err e ∧ e ∈ connection_errors)).
  { unfold connection_errors. clear - H. repeat case_match; simplify_eq; (split; [done|]); try (by left); right;
      eexists; (split; [done|]); set_solver. }
  destruct Hc' as [-> Hres]. split; [by destruct Hc1|]. split; [done|]. split.
  - intros out ->. destruct Hres as [[= ->]|(e & [=] & _)]. by exists fs1, fs2.
  - intros Hd. destruct (Hdata Hd) as [_ Hcl]. split; [done|]. intros e ->. by destruct Hres as [|(? & [= ->] & ?)].
Qed.

(** What a session still has to deliver: the rest of a framed stream, of which
    some bytes are in the buffer, some on the wire, and some, [never], do not
    arrive. *)
Definition expects (never : bytes) (fs : list frame) (c : Conn) : Prop :=
  framed (negb (client (conf (ws c)))) (cap_of (ws c)) (rx (rxs (ws c)) ++ incoming (net c) ++ never) fs.

(** No message is half received, handed over already, or refused by a close. *)
Definition quiet (w : WsSession) : Prop :=
  fragment_opcode (rxs w) = 0 ∧ prefetched_messages (rxs w) = [] ∧ close_received (closing w) = false.

Lemma input_ready_spec w t c r c' :
  input_ready w t c = (r, c') → ws c' = ws c ∧ same_wire c c' ∧ ∃ b, r = Ok b.
Proof.
  unfold input_ready, mbind, M_bind, gets, mret, M_ret. destruct (_ && _).
  - unfold os. pose proof (wire_poll (websocket_rx_poll_events w) t (net c)) as [Ho Hi].
    destruct (poll _ t (net c)) as [p n]. intros [= <- <-]. repeat split; eauto.
  - intros [= <- <-]. repeat split; eauto.
Qed.

(** One call returns the next messages or fails; without control frames, only
    because of the connection. *)
Lemma read_messages_framed never t c r c' fs :
  calm c → prefetched_messages (rxs (ws c)) = [] → expects never fs c → websocket_read_messages t c = (r, c') →
  (∀ out, r = Ok out → calm c' ∧ prefetched_messages (rxs (ws c')) = [] ∧ conf (ws c') = conf (ws c)
     ∧ ∃ fs1 fs2, fs = fs1 ++ fs2 ∧ out = data_of fs1 ∧ expects never fs2 c')
  ∧ (Forall (λ f, f.1 = 2) fs → close_received (closing (ws c)) = false →
     close_received (closing (ws c')) = false ∧ ∀ e, r = Err e → e ∈ connection_errors).
Proof.
  intros Hc Hpre Hs H.
  unfold websocket_read_messages in H. revert H. generalize (Z.to_nat kReadBudget). intros fuel H.
  unfold mbind, M_bind, session, gets, check, throw, mret, M_ret in H.
  rewrite Hpre in H. cbn [length negb Nat.eqb] in H. cbv beta iota in H.
  destruct (close_received (closing (ws c))) eqn:Hclose.
  { injection H as <- <-. by split. }
  destruct (peer_eof (rxs (ws c)) && (length (rx (rxs (ws c))) =? 0)%nat).
  { injection H as <- <-. split; [done|]. intros _ _. split; [done|]. intros e [= <-].
    unfold connection_errors. set_solver. }
  destruct (input_ready (ws c) t c) as [q c1] eqn:Hi.
  apply input_ready_spec in Hi as (Hw1 & [Ho1 Hi1] & ready & ->).
  destruct ready; cbn [negb] in H.
  2:{ injection H as <- <-. unfold expects, calm, conn_ok in *. rewrite Hw1, Hi1. split; [|done].
      intros out [= <-]. repeat (split; [done|]). by exists [], fs. }
  destruct (read_loop _ 0 c1) as [q c2] eqn:Hl.
  apply read_loop_spec in Hl as ((E1 & E2 & E3 & E4) & Hok2 & Ho2 & (b & Hmore & Hin) & Herr);
    [|rewrite Hw1; apply Hc].
  rewrite Hw1 in *. destruct q as [[]|e].
  2:{ injection H as <- <-. split; [done|]. intros _ _. rewrite E3. split; [done|]. intros ? [= <-]. by apply Herr. }
  specialize (Hin eq_refl). destruct Hmore as (F1 & F2 & F3 & F4 & F5).
  assert (Hc2 : calm c2) by (split; [split; [rewrite E4; apply Hc|done]|rewrite F3; apply Hc]).
  assert (Hin2 : incoming (net c') = incoming (net c2) ∧ prefetched_messages (rxs (ws c')) = []).
  { apply (take_messages_ok (λ _, True)) in H as []; try done; [split; congruence|apply Hc2]. }
  apply (take_messages_framed _ _ _ (incoming (net c2) ++ never) fs) in H as (G1 & G2 & G3 & G4); [|done|].
  2:{ unfold expects, cap_of in *. rewrite E1, F1, <- app_assoc, (app_assoc b), <- Hin, Hi1. exact Hs. }
  destruct Hin2 as [Hin2 Hpre2]. split.
  - intros out Hr. split; [done|]. split; [done|]. split; [congruence|].
    destruct (G3 out Hr) as (fs1 & fs2 & -> & -> & Hfr). exists fs1, fs2. repeat (split; [done|]).
    unfold expects, cap_of in *. by rewrite Hin2, G2.
  - intros Hd _. destruct (G4 Hd) as [-> ?]. by rewrite E3.
Qed.

(** Several calls, one after the other: the messages they return. *)
Fixpoint read_calls (timeouts : list Z) (c : Conn) : res (list bytes) * Conn :=
  match timeouts with
  | [] => (Ok [], c)
  | t :: ts =>
      match websocket_read_messages t c with
      | (Ok out, c') => match read_calls ts c' with (Ok rest, c'') => (Ok (out ++ rest), c'') | q => q end
      | (Err e, c') => (Err e, c')
      end
  end.

Lemma read_calls_framed ts : ∀ c r c' fs,
  calm c → quiet (ws c) → Forall (λ f, f.1 = 2) fs → expects [] fs c → read_calls ts c = (r, c') →
  (∃ fs1 fs2, r = Ok (data_of fs1) ∧ fs = fs1 ++ fs2 ∧ expects [] fs2 c') ∨ (∃ e, r = Err e ∧ e ∈ connection_errors).
Proof.
  induction ts as [|t ts IH]; intros c r c' fs Hc Hq Hd Hs H; simpl in H.
  { injection H as <- <-. left. by exists [], fs. }
  destruct Hq as (Hfrag & Hpre & Hclose). destruct (websocket_read_messages t c) as [q c1] eqn:H1.
  apply (read_messages_framed _ _ _ _ _ _ Hc Hpre Hs) in H1 as [Hout Hall].
  destruct (Hall Hd Hclose) as [Hclose1 Herr]. destruct q as [out|e].
  2:{ injection H as <- <-. right. eauto. }
  destruct (Hout out eq_refl) as (Hc1 & Hpre1 & _ & fs1 & fs2 & -> & -> & Hs1).
  apply Forall_app in Hd as [_ Hd].
  destruct (read_calls ts c1) as [q2 c2] eqn:H2.
  assert (Hq1 : quiet (ws c1)) by (split; [apply Hc1|done]).
  apply (IH _ _ _ _ Hc1 Hq1 Hd Hs1) in H2 as [(gs1 & gs2 & -> & -> & Hs2)|(e & -> & He)].
  - injection H as <- <-. left. exists (fs1 ++ gs1), gs2. by rewrite <- app_assoc, data_of_app.
  - injection H as <- <-. right. eauto.
Qed.

(** ** The sender of such a stream *)

Inductive SendOp := SendBinary (p : bytes) | Flush (budget : nat).

(** Run the operations; the messages [websocket_send_binary] accepted. *)
Fixpoint send_calls (ops : list SendOp) (sent : list bytes) (c : Conn) : list bytes * Conn :=
  match ops with
  | [] => (sent, c)
  | SendBinary p :: ops =>
      match websocket_send_binary p c with
      | (Ok _, c') => send_calls ops (sent ++ [p]) c'
      | (Err _, c') => send_calls ops sent c'
      end
  | Flush n :: ops => send_calls ops sent (websocket_flush n c).2
  end.

(** What was written and what waits to be written are, after the bytes [before],
    these frames. *)
Definition emits (before : bytes) (fs : list frame) (c : Conn) : Prop :=
  ∃ s, outgoing (net c) ++ unsent (txs (ws c)) = before ++ s ∧ framed (client (conf (ws c))) kMaxWsMessageBytes s fs.

Lemma queue_emits before op p c r c' fs :
  op ∈ [2; 8; 9; 10] → conn_ok c → emits before fs c → queue_frame op p c = (r, c') →
  conf (ws c') = conf (ws c) ∧ rxs (ws c') = rxs (ws c) ∧ incoming (net c') = incoming (net c)
  ∧ emits before (if is_ok r then fs ++ [(op, p)] else fs) c'.
Proof.
  intros Hop Hc Hs H. apply queue_frame_spec in H as (_ & [Ho Hi] & Hr); [|done]. unfold emits in *.
  destruct r as [u|e]; simpl is_ok; cbv iota.
  - destruct Hr as (d & mk & t & Hmk & -> & Hp & Hp' & Hw & Htx & _). rewrite Ho, Hw. repeat (split; [done|]).
    destruct Hs as (s & Hs & Hf). exists (s ++ frame_bytes (client (conf (ws c))) op p mk).
    split; [|by apply framed_snoc].
    unfold unsent. cbn [txs set_txs]. rewrite Htx, map_app, concat_app, app_assoc. simpl concat.
    unfold unsent in Hs. by rewrite app_nil_r, Hs, <- app_assoc.
  - by rewrite Hr, Ho.
Qed.

Lemma flush_emits before n c fs :
  conn_ok c → emits before fs c →
  let c' := (websocket_flush n c).2 in
  conf (ws c') = conf (ws c) ∧ rxs (ws c') = rxs (ws c) ∧ incoming (net c') = incoming (net c) ∧ emits before fs c'.
Proof.
  intros Hc Hs. unfold websocket_flush. destruct (n =? 0)%nat; [done|].
  unfold mbind, M_bind, session, gets. destruct (flush_loop _ n 0 c) as [r c'] eqn:H.
  apply flush_loop_spec in H as (_ & Hrx & Hcf & k & Hu & _ & _ & _ & Ho & Hi); [|done|lia].
  simpl. repeat (split; [done|]). unfold emits in *. by rewrite Hcf, Ho, Hu, <- app_assoc, take_drop.
Qed.

Lemma send_calls_emits ops : ∀ sent c ms c',
  conn_ok c → emits [] (map (pair 2) sent) c → send_calls ops sent c = (ms, c') →
  conf (ws c') = conf (ws c) ∧ emits [] (map (pair 2) ms) c'.
Proof.
  induction ops as [|[p|n] ops IH]; intros sent c ms c' Hc Hs H; simpl in H.
  - by injection H as <- <-.
  - unfold websocket_send_binary in H. destruct (queue_frame 2 p c) as [r c1] eqn:H1.
    pose proof (keeps_queue_frame 2 p c Hc) as Hc1. rewrite H1 in Hc1. simpl in Hc1.
    assert (Hop : 2 ∈ [2; 8; 9; 10]) by by left.
    apply (queue_emits _ 2 _ _ _ _ _ Hop Hc Hs) in H1 as (Hcf & _ & _ & Hs1).
    rewrite <- Hcf. destruct r; (eapply IH; [exact Hc1| |exact H]); [|exact Hs1].
    by rewrite map_app.
  - destruct (flush_emits _ n c _ Hc Hs) as (Hcf & _ & _ & Hs1). rewrite <- Hcf.
    eapply IH; [by apply flush_ok|exact Hs1|exact H].
Qed.

(** ** The loops end by themselves *)

Lemma read_frames_fuel fuel k : ∀ off out c,
  conn_ok c → (length (rx (rxs (ws c))) <= off + fuel)%nat → (off <= length (rx (rxs (ws c))))%nat →
  read_frames (fuel + k) off out c = read_frames fuel off out c.
Proof.
  induction fuel as [|fuel IH]; intros off out c Hc Hf Hoff.
  - destruct k; simpl; [done|]. unfold mbind, M_bind, session, gets.
    by rewrite drop_ge by lia.
  - simpl. unfold mbind, M_bind, session, gets.
    destruct (parse_frame _ _ _ _) as [|e|fin op pay size] eqn:Hp; [done..|].
    set (b := rx (rxs (ws c))) in *.
    destruct (parse_frame_inv _ _ _ _ _ _ _ _
      (Forall_drop _ _ _ (rx_bytes _ (proj2 Hc))) Hp) as (Hsize & Hpay & _).
    assert (Hpay' : zlen pay <= kMaxWsMessageBytes)
      by (destruct (authenticated _); unfold kMaxWsMessageBytes in *; lia).
    fold b in Hsize. rewrite length_drop in Hsize.
    unfold on_stats, on_ws, modify. cbn beta iota. set (c1 := mkConn _ (net c) (entropy c)).
    assert (Hc1 : parsing b (conf (ws c)) (peer_eof (rxs (ws c))) (outgoing (net c)) (incoming (net c))
                          (prefetched_messages (rxs (ws c))) (λ _, True) c1) by by split.
    pose proof (parsing_frame _ _ _ _ _ _ _ (λ _ _ _ _ _ _ _ _, I) fin op pay out Hpay' c1 Hc1) as Hc2.
    destruct (handle_frame fin op pay out c1) as [[[out2 stop]|e2] c2]; simpl in Hc2; [|done].
    destruct stop; [done|]. destruct Hc2 as [Hok Hb]. apply IH; rewrite ?Hb; [done|lia..].
Qed.

Lemma read_loop_fuel fuel k : ∀ received c,
  kReadBudget <= received + Z.of_nat fuel →
  read_loop (fuel + k) received c = read_loop fuel received c.
Proof.
  induction fuel as [|fuel IH]; intros received c Hf.
  - destruct k; simpl; [done|]. by rewrite (proj2 (Z.ltb_ge _ _)) by lia.
  - simpl. destruct (received <? kReadBudget); [|done]. unfold mbind, M_bind, session, gets.
    destruct (io_read _ c) as [[i|e] c1] eqn:Hio; [|done].
    apply io_read_spec in Hio as (x & j & _ & [= <-] & Hb & _).
    destruct i as [b| | |again]; try done. destruct (Hb b eq_refl) as [_ Hl].
    destruct (check _ _ c1) as [[[]|e] c2]; [|done]. destruct (on_rx _ c2) as [[[]|e] c3]; [|done].
    apply IH. lia.
Qed.

(** ** Properties *)

(** What the owner of a session can do with it once it is open. *)
Inductive WsOp :=
| OpSend (op : Z) (p : bytes)
| OpFlush (budget : nat)
| OpRead (timeout_ms : Z)
| OpTakePongs
| OpStalled (timeout_ms : Z).

Definition ws_step (op : WsOp) (c : Conn) : Conn :=
  match op with
  | OpSend op p => (queue_frame op p c).2
  | OpFlush n => (websocket_flush n c).2
  | OpRead t => (websocket_read_messages t c).2
  | OpTakePongs => (websocket_take_pongs c).2
  | OpStalled t => (websocket_tx_stalled t c).2
  end.

Definition ws_run (ops : list WsOp) (c : Conn) : Conn := fold_left (λ c op, ws_step op c) ops c.

Lemma ws_run_ok ops c : conn_ok c → conn_ok (ws_run ops c).
Proof.
  revert c. induction ops as [|op ops IH]; intros c Hc; [done|]. apply IH.
  destruct op; simpl; [apply keeps_queue_frame|apply flush_ok|apply read_messages_ok
    |apply take_pongs_ok|apply stalled_ok]; done.
Qed.

(** C10: delivery end to end. Take any calls of [websocket_send_binary] and
    [websocket_flush] on one end after which nothing is left to write, and any
    calls of [websocket_read_messages] on the other, authenticated end. What the
    reads return are the accepted messages, in order, without loss, duplication
    or change, up to what is still on the wire; or a read fails, and then with
    an error of the connection: a framing error is impossible. *)
Theorem ws_messages_end_to_end ops s0 s ms ts r0 r res :
  conn_ok s0 → tx (txs (ws s0)) = [] → outgoing (net s0) = [] →
  send_calls ops [] s0 = (ms, s) → tx (txs (ws s)) = [] →
  conn_ok r0 → quiet (ws r0) → rx (rxs (ws r0)) = [] →
  client (conf (ws r0)) = negb (client (conf (ws s0))) → authenticated (conf (ws r0)) = true →
  incoming (net r0) = outgoing (net s) →
  read_calls ts r0 = (res, r) →
  (∃ out rest, res = Ok out ∧ ms = out ++ rest ∧ (rx (rxs (ws r)) ++ incoming (net r) = [] → rest = []))
  ∨ (∃ e, res = Err e ∧ e ∈ connection_errors).
Proof.
  intros Hs0 Htx0 Hout0 Hsend Htx Hr0 Hq Hrx Hrole Hauth Hwire Hread.
  assert (He0 : emits [] (map (pair 2) []) s0) by (exists []; unfold unsent; rewrite Hout0, Htx0; split; [done|constructor]).
  apply (send_calls_emits _ _ _ _ _ Hs0 He0) in Hsend as [Hcf He].
  assert (Hx : expects [] (map (pair 2) ms) r0).
  { unfold expects, cap_of, emits, unsent in *. rewrite Hrx, Hauth, Hrole, negb_involutive, Hwire, app_nil_r.
    destruct He as (s' & He & Hf). rewrite Htx, app_nil_r in He. rewrite Hcf in Hf. simpl in He. by subst. }
  assert (Hc : calm r0) by (split; [done|apply Hq]).
  assert (Hd : Forall (λ f : frame, f.1 = 2) (map (pair 2) ms)) by by apply Forall_map, Forall_true.
  destruct (read_calls_framed _ _ _ _ _ Hc Hq Hd Hx Hread) as [(fs1 & fs2 & -> & Hms & Hrest)|Herr]; [|by right].
  left. exists (data_of fs1), (data_of fs2). split; [done|]. split.
  - by rewrite <- data_of_app, <- Hms, data_of_messages.
  - intros Hnil. unfold expects in Hrest. rewrite app_nil_r, Hnil in Hrest. by inversion Hrest.
Qed.

(** C11: the bounds of a session. Whatever is sent, flushed and received, on
    whatever connection: the byte counter of the transmit queue is exact and
    within [kMaxWsTxBytes], stalls are timed exactly while something waits, the
    receive buffer, a fragmented message and the remembered pongs stay within
    their limits. *)
Theorem ws_session_within_bounds ops is_client n g :
  let w := ws (ws_run ops (mkConn (new_session is_client) n g)) in
  tx_queued_bytes (txs w) = zlen (unsent (txs w)) ∧ zlen (unsent (txs w)) <= kMaxWsTxBytes
  ∧ (tx_last_progress_ms (txs w) = 0 ↔ tx (txs w) = [])
  ∧ zlen (rx (rxs w)) <= kMaxWsRxBufferedBytes ∧ zlen (fragment_payload (rxs w)) <= kMaxWsMessageBytes
  ∧ zlen (pong_payloads (rxs w)) <= kMaxRememberedPongs.
Proof.
  destruct (ws_run_ok ops (mkConn (new_session is_client) n g) (new_session_ok is_client))
    as [[H1 H2 H3 H4] [H5 H6 H7 H8 H9]]. cbv zeta. rewrite H2 in H3. done.
Qed.

(** A flush writes from the front of what waits: the peer gets a prefix of
    it, within the budget, the rest still waits, and the count is returned. *)
Theorem ws_flush_writes_front budget c r c' :
  conn_ok c → websocket_flush budget c = (r, c') →
  ∃ k, (k <= budget)%nat ∧ outgoing (net c') = outgoing (net c) ++ take k (unsent (txs (ws c)))
       ∧ unsent (txs (ws c')) = drop k (unsent (txs (ws c))) ∧ (∀ n, r = Ok n → n = k).
Proof.
  intros Hc H. unfold websocket_flush in H. destruct (Nat.eqb_spec budget 0) as [->|].
  - injection H as <- <-. exists 0%nat. rewrite take_0, app_nil_r. repeat split; [lia|]. by intros n [= <-].
  - unfold mbind, M_bind, session, gets in H. cbn beta iota in H.
    apply flush_loop_spec in H as (_ & _ & _ & k & Hu & _ & Hk & Hr & Ho & _); [|done|lia].
    by exists k.
Qed.

(** C12: the loops of the session end: the fuel they get is enough, more of it
    changes nothing. *)
Theorem ws_loops_terminate c k :
  conn_ok c →
  (∀ budget, flush_loop (flush_fuel (tx (txs (ws c))) + k) budget 0 c
             = flush_loop (flush_fuel (tx (txs (ws c)))) budget 0 c)
  ∧ read_loop (Z.to_nat kReadBudget + k) 0 c = read_loop (Z.to_nat kReadBudget) 0 c
  ∧ read_frames (length (rx (rxs (ws c))) + k) 0 [] c = read_frames (length (rx (rxs (ws c)))) 0 [] c.
Proof.
  intros Hc. split; [|split].
  - intros budget. by apply flush_loop_fuel.
  - apply read_loop_fuel. rewrite Z2Nat.id; [lia|]. unfold kReadBudget. lia.
  - apply read_frames_fuel; [done|lia..].
Qed.

(** C13: frames are accepted only as RFC 6455 and the session demand: from a
    client only masked ones and from a server only unmasked ones, control frames
    unfragmented and of at most 125 bytes, and before authentication none of
    more than 1024 bytes. *)
Theorem ws_accepted_frames_conform c off fin op p size :
  conn_ok c →
  parse_frame (client (conf (ws c))) (authenticated (conf (ws c))) (Z.of_nat off) (drop off (rx (rxs (ws c))))
    = Frame fin op p size →
  negb (Z.land (at_ (drop off (rx (rxs (ws c)))) 1) 0x80 =? 0) = negb (client (conf (ws c)))
  ∧ (is_control op = true → fin = true ∧ zlen p <= 125)
  ∧ zlen p <= (if authenticated (conf (ws c)) then 16 * 1024 * 1024 else 1024)
  ∧ (2 <= size <= length (drop off (rx (rxs (ws c)))))%nat.
Proof.
  intros Hc H. apply parse_frame_inv in H as (H1 & H2 & _ & H3 & H4); [done|].
  apply Forall_drop, (rx_bytes _ (proj2 Hc)).
Qed.

(** A ping is answered by a pong with the same payload at the end of the
    transmit queue, unless the queue is full or the random generator fails; no
    message is delivered for it. *)
Theorem ws_ping_answered c pay out r c' :
  conn_ok c → handle_frame true 9 pay out c = (Ok r, c') →
  r = (out, false) ∧
  ∃ mk, length mk = 4%nat
    ∧ tx (txs (ws c')) = tx (txs (ws c))
        ++ [mkTxFrame (frame_bytes (client (conf (ws c))) 10 pay mk) 0 (zlen pay) 10]
    ∧ rx_ping_frames (stats (ws c')) = u64 (rx_ping_frames (stats (ws c)) + 1).
Proof.
  intros Hc H. unfold handle_frame, websocket_send_pong, mbind, M_bind, session, gets, on_stats, on_ws, modify in H.
  cbn [Z.eqb Pos.eqb] in H. cbv beta iota in H.
  set (c1 := mkConn _ (net c) (entropy c)) in H.
  destruct (queue_frame 10 pay c1) as [[u|e] c2] eqn:Hq; [|done]. injection H as <- <-.
  apply queue_frame_spec in Hq as (_ & _ & d & mk & t & Hmk & -> & _ & _ & Hw & Ht & _); [|exact Hc].
  split; [done|]. exists mk. rewrite Hw. simpl. rewrite Ht. split; [done|]. split; [done|].
  by destruct (stats (ws c)).
Qed.
End Receive.

(** ** Witnesses *)

Module WsDemo.
Import Toy Loop.

(** A client on an empty connection. *)
Definition client0 : Conn (C := crypto) (T := transport) :=
  mkConn (C := crypto) (T := transport) (new_session true) (mkNet [] [] 0) 5.

(** Two messages, written three bytes at a time. *)
Definition sending : list SendOp := [SendBinary [1; 2; 3]; SendBinary (repeat 7 200); Flush 1000].
Definition messages : list bytes := [[1; 2; 3]; repeat 7 200].
Definition client1 := (send_calls sending [] client0).2.

(** The server reads what the client wrote in two pieces. *)
Definition server0 : Conn (C := crypto) (T := transport) :=
  mkConn (C := crypto) (T := transport)
    (set_conf (mkConf false true false 30000 true true) (new_session false))
    (mkNet [] [take 12 (sent (net client1)); drop 12 (sent (net client1))] 0) 0.
Definition server1 := (read_calls [0; 0] server0).2.

Lemma client0_ok : conn_ok client0.
Proof. apply new_session_ok. Qed.
Lemma server0_ok : conn_ok server0.
Proof. exact (new_session_ok false). Qed.

(** A client with a queued message. *)
Definition waiting := (websocket_send_binary [1; 2; 3] client0).2.
Lemma waiting_ok : conn_ok waiting.
Proof. apply (keeps_queue_frame 2 [1; 2; 3] client0 client0_ok). Qed.

(** A server that has received a frame. *)
Definition filled := (on_rx (set_rx (sent (net client1))) server0).2.
Lemma filled_ok : conn_ok filled.
Proof.
  apply (keeps_rx (set_rx (sent (net client1)))); [|apply server0_ok].
  intros rr [_ _ H3 H4 H5]. split; [| |exact H3|exact H4|exact H5].
  - apply bytes_ok_check. vm_compute. reflexivity.
  - vm_compute. discriminate.
Qed.
End WsDemo.

Import Toy Loop.

Lemma ws_messages_end_to_end_witness :
  (read_calls [0; 0] WsDemo.server0).1 = Ok WsDemo.messages
  ∧ ((∃ out rest, (read_calls [0; 0] WsDemo.server0).1 = Ok out ∧ WsDemo.messages = out ++ rest
        ∧ (rx (rxs (ws WsDemo.server1)) ++ incoming (net WsDemo.server1) = [] → rest = []))
     ∨ (∃ e, (read_calls [0; 0] WsDemo.server0).1 = Err e ∧ e ∈ connection_errors)).
Proof.
  split; [vm_compute; reflexivity|].
  assert (Hsent : (send_calls WsDemo.sending [] WsDemo.client0).1 = WsDemo.messages) by (vm_compute; reflexivity).
  assert (Hsend : send_calls WsDemo.sending [] WsDemo.client0 = (WsDemo.messages, WsDemo.client1))
    by (rewrite <- Hsent; apply surjective_pairing).
  assert (Hdone : tx (txs (ws WsDemo.client1)) = []) by (vm_compute; reflexivity).
  assert (Hwire : incoming (net WsDemo.server0) = outgoing (net WsDemo.client1)) by (vm_compute; reflexivity).
  exact (ws_messages_end_to_end WsDemo.sending WsDemo.client0 WsDemo.client1 WsDemo.messages [0; 0]
           WsDemo.server0 WsDemo.server1 _ WsDemo.client0_ok eq_refl eq_refl Hsend Hdone WsDemo.server0_ok
           (conj eq_refl (conj eq_refl eq_refl)) eq_refl eq_refl eq_refl Hwire (surjective_pairing _)).
Defined.

Lemma ws_session_within_bounds_witness :
  let w := ws (ws_run [OpSend 2 [1; 2; 3]; OpRead 0; OpFlush 4] WsDemo.client0) in
  tx_queued_bytes (txs w) = zlen (unsent (txs w)) ∧ zlen (rx (rxs w)) <= kMaxWsRxBufferedBytes.
Proof.
  destruct (ws_session_within_bounds [OpSend 2 [1; 2; 3]; OpRead 0; OpFlush 4] true
              (mkNet [] [] 0 : world (Transport:=transport)) (5 : rng (Crypto:=crypto))) as (H1 & _ & _ & H4 & _).
  split; [exact H1|exact H4].
Defined.

Lemma ws_flush_writes_front_witness :
  ∃ k, (k <= 4)%nat
    ∧ outgoing (net (websocket_flush 4 WsDemo.waiting).2)
      = outgoing (net WsDemo.waiting) ++ take k (unsent (txs (ws WsDemo.waiting)))
    ∧ unsent (txs (ws (websocket_flush 4 WsDemo.waiting).2)) = drop k (unsent (txs (ws WsDemo.waiting)))
    ∧ ∀ n, Ok 4%nat = Ok n → n = k.
Proof.
  assert (Hr : (websocket_flush 4 WsDemo.waiting).1 = Ok 4%nat) by (vm_compute; reflexivity).
  apply (ws_flush_writes_front 4 WsDemo.waiting (Ok 4%nat) (websocket_flush 4 WsDemo.waiting).2 WsDemo.waiting_ok).
  rewrite <- Hr. apply surjective_pairing.
Defined.

Lemma ws_loops_terminate_witness :
  read_loop (Z.to_nat kReadBudget + 3) 0 WsDemo.waiting = read_loop (Z.to_nat kReadBudget) 0 WsDemo.waiting.
Proof. apply (ws_loops_terminate WsDemo.waiting 3 WsDemo.waiting_ok). Defined.

Lemma ws_accepted_frames_conform_witness :
  zlen [1; 2; 3] <= 16 * 1024 * 1024 ∧ (2 <= 9 <= 217)%nat.
Proof.
  destruct (ws_accepted_frames_conform WsDemo.filled 0 true 2 [1; 2; 3] 9 WsDemo.filled_ok
              ltac:(vm_compute; reflexivity)) as (_ & _ & H & Hs).
  split; [exact H|]. vm_compute in Hs. exact Hs.
Defined.

Lemma ws_ping_answered_witness :
  length (tx (txs (ws (handle_frame true 9 [1; 2] [] WsDemo.waiting).2))) = 2%nat
  ∧ ([] : list bytes, false) = ([], false).
Proof.
  assert (Hr : (handle_frame true 9 [1; 2] [] WsDemo.waiting).1 = Ok ([], false)) by (vm_compute; reflexivity).
  split; [vm_compute; reflexivity|].
  apply (ws_ping_answered WsDemo.waiting [1; 2] [] ([], false) (handle_frame true 9 [1; 2] [] WsDemo.waiting).2
           WsDemo.waiting_ok).
  rewrite <- Hr. apply surjective_pairing.
Defined.
