(* ===== verification/WsCloseProps.v ===== *)
(** * A close frame from the peer (cdn/src/websocket.cpp)

    What [websocket_read_messages] of WebSocket.v makes of a close frame: the
    status it notes, the close it sends back, the messages that came before it,
    and what later reads do. *)

From S2P Require Import Prelude.
From S2P Require Import Text Crypto Transport WsFrame WebSocket WsReceive.

Section CloseHandling.
Context {C : Crypto} {T : Transport} {CL : CryptoLaws C} {TL : TransportLaws T} {WR : Wire T}.
Abbreviation W := (M Conn).

(** ** What a close means *)

Definition status_of (pay : bytes) : Z := u16 (Z.lor (Z.shiftl (at_ pay 0) 8) (at_ pay 1)).

(** The error that a close with payload [pay] is, if any (RFC 6455, 5.5.1 and 7.4). *)
Definition close_error (pay : bytes) : option bytes :=
  if zlen pay =? 1 then Some (str "invalid WebSocket close payload")
  else if (2 <=? zlen pay) && negb (valid_close_status (status_of pay)) then Some (str "invalid WebSocket close status")
  else None.

(** What is known of the close afterwards. *)
Definition close_noted (pay : bytes) (cl : WsClose) : WsClose :=
  if 2 <=? zlen pay then mkClose true true (status_of pay) (zlen pay - 2)
  else mkClose true (close_has_code cl) (close_code cl) (close_reason_bytes cl).

(** The close goes back with the same payload, behind what waits already, if it
    can be queued; otherwise the queue stays. *)
Definition close_echoed (pay : bytes) (c c' : Conn) : Prop :=
  txs (ws c') = txs (ws (queue_frame 8 pay c).2)
  ∧ match (queue_frame 8 pay c).1 with
    | Ok _ => ∃ mk, length mk = 4%nat ∧ tx (txs (ws c')) = tx (txs (ws c))
                ++ [mkTxFrame (frame_bytes (client (conf (ws c))) 8 pay mk) 0 (zlen pay) 8]
    | Err _ => txs (ws c') = txs (ws c)
    end.

(** ** One frame *)

(** What is queued depends on the configuration and on the queue. *)
Lemma queue_frame_blind op p cf s cl t rr s' cl' rr' n g :
  let q := queue_frame op p (mkConn (mkSession cf s cl t rr) n g) in
  let q' := queue_frame op p (mkConn (mkSession cf s' cl' t rr') n g) in
  q'.1 = q.1 ∧ txs (ws q'.2) = txs (ws q.2).
Proof using Type.
  unfold queue_frame, make_frame, random, mono_ms, os, on_tx, on_ws, modify, check, session, gets, mbind, M_bind, mret, M_ret, throw.
  cbn. repeat (case_match; simplify_eq; cbn in *; try done).
Qed.

Lemma close_echoed_blind pay cf s cl t rr s' cl' rr' n g c' :
  close_echoed pay (mkConn (mkSession cf s cl t rr) n g) c' →
  close_echoed pay (mkConn (mkSession cf s' cl' t rr') n g) c'.
Proof using Type.
  unfold close_echoed. destruct (queue_frame_blind 8 pay cf s cl t rr s' cl' rr' n g) as [-> ->]. by destruct (_ : res unit * Conn).1.
Qed.

(** The echo, whether it is queued or not. *)
Lemma echo_spec pay c :
  conn_ok c → ∃ c', attempt (queue_frame 8 pay) c = (Ok tt, c') ∧ close_echoed pay c c'
    ∧ closing (ws c') = closing (ws c) ∧ conf (ws c') = conf (ws c) ∧ stats (ws c') = stats (ws c) ∧ rxs (ws c') = rxs (ws c).
Proof using CL TL WR.
  intros Hc. unfold attempt, close_echoed. eexists. split; [reflexivity|].
  destruct (queue_frame 8 pay c) as [q c2] eqn:Hq. apply queue_frame_spec in Hq as (_ & _ & Hq); [|done]. cbn [fst snd].
  destruct q as [u|e]; [|by rewrite Hq].
  destruct Hq as (d & mk & t & Hmk & -> & _ & _ & -> & Ht & _). cbn. split; [|done]. split; [done|]. by exists mk.
Qed.

(** [handle_close] as a function of the payload. *)
Lemma handle_close_spec pay out c r c' :
  conn_ok c → handle_close pay out c = (r, c') →
  conf (ws c') = conf (ws c) ∧ stats (ws c') = stats (ws c) ∧ rxs (ws c') = rxs (ws c)
  ∧ match close_error pay with
    | Some e => r = Err e ∧ c' = c
    | None => closing (ws c') = close_noted pay (closing (ws c)) ∧ close_echoed pay c c'
        ∧ r = if (length out =? 0)%nat then Err (websocket_close_summary (ws c')) else Ok (out, true)
    end.
Proof using CL TL WR.
  intros Hc H. unfold handle_close, mbind, M_bind, check, throw, mret, M_ret in H. unfold close_error, close_noted.
  destruct (zlen pay =? 1); [by injection H as <- <-|].
  assert (Hend : ∀ cl, conn_ok (mkConn (set_closing cl (ws c)) (net c) (entropy c)) → ∀ c1,
    attempt (queue_frame 8 pay) (mkConn (set_closing cl (ws c)) (net c) (entropy c)) = (Ok tt, c1) →
    (if (length out =? 0)%nat
     then (Err (websocket_close_summary (set_closing (mkClose true (close_has_code cl) (close_code cl) (close_reason_bytes cl)) (ws c1))) : res (list bytes * bool),
           mkConn (set_closing (mkClose true (close_has_code cl) (close_code cl) (close_reason_bytes cl)) (ws c1)) (net c1) (entropy c1))
     else (Ok (out, true), mkConn (set_closing (mkClose true (close_has_code cl) (close_code cl) (close_reason_bytes cl)) (ws c1)) (net c1) (entropy c1)))
    = (r, c') →
    conf (ws c') = conf (ws c) ∧ stats (ws c') = stats (ws c) ∧ rxs (ws c') = rxs (ws c)
    ∧ closing (ws c') = mkClose true (close_has_code cl) (close_code cl) (close_reason_bytes cl) ∧ close_echoed pay c c'
    ∧ r = if (length out =? 0)%nat then Err (websocket_close_summary (ws c')) else Ok (out, true)).
  { intros cl Hc1 c1 Hat Hr. destruct (echo_spec pay _ Hc1) as (c2 & Hat' & Hecho & _ & Hcf & Hst & Hrx).
    rewrite Hat in Hat'. injection Hat' as <-.
    assert (He : close_echoed pay c c1).
    { destruct c as [[cf s cl0 t rr] n g]. by apply (close_echoed_blind pay cf s cl t rr). }
    by destruct (length out =? 0)%nat; injection Hr as <- <-; cbn. }
  destruct (2 <=? zlen pay); cbn [andb].
  - fold (status_of pay) in H. destruct (negb (valid_close_status (status_of pay))); [by injection H as <- <-|].
    unfold on_ws, modify, session, gets in H. cbv beta iota in H.
    set (cl := mkClose _ true (status_of pay) (zlen pay - 2)) in H.
    destruct (echo_spec pay (mkConn (set_closing cl (ws c)) (net c) (entropy c)) Hc) as (c2 & Hat & _ & Hcl & _).
    rewrite Hat in H. cbn [ws net entropy] in H. rewrite Hcl in H. cbn [closing set_closing ws] in H.
    apply (Hend cl Hc c2 Hat). by destruct (length out =? 0)%nat.
  - unfold on_ws, modify, session, gets in H. cbv beta iota in H.
    assert (Hid : mkConn (set_closing (closing (ws c)) (ws c)) (net c) (entropy c) = c) by by destruct c as [[] ? ?].
    destruct (echo_spec pay c Hc) as (c2 & Hat & _ & Hcl & _).
    rewrite Hat in H. cbn [ws net entropy] in H. rewrite Hcl in H.
    apply (Hend (closing (ws c)) Hc c2); [by rewrite Hid|]. by destruct (length out =? 0)%nat.
Qed.

(** ** One call *)

(** A binary message is taken and changes nothing but the statistics. *)
Lemma message_taken m out c :
  fragment_opcode (rxs (ws c)) = 0 →
  ∃ s, (on_stats count_frame ;; handle_frame true 2 m out) c
       = (Ok (out ++ [m], false), mkConn (set_stats s (ws c)) (net c) (entropy c)).
Proof using Type.
  intros Hf. unfold handle_frame, on_stats, on_ws, modify, session, gets, check, mbind, M_bind, mret, M_ret. cbn.
  rewrite Hf. cbn. by eexists.
Qed.

(** The loop takes the messages, then the close. *)
Lemma read_frames_close pay ms : ∀ fuel off out c front rest,
  conn_ok c → fragment_opcode (rxs (ws c)) = 0 →
  (off <= length (rx (rxs (ws c))))%nat → drop off (rx (rxs (ws c))) = front ++ rest →
  framed (negb (client (conf (ws c)))) (cap_of (ws c)) front (map (pair 2) ms ++ [(8, pay)]) →
  (length front <= fuel)%nat →
  ∃ s, read_frames fuel off out c
       = match handle_close pay (out ++ ms) (mkConn (set_stats s (ws c)) (net c) (entropy c)) with
         | (Ok (o, _), c2) => (Ok ((off + length front)%nat, o), c2)
         | (Err e, c2) => (Err e, c2)
         end.
Proof using CL TL WR.
  assert (Hparse : ∀ c off op m mk s rest, conn_ok c → (off <= length (rx (rxs (ws c))))%nat → op ∈ [2; 8; 9; 10] →
    drop off (rx (rxs (ws c))) = (frame_bytes (negb (client (conf (ws c)))) op m mk ++ s) ++ rest →
    length mk = 4%nat → zlen m <= cap_of (ws c) → (is_control op = true → zlen m <= 125) →
    parse_frame (client (conf (ws c))) (authenticated (conf (ws c))) (Z.of_nat off) (drop off (rx (rxs (ws c))))
    = Frame true op m (length (frame_bytes (negb (client (conf (ws c)))) op m mk))).
  { intros c off op m mk s rest [_ Hrx] Hoff Hop -> Hmk Hcap Hctl. rewrite <- app_assoc.
    pose proof (rx_limit _ Hrx). unfold zlen in *. apply parse_frame_encoded; try done; [set_unfold in Hop; lia|lia]. }
  induction ms as [|m ms IH]; intros fuel off out c front rest Hc Hf Hoff Hb Hs Hfuel; cbn [map app] in Hs;
    inversion Hs as [|? ? mk s ? Hop Hmk Hcap Hctl Hs']; subst; rewrite length_app in Hfuel;
    match type of Hfuel with (length ?f + _ <= _)%nat => set (n := length f) in *; assert (0 < n)%nat by apply frame_nonempty end;
    (destruct fuel as [|fuel]; [lia|]); cbn [read_frames]; unfold mbind at 1, M_bind at 1, session, gets.
  - inversion Hs'; subst. rewrite (Hparse c off 8 pay mk [] rest) by done. fold n. rewrite !app_nil_r.
    exists (count_frame (stats (ws c))). set (c1 := mkConn _ _ _). unfold mbind, M_bind.
    change (on_stats count_frame c) with (Ok tt, c1) at 1. cbv beta iota.
    change (handle_frame true 8 pay out c1) with (handle_close pay out c1).
    destruct (handle_close pay out c1) as [q c2] eqn:Hh. apply handle_close_spec in Hh as (_ & _ & _ & Hh); [|done].
    destruct (close_error pay); [by destruct Hh as [-> ->]|]. destruct Hh as (_ & _ & ->). by destruct (length out =? 0)%nat.
  - rewrite (Hparse c off 2 m mk s rest) by done. fold n. destruct (message_taken m out c Hf) as (st & Hst).
    destruct (IH fuel (off + n)%nat (out ++ [m]) (mkConn (set_stats st (ws c)) (net c) (entropy c)) s rest) as (st' & IH'); try done.
    + cbn [ws set_stats rxs]. apply (f_equal length) in Hb. rewrite length_drop, !length_app in Hb. fold n in Hb. lia.
    + cbn [ws set_stats rxs]. rewrite <- drop_drop, Hb, <- app_assoc. unfold n. by rewrite drop_app_length.
    + lia.
    + exists st'. rewrite <- app_assoc in IH'. cbn [app] in IH'. rewrite length_app, Nat.add_assoc. fold n.
      cbn [ws net entropy set_stats conf closing txs rxs] in IH'. unfold mbind, M_bind in Hst |- *.
      destruct (on_stats count_frame c) as [[[]|] c0]; [|done]. rewrite Hst. exact IH'.
Qed.

(** What is left of the stream once the close is parsed. *)
Lemma take_messages_close pay ms c front rest r c' :
  conn_ok c → fragment_opcode (rxs (ws c)) = 0 → rx (rxs (ws c)) = front ++ rest →
  framed (negb (client (conf (ws c)))) (cap_of (ws c)) front (map (pair 2) ms ++ [(8, pay)]) →
  take_messages c = (r, c') →
  prefetched_messages (rxs (ws c')) = prefetched_messages (rxs (ws c))
  ∧ match close_error pay with
  | Some e => r = Err e ∧ closing (ws c') = closing (ws c) ∧ txs (ws c') = txs (ws c)
  | None => closing (ws c') = close_noted pay (closing (ws c)) ∧ close_echoed pay c c'
      ∧ if (length ms =? 0)%nat then r = Err (websocket_close_summary (ws c'))
        else rx (rxs (ws c')) = rest
             ∧ r = if peer_eof (rxs (ws c)) && negb (length rest =? 0)%nat
                   then Err (str "truncated WebSocket frame at EOF") else Ok ms
  end.
Proof using CL TL WR.
  intros Hc Hf Hb Hs H. unfold take_messages, mbind, M_bind, session, gets in H.
  destruct (read_frames_close pay ms (length (rx (rxs (ws c)))) 0 [] c front rest) as (st & Hr); try done; [lia|rewrite Hb, length_app; lia|].
  rewrite Hr in H. clear Hr. cbn [app] in H. set (c1 := mkConn _ _ _) in H.
  destruct (handle_close pay ms c1) as [q c2] eqn:Hh. apply handle_close_spec in Hh as (Hcf & _ & Hrx & Hh); [|done].
  subst c1. cbn [ws closing set_stats rxs] in Hrx, Hh.
  destruct (close_error pay); [destruct Hh as [-> ->]; by injection H as <- <-|].
  destruct Hh as (Hcl & He & ->).
  assert (Hecho : ∀ c3, txs (ws c3) = txs (ws c2) → close_echoed pay c c3).
  { destruct c as [[cf s cl t rr] n g]. apply (close_echoed_blind pay cf _ _ t _ s cl rr) in He.
    intros c3 H3. unfold close_echoed in *. by rewrite H3. }
  destruct (length ms =? 0)%nat eqn:Hms; [injection H as <- <-; rewrite Hrx; split; [done|]; split; [done|]; split; [by apply Hecho|done]|].
  assert (Hnz : (0 + length front =? 0)%nat = false).
  { apply Nat.eqb_neq. inversion Hs; subst; [by destruct ms|]. rewrite length_app.
    match goal with |- context [frame_bytes ?k ?o ?m ?mk] => pose proof (frame_nonempty k o m mk) end. lia. }
  rewrite Hnz in H. unfold on_rx, on_ws, modify in H. cbv beta iota in H. rewrite Hrx, Hb in H.
  assert (Hrest : (if (0 + length front =? length (front ++ rest))%nat then [] else drop (0 + length front) (front ++ rest)) = rest).
  { rewrite length_app. destruct (Nat.eqb_spec (0 + length front) (length front + length rest)) as [E|E];
      [by assert (rest = []) as -> by (apply nil_length_inv; lia)|apply drop_app_length]. }
  rewrite Hrest in H. unfold check, throw, mret, M_ret in H. cbn [ws rxs set_rxs set_rx rx fragment_opcode peer_eof] in H.
  rewrite Hf, Hms, andb_false_r in H. change (negb (0 =? 0)) with false in H. rewrite andb_false_r in H.
  destruct (peer_eof (rxs (ws c)) && negb (length rest =? 0)%nat); injection H as <- <-;
    cbn [ws closing set_rxs rxs set_rx prefetched_messages rx]; (split; [done|]); (split; [done|]); (split; [by apply Hecho|done]).
Qed.

(** With bytes in hand a call reads what there is, then parses. *)
Lemma read_messages_in_hand t c :
  prefetched_messages (rxs (ws c)) = [] → close_received (closing (ws c)) = false → rx (rxs (ws c)) ≠ [] →
  websocket_read_messages t c
  = match read_loop (Z.to_nat kReadBudget) 0 c with
    | (Ok _, c1) => take_messages c1
    | (Err e, c1) => (Err e, c1)
    end.
Proof using Type.
  unfold websocket_read_messages. generalize (Z.to_nat kReadBudget). intros fuel Hpre Hcl Hrx.
  unfold input_ready, mbind, M_bind, session, gets, check, mret, M_ret, throw. rewrite Hpre, Hcl.
  destruct (rx (rxs (ws c))); [done|]. cbn [length Nat.eqb negb]. rewrite !andb_false_r.
  cbn [negb]. by destruct (read_loop fuel 0 c) as [[[]|e] c1].
Qed.

(** C14: a close frame. A one-byte payload or a status that RFC 6455 does not
    allow is an error and changes nothing. Otherwise the close is noted, with its
    status and the size of its reason if the payload has them, and a close frame
    with the same payload goes to the end of the transmit queue if [queue_frame]
    takes it. On a session that has binary messages and then a close frame in its
    buffer, a call of [websocket_read_messages] that can read from the connection
    returns just these messages, or, if there are none, throws the summary of the
    close; what follows the close stays in the buffer, which is an error if the
    connection has ended there. Every later call throws the summary. *)
Theorem ws_close_handled c pay :
  conn_ok c →
  (∀ out r c', handle_close pay out c = (r, c') →
     conf (ws c') = conf (ws c) ∧ stats (ws c') = stats (ws c) ∧ rxs (ws c') = rxs (ws c)
     ∧ match close_error pay with
       | Some e => r = Err e ∧ c' = c
       | None => closing (ws c') = close_noted pay (closing (ws c)) ∧ close_echoed pay c c'
           ∧ r = if (length out =? 0)%nat then Err (websocket_close_summary (ws c')) else Ok (out, true)
       end)
  ∧ ∀ ms front rest t r c',
      quiet (ws c) → rx (rxs (ws c)) = front ++ rest →
      framed (negb (client (conf (ws c)))) (cap_of (ws c)) front (map (pair 2) ms ++ [(8, pay)]) →
      websocket_read_messages t c = (r, c') →
      match read_loop (Z.to_nat kReadBudget) 0 c with
      | (Err e, _) => r = Err e
      | (Ok _, c1) =>
          match close_error pay with
          | Some e => r = Err e ∧ closing (ws c') = closing (ws c) ∧ txs (ws c') = txs (ws c)
          | None =>
              closing (ws c') = close_noted pay (closing (ws c))
              ∧ txs (ws c1) = txs (ws c) ∧ close_echoed pay c1 c'
              ∧ (if (length ms =? 0)%nat then r = Err (websocket_close_summary (ws c'))
                 else ∃ more, rx (rxs (ws c1)) = rx (rxs (ws c)) ++ more ∧ rx (rxs (ws c')) = rest ++ more
                      ∧ r = if peer_eof (rxs (ws c1)) && negb (length (rest ++ more) =? 0)%nat
                            then Err (str "truncated WebSocket frame at EOF") else Ok ms)
              ∧ ∀ t', websocket_read_messages t' c' = (Err (websocket_close_summary (ws c')), c')
          end
      end.
Proof using CL TL WR.
  intros Hc. split; [intros out r c'; by apply handle_close_spec|].
  intros ms front rest t r c' (Hf & Hpre & Hcl) Hb Hs H. rewrite read_messages_in_hand in H; [|done..|].
  2:{ rewrite Hb. inversion Hs; subst; [by destruct ms|]. intros E.
      match goal with _ : context [frame_bytes ?k ?o ?m ?mk] |- _ => pose proof (frame_nonempty k o m mk) end.
      apply (f_equal length) in E. rewrite !length_app in E. cbn in E. lia. }
  destruct (read_loop _ 0 c) as [[u|e] c1] eqn:Hl; [|by injection H as <- <-].
  apply read_loop_spec in Hl as ((E1 & E2 & E3 & E4) & Hok & _ & (more & (F1 & F2 & F3 & F4 & F5) & _) & _); [|apply Hc].
  apply (take_messages_close pay ms c1 front (rest ++ more)) in H as [Hp H].
  2:{ split; [rewrite E4; apply Hc|done]. }
  2:{ by rewrite F3. }
  2:{ by rewrite F1, Hb, app_assoc. }
  2:{ unfold cap_of in *. by rewrite E1. }
  destruct (close_error pay); [by rewrite E3, E4 in H|]. destruct H as (Hnote & Hecho & Hres). rewrite E3 in Hnote.
  split; [done|]. split; [done|]. split; [done|]. split.
  - destruct (length ms =? 0)%nat; [done|]. exists more. by destruct Hres.
  - intros t'. unfold websocket_read_messages, mbind, M_bind, session, gets, check, throw, mret, M_ret.
    rewrite Hp, F2, Hpre, Hnote. unfold close_noted. by destruct (2 <=? zlen pay).
Qed.
End CloseHandling.

(** ** Witness *)

Module CloseDemo.
Import Toy Loop.

(** A server that has a message and a close with status 1000 in its buffer. *)
Definition front : bytes := frame_bytes true 2 [7; 8] [1; 2; 3; 4] ++ frame_bytes true 8 [3; 232] [9; 9; 9; 9] ++ [].
Definition server : Conn (C := crypto) (T := transport) := (on_rx (set_rx (front ++ [])) WsDemo.server0).2.
Definition after := (websocket_read_messages 0 server).2.

Lemma server_ok : conn_ok server.
Proof.
  apply (keeps_rx (set_rx (front ++ []))); [|apply WsDemo.server0_ok].
  intros rr [_ _ H3 H4 H5]. split; [| |exact H3|exact H4|exact H5].
  - apply bytes_ok_check. vm_compute. reflexivity.
  - vm_compute. discriminate.
Qed.

Lemma front_framed : framed true kMaxWsMessageBytes front (map (pair 2) [[7; 8]] ++ [(8, [3; 232])]).
Proof. repeat constructor; vm_compute; congruence. Qed.
End CloseDemo.

Import Toy Loop.

Lemma ws_close_handled_witness :
  (websocket_read_messages 0 CloseDemo.server).1 = Ok [[7; 8]]
  ∧ map data (tx (txs (ws CloseDemo.after))) = [[136; 2; 3; 232]]
  ∧ closing (ws CloseDemo.after) = close_noted [3; 232] (closing (ws CloseDemo.server))
  ∧ websocket_read_messages 5 CloseDemo.after = (Err (websocket_close_summary (ws CloseDemo.after)), CloseDemo.after).
Proof.
  split; [vm_compute; reflexivity|]. split; [vm_compute; reflexivity|].
  destruct (ws_close_handled CloseDemo.server [3; 232] CloseDemo.server_ok) as [_ Hsession].
  assert (Hread : websocket_read_messages 0 CloseDemo.server = ((websocket_read_messages 0 CloseDemo.server).1, CloseDemo.after))
    by apply surjective_pairing.
  assert (Hquiet : quiet (ws CloseDemo.server)) by (repeat split; vm_compute; reflexivity).
  assert (Hframed : framed (negb (client (conf (ws CloseDemo.server)))) (cap_of (ws CloseDemo.server)) CloseDemo.front
                      (map (pair 2) [[7; 8]] ++ [(8, [3; 232])])) by exact CloseDemo.front_framed.
  specialize (Hsession _ _ [] 0 _ _ Hquiet eq_refl Hframed Hread).
  destruct (read_loop (Z.to_nat kReadBudget) 0 CloseDemo.server) as [[u|e] c1].
  - destruct Hsession as (Hnote & _ & _ & _ & Hlater). split; [exact Hnote|exact (Hlater 5)].
  - exfalso. revert Hsession. vm_compute. discriminate.
Defined.
