(* ===== verification/Pool.v ===== *)
(** * Lane affinity of a pool (cdn/include/pacetun/pool.hpp)

    [PoolAffinity] keeps the packets of a flow on one lane. The hash map is
    [std::unordered_map]: its contents are a finite map from flow keys (what
    [operator==] compares) to entries; the order in which it iterates is not
    specified and enters as the parameter [order]. *)

From S2P Require Import Prelude FlowScheduler.

(** [PacketFlowHash] src/cdn/include/pacetun/pool.hpp:12-18 *)
Definition PacketFlowHash (key : PacketFlow) : Z :=
  let step h x := u64 (Z.lxor h x * 1099511628211) in
  u64 (Z.lxor (fold_left step (take (pf_length key) (pf_bytes key)) 14695981039346656037)
              (Z.of_nat (pf_length key))).

(** [PoolAffinity::Entry] src/cdn/include/pacetun/pool.hpp:20-20 *)
Record Entry := mkEntry { lane : Z; last_us : Z }.

Abbreviation Key := (nat * bytes)%type.
Abbreviation Affinity := (gmap Key Entry).

(** [PoolAffinity::kCap] src/cdn/include/pacetun/pool.hpp:22-22 *)
Definition kCap : Z := 4096.
(** [PoolAffinity::kIdleUS] src/cdn/include/pacetun/pool.hpp:23-23 *)
Definition kIdleUS : Z := 180000000.

Definition table_size (m : Affinity) : Z := Z.of_nat (size m).

(** The test of [prune].
    [PoolAffinity::prune] src/cdn/include/pacetun/pool.hpp:28-28 *)
Definition stale (now : Z) (e : Entry) : bool := (last_us e <=? now) && (kIdleUS <? now - last_us e).

(** [PoolAffinity::prune] src/cdn/include/pacetun/pool.hpp:26-31 *)
Definition prune (now : Z) (m : Affinity) : Affinity := filter (λ kv, stale now kv.2 = false) m.

(** The order of iteration over a table: some order of its entries. *)
Class IterationOrder := {
  order : Affinity → list (Key * Entry);
  order_entries m : order m ≡ₚ map_to_list m;
}.

(** [std::find(live_ids.begin(), live_ids.end(), id) != live_ids.end()] *)
Definition is_live (live_ids : list Z) (id : Z) : bool := existsb (Z.eqb id) live_ids.

Section Pool.
Context {O : IterationOrder}.

(** The entry [oldest] ends at: the first of those with the least [last_us].
    [PoolAffinity::choose] src/cdn/include/pacetun/pool.hpp:47-48 *)
Definition oldest_entry (l : list (Key * Entry)) : option (Key * Entry) :=
  match l with
  | [] => None
  | x :: l => Some (fold_left (λ oldest e, if last_us e.2 <? last_us oldest.2 then e else oldest) l x)
  end.

(** [PoolAffinity::choose] src/cdn/include/pacetun/pool.hpp:46-50 *)
Definition evict_oldest (m : Affinity) : Affinity :=
  match oldest_entry (order m) with Some (k, _) => delete k m | None => m end.

(** Room for a new entry.
    [PoolAffinity::choose] src/cdn/include/pacetun/pool.hpp:44-51 *)
Definition make_room (now : Z) (m : Affinity) : Affinity :=
  if kCap <=? table_size m then
    let m := prune now m in
    if kCap <=? table_size m then evict_oldest m else m
  else m.

(** The lane of a flow that has no live one yet.
    [PoolAffinity::choose] src/cdn/include/pacetun/pool.hpp:41-42 *)
Definition fresh_lane (key : PacketFlow) (live_ids : list Z) (preferred : Z) : Z :=
  if negb (preferred =? 0) && is_live live_ids preferred then preferred
  else at_ live_ids (Z.to_nat (PacketFlowHash key mod zlen live_ids)).

(** [PoolAffinity::choose] src/cdn/include/pacetun/pool.hpp:32-53 *)
Definition choose (packet : bytes) (live_ids : list Z) (now preferred : Z) (m : Affinity) : Z * Affinity :=
  if (length live_ids =? 0)%nat then (0, m)
  else
    let key := packet_flow packet in
    let k := key_of key in
    match m !! k with
    | Some e =>
        if is_live live_ids (lane e) then (lane e, <[k := mkEntry (lane e) now]> m)
        else let l := fresh_lane key live_ids preferred in (l, <[k := mkEntry l now]> m)
    | None =>
        let l := fresh_lane key live_ids preferred in
        (l, <[k := mkEntry l now]> (make_room now m))
    end.

(** ** Lemmas *)

Lemma is_live_spec l x : is_live l x = true ↔ x ∈ l.
Proof.
  unfold is_live. rewrite existsb_exists, list_elem_of_In. split.
  - intros (y & Hy & ->%Z.eqb_eq). done.
  - intros H. exists x. by rewrite Z.eqb_refl.
Qed.

(** The hash is a function of what [operator==] compares, as the map requires. *)
#[export] Instance hash_proper : Proper ((≡@{PacketFlow}) ==> (=)) PacketFlowHash.
Proof.
  intros f g H. unfold equiv, packet_flow_equiv, key_of in H. injection H as H1 H2.
  unfold PacketFlowHash. rewrite H1 in *. by rewrite H2.
Qed.

Lemma oldest_entry_spec l x : oldest_entry l = Some x → x ∈ l ∧ ∀ y, y ∈ l → last_us x.2 <= last_us y.2.
Proof.
  destruct l as [|z l]; [done|]. intros [= <-].
  assert (H : ∀ a, let r := fold_left (λ oldest e, if last_us e.2 <? last_us oldest.2 then e else oldest) l a in
            r ∈ a :: l ∧ ∀ y, y ∈ a :: l → last_us r.2 <= last_us y.2).
  { induction l as [|w l IH]; intros a; simpl.
    - split; [by left|]. intros y ->%list_elem_of_singleton. lia.
    - destruct (Z.ltb_spec (last_us w.2) (last_us a.2)) as [Hlt|Hge].
      + destruct (IH w) as [H1 H2]. split; [by right|]. intros y [->|Hy]%elem_of_cons; [|by apply H2].
        specialize (H2 w ltac:(by left)). simpl in H2. lia.
      + destruct (IH a) as [H1 H2]. split; [rewrite !elem_of_cons in *; tauto|].
        intros y [->|[->|Hy]%elem_of_cons]%elem_of_cons; [apply H2; by left| |apply H2; by right].
        specialize (H2 a ltac:(by left)). simpl in H2. lia. }
  apply H.
Qed.

Lemma prune_lookup now m k e : prune now m !! k = Some e ↔ m !! k = Some e ∧ stale now e = false.
Proof. unfold prune. by rewrite map_lookup_filter_Some. Qed.

Lemma size_prune now m : (size (prune now m) <= size m)%nat.
Proof. apply map_subseteq_size, map_filter_subseteq. Qed.

Lemma evict_oldest_spec m :
  m ≠ ∅ → ∃ k e, m !! k = Some e ∧ evict_oldest m = delete k m
                 ∧ ∀ k' e', m !! k' = Some e' → last_us e <= last_us e'.
Proof.
  intros Hm. unfold evict_oldest.
  destruct (oldest_entry (order m)) as [[k e]|] eqn:Ho.
  - apply oldest_entry_spec in Ho as [Hin Hmin]. exists k, e.
    rewrite order_entries in Hin. apply elem_of_map_to_list in Hin. split; [done|]. split; [done|].
    intros k' e' Hk'. apply (Hmin (k', e')). rewrite order_entries. by apply elem_of_map_to_list.
  - destruct (order m) eqn:Hl; [|done]. destruct Hm. apply map_to_list_empty_iff.
    apply Permutation_nil. by rewrite <- order_entries, Hl.
Qed.

(** After [make_room] there is room, and what was removed was idle or oldest. *)
Lemma make_room_spec now m :
  table_size m <= kCap →
  table_size (make_room now m) < kCap
  ∧ ∀ k e, m !! k = Some e → make_room now m !! k = Some e
      ∨ make_room now m !! k = None ∧ table_size m = kCap
        ∧ (stale now e = true ∨ ∀ k' e', make_room now m !! k' = Some e' → last_us e <= last_us e').
Proof.
  unfold make_room. intros Hcap.
  destruct (Z.leb_spec kCap (table_size m)) as [Hfull|]; [|by eauto].
  assert (Hpr : ∀ k e, m !! k = Some e → prune now m !! k = Some e ∨ prune now m !! k = None ∧ stale now e = true).
  { intros k e Hk. destruct (stale now e) eqn:Hs; [right|left; by apply prune_lookup].
    split; [|done]. destruct (prune now m !! k) as [e'|] eqn:He; [|done].
    apply prune_lookup in He as [He Hst]. congruence. }
  destruct (Z.leb_spec kCap (table_size (prune now m))) as [Hfull2|Hroom].
  - pose proof (size_prune now m) as Hsz. unfold table_size in *.
    assert (Hne : prune now m ≠ ∅).
    { intros He. rewrite He, map_size_empty in Hfull2. unfold kCap in *. lia. }
    destruct (evict_oldest_spec _ Hne) as (k0 & e0 & Hk0 & -> & Hmin). split.
    + rewrite map_size_delete, Hk0. assert (size (prune now m) ≠ 0%nat) by by apply map_size_non_empty_iff.
      simpl. lia.
    + intros k e Hk. destruct (decide (k = k0)) as [->|Hne0].
      * right. rewrite lookup_delete_eq. split; [done|]. split; [lia|]. right.
        intros k' e' [_ Hk']%lookup_delete_Some. apply prune_lookup in Hk0 as Hk1. destruct Hk1 as [Hk1 _].
        assert (e = e0) as -> by congruence. by eapply Hmin.
      * rewrite lookup_delete_ne by done. destruct (Hpr k e Hk) as [|[? ?]]; [by left|right].
        split; [done|]. split; [lia|by left].
  - split; [done|]. intros k e Hk. destruct (Hpr k e Hk) as [|[? ?]]; [by left|right].
    split; [done|]. split; [unfold table_size in *; lia|by left].
Qed.

Lemma fresh_lane_live key live p : live ≠ [] → fresh_lane key live p ∈ live.
Proof.
  intros Hl. unfold fresh_lane. destruct (negb (p =? 0) && is_live live p) eqn:Hp.
  - apply andb_true_iff in Hp as [_ Hp]. by apply is_live_spec.
  - assert (0 < zlen live) by (destruct live; [done|unfold zlen; simpl; lia]).
    assert (Hr := Z.mod_pos_bound (PacketFlowHash key) (zlen live) ltac:(lia)).
    destruct (lookup_lt_is_Some_2 live (Z.to_nat (PacketFlowHash key mod zlen live))) as [x Hx];
      [unfold zlen in *; lia|].
    unfold at_. rewrite Hx. simpl. by eapply list_elem_of_lookup_2.
Qed.

(** ** Properties *)

Inductive PoolOp := Choose (packet : bytes) (live_ids : list Z) (now preferred : Z) | Prune (now : Z).

Definition pool_step (m : Affinity) (op : PoolOp) : Affinity :=
  match op with
  | Choose p live now pref => (choose p live now pref m).2
  | Prune now => prune now m
  end.

Lemma choose_bounded p live now pref m :
  table_size m <= kCap → table_size (choose p live now pref m).2 <= kCap.
Proof.
  intros Hm. unfold choose. destruct (_ =? _)%nat; [done|].
  destruct (m !! _) as [e|] eqn:He.
  - assert (Hs : ∀ e', table_size (<[key_of (packet_flow p) := e']> m) = table_size m)
      by (intros e'; unfold table_size; by rewrite map_size_insert_Some by eauto).
    destruct (is_live _ _); simpl; by rewrite Hs.
  - simpl. destruct (make_room_spec now m Hm) as [Hroom _]. unfold table_size in *.
    destruct (make_room now m !! key_of (packet_flow p)) eqn:Hk.
    + rewrite map_size_insert_Some by eauto. lia.
    + rewrite map_size_insert_None by done. lia.
Qed.

(** The table of flows never holds more than 4096 entries. *)
Theorem affinity_bounded ops : table_size (fold_left pool_step ops ∅) <= 4096.
Proof.
  assert (H : ∀ m, table_size m <= kCap → table_size (fold_left pool_step ops m) <= kCap).
  { induction ops as [|[p live now pref|now] ops IH]; intros m Hm; simpl; [done|..]; apply IH.
    - by apply choose_bounded.
    - pose proof (size_prune now m). unfold table_size in *. lia. }
  apply H. unfold table_size. rewrite map_size_empty. unfold kCap. lia.
Qed.

(** A flow gets a lane that is live, and keeps it: every later packet of the
    flow goes to the same lane for as long as that lane is live, whatever lane
    is preferred by then. *)
Theorem flow_stays_on_its_lane p q live live' now now' pref pref' m :
  live ≠ [] → packet_flow q ≡ packet_flow p →
  let (l, m') := choose p live now pref m in
  l ∈ live ∧ (l ∈ live' → (choose q live' now' pref' m').1 = l).
Proof.
  intros Hl Hq.
  assert (Hagain : ∀ l m', m' !! key_of (packet_flow p) = Some (mkEntry l now) →
            l ∈ live' → (choose q live' now' pref' m').1 = l).
  { intros l m' Hk Hlive%is_live_spec. unfold choose. destruct live' as [|x live']; [done|]. simpl length. cbn [Nat.eqb].
    rewrite (Hq : key_of (packet_flow q) = _), Hk. simpl lane. by rewrite Hlive. }
  unfold choose at 1. destruct live as [|x live]; [done|]. simpl length. cbn [Nat.eqb].
  destruct (m !! key_of (packet_flow p)) as [e|] eqn:He.
  - destruct (is_live (x :: live) (lane e)) eqn:Hlive.
    + split; [by apply is_live_spec|]. apply Hagain. by rewrite lookup_insert_eq.
    + split; [by apply fresh_lane_live|]. apply Hagain. by rewrite lookup_insert_eq.
  - split; [by apply fresh_lane_live|]. apply Hagain. by rewrite lookup_insert_eq.
Qed.

(** Choosing a lane for one flow disturbs another only when the table is
    full, and then the one forgotten was idle for more than three minutes or
    is least recently used. *)
Theorem choose_disturbs_only_idle_or_oldest p live now pref m k e :
  table_size m <= 4096 → k ≠ key_of (packet_flow p) → m !! k = Some e →
  let m' := (choose p live now pref m).2 in
  m' !! k = Some e
  ∨ (m' !! k = None ∧ table_size m = 4096
     ∧ (180000000 < now - last_us e
        ∨ ∀ k' e', k' ≠ key_of (packet_flow p) → m' !! k' = Some e' → last_us e <= last_us e')).
Proof.
  intros Hm Hk He m'. unfold m', choose. destruct (_ =? _)%nat; [by left|].
  destruct (m !! key_of (packet_flow p)) as [e0|].
  - left. destruct (is_live _ _); simpl; by rewrite lookup_insert_ne.
  - simpl. rewrite lookup_insert_ne by done. destruct (make_room_spec now m Hm) as [_ Hroom].
    destruct (Hroom k e He) as [|(Hn & Hfull & [Hst|Hmin])]; [by left|right..].
    + split; [done|]. split; [done|]. left. unfold stale in Hst. unfold kIdleUS in Hst. lia.
    + split; [done|]. split; [done|]. right. intros k' e' Hk'. rewrite lookup_insert_ne by done. apply Hmin.
Qed.
End Pool.

(** ** Witnesses *)

Module PoolDemo.
#[export] Instance by_key : IterationOrder.
Proof. exists map_to_list. done. Defined.

Definition table : Affinity := (choose (FlowDemo.udp 1 60) [7; 8; 9] 10 0 ∅).2.
End PoolDemo.

Lemma flow_stays_on_its_lane_witness :
  let (l, m') := choose (O := PoolDemo.by_key) (FlowDemo.udp 1 60) [7; 8; 9] 10 8 ∅ in
  l ∈ [7; 8; 9] ∧ (l ∈ [8; 5] → (choose (O := PoolDemo.by_key) (FlowDemo.udp 1 900) [8; 5] 20 5 m').1 = l).
Proof.
  apply (flow_stays_on_its_lane (O := PoolDemo.by_key)); [discriminate|vm_compute; reflexivity].
Defined.

Lemma choose_disturbs_only_idle_or_oldest_witness :
  let k := key_of (packet_flow (FlowDemo.udp 1 60)) in
  let m' := (choose (O := PoolDemo.by_key) (FlowDemo.udp 2 60) [7; 8; 9] 20 8 PoolDemo.table).2 in
  PoolDemo.table !! k = Some (mkEntry 9 10)
  ∧ (m' !! k = Some (mkEntry 9 10)
     ∨ (m' !! k = None ∧ table_size PoolDemo.table = 4096
        ∧ (180000000 < 20 - 10
           ∨ ∀ k' e', k' ≠ key_of (packet_flow (FlowDemo.udp 2 60)) → m' !! k' = Some e' → 10 <= last_us e'))).
Proof.
  split; [vm_compute; reflexivity|].
  apply (choose_disturbs_only_idle_or_oldest (O := PoolDemo.by_key) (FlowDemo.udp 2 60) [7; 8; 9] 20 8
           PoolDemo.table (key_of (packet_flow (FlowDemo.udp 1 60))) (mkEntry 9 10));
    [vm_compute; discriminate|vm_compute; discriminate|vm_compute; reflexivity].
Defined.
