(* ===== verification/Traffic.v ===== *)
(** * Timers and shaping state (cdn/include/pacetun/traffic.hpp, edge_selection.hpp)

    The small state machines of a lane: the reply watchdog, the recovery
    back-off, the burst shaper, the latency renewal, and the choice of an edge
    address. Times are microseconds in [uint64_t]; random numbers drawn from a
    distribution are arguments, with the range the distribution promises as a
    hypothesis. *)

From S2P Require Import Prelude.

(** ** ReplyWatchdog *)

(** [ReplyWatchdog] src/cdn/include/pacetun/traffic.hpp:8-9 *)
Record ReplyWatchdog := mkWatchdog { token_ : Z }.

(** [ReplyWatchdog::pending] src/cdn/include/pacetun/traffic.hpp:11-11 *)
Definition pending (w : ReplyWatchdog) : bool := negb (token_ w =? 0).
(** [ReplyWatchdog::sent] src/cdn/include/pacetun/traffic.hpp:12-12 *)
Definition sent (token : Z) (w : ReplyWatchdog) : ReplyWatchdog :=
  if pending w then w else mkWatchdog token.
(** [ReplyWatchdog::age_us] src/cdn/include/pacetun/traffic.hpp:13-13 *)
Definition age_us (now : Z) (w : ReplyWatchdog) : Z :=
  if negb (token_ w =? 0) && (token_ w <=? now) then now - token_ w else 0.
(** [ReplyWatchdog::reply] src/cdn/include/pacetun/traffic.hpp:14-17 *)
Definition reply (token now : Z) (w : ReplyWatchdog) : bool * ReplyWatchdog :=
  if (token_ w =? 0) || negb (token =? token_ w) || (now <? token_ w) then (false, w)
  else (true, mkWatchdog 0).

(** ** RecoveryBackoff *)

(** [RecoveryBackoff] src/cdn/include/pacetun/traffic.hpp:19-20 *)
Record RecoveryBackoff := mkBackoff { next_ : Z; failures_ : Z }.

(** [RecoveryBackoff::ready] src/cdn/include/pacetun/traffic.hpp:22-22 *)
Definition backoff_ready (now : Z) (b : RecoveryBackoff) : bool := next_ b <=? now.
(** [RecoveryBackoff::started] src/cdn/include/pacetun/traffic.hpp:23-23 *)
Definition started (now : Z) (b : RecoveryBackoff) : RecoveryBackoff :=
  mkBackoff (u64 (now + 30000000)) (failures_ b).
(** [RecoveryBackoff::failed] src/cdn/include/pacetun/traffic.hpp:24-24 *)
Definition failed (now : Z) (b : RecoveryBackoff) : RecoveryBackoff :=
  let f := Z.min 5 (u32 (failures_ b + 1)) in
  mkBackoff (u64 (now + u64 (Z.min 300 (u32 (Z.shiftl 30 (u32 (f - 1)))) * 1000000))) f.
(** [RecoveryBackoff::succeeded] src/cdn/include/pacetun/traffic.hpp:25-25 *)
Definition succeeded (now : Z) (b : RecoveryBackoff) : RecoveryBackoff := mkBackoff (u64 (now + 30000000)) 0.
(** [RecoveryBackoff::remaining_sec] src/cdn/include/pacetun/traffic.hpp:26-26 *)
Definition remaining_sec (now : Z) (b : RecoveryBackoff) : Z :=
  if now <? next_ b then u64 (next_ b - now + 999999) / 1000000 else 0.

(** ** traffic_interval_ms *)

(** [draw spread] is [std::uniform_int_distribution<int>(-spread, spread)(rng)].
    [traffic_interval_ms] src/cdn/include/pacetun/traffic.hpp:28-31 *)
Definition traffic_interval_ms (seconds jitter_pct : Z) (draw : Z → Z) : Z :=
  let base := seconds * 1000 in
  let spread := Z.quot (base * jitter_pct) 100 in
  Z.max 1 (base + draw spread).

(** ** BurstShaper *)

(** [BurstShaper] src/cdn/include/pacetun/traffic.hpp:55-58 *)
Record BurstShaper := mkShaper { start_ : Z; window_ : Z; bytes_ : Z; due_ : Z }.

(** [BurstShaper::BurstShaper] src/cdn/include/pacetun/traffic.hpp:58-58 *)
Definition new_shaper (now : Z) : BurstShaper := mkShaper now now 0 0.
(** [BurstShaper::observe] src/cdn/include/pacetun/traffic.hpp:59-59 *)
Definition observe_bytes (n now : Z) (s : BurstShaper) : BurstShaper :=
  let s := if 1000000 <=? u64 (now - window_ s) then mkShaper (start_ s) now 0 (due_ s) else s in
  mkShaper (start_ s) (window_ s) (u64 (bytes_ s + n)) (due_ s).
(** [BurstShaper::bulk] src/cdn/include/pacetun/traffic.hpp:60-60 *)
Definition bulk (now : Z) (s : BurstShaper) : bool :=
  (u64 (now - window_ s) <? 1000000) && (65536 <=? bytes_ s).
(** [BurstShaper::maximum] src/cdn/include/pacetun/traffic.hpp:61-63 *)
Definition maximum (configured startup_ms now : Z) (s : BurstShaper) : Z :=
  Z.min configured
    (if u64 (now - start_ s) <? u64 (u64 startup_ms * 1000) then 256 else if bulk now s then 16 else 96).

Definition set_due (d : Z) (s : BurstShaper) : BurstShaper := mkShaper (start_ s) (window_ s) (bytes_ s) d.

(** [draw] is [std::uniform_int_distribution<int>(0, max_delay_ms*1000)(rng_)].
    [BurstShaper::ready] src/cdn/include/pacetun/traffic.hpp:64-69 *)
Definition shaper_ready (packets age_us max_delay_ms now draw : Z) (s : BurstShaper) : bool * BurstShaper :=
  if packets =? 0 then (false, set_due 0 s)
  else if (max_delay_ms =? 0) || (8 <=? packets) || bulk now s || (u64 (u64 max_delay_ms * 1000) <=? age_us)
  then (true, set_due 0 s)
  else
    let s := if due_ s =? 0 then set_due (u64 (now + draw)) s else s in
    if due_ s <=? now then (true, set_due 0 s) else (false, s).

(** ** LatencyRenewal *)

(** [LatencyRenewal] src/cdn/include/pacetun/traffic.hpp:72-73 *)
Record LatencyRenewal := mkRenewal { sample_ : Z; last_attempt_ : Z; streak_ : Z; attempted_ : bool }.

(** What one sample looks like: its time, the round trip, and the settings. *)
Record Probe := mkProbe {
  p_sample : Z; p_rtt_us : Z; p_now : Z; p_active : bool; p_threshold_ms : Z; p_required : Z; p_cooldown_sec : Z }.

(** [LatencyRenewal::observe] src/cdn/include/pacetun/traffic.hpp:75-83 *)
Definition observe_latency (p : Probe) (r : LatencyRenewal) : bool * LatencyRenewal :=
  if negb (p_active p) then (false, mkRenewal (p_sample p) (last_attempt_ r) 0 (attempted_ r))
  else if (p_sample p =? 0) || (p_sample p =? sample_ r) || (p_now p <? p_sample p) then (false, r)
  else if (60000000 <? p_now p - p_sample p) || (p_threshold_ms p <=? 0)
          || (p_rtt_us p <=? p_threshold_ms p * 1000)
  then (false, mkRenewal (p_sample p) (last_attempt_ r) 0 (attempted_ r))
  else
    let streak := streak_ r + 1 in
    if (streak <? p_required p)
       || (attempted_ r && (u64 (p_now p - last_attempt_ r) <? u64 (u64 (p_cooldown_sec p) * 1000000)))
    then (false, mkRenewal (p_sample p) (last_attempt_ r) streak (attempted_ r))
    else (true, mkRenewal (p_sample p) (p_now p) 0 true).

(** [LatencyRenewal::reset_samples] src/cdn/include/pacetun/traffic.hpp:84-84 *)
Definition reset_samples (r : LatencyRenewal) : LatencyRenewal :=
  mkRenewal 0 (last_attempt_ r) 0 (attempted_ r).

(** ** Edge addresses *)

(** [edge_address_index] src/cdn/include/pacetun/edge_selection.hpp:8-14 *)
Definition edge_address_index (count dial_number attempt : Z) (enabled : bool) : res Z :=
  throw_if ((count =? 0) || (count <=? attempt)) (str "edge address index") ;;
  Ok (if enabled then (dial_number mod count + attempt) mod count else attempt).

(** ** Properties *)

(** What can happen to a watchdog. *)
Inductive WatchdogEvent := Sent (token : Z) | Replied (token now : Z).

Definition watchdog_step (w : ReplyWatchdog) (e : WatchdogEvent) : ReplyWatchdog :=
  match e with Sent t => sent t w | Replied t now => (reply t now w).2 end.

(** The deadline of an unanswered probe cannot be postponed. Once a probe
    waits, neither later probes nor replies to other tokens change its age; only
    the reply to it, not earlier than the probe, ends the wait. *)
Theorem watchdog_not_postponed w events now :
  pending w = true →
  (∀ t n, Replied t n ∈ events → t = token_ w → n < token_ w) →
  age_us now (fold_left watchdog_step events w) = age_us now w
  ∧ (token_ w <= now → reply (token_ w) now (fold_left watchdog_step events w) = (true, mkWatchdog 0)).
Proof.
  intros Hp He. assert (Hsame : fold_left watchdog_step events w = w).
  { induction events as [|e events IH]; [done|]. simpl.
    assert (watchdog_step w e = w) as ->.
    - destruct e as [t|t n]; simpl; [unfold sent; by rewrite Hp|]. unfold reply.
      specialize (He t n ltac:(by left)). destruct (Z.eqb_spec t (token_ w)) as [->|]; simpl.
      + rewrite (proj2 (Z.ltb_lt _ _)) by auto. by rewrite orb_true_r.
      + by rewrite orb_true_r.
    - apply IH. intros t n Hin. apply He. by right. }
  rewrite Hsame. split; [done|]. intros Hn. unfold reply, pending in *.
  rewrite Z.eqb_refl, (proj2 (Z.ltb_ge _ _)) by lia. by destruct (token_ w =? 0).
Qed.

(** [failed] at each of a list of times. *)
Definition failures (times : list Z) (b : RecoveryBackoff) : RecoveryBackoff :=
  fold_left (λ b t, failed t b) times b.

Definition clock_ok (now : Z) : Prop := 0 <= now < 2 ^ 63.

Lemma failed_spec now b :
  clock_ok now → 0 <= failures_ b <= 5 →
  failed now b = mkBackoff (now + Z.min 300 (30 * 2 ^ Z.min 4 (failures_ b)) * 1000000) (Z.min 5 (failures_ b + 1)).
Proof.
  intros Hn Hf. unfold clock_ok, failed in *.
  assert (Hu : u32 (failures_ b + 1) = failures_ b + 1) by (unfold u32; apply Z.mod_small; lia).
  rewrite Hu. set (f := failures_ b) in *.
  assert (H : f = 0 ∨ f = 1 ∨ f = 2 ∨ f = 3 ∨ f = 4 ∨ f = 5) by lia.
  assert (Hw : Z.min 300 (u32 (Z.shiftl 30 (u32 (Z.min 5 (f + 1) - 1)))) = Z.min 300 (30 * 2 ^ Z.min 4 f))
    by (destruct_or!; subst f; rewrite H; vm_compute; reflexivity).
  rewrite Hw. f_equal. unfold u64.
  assert (0 <= Z.min 300 (30 * 2 ^ Z.min 4 f) <= 300).
  { split; [|lia]. apply Z.min_glb; [lia|]. apply Z.mul_nonneg_nonneg; [lia|]. apply Z.pow_nonneg. lia. }
  rewrite (Z.mod_small (_ * _)) by lia. by rewrite Z.mod_small by lia.
Qed.

(** The back-off doubles from 30 seconds and stops at 300: after [n] failures
    in a row the next attempt is ready exactly [min(300, 30 * 2^(n-1))] seconds
    after the last one, and a success takes it back to 30 seconds. *)
Theorem backoff_doubles_to_five_minutes times t now b :
  Forall clock_ok times → clock_ok t → clock_ok now → 0 <= failures_ b <= 5 →
  let n := Z.of_nat (length times) in
  let f := Z.min 5 (failures_ b + n) in
  let b' := failed t (failures times b) in
  next_ b' = t + Z.min 300 (30 * 2 ^ Z.min 4 f) * 1000000
  ∧ (backoff_ready now b' = true ↔ t + Z.min 300 (30 * 2 ^ Z.min 4 f) * 1000000 <= now)
  ∧ failures_ (succeeded t b') = 0 ∧ next_ (succeeded t b') = t + 30 * 1000000
  ∧ (t <= now → 0 <= remaining_sec now b' <= 300).
Proof.
  intros Hts Ht Hnow Hb n f b'.
  assert (Hf : failures_ (failures times b) = f).
  { unfold f, n. clear b' f n. revert b Hb. induction Hts as [|t0 ts Ht0 _ IH]; intros b Hb.
    - simpl. lia.
    - unfold failures in *. simpl fold_left. rewrite failed_spec by done.
      rewrite IH by (simpl; lia). simpl failures_. simpl length. lia. }
  assert (Hn : 0 <= f <= 5) by (unfold f, n; lia).
  assert (Hb' : b' = mkBackoff (t + Z.min 300 (30 * 2 ^ Z.min 4 f) * 1000000) (Z.min 5 (f + 1)))
    by (unfold b'; rewrite failed_spec, Hf; [done|done|by rewrite Hf]).
  assert (Hw : 0 <= Z.min 300 (30 * 2 ^ Z.min 4 f) <= 300).
  { split; [|lia]. apply Z.min_glb; [lia|]. apply Z.mul_nonneg_nonneg; [lia|]. apply Z.pow_nonneg. lia. }
  rewrite Hb'. unfold backoff_ready, succeeded, remaining_sec, clock_ok in *. cbn [next_ failures_].
  split; [done|]. split; [apply Z.leb_le|]. split; [done|]. unfold u64. split; [rewrite Z.mod_small by lia; lia|].
  intros Hle. destruct (Z.ltb_spec now (t + Z.min 300 (30 * 2 ^ Z.min 4 f) * 1000000)); [|lia].
  rewrite Z.mod_small by lia. split; [apply Z.div_pos; lia|].
  apply Z.lt_succ_r, Z.div_lt_upper_bound; lia.
Qed.

(** The calls of [shaper_ready] with packets waiting: packets, their age, the
    time and the random delay drawn if one is. *)
Record Poll := mkPoll { q_packets : Z; q_age_us : Z; q_now : Z; q_draw : Z }.

Definition poll_ok (max_delay_ms : Z) (q : Poll) : Prop :=
  q_packets q ≠ 0 ∧ 0 < q_now q < 2 ^ 63 ∧ 0 <= q_draw q <= max_delay_ms * 1000.

Definition shaper_poll (max_delay_ms : Z) (q : Poll) (s : BurstShaper) : bool * BurstShaper :=
  shaper_ready (q_packets q) (q_age_us q) max_delay_ms (q_now q) (q_draw q) s.

(** Polls that all answer "not yet", from one state to another. *)
Fixpoint held (max_delay_ms : Z) (polls : list Poll) (s s' : BurstShaper) : Prop :=
  match polls with
  | [] => s = s'
  | q :: polls =>
      match shaper_poll max_delay_ms q s with
      | (false, s1) => held max_delay_ms polls s1 s'
      | (true, _) => False
      end
  end.

Lemma held_keeps_due max polls s s' : due_ s ≠ 0 → held max polls s s' → Forall (poll_ok max) polls → due_ s' = due_ s.
Proof.
  revert s. induction polls as [|q polls IH]; intros s Hd Hh Hok; simpl in Hh; [by subst|].
  apply Forall_cons in Hok as [(Hp & _) Hok].
  unfold shaper_poll, shaper_ready in Hh. rewrite (proj2 (Z.eqb_neq _ _)) in Hh by done.
  destruct (_ || _); [done|]. rewrite (proj2 (Z.eqb_neq (due_ s) 0)) in Hh by done.
  destruct (due_ s <=? _); [done|]. by apply IH in Hh.
Qed.

(** Shaping delays a packet by at most [max_delay_ms]: if a poll at some time
    answers "not yet" and packets keep waiting, a poll [max_delay_ms] later or
    more answers "ready", however the delays are drawn. *)
Theorem shaper_delay_bounded max q0 polls q s s' :
  0 < max < 2 ^ 31 → due_ s = 0 → Forall (poll_ok max) (q0 :: polls) → poll_ok max q →
  held max (q0 :: polls) s s' → q_now q0 + max * 1000 <= q_now q →
  (shaper_poll max q s').1 = true.
Proof.
  intros Hmax Hd Hok (Hp & Hn & _) Hh Hlate. apply Forall_cons in Hok as [(Hp0 & Hn0 & Hr0) Hok].
  simpl in Hh. unfold shaper_poll at 1, shaper_ready in Hh.
  rewrite (proj2 (Z.eqb_neq _ _)) in Hh by done. destruct (_ || _) in Hh; [done|].
  rewrite Hd in Hh. change (0 =? 0) with true in Hh. cbv iota in Hh.
  assert (Hu : u64 (q_now q0 + q_draw q0) = q_now q0 + q_draw q0) by (unfold u64; apply Z.mod_small; lia).
  rewrite Hu in Hh. destruct (Z.leb_spec (due_ (set_due (q_now q0 + q_draw q0) s)) (q_now q0)); [done|].
  apply held_keeps_due in Hh as Hdue; [|simpl; lia|done]. simpl in Hdue.
  unfold shaper_poll, shaper_ready. rewrite (proj2 (Z.eqb_neq _ _)) by done.
  destruct (_ || _); [done|]. rewrite (proj2 (Z.eqb_neq (due_ s') 0)) by lia.
  by rewrite (proj2 (Z.leb_le _ _)) by lia.
Qed.

(** Samples observed one after the other: the times of the renewals. *)
Fixpoint renewals (probes : list Probe) (r : LatencyRenewal) : list Z :=
  match probes with
  | [] => []
  | p :: probes =>
      let (b, r') := observe_latency p r in
      (if b then [p_now p] else []) ++ renewals probes r'
  end.

(** A sample that counts: a new one, active, fresh and over the threshold. *)
Definition over (p : Probe) : bool := p_active p && (p_threshold_ms p * 1000 <? p_rtt_us p).

Definition probes_ok (required cooldown : Z) (from : Z) (probes : list Probe) : Prop :=
  Forall (λ p, p_required p = required ∧ p_cooldown_sec p = cooldown ∧ from <= p_now p < 2 ^ 63) probes
  ∧ Sorted Z.le (map p_now probes).

(** The times of renewals after [last], each a cooldown after the one before. *)
Fixpoint spaced (gap : Z) (last : option Z) (times : list Z) : Prop :=
  match times with
  | [] => True
  | t :: times => match last with Some l => l + gap <= t | None => True end ∧ spaced gap (Some t) times
  end.

Lemma observe_cases p r b r' :
  observe_latency p r = (b, r') →
  (b = true ∧ over p = true ∧ p_required p <= streak_ r + 1 ∧ streak_ r' = 0 ∧ attempted_ r' = true
     ∧ last_attempt_ r' = p_now p
     ∧ (attempted_ r = true → u64 (u64 (p_cooldown_sec p) * 1000000) <= u64 (p_now p - last_attempt_ r)))
  ∨ (b = false ∧ attempted_ r' = attempted_ r ∧ last_attempt_ r' = last_attempt_ r
     ∧ (streak_ r' = 0 ∨ streak_ r' = streak_ r ∨ (over p = true ∧ streak_ r' = streak_ r + 1))).
Proof.
  unfold observe_latency, over. destruct (p_active p); cbn [negb andb].
  2:{ intros [= <- <-]. right. simpl. auto. }
  destruct ((p_sample p =? 0) || (p_sample p =? sample_ r) || (p_now p <? p_sample p)).
  { intros [= <- <-]. right. auto 10. }
  destruct (Z.ltb_spec 60000000 (p_now p - p_sample p)); cbn [orb]; [intros [= <- <-]; right; simpl; auto|].
  destruct (Z.leb_spec (p_threshold_ms p) 0); cbn [orb]; [intros [= <- <-]; right; simpl; auto|].
  destruct (Z.leb_spec (p_rtt_us p) (p_threshold_ms p * 1000)); [intros [= <- <-]; right; simpl; auto|].
  rewrite (proj2 (Z.ltb_lt (_ * _) _)) by done.
  destruct (Z.ltb_spec (streak_ r + 1) (p_required p)); cbn [orb]; [intros [= <- <-]; right; simpl; auto 10|].
  destruct (attempted_ r && (u64 (p_now p - last_attempt_ r) <? u64 (u64 (p_cooldown_sec p) * 1000000))) eqn:Hc;
    intros [= <- <-]; [right; simpl; auto 10|left; simpl].
  repeat split; try done; try lia. intros Hat. rewrite Hat in Hc. simpl in Hc. by apply Z.ltb_ge in Hc.
Qed.

(** Connections are not renewed for latency too often: two renewals are at
    least the cooldown apart, and each takes [required] samples over the
    threshold of its own. *)
Theorem latency_renewals_limited required cooldown probes :
  1 <= required → 0 <= cooldown < 2 ^ 31 → probes_ok required cooldown 0 probes →
  spaced (cooldown * 1000000) None (renewals probes (mkRenewal 0 0 0 false))
  ∧ required * zlen (renewals probes (mkRenewal 0 0 0 false)) <= zlen (filter (λ p, over p = true) probes).
Proof.
  intros Hreq Hcool [Hall Hsort].
  assert (H : ∀ r, 0 <= streak_ r → (attempted_ r = true → 0 <= last_attempt_ r < 2 ^ 63) →
    (attempted_ r = true → Forall (λ p, last_attempt_ r <= p_now p) probes) →
    spaced (cooldown * 1000000) (if attempted_ r then Some (last_attempt_ r) else None) (renewals probes r)
    ∧ required * zlen (renewals probes r) <= streak_ r + zlen (filter (λ p, over p = true) probes));
    [|by apply (H (mkRenewal 0 0 0 false)); [simpl; lia|..]].
  apply Sorted_StronglySorted in Hsort; [|intros x y z; lia].
  induction probes as [|p probes IH]; intros r Hs Hrange Hlast.
  { split; [done|]. rewrite filter_nil. simpl renewals. unfold zlen. simpl.
    lia. }
  apply Forall_cons in Hall as [(Hr & Hc & Hn) Hall]. simpl in Hsort.
  apply StronglySorted_inv in Hsort as [Hsort Hle]. rewrite Forall_map in Hle.
  assert (Hlast' : attempted_ r = true → Forall (λ p, last_attempt_ r <= p_now p) probes)
    by (intros Ha; by apply Hlast, Forall_cons in Ha as [_ Ha]).
  simpl renewals. destruct (observe_latency p r) as [b r'] eqn:Ho.
  assert (Hcount : zlen (filter (λ p, over p = true) (p :: probes))
                   = (if over p then 1 else 0) + zlen (filter (λ p, over p = true) probes)).
  { rewrite filter_cons. destruct (over p); case_decide; try done; rewrite ?zlen_cons; lia. }
  apply observe_cases in Ho as [(-> & Hov & Hst & Hs0 & Ha & Hla & Hgap)|(-> & Ha & Hla & Hst)].
  - destruct (IH Hall Hsort r') as [Hsp Hnum]; [lia|rewrite Hla; intros; lia|by rewrite Hla|].
    rewrite Ha, Hla in Hsp. rewrite Hcount, Hov. simpl app. rewrite zlen_cons. split; [|lia].
    simpl. split; [|done]. destruct (attempted_ r) eqn:Hat; [|done].
    specialize (Hgap eq_refl). specialize (Hrange eq_refl). rewrite Hc in Hgap. unfold u64 in Hgap.
    specialize (Hlast eq_refl). apply Forall_cons in Hlast as [Hl1 _].
    rewrite (Z.mod_small cooldown), !Z.mod_small in Hgap by lia. lia.
  - destruct (IH Hall Hsort r') as [Hsp Hnum].
    + destruct Hst as [|[|[_ ?]]]; lia.
    + by rewrite Ha, Hla.
    + by rewrite Ha, Hla.
    + rewrite Ha, Hla in Hsp. simpl app. split; [done|]. rewrite Hcount.
      destruct Hst as [|[|[-> ?]]]; destruct (over p); lia.
Qed.

(** Dialling tries every edge address exactly once per round of attempts,
    wherever the round starts, and never an address that does not exist. *)
Theorem edge_round_visits_every_address count dial enabled :
  0 < count →
  (∀ a, 0 <= a < count → ∃ i, edge_address_index count dial a enabled = Ok i ∧ 0 <= i < count)
  ∧ (∀ i, 0 <= i < count →
       ∃ a, 0 <= a < count ∧ edge_address_index count dial a enabled = Ok i
            ∧ ∀ a', 0 <= a' < count → edge_address_index count dial a' enabled = Ok i → a' = a)
  ∧ (∀ a, count <= a → edge_address_index count dial a enabled = Err (str "edge address index")).
Proof.
  intros Hc. unfold edge_address_index. rewrite (proj2 (Z.eqb_neq count 0)) by lia. cbn [orb].
  assert (Hin : ∀ a, a < count → throw_if (count <=? a) (str "edge address index") = Ok tt)
    by (intros a Ha; by rewrite (proj2 (Z.leb_gt _ _))).
  pose proof (Z.mod_pos_bound dial count Hc) as Hd. set (d := dial mod count) in *. split; [|split].
  - intros a Ha. rewrite Hin by lia. eexists. split; [reflexivity|].
    destruct enabled; [apply Z.mod_pos_bound|]; lia.
  - intros i Hi. destruct enabled.
    + exists ((i - d) mod count). assert (Ha := Z.mod_pos_bound (i - d) count Hc).
      split; [done|]. split.
      * rewrite Hin by lia. cbn. f_equal. rewrite Zplus_mod_idemp_r.
        replace (d + (i - d)) with i by lia. by apply Z.mod_small.
      * intros a' Ha'. rewrite Hin by lia. cbn. intros [= <-].
        rewrite Zminus_mod_idemp_l. replace (d + a' - d) with a' by lia. symmetry. by apply Z.mod_small.
    + exists i. split; [done|]. split; [by rewrite Hin by lia|]. intros a' Ha'. rewrite Hin by lia. by intros [= ->].
  - intros a Ha. unfold throw_if. by rewrite (proj2 (Z.leb_le _ _)).
Qed.

(** ** Witnesses *)

Lemma watchdog_not_postponed_witness :
  age_us 100 (fold_left watchdog_step [Sent 60; Replied 60 70] (mkWatchdog 40)) = 60.
Proof.
  apply (watchdog_not_postponed (mkWatchdog 40) [Sent 60; Replied 60 70] 100); [reflexivity|].
  intros t n Hin Ht. rewrite !elem_of_cons, elem_of_nil in Hin.
  destruct Hin as [|[Hin|[]]]; [discriminate|]. injection Hin as -> ->. discriminate Ht.
Defined.

Lemma backoff_doubles_to_five_minutes_witness :
  next_ (failed 5 (failures [1; 2; 3] (mkBackoff 0 0))) = 5 + 240 * 1000000.
Proof.
  apply (backoff_doubles_to_five_minutes [1; 2; 3] 5 9 (mkBackoff 0 0));
    unfold clock_ok; [|lia..|simpl; lia].
  rewrite !Forall_cons. repeat split; try lia. constructor.
Defined.

Lemma shaper_delay_bounded_witness :
  (shaper_poll 10 (mkPoll 1 900 20050 7) (shaper_poll 10 (mkPoll 1 50 10000 4000) (new_shaper 9000)).2).1 = true.
Proof.
  apply (shaper_delay_bounded 10 (mkPoll 1 50 10000 4000) [] (mkPoll 1 900 20050 7) (new_shaper 9000));
    unfold poll_ok; simpl; try reflexivity; try lia; try (repeat constructor; simpl; lia).
Defined.

Lemma latency_renewals_limited_witness :
  let probes := [mkProbe 1000 90000 2000 true 80 2 60; mkProbe 3000 90000 4000 true 80 2 60;
                 mkProbe 5000 90000 6000 true 80 2 60; mkProbe 7000 90000 8000 true 80 2 60] in
  renewals probes (mkRenewal 0 0 0 false) = [4000]
  ∧ spaced (60 * 1000000) None (renewals probes (mkRenewal 0 0 0 false)).
Proof.
  split; [reflexivity|].
  apply (latency_renewals_limited 2 60); [lia|lia|]. split; repeat constructor; simpl; lia.
Defined.

Lemma edge_round_visits_every_address_witness : edge_address_index 3 7 5 true = Err (str "edge address index").
Proof. apply (edge_round_visits_every_address 3 7 true); lia. Defined.
