(* ===== verification/Telemetry.v ===== *)
(** * Round-trip statistics (cdn/include/pacetun/telemetry.hpp)

    [RttHistory]: three windows of the last 128 samples and their nearest-rank
    percentiles. The reported value is the sample in milliseconds, a [double];
    the model keeps the sample itself, in microseconds. *)

From S2P Require Import Prelude.

(** [RttHistory] src/cdn/include/pacetun/telemetry.hpp:40-40 *)
Record RttHistory := mkHistory { all_ : list Z; active_ : list Z; idle_ : list Z }.

(** [RttHistory::append] src/cdn/include/pacetun/telemetry.hpp:34-38 *)
Definition append (v : Z) (q : list Z) : list Z :=
  (if (length q =? 128)%nat then drop 1 q else q) ++ [v].

(** [RttHistory::reset] src/cdn/include/pacetun/telemetry.hpp:16-16 *)
Definition reset : RttHistory := mkHistory [] [] [].

(** [RttHistory::record] src/cdn/include/pacetun/telemetry.hpp:17-20 *)
Definition record (rtt_us : Z) (active : bool) (h : RttHistory) : RttHistory :=
  mkHistory (append rtt_us (all_ h))
    (if active then append rtt_us (active_ h) else active_ h)
    (if active then idle_ h else append rtt_us (idle_ h)).

(** [percentile] src/cdn/include/pacetun/telemetry.hpp:27-30 *)
Definition percentile (numerator : nat) (sorted : list Z) : Z :=
  let rank := ((length sorted * numerator + 99) / 100)%nat in
  at_ sorted (Nat.max 1 rank - 1).

(** [RttPercentiles] src/cdn/include/pacetun/telemetry.hpp:10-13 *)
Record RttPercentiles := mkPercentiles { count : nat; p50_us : Z; p95_us : Z; p99_us : Z }.

(** The samples of a group: 1 is active, 2 is idle, anything else is all.
    [RttHistory::snapshot] src/cdn/include/pacetun/telemetry.hpp:23-23 *)
Definition samples (group : Z) (h : RttHistory) : list Z :=
  if group =? 1 then active_ h else if group =? 2 then idle_ h else all_ h.

(** [RttHistory::snapshot] src/cdn/include/pacetun/telemetry.hpp:21-32 *)
Definition snapshot (group : Z) (h : RttHistory) : option RttPercentiles :=
  let l := samples group h in
  if (length l =? 0)%nat then None
  else
    let sorted := merge_sort Z.le l in
    Some (mkPercentiles (length sorted) (percentile 50 sorted) (percentile 95 sorted) (percentile 99 sorted)).

(** ** Lemmas *)

(** The last [n] elements of a list. *)
Definition last_n {A} (n : nat) (l : list A) : list A := drop (length l - n) l.

Lemma append_last v l : append v (last_n 128 l) = last_n 128 (l ++ [v]).
Proof.
  unfold append, last_n. rewrite length_drop, length_app. simpl.
  destruct (Nat.eqb_spec (length l - (length l - 128)) 128).
  - rewrite drop_drop, (drop_app_le l [v]) by lia. do 2 f_equal. lia.
  - rewrite (drop_app_le l [v]) by lia. do 2 f_equal. lia.
Qed.

Lemma sorted_around (sorted : list Z) i x :
  StronglySorted Z.le sorted → sorted !! i = Some x →
  Forall (λ y, y <= x) (take (S i) sorted) ∧ Forall (λ y, x <= y) (drop i sorted).
Proof.
  intros Hs Hx. rewrite <- (take_drop_middle sorted i x Hx) in Hs.
  rewrite (take_S_r sorted i x Hx), (drop_S sorted x i Hx). apply StronglySorted_app in Hs as (H1 & H2 & H3).
  split.
  - apply Forall_app. split; [|apply Forall_singleton; lia].
    apply Forall_forall. intros y Hy. apply (H1 y x Hy). by left.
  - apply StronglySorted_inv in H3 as [_ H3]. constructor; [lia|done].
Qed.

(** The samples not above a bound. *)
Definition at_most (b : Z) (l : list Z) : list Z := filter (λ x, x <= b) l.

Lemma at_most_perm b l l' : Permutation l l' → length (at_most b l) = length (at_most b l').
Proof. intros H. apply Permutation_length, filter_Permutation, H. Qed.

Lemma sorted_sample (l : list Z) :
  Permutation (merge_sort Z.le l) l ∧ length (merge_sort Z.le l) = length l ∧ StronglySorted Z.le (merge_sort Z.le l).
Proof.
  pose proof (merge_sort_Permutation Z.le l) as Hp. split; [done|]. split; [by apply Permutation_length|].
  apply StronglySorted_merge_sort; [intros x y z; apply Z.le_trans|intros x y; apply Z.le_ge_cases].
Qed.

(** The position of a percentile in the sorted samples. *)
Definition rank_of (num n : nat) : nat := (Nat.max 1 ((n * num + 99) / 100) - 1)%nat.

Lemma rank_of_lt num n : (num <= 100)%nat → (0 < n)%nat → (rank_of num n < n)%nat ∧ (n * num <= 100 * S (rank_of num n))%nat.
Proof.
  intros Hn Hpos. unfold rank_of.
  pose proof (Nat.div_mod_eq (n * num + 99) 100).
  pose proof (Nat.mod_upper_bound (n * num + 99) 100 ltac:(lia)).
  assert (n * num <= n * 100)%nat by (by apply Nat.mul_le_mono_l). lia.
Qed.

(** Nearest rank: the percentile is a sample, and at least [num] percent of the
    samples are not above it. *)
Lemma percentile_spec (num : nat) (sorted : list Z) :
  (num <= 100)%nat → sorted ≠ [] → StronglySorted Z.le sorted →
  sorted !! rank_of num (length sorted) = Some (percentile num sorted)
  ∧ (length sorted * num <= 100 * length (at_most (percentile num sorted) sorted))%nat.
Proof.
  intros Hn Hne Hs. assert (Hpos : (0 < length sorted)%nat) by (destruct sorted; simpl; [done|lia]).
  destruct (rank_of_lt num (length sorted) Hn Hpos) as [Hi Hr]. unfold percentile.
  change (Nat.max 1 ((length sorted * num + 99) / 100) - 1)%nat with (rank_of num (length sorted)).
  set (i := rank_of num (length sorted)) in *.
  destruct (lookup_lt_is_Some_2 sorted i Hi) as [x Hx].
  assert (at_ sorted i = x) as -> by (unfold at_; by rewrite Hx).
  split; [done|]. destruct (sorted_around sorted i x Hs Hx) as [Hle _].
  assert (S i <= length (at_most x sorted))%nat as H.
  { unfold at_most. rewrite <- (take_drop (S i) sorted), filter_app, length_app, list_filter_all by done.
    rewrite length_take. lia. }
  nia.
Qed.

Lemma percentile_mono (a b : nat) (sorted : list Z) :
  (a <= b <= 100)%nat → sorted ≠ [] → StronglySorted Z.le sorted → percentile a sorted <= percentile b sorted.
Proof.
  intros Hab Hne Hs.
  destruct (percentile_spec a sorted ltac:(lia) Hne Hs) as [Ha _].
  destruct (percentile_spec b sorted ltac:(lia) Hne Hs) as [Hb _].
  assert (Hr : (rank_of a (length sorted) <= rank_of b (length sorted))%nat).
  { unfold rank_of. pose proof (Nat.Div0.div_le_mono (length sorted * a + 99) (length sorted * b + 99) 100
      ltac:(nia)). lia. }
  destruct (sorted_around _ _ _ Hs Ha) as [_ Hge]. rewrite Forall_forall in Hge. apply Hge.
  apply list_elem_of_lookup. exists (rank_of b (length sorted) - rank_of a (length sorted))%nat.
  rewrite lookup_drop. rewrite <- Hb. f_equal. lia.
Qed.

(** ** Properties *)

(** The samples recorded since the last reset: the round trip and whether the
    lane was active. *)
Definition recorded (events : list (Z * bool)) : RttHistory :=
  fold_left (λ h e, record e.1 e.2 h) events reset.

(** Which events belong to a group. *)
Definition in_group (group : Z) (e : Z * bool) : bool :=
  if group =? 1 then e.2 else if group =? 2 then negb e.2 else true.

Lemma recorded_samples group events :
  samples group (recorded events) = last_n 128 (map fst (filter (λ e, in_group group e = true) events)).
Proof.
  unfold recorded. induction events as [|[v b] events IH] using rev_ind.
  { unfold samples. by destruct (group =? 1), (group =? 2). }
  rewrite fold_left_app, filter_app, map_app, filter_cons, filter_nil. cbn [fold_left fst snd].
  set (h := fold_left _ events reset) in *. unfold samples, record, in_group in *.
  destruct (group =? 1), (group =? 2), b; cbn in *;
    by rewrite IH, ?append_last, ?app_nil_r.
Qed.

(** The statistics of a group are those of its last 128 samples: their
    number, and for 50, 95 and 99 percent a sample such that at least that share
    of the samples is not above it, in increasing order. *)
Theorem rtt_percentiles_nearest_rank group events s :
  let window := last_n 128 (map fst (filter (λ e, in_group group e = true) events)) in
  snapshot group (recorded events) = Some s →
  count s = length window ∧ (count s <= 128)%nat
  ∧ Forall (λ q, q.2 ∈ window ∧ (length window * q.1 <= 100 * length (at_most q.2 window))%nat)
      [(50%nat, p50_us s); (95%nat, p95_us s); (99%nat, p99_us s)]
  ∧ p50_us s <= p95_us s <= p99_us s.
Proof.
  intros window. unfold snapshot. rewrite recorded_samples. fold window.
  destruct (Nat.eqb_spec (length window) 0) as [|Hne]; [done|]. intros [= <-].
  destruct (sorted_sample window) as (Hp & Hl & Hs).
  set (sorted := merge_sort Z.le window) in *. clearbody sorted.
  assert (Hn : sorted ≠ []) by (intros ->; simpl in Hl; congruence).
  cbn [count p50_us p95_us p99_us]. rewrite Hl. split; [done|]. split.
  { unfold window, last_n. rewrite length_drop. lia. }
  split; [|split; apply percentile_mono; done || lia].
  assert (H : ∀ num, (num <= 100)%nat → percentile num sorted ∈ window
    ∧ (length window * num <= 100 * length (at_most (percentile num sorted) window))%nat).
  { intros num Hnum. destruct (percentile_spec num sorted Hnum Hn Hs) as [Hx Hc]. rewrite <- Hl. split.
    - rewrite <- Hp. by eapply list_elem_of_lookup_2.
    - by rewrite <- (at_most_perm _ _ _ Hp). }
  constructor; [apply (H 50%nat); lia|]. constructor; [apply (H 95%nat); lia|].
  constructor; [apply (H 99%nat); lia|constructor].
Qed.

(** ** Witnesses *)

Lemma rtt_percentiles_nearest_rank_witness :
  let events := [(30, true); (10, false); (20, true); (90, false)] in
  snapshot 0 (recorded events) = Some (mkPercentiles 4 20 90 90)
  ∧ 20 <= 90 <= 90.
Proof.
  split; [vm_compute; reflexivity|].
  apply (rtt_percentiles_nearest_rank 0 [(30, true); (10, false); (20, true); (90, false)]
           (mkPercentiles 4 20 90 90)).
  vm_compute. reflexivity.
Defined.
