(* ===== verification/Logging.v ===== *)
(** * Failure reports (cdn/include/pacetun/logging.hpp, cdn/src/runtime.cpp)

    The explanation of a failure, the report written for an administrator, and
    the two functions of the runtime that turn the text of an exception into a
    failure code and a reconnection counter. *)

From S2P Require Import Prelude Text.

(** ** Texts *)

(** The comparison of two characters without their case.
    [contains_insensitive] src/cdn/include/pacetun/logging.hpp:16-16 *)
Definition eq_insensitive (a b : Z) : bool := tolower a =? tolower b.

(** [contains_insensitive] src/cdn/include/pacetun/logging.hpp:15-18 *)
Definition contains_insensitive (text pattern : bytes) : bool :=
  match search eq_insensitive pattern text with
  | Some i => negb (i =? length text)%nat
  | None => false
  end.

Abbreviation mentions text literal := (contains_insensitive text (str literal)).

(** [ProblemExplanation] src/cdn/include/pacetun/logging.hpp:11-14 *)
Record ProblemExplanation := explanation { meaning : bytes; next_step : bytes }.

(** The explanation of a failure that nothing else explains.
    [explain_problem] src/cdn/include/pacetun/logging.hpp:69-70 *)
Definition unexplained : ProblemExplanation :=
  explanation (str "An issue was reported, but the cause is not established.")
    (str "Inspect the detailed error and run the read-only diagnose command; preserve the working configuration until the failure is located.").

(** [explain_problem] src/cdn/include/pacetun/logging.hpp:19-71 *)
Definition explain_problem (code detail : bytes) : ProblemExplanation :=
  if text_is code "HTTP_502_GATEWAY" || (mentions detail "502" && (mentions detail "bad gateway" || mentions detail "http/1.1 502")) then
    explanation (str "A gateway returned HTTP 502 while opening the tunnel. The CDN OR origin proxy may be responsible.")
      (str "Check the foreign Nginx IPv6 listener and error/access logs. Verify Arvan's origin IPv6 and local PaceTun port; also test the health URL via the CDN.")
  else if text_is code "HTTP_504_TIMEOUT" || (mentions detail "504" && (mentions detail "gateway" || mentions detail "http/1.1 504")) then
    explanation (str "A gateway returned HTTP 504: an upstream response was too slow or absent.")
      (str "Compare CDN health-check timings with a direct foreign-origin check. Inspect Arvan-to-origin reachability and Nginx logs; do not assume the Iran-to-edge connection is slow.")
  else if mentions detail "certificate" || mentions detail "hostname verification" || mentions detail "verify failed" then
    explanation (str "The TLS certificate or hostname check failed.")
      (str "Check the CDN hostname, SNI, certificate validity and trusted CA path; keep TLS verification enabled.")
  else if mentions detail "name or service not known" || mentions detail "temporary failure in name resolution" then
    explanation (str "The tunnel hostname could not be resolved by DNS.")
      (str "Check DNS resolution for the configured CDN hostname on the client. Do not replace the origin address until DNS is verified.")
  else if text_is code "DNS_RESOLUTION_FAILED" then
    explanation (str "DNS could not resolve the configured CDN hostname.")
      (str "Check the DNS resolver and the saved hostname on the Iran client; do not assume the foreign origin is failing.")
  else if text_is code "WEBSOCKET_UPGRADE_FAILED" || text_is code "CARRIER_UPGRADE_FAILED" then
    explanation (str "The HTTPS connection did not complete the WebSocket upgrade.")
      (str "Confirm the CDN accepts WebSocket and the Host/path match Nginx. Test HTTPS health, then inspect Nginx access and error logs for the upgrade path.")
  else if text_is code "AUTHENTICATION_FAILED" then
    explanation (str "The endpoints could not authenticate or agree on session keys.")
      (str "Check that both servers use the intended PSK and compatible versions. Never paste PSK contents into logs or support chats.")
  else if text_is code "AUTH_PROBE_TIMEOUT" then
    explanation (str "An authenticated round-trip probe did not receive a reply in time.")
      (str "Look for simultaneous network loss or CDN buffering. Compare fresh tunnel RTT and TCP retransmission counters; one timeout alone does not identify the faulty segment.")
  else if text_is code "WEBSOCKET_PONG_TIMEOUT" then
    explanation (str "An optional WebSocket control PONG did not arrive before its deadline.")
      (str "Check whether WebSocket control probes are enabled and whether CDN idle or buffering behavior affects the session.")
  else if text_is code "TCP_CONNECT_TIMEOUT" then
    explanation (str "TCP attempts to DNS-resolved CDN addresses timed out; the failed segment is not identified.")
      (str "Check client-to-CDN reachability, DNS answers and CDN edge availability. Changing tunnel encryption cannot fix a TCP timeout.")
  else if text_is code "TLS_CERTIFICATE_FAILED" then
    explanation (str "TLS peer certificate validation failed; the connection was correctly rejected.")
      (str "Verify the configured hostname, CA trust and CDN certificate. Never disable verify_peer as a workaround.")
  else if text_is code "TLS_HANDSHAKE_TIMEOUT" then
    explanation (str "TCP connected but TLS did not finish before its deadline.")
      (str "Check CDN edge TLS availability and compare from another network; no assumption about the origin can be made yet.")
  else if text_is code "TCP_CONNECT_FAILED" then
    explanation (str "The client could not establish its TCP connection to the configured destination.")
      (str "Check DNS, the destination port, routing and the CDN endpoint from the client. On the origin, check listeners and firewall rules.")
  else if text_is code "TLS_HANDSHAKE_FAILED" then
    explanation (str "TCP connected, but the TLS handshake could not finish.")
      (str "Check the hostname/SNI, HTTPS port, supported TLS versions, certificate and CDN TLS settings.")
  else if text_is code "WEBSOCKET_PEER_CLOSE" then
    explanation (str "The peer sent a WebSocket close frame; the sender behind a CDN is not established.")
      (str "Compare close status, session age, Nginx logs and CDN timing. A close frame alone does not identify the responsible hop.")
  else if text_is code "MANUAL_RECONNECT" then
    explanation (str "An administrator requested a reconnection.")
      (str "No network failure is implied; verify the replacement becomes ONLINE.")
  else if text_is code "ESTABLISHED_CONNECTION_LOST" then
    explanation (str "An established tunnel connection was interrupted.")
      (str "Inspect the detailed error, recent tunnel RTT, retransmissions and CDN/foreign logs. A disconnect alone does not prove which hop failed.")
  else unexplained.

(** The loop of [clean_log_detail]: [n] is [out.size()]. *)
Fixpoint clean_from (n : Z) (raw : bytes) : bytes :=
  match raw with
  | [] => []
  | c :: raw =>
      if n =? 240 then str "..."
      else (if (c <? 32) || (c =? 127) then 32 else c) :: clean_from (n + 1) raw
  end.

(** [clean_log_detail] src/cdn/include/pacetun/logging.hpp:72-76 *)
Definition clean_log_detail (raw : bytes) : bytes := clean_from 0 raw.

Definition newline : bytes := [10].

(** [friendly_failure] src/cdn/include/pacetun/logging.hpp:77-83 *)
Definition friendly_failure (stage code detail : bytes) : bytes :=
  let problem := explain_problem code detail in
  str "[ERROR] Connection problem (code=" ++ code ++ str ", stage=" ++ stage ++ str ")" ++ newline
  ++ str "        Meaning: " ++ meaning problem ++ newline
  ++ str "        Next step: " ++ next_step problem ++ newline
  ++ str "        Technical detail: " ++ clean_log_detail detail ++ newline.

(** ** Failure codes *)

(** [failure_code] src/cdn/src/runtime.cpp:298-315 *)
Definition failure_code (phase : Z) (reason : bytes) : bytes :=
  if mentions reason "HTTP/1.1 502" || mentions reason "502 Bad Gateway" then str "HTTP_502_GATEWAY"
  else if mentions reason "HTTP/1.1 504" || mentions reason "504 Gateway" then str "HTTP_504_TIMEOUT"
  else if mentions reason "DNS resolution failed" || mentions reason "DNS returned no usable" then
    str "DNS_RESOLUTION_FAILED"
  else if mentions reason "certificate verify" || mentions reason "certificate has expired"
          || mentions reason "hostname mismatch" then str "TLS_CERTIFICATE_FAILED"
  else if mentions reason "TCP connect failed" && mentions reason "timed out" then
    str "TCP_CONNECT_TIMEOUT"
  else if mentions reason "TLS handshake timeout" then str "TLS_HANDSHAKE_TIMEOUT"
  else if contains (str "authenticated probe reply timeout") reason then str "AUTH_PROBE_TIMEOUT"
  else if contains (str "control requested reconnect") reason then str "MANUAL_RECONNECT"
  else if contains (str "carrier PONG timeout") reason then str "WEBSOCKET_PONG_TIMEOUT"
  else if contains (str "WebSocket peer close received") reason then str "WEBSOCKET_PEER_CLOSE"
  else if contains (str "authentication") reason || contains (str "key confirmation") reason then
    str "AUTHENTICATION_FAILED"
  else if contains (str "WebSocket upgrade") reason then str "WEBSOCKET_UPGRADE_FAILED"
  else if phase =? 3 then str "TCP_CONNECT_FAILED"
  else if phase =? 4 then str "TLS_HANDSHAKE_FAILED"
  else if phase =? 5 then str "CARRIER_UPGRADE_FAILED"
  else str "ESTABLISHED_CONNECTION_LOST".

(** The counters of [Stats] that [classify_reconnect] moves.
    [Stats] src/cdn/src/runtime.cpp:78-79 *)
Record Reconnects := reconnect_counts {
  tx_stalls : Z; reconnect_pong_timeout : Z; reconnect_tx_timeout : Z; reconnect_idle : Z;
  reconnect_session : Z; reconnect_network : Z; reconnect_manual : Z }.

(** [classify_reconnect] src/cdn/src/runtime.cpp:317-325 *)
Definition classify_reconnect (reason : bytes) (st : Reconnects) : Reconnects :=
  let 'reconnect_counts stalls pong tx idle session network manual := st in
  if contains (str "authenticated probe reply timeout") reason then st
  else if contains (str "PONG timeout") reason then
    reconnect_counts stalls (u64 (pong + 1)) tx idle session network manual
  else if contains (str "TX no-progress timeout") reason then
    reconnect_counts (u64 (stalls + 1)) pong (u64 (tx + 1)) idle session network manual
  else if contains (str "idle timeout") reason then
    reconnect_counts stalls pong tx (u64 (idle + 1)) session network manual
  else if contains (str "session max age") reason then
    reconnect_counts stalls pong tx idle (u64 (session + 1)) network manual
  else if contains (str "control requested reconnect") reason then
    reconnect_counts stalls pong tx idle session network (u64 (manual + 1))
  else reconnect_counts stalls pong tx idle session (u64 (network + 1)) manual.

(** ** Lemmas *)

(** [std::search] finds exactly the patterns that occur up to case. *)
Lemma prefix_by_insensitive p s :
  prefix_by eq_insensitive p s = true ↔ ∃ a b, s = a ++ b ∧ map tolower a = map tolower p.
Proof.
  revert s. induction p as [|x p IH]; intros s; simpl.
  - split; [intros _; by exists [], s|done].
  - destruct s as [|y s].
    + split; [done|]. intros (a & b & E & Ha). destruct a; done.
    + rewrite andb_true_iff, IH. unfold eq_insensitive. rewrite Z.eqb_eq. split.
      * intros [Hx (a & b & -> & Ha)]. exists (y :: a), b. simpl. split; [done|congruence].
      * intros (a & b & E & Ha). destruct a as [|z a]; [done|]. injection E as -> ->. injection Ha as ? ?. eauto.
Qed.

Lemma contains_insensitive_spec text pattern :
  pattern ≠ [] →
  contains_insensitive text pattern = true
  ↔ ∃ a b c, text = a ++ b ++ c ∧ map tolower b = map tolower pattern.
Proof.
  intros Hp. unfold contains_insensitive. destruct (search _ pattern text) as [i|] eqn:E.
  - pose proof (search_le _ _ _ _ E) as Hl. apply search_prefix, prefix_by_insensitive in E as (b & c & Hd & Hb).
    destruct (Nat.eqb_spec i (length text)); [destruct pattern; simpl in *; [done|lia]|].
    split; [intros _|done]. exists (take i text), b, c. by rewrite <- Hd, take_drop.
  - split; [done|]. intros (a & b & c & -> & Hb). exfalso.
    destruct (search_none _ _ _ (length a) E) as [H|H]; [|rewrite !length_app in H; lia].
    rewrite drop_app_length in H.
    assert (H' : prefix_by eq_insensitive pattern (b ++ c) = true) by (apply prefix_by_insensitive; eauto).
    congruence.
Qed.

(** The codes [failure_code] gives. *)
Definition failure_codes : list bytes :=
  map str ["HTTP_502_GATEWAY"; "HTTP_504_TIMEOUT"; "DNS_RESOLUTION_FAILED"; "TLS_CERTIFICATE_FAILED";
    "TCP_CONNECT_TIMEOUT"; "TLS_HANDSHAKE_TIMEOUT"; "AUTH_PROBE_TIMEOUT"; "MANUAL_RECONNECT";
    "WEBSOCKET_PONG_TIMEOUT"; "WEBSOCKET_PEER_CLOSE"; "AUTHENTICATION_FAILED"; "WEBSOCKET_UPGRADE_FAILED";
    "TCP_CONNECT_FAILED"; "TLS_HANDSHAKE_FAILED"; "CARRIER_UPGRADE_FAILED"; "ESTABLISHED_CONNECTION_LOST"]%string.

Lemma failure_code_in phase reason : failure_code phase reason ∈ failure_codes.
Proof.
  unfold failure_code, failure_codes. cbn [map]. repeat case_match; repeat first [by left | right].
Qed.

Lemma unexplained_unknown code detail : explain_problem code detail = unexplained → code ∉ failure_codes.
Proof.
  unfold explain_problem. intros E.
  repeat match type of E with
  | (if ?b then _ else _) = _ =>
      destruct b eqn:?; [apply (f_equal meaning) in E; vm_compute in E; discriminate E|]
  end.
  bool_to_prop. unfold text_is in *. bool_to_prop. unfold failure_codes. cbn [map].
  rewrite !not_elem_of_cons. repeat split; try done. apply not_elem_of_nil.
Qed.

(** A line of a report: no control characters. *)
Definition printable (c : Z) : bool := (32 <=? c) && negb (c =? 127).
Abbreviation line_ok := (forallb printable).

Lemma explanation_lines code detail :
  line_ok (meaning (explain_problem code detail)) = true
  ∧ line_ok (next_step (explain_problem code detail)) = true.
Proof. unfold explain_problem. repeat case_match; split; vm_compute; reflexivity. Qed.

Lemma clean_from_ok n raw : line_ok (clean_from n raw) = true.
Proof.
  revert n. induction raw as [|c raw IH]; intros n; simpl; [done|].
  destruct (n =? 240); [by vm_compute|]. simpl. rewrite IH, andb_true_r.
  unfold printable. destruct ((c <? 32) || (c =? 127)) eqn:E; [done|]. bool_to_prop.
  rewrite (proj2 (Z.leb_le _ _)), (proj2 (Z.eqb_neq _ _)) by done. done.
Qed.

Lemma length_clean_from n raw : 0 <= n <= 240 → zlen (clean_from n raw) <= 243 - n.
Proof.
  revert n. induction raw as [|c raw IH]; intros n Hn; simpl; [rewrite zlen_nil; lia|].
  destruct (Z.eqb_spec n 240) as [->|]; [by vm_compute|]. rewrite zlen_cons. specialize (IH (n + 1) ltac:(lia)). lia.
Qed.

(** Short texts without control characters are kept. *)
Lemma clean_from_id n raw : 0 <= n → n + zlen raw <= 240 → line_ok raw = true → clean_from n raw = raw.
Proof.
  revert n. induction raw as [|c raw IH]; intros n Hn Hl Hr; simpl in *; [done|].
  rewrite zlen_cons in Hl. pose proof (zlen_nonneg raw). unfold printable in Hr. bool_to_prop.
  rewrite (proj2 (Z.eqb_neq n 240)), (proj2 (Z.ltb_ge c 32)), (proj2 (Z.eqb_neq c 127)) by lia.
  simpl. f_equal. apply IH; [lia|lia|done].
Qed.

(** Cutting a report at its line ends. *)
Fixpoint lines_of (s : bytes) : list bytes :=
  match s with
  | [] => [[]]
  | c :: s =>
      if c =? 10 then [] :: lines_of s
      else match lines_of s with l :: ls => (c :: l) :: ls | [] => [[c]] end
  end.

Lemma lines_of_app l s : line_ok l = true → lines_of (l ++ newline ++ s) = l :: lines_of s.
Proof.
  induction l as [|c l IH]; simpl; [done|]. rewrite andb_true_iff. intros [Hc Hl].
  rewrite (proj2 (Z.eqb_neq c 10)).
  - by rewrite (IH Hl : lines_of (l ++ 10 :: s) = _).
  - intros ->. by vm_compute in Hc.
Qed.

Lemma line_ok_app a b : line_ok (a ++ b) = line_ok a && line_ok b.
Proof. apply forallb_app. Qed.

(** ** Properties *)

(** Whatever text an exception carries, the report is exactly four lines
    without control characters, so that the text of a peer cannot forge a line
    of the log, and the detail is cut to at most 243 bytes and kept as it is
    when it is short and printable. *)
Theorem failure_report_is_four_lines stage code detail :
  line_ok stage = true → line_ok code = true →
  (∃ l1 l2 l3 d, lines_of (friendly_failure stage code detail)
       = [l1; l2; l3; str "        Technical detail: " ++ d; []]
     ∧ Forall (λ l, line_ok l = true) [l1; l2; l3; d]
     ∧ zlen d <= 243 ∧ (zlen detail <= 240 → line_ok detail = true → d = detail)).
Proof.
  intros Hs Hc. destruct (explanation_lines code detail) as [Hm Hn]. unfold friendly_failure.
  set (p := explain_problem code detail) in *. clearbody p.
  set (l1 := str "[ERROR] Connection problem (code=" ++ code ++ str ", stage=" ++ stage ++ str ")").
  set (l2 := str "        Meaning: " ++ meaning p). set (l3 := str "        Next step: " ++ next_step p).
  assert (H1 : line_ok l1 = true).
  { unfold l1. rewrite !line_ok_app, Hs, Hc. by vm_compute. }
  assert (H2 : line_ok l2 = true) by (unfold l2; by rewrite line_ok_app, Hm).
  assert (H3 : line_ok l3 = true) by (unfold l3; by rewrite line_ok_app, Hn).
  assert (H4 : line_ok (clean_log_detail detail) = true) by apply clean_from_ok.
  exists l1, l2, l3, (clean_log_detail detail). split; [|split; [|split]].
  - transitivity (lines_of (l1 ++ newline ++ l2 ++ newline ++ l3 ++ newline
      ++ (str "        Technical detail: " ++ clean_log_detail detail) ++ newline ++ [])).
    { unfold l1, l2, l3. by rewrite <- !app_assoc, app_nil_r. }
    rewrite (lines_of_app l1), (lines_of_app l2), (lines_of_app l3), lines_of_app by (done || by rewrite line_ok_app, H4).
    done.
  - repeat constructor; done.
  - apply (length_clean_from 0). lia.
  - intros Hl Hd. by apply clean_from_id.
Qed.

(** The sum of the reconnection counters of the statistics. *)
Definition reconnections (st : Reconnects) : Z :=
  reconnect_pong_timeout st + reconnect_tx_timeout st + reconnect_idle st
  + reconnect_session st + reconnect_network st + reconnect_manual st.

Definition counters_ok (st : Reconnects) : Prop :=
  Forall (λ n, 0 <= n < 2 ^ 64 - 1)
    [tx_stalls st; reconnect_pong_timeout st; reconnect_tx_timeout st; reconnect_idle st;
     reconnect_session st; reconnect_network st; reconnect_manual st].

(** Every failure has an explanation other than the one of last resort, and
    is counted exactly once, in the counter of its cause, unless it is a missed
    probe reply, which another counter has. *)
Theorem failures_explained_and_counted phase reason st :
  counters_ok st →
  explain_problem (failure_code phase reason) reason ≠ unexplained
  ∧ reconnections (classify_reconnect reason st)
    = reconnections st + (if contains (str "authenticated probe reply timeout") reason then 0 else 1)
  ∧ tx_stalls (classify_reconnect reason st) - tx_stalls st
    = reconnect_tx_timeout (classify_reconnect reason st) - reconnect_tx_timeout st.
Proof.
  intros Hok. split; [|].
  - intros E%unexplained_unknown. apply E, failure_code_in.
  - destruct st as [stalls pong tx idle session network manual]. unfold counters_ok in Hok.
    rewrite !Forall_cons in Hok. simpl in Hok. destruct Hok as (?&?&?&?&?&?&?&_).
    unfold classify_reconnect. repeat case_match; unfold reconnections; simpl; unfold u64;
      rewrite ?Z.mod_small by lia; lia.
Qed.

(** ** Witnesses *)

Lemma failure_report_is_four_lines_witness :
  ∃ l1 l2 l3 d, lines_of (friendly_failure (str "ONLINE") (str "MANUAL_RECONNECT") (str "line one" ++ newline ++ str "[ERROR] forged"))
    = [l1; l2; l3; str "        Technical detail: " ++ d; []]
  ∧ Forall (λ l, line_ok l = true) [l1; l2; l3; d] ∧ zlen d <= 243.
Proof.
  destruct (failure_report_is_four_lines (str "ONLINE") (str "MANUAL_RECONNECT")
              (str "line one" ++ newline ++ str "[ERROR] forged") eq_refl eq_refl)
    as (l1 & l2 & l3 & d & H1 & H2 & H3 & _).
  exists l1, l2, l3, d. auto.
Defined.

Lemma failures_explained_and_counted_witness :
  reconnections (classify_reconnect (str "WebSocket TX no-progress timeout") (reconnect_counts 1 1 1 1 1 1 1)) = 7.
Proof.
  rewrite (proj1 (proj2 (failures_explained_and_counted 7 (str "WebSocket TX no-progress timeout")
             (reconnect_counts 1 1 1 1 1 1 1) ltac:(repeat constructor; simpl; lia)))).
  vm_compute. reflexivity.
Defined.
