(* ===== verification/Config.v ===== *)
(** * Configuration (cdn/include/pacetun/config.hpp, cdn/src/config.cpp)

    The configuration file, the profiles, the low-memory caps and the
    validation. [load_config] reads six settings into members that
    [struct Config] of the header does not declare; the model has these members
    at the end of the record, and their initial values, which no source gives,
    are the class [UndeclaredFields]. *)

From S2P Require Import Prelude Text Record.

(** ** The record *)

(** [Config] src/cdn/include/pacetun/config.hpp:6-81 *)
Record Config := mkConfig {
  mode : bytes; transport : bytes; listen : bytes; server : bytes; server_name : bytes;
  path : bytes; host_header : bytes; max_connections : Z; pool_drain_sec : Z;
  pool_idle_poll_ms : Z; address_family : bytes; flow_scheduler : bool; edge_dns_rotation : bool;
  websocket_tls : bool; tls_backend : bytes; tls_adapter_socket : bytes; websocket_ping_sec : Z;
  websocket_pong_timeout_sec : Z; websocket_poll_ms : Z; websocket_upgrade_timeout_sec : Z;
  websocket_io_timeout_sec : Z; websocket_padding_max_bytes : Z;
  websocket_control_padding_bytes : Z; padding_budget_pct : Z; timing_jitter_pct : Z;
  reply_degraded_sec : Z; reply_renew_sec : Z; reply_timeout_sec : Z; candidate_max_rtt_ms : Z;
  latency_renew_ms : Z; latency_renew_samples : Z; latency_renew_cooldown_sec : Z;
  idle_probe_sec : Z; log_format : bytes; listen_backlog : Z; session_max_age_sec : Z;
  dev : bytes; cidr : bytes; peer_cidr : bytes; mtu : Z; tls_cert : bytes; tls_key : bytes;
  tls_ca : bytes; verify_peer : bool; psk_file : bytes; psk_previous_file : bytes;
  profile : bytes; resource_profile : bytes; max_record_buffer_bytes : Z; control_mode : Z;
  queue_packets : Z; queue_bytes : Z; queue_delay_ms : Z; batch_packets : Z; batch_bytes : Z;
  adaptive_batching : bool; adaptive_batch_min_packets : Z; adaptive_batch_max_packets : Z;
  queue_target_delay_ms : Z; connect_timeout_sec : Z; idle_timeout_sec : Z; keepalive_sec : Z;
  rtt_probe_sec : Z; reconnect_initial_ms : Z; reconnect_max_ms : Z; reconnect_jitter_pct : Z;
  tcp_keepidle_sec : Z; tcp_keepintvl_sec : Z; tcp_keepcnt : Z; tcp_user_timeout_ms : Z;
  sndbuf : Z; rcvbuf : Z; stats_interval_sec : Z; control_socket : bytes;
  strict_file_permissions : bool; browser_profile : bytes; traffic_shaping : bool;
  shaping_startup_ms : Z; shaping_delay_ms : Z; shaping_rate_bytes : Z; shaping_burst_bytes : Z }.

Class UndeclaredFields := {
  undeclared_browser_profile : bytes; undeclared_traffic_shaping : bool;
  undeclared_shaping_startup_ms : Z; undeclared_shaping_delay_ms : Z;
  undeclared_shaping_rate_bytes : Z; undeclared_shaping_burst_bytes : Z }.

(** The member initialisers of the structure. *)
Definition default_config `{UndeclaredFields} : Config := {|
  mode := []; transport := str "tls"; listen := []; server := []; server_name := [];
  path := str "/assets/api/v6"; host_header := []; max_connections := 1; pool_drain_sec := 30;
  pool_idle_poll_ms := 100; address_family := str "auto"; flow_scheduler := false;
  edge_dns_rotation := false; websocket_tls := true; tls_backend := str "openssl";
  tls_adapter_socket := str "/run/pacetun-utls/bridge.sock"; websocket_ping_sec := 0;
  websocket_pong_timeout_sec := 0; websocket_poll_ms := 5; websocket_upgrade_timeout_sec := 10;
  websocket_io_timeout_sec := 30; websocket_padding_max_bytes := 0;
  websocket_control_padding_bytes := 0; padding_budget_pct := 10; timing_jitter_pct := 15;
  reply_degraded_sec := 10; reply_renew_sec := 30; reply_timeout_sec := 60;
  candidate_max_rtt_ms := 1500; latency_renew_ms := 600; latency_renew_samples := 3;
  latency_renew_cooldown_sec := 180; idle_probe_sec := 45; log_format := str "human";
  listen_backlog := 128; session_max_age_sec := 0; dev := str "phtun0"; cidr := [];
  peer_cidr := []; mtu := 1280; tls_cert := []; tls_key := []; tls_ca := []; verify_peer := true;
  psk_file := []; psk_previous_file := []; profile := str "balanced";
  resource_profile := str "normal"; max_record_buffer_bytes := 262144; control_mode := 432;
  queue_packets := 4096; queue_bytes := 8 * 1024 * 1024; queue_delay_ms := 500;
  batch_packets := 8; batch_bytes := 16384; adaptive_batching := true;
  adaptive_batch_min_packets := 1; adaptive_batch_max_packets := 16; queue_target_delay_ms := 40;
  connect_timeout_sec := 10; idle_timeout_sec := 300; keepalive_sec := 10; rtt_probe_sec := 30;
  reconnect_initial_ms := 500; reconnect_max_ms := 15000; reconnect_jitter_pct := 20;
  tcp_keepidle_sec := 15; tcp_keepintvl_sec := 5; tcp_keepcnt := 3; tcp_user_timeout_ms := 20000;
  sndbuf := 4 * 1024 * 1024; rcvbuf := 4 * 1024 * 1024; stats_interval_sec := 5;
  control_socket := []; strict_file_permissions := true;
  browser_profile := undeclared_browser_profile; traffic_shaping := undeclared_traffic_shaping;
  shaping_startup_ms := undeclared_shaping_startup_ms;
  shaping_delay_ms := undeclared_shaping_delay_ms;
  shaping_rate_bytes := undeclared_shaping_rate_bytes;
  shaping_burst_bytes := undeclared_shaping_burst_bytes |}.

(** ** Text fields *)

Definition is_empty (s : bytes) : bool := (length s =? 0)%nat.
Definition first_is (c : Z) (s : bytes) : bool := bool_decide (head s = Some c).

(** [bval] src/cdn/src/config.cpp:12-12 *)
Definition bval (v : bytes) : res bool :=
  if text_is v "1" || text_is v "true" || text_is v "yes" || text_is v "on" then Ok true
  else if text_is v "0" || text_is v "false" || text_is v "no" || text_is v "off" then Ok false
  else Err (str "invalid boolean: " ++ v).

(** The settings read from the file. *)
Abbreviation Settings := (gmap bytes bytes).

(** [ival] src/cdn/src/config.cpp:13-13 *)
Definition ival (m : Settings) (k : string) (d : Z) : res Z :=
  match m !! str k with None => Ok d | Some v => stoi v end.
(** [zval] src/cdn/src/config.cpp:14-14 *)
Definition zval (m : Settings) (k : string) (d : Z) : res Z :=
  match m !! str k with None => Ok d | Some v => stoull v end.
(** [sval] src/cdn/src/config.cpp:15-15 *)
Definition sval (m : Settings) (k : string) (d : bytes) : bytes := default d (m !! str k).
(** A boolean setting: [if (auto i = m.find(k); i != m.end()) c.k = bval(i->second)]. *)
Definition bopt (m : Settings) (k : string) (d : bool) : res bool :=
  match m !! str k with None => Ok d | Some v => bval v end.
(** The file mode, in octal: [std::stoi(i->second, nullptr, 8)]. *)
Definition octal (m : Settings) (k : string) (d : Z) : res Z :=
  match m !! str k with None => Ok d | Some v => stoi_base 8 v end.

(** [range] src/cdn/src/config.cpp:16-16 *)
Definition range (n : string) (v lo hi : Z) : res unit :=
  throw_if ((v <? lo) || (hi <? v)) (str n ++ str " out of range").

(** [std::size_t] as [long long], and [int] as [std::size_t]. *)
Definition s64 (z : Z) : Z := if z <? 2 ^ 63 then z else z - 2 ^ 64.
Definition range_z (n : string) (v lo hi : Z) : res unit := range n (s64 v) lo hi.

(** Sums of [int]s: the validation adds settings before their ranges are
    checked. An overflow is undefined behaviour in C++; the model wraps. *)
Definition i32 (z : Z) : Z := (z + 2 ^ 31) mod 2 ^ 32 - 2 ^ 31.

(** [validate_http_field] src/cdn/src/config.cpp:17-24 *)
Definition validate_http_field (name : string) (s : bytes) (max_len : Z) (allow_empty : bool) : res unit :=
  if is_empty s then
    if allow_empty then Ok tt else Err (str name ++ str " is required")
  else
    throw_if (max_len <? zlen s) (str name ++ str " is too long") ;;
    throw_if (existsb (λ c, (c <=? 32) || (c =? 127)) s)
      (str name ++ str " contains whitespace/control characters").

(** The host and the port of an endpoint.
    [validate_endpoint] src/cdn/src/config.cpp:27-36 *)
Definition endpoint_parts (name : string) (s : bytes) : res (bytes * bytes) :=
  if first_is 91 s then
    match find_char 93 s with
    | None => Err (str name ++ str " must use [ipv6]:port")
    | Some rb =>
        throw_if ((rb =? 1)%nat || (length s <=? rb + 1)%nat || negb (at_ s (rb + 1) =? 58)
                  || (length s <=? rb + 2)%nat) (str name ++ str " must use [ipv6]:port") ;;
        Ok (substr 1 (rb - 1) s, drop (rb + 2) s)
    end
  else
    match find_char 58 s with
    | None => Err (str name ++ str " must use host:port (IPv6 requires brackets)")
    | Some first =>
        throw_if ((first =? 0)%nat || negb (bool_decide (rfind_char 58 s = Some first))
                  || (length s <=? first + 1)%nat)
          (str name ++ str " must use host:port (IPv6 requires brackets)") ;;
        Ok (take first s, drop (first + 1) s)
    end.

(** [validate_endpoint] src/cdn/src/config.cpp:25-40 *)
Definition validate_endpoint (name : string) (s : bytes) : res unit :=
  throw_if (is_empty s) (str name ++ str " is empty") ;;
  '(host, port) ← endpoint_parts name s ;
  throw_if (is_empty host || is_empty port || negb (forallb isdigit port))
    (str name ++ str " has invalid host/port") ;;
  value ← match stoul port with Ok v => Ok v | Err _ => Err (str name ++ str " has invalid port") end ;
  throw_if ((value <? 1) || (65535 <? value)) (str name ++ str " port out of range").

(** ** Profiles *)

(** The settings a profile chooses. *)
Definition with_profile (c : Config) (queue_packets' queue_bytes' queue_delay_ms' batch_packets' batch_bytes' queue_target_delay_ms' sndbuf' rcvbuf' keepalive_sec' rtt_probe_sec' websocket_poll_ms' : Z) : Config := {|
  mode := mode c; transport := transport c; listen := listen c; server := server c;
  server_name := server_name c; path := path c; host_header := host_header c;
  max_connections := max_connections c; pool_drain_sec := pool_drain_sec c;
  pool_idle_poll_ms := pool_idle_poll_ms c; address_family := address_family c;
  flow_scheduler := flow_scheduler c; edge_dns_rotation := edge_dns_rotation c;
  websocket_tls := websocket_tls c; tls_backend := tls_backend c;
  tls_adapter_socket := tls_adapter_socket c; websocket_ping_sec := websocket_ping_sec c;
  websocket_pong_timeout_sec := websocket_pong_timeout_sec c;
  websocket_poll_ms := websocket_poll_ms';
  websocket_upgrade_timeout_sec := websocket_upgrade_timeout_sec c;
  websocket_io_timeout_sec := websocket_io_timeout_sec c;
  websocket_padding_max_bytes := websocket_padding_max_bytes c;
  websocket_control_padding_bytes := websocket_control_padding_bytes c;
  padding_budget_pct := padding_budget_pct c; timing_jitter_pct := timing_jitter_pct c;
  reply_degraded_sec := reply_degraded_sec c; reply_renew_sec := reply_renew_sec c;
  reply_timeout_sec := reply_timeout_sec c; candidate_max_rtt_ms := candidate_max_rtt_ms c;
  latency_renew_ms := latency_renew_ms c; latency_renew_samples := latency_renew_samples c;
  latency_renew_cooldown_sec := latency_renew_cooldown_sec c; idle_probe_sec := idle_probe_sec c;
  log_format := log_format c; listen_backlog := listen_backlog c;
  session_max_age_sec := session_max_age_sec c; dev := dev c; cidr := cidr c;
  peer_cidr := peer_cidr c; mtu := mtu c; tls_cert := tls_cert c; tls_key := tls_key c;
  tls_ca := tls_ca c; verify_peer := verify_peer c; psk_file := psk_file c;
  psk_previous_file := psk_previous_file c; profile := profile c;
  resource_profile := resource_profile c; max_record_buffer_bytes := max_record_buffer_bytes c;
  control_mode := control_mode c; queue_packets := queue_packets'; queue_bytes := queue_bytes';
  queue_delay_ms := queue_delay_ms'; batch_packets := batch_packets'; batch_bytes := batch_bytes';
  adaptive_batching := adaptive_batching c;
  adaptive_batch_min_packets := adaptive_batch_min_packets c;
  adaptive_batch_max_packets := adaptive_batch_max_packets c;
  queue_target_delay_ms := queue_target_delay_ms'; connect_timeout_sec := connect_timeout_sec c;
  idle_timeout_sec := idle_timeout_sec c; keepalive_sec := keepalive_sec';
  rtt_probe_sec := rtt_probe_sec'; reconnect_initial_ms := reconnect_initial_ms c;
  reconnect_max_ms := reconnect_max_ms c; reconnect_jitter_pct := reconnect_jitter_pct c;
  tcp_keepidle_sec := tcp_keepidle_sec c; tcp_keepintvl_sec := tcp_keepintvl_sec c;
  tcp_keepcnt := tcp_keepcnt c; tcp_user_timeout_ms := tcp_user_timeout_ms c; sndbuf := sndbuf';
  rcvbuf := rcvbuf'; stats_interval_sec := stats_interval_sec c;
  control_socket := control_socket c; strict_file_permissions := strict_file_permissions c;
  browser_profile := browser_profile c; traffic_shaping := traffic_shaping c;
  shaping_startup_ms := shaping_startup_ms c; shaping_delay_ms := shaping_delay_ms c;
  shaping_rate_bytes := shaping_rate_bytes c; shaping_burst_bytes := shaping_burst_bytes c |}.

(** [apply_profile] src/cdn/src/config.cpp:42-56 *)
Definition apply_profile (c : Config) (p : bytes) : Config :=
  if text_is p "balanced" then
    with_profile c 4096 (8 * 1024 * 1024) 500 8 16384 40 (4 * 1024 * 1024) (4 * 1024 * 1024) 10 5 5
  else if text_is p "lightning" then
    with_profile c 2048 (4 * 1024 * 1024) 25 1 4096 10 (2 * 1024 * 1024) (2 * 1024 * 1024) 5 3 1
  else if text_is p "bulk" then
    with_profile c 8192 (16 * 1024 * 1024) 1000 32 65536 100 (8 * 1024 * 1024) (8 * 1024 * 1024) 15 10 15
  else if text_is p "ultra" then
    with_profile c 16384 (32 * 1024 * 1024) 750 64 131072 60 (16 * 1024 * 1024) (16 * 1024 * 1024) 10 5 2
  else c.

(** The settings the low-memory profile caps. *)
Definition with_caps (c : Config) (max_record_buffer_bytes' queue_packets' queue_bytes' queue_delay_ms' batch_packets' batch_bytes' sndbuf' rcvbuf' stats_interval_sec' : Z) : Config := {|
  mode := mode c; transport := transport c; listen := listen c; server := server c;
  server_name := server_name c; path := path c; host_header := host_header c;
  max_connections := max_connections c; pool_drain_sec := pool_drain_sec c;
  pool_idle_poll_ms := pool_idle_poll_ms c; address_family := address_family c;
  flow_scheduler := flow_scheduler c; edge_dns_rotation := edge_dns_rotation c;
  websocket_tls := websocket_tls c; tls_backend := tls_backend c;
  tls_adapter_socket := tls_adapter_socket c; websocket_ping_sec := websocket_ping_sec c;
  websocket_pong_timeout_sec := websocket_pong_timeout_sec c;
  websocket_poll_ms := websocket_poll_ms c;
  websocket_upgrade_timeout_sec := websocket_upgrade_timeout_sec c;
  websocket_io_timeout_sec := websocket_io_timeout_sec c;
  websocket_padding_max_bytes := websocket_padding_max_bytes c;
  websocket_control_padding_bytes := websocket_control_padding_bytes c;
  padding_budget_pct := padding_budget_pct c; timing_jitter_pct := timing_jitter_pct c;
  reply_degraded_sec := reply_degraded_sec c; reply_renew_sec := reply_renew_sec c;
  reply_timeout_sec := reply_timeout_sec c; candidate_max_rtt_ms := candidate_max_rtt_ms c;
  latency_renew_ms := latency_renew_ms c; latency_renew_samples := latency_renew_samples c;
  latency_renew_cooldown_sec := latency_renew_cooldown_sec c; idle_probe_sec := idle_probe_sec c;
  log_format := log_format c; listen_backlog := listen_backlog c;
  session_max_age_sec := session_max_age_sec c; dev := dev c; cidr := cidr c;
  peer_cidr := peer_cidr c; mtu := mtu c; tls_cert := tls_cert c; tls_key := tls_key c;
  tls_ca := tls_ca c; verify_peer := verify_peer c; psk_file := psk_file c;
  psk_previous_file := psk_previous_file c; profile := profile c;
  resource_profile := resource_profile c; max_record_buffer_bytes := max_record_buffer_bytes';
  control_mode := control_mode c; queue_packets := queue_packets'; queue_bytes := queue_bytes';
  queue_delay_ms := queue_delay_ms'; batch_packets := batch_packets'; batch_bytes := batch_bytes';
  adaptive_batching := adaptive_batching c;
  adaptive_batch_min_packets := adaptive_batch_min_packets c;
  adaptive_batch_max_packets := adaptive_batch_max_packets c;
  queue_target_delay_ms := queue_target_delay_ms c; connect_timeout_sec := connect_timeout_sec c;
  idle_timeout_sec := idle_timeout_sec c; keepalive_sec := keepalive_sec c;
  rtt_probe_sec := rtt_probe_sec c; reconnect_initial_ms := reconnect_initial_ms c;
  reconnect_max_ms := reconnect_max_ms c; reconnect_jitter_pct := reconnect_jitter_pct c;
  tcp_keepidle_sec := tcp_keepidle_sec c; tcp_keepintvl_sec := tcp_keepintvl_sec c;
  tcp_keepcnt := tcp_keepcnt c; tcp_user_timeout_ms := tcp_user_timeout_ms c; sndbuf := sndbuf';
  rcvbuf := rcvbuf'; stats_interval_sec := stats_interval_sec';
  control_socket := control_socket c; strict_file_permissions := strict_file_permissions c;
  browser_profile := browser_profile c; traffic_shaping := traffic_shaping c;
  shaping_startup_ms := shaping_startup_ms c; shaping_delay_ms := shaping_delay_ms c;
  shaping_rate_bytes := shaping_rate_bytes c; shaping_burst_bytes := shaping_burst_bytes c |}.

(** [apply_resource_cap] src/cdn/src/config.cpp:57-67 *)
Definition apply_resource_cap (c : Config) (r : bytes) : Config :=
  if negb (text_is r "lowmem") then c
  else with_caps c (Z.min (max_record_buffer_bytes c) 131072) (Z.min (queue_packets c) 512)
         (Z.min (queue_bytes c) (1024 * 1024)) (Z.min (queue_delay_ms c) 250)
         (Z.min (batch_packets c) 4) (Z.min (batch_bytes c) 8192)
         (Z.min (sndbuf c) 524288) (Z.min (rcvbuf c) 524288) (Z.max (stats_interval_sec c) 10).

(** ** Validation *)

(** The checks on connections, padding and reply deadlines.
    [validate_config] src/cdn/src/config.cpp:115-144 *)
Definition validate_traffic (c : Config) : res unit :=
  range "max_connections" (max_connections c) 1 4 ;;
  range "pool_drain_sec" (pool_drain_sec c) 1 120 ;;
  range "pool_idle_poll_ms" (pool_idle_poll_ms c) 1 250 ;;
  throw_if (negb (text_is (address_family c) "auto") && negb (text_is (address_family c) "ipv4")
            && negb (text_is (address_family c) "ipv6")) (str "address_family must be auto, ipv4 or ipv6") ;;
  throw_if ((1 <? max_connections c) && negb (text_is (transport c) "websocket"))
    (str "max_connections requires websocket") ;;
  throw_if ((2 <? max_connections c) && text_is (resource_profile c) "lowmem")
    (str "lowmem limits max_connections to 2") ;;
  range "websocket_control_padding_bytes" (websocket_control_padding_bytes c) 0 1024 ;;
  throw_if (negb (text_is (browser_profile c) "none") && negb (text_is (browser_profile c) "firefox120")
            && negb (text_is (browser_profile c) "chrome120")) (str "invalid browser_profile") ;;
  range "shaping_startup_ms" (shaping_startup_ms c) 0 10000 ;;
  range "shaping_delay_ms" (shaping_delay_ms c) 0 10 ;;
  range "shaping_rate_bytes" (shaping_rate_bytes c) 0 65536 ;;
  range "shaping_burst_bytes" (shaping_burst_bytes c) 0 65536 ;;
  throw_if (traffic_shaping c && (negb (text_is (transport c) "websocket")
              || (websocket_padding_max_bytes c =? 0) || (websocket_control_padding_bytes c =? 0)))
    (str "traffic_shaping requires websocket transport and nonzero data/control padding limits") ;;
  range "padding_budget_pct" (padding_budget_pct c) 0 50 ;;
  range "latency_renew_ms" (latency_renew_ms c) 0 60000 ;;
  range "latency_renew_samples" (latency_renew_samples c) 2 20 ;;
  range "latency_renew_cooldown_sec" (latency_renew_cooldown_sec c) 60 3600 ;;
  range "idle_probe_sec" (idle_probe_sec c) 0 300 ;;
  range "reply_degraded_sec" (reply_degraded_sec c) 2 60 ;;
  range "reply_renew_sec" (reply_renew_sec c) 5 120 ;;
  range "reply_timeout_sec" (reply_timeout_sec c) 10 300 ;;
  range "candidate_max_rtt_ms" (candidate_max_rtt_ms c) 100 5000 ;;
  throw_if ((reply_renew_sec c <=? reply_degraded_sec c) || (reply_timeout_sec c <=? reply_renew_sec c))
    (str "reply deadlines must increase: degraded < renew < timeout") ;;
  range "timing_jitter_pct" (timing_jitter_pct c) 0 30 ;;
  throw_if (negb (text_is (log_format c) "human") && negb (text_is (log_format c) "legacy"))
    (str "log_format must be human or legacy") ;;
  throw_if (negb (websocket_control_padding_bytes c =? 0) && negb (text_is (transport c) "websocket"))
    (str "control padding requires websocket") ;;
  throw_if (negb (websocket_control_padding_bytes c =? 0)
            && (batch_bytes c <? u64 (i32 (Z.max (i32 (mtu c + websocket_padding_max_bytes c))
                                             (i32 (8 + websocket_control_padding_bytes c)) + 35))))
    (str "batch_bytes too small for padded envelope") ;;
  range "websocket_padding_max_bytes" (websocket_padding_max_bytes c) 0 1024 ;;
  throw_if (negb (websocket_padding_max_bytes c =? 0) && negb (text_is (transport c) "websocket"))
    (str "padding requires websocket transport").

(** The checks on the roles, the endpoints, TLS and the names.
    [validate_config] src/cdn/src/config.cpp:145-201 *)
Definition validate_identity (c : Config) : res unit :=
  let is_server := text_is (mode c) "server" in
  let is_client := text_is (mode c) "client" in
  let is_websocket := text_is (transport c) "websocket" in
  throw_if (negb (text_is (transport c) "tls") && negb is_websocket) (str "transport must be tls or websocket") ;;
  throw_if (negb is_server && negb is_client) (str "mode must be server or client") ;;
  throw_if (is_server && is_empty (listen c)) (str "listen is required in server mode") ;;
  throw_if (is_client && (is_empty (server c) || is_empty (server_name c)))
    (str "server and server_name are required in client mode") ;;
  throw_if (is_server && is_empty (server_name c)) (str "server_name is required in server mode") ;;
  validate_http_field "server_name" (server_name c) 255 false ;;
  validate_http_field "host_header" (host_header c) 255 true ;;
  (if is_server then validate_endpoint "listen" (listen c)
   else validate_endpoint "server" (server c)) ;;
  throw_if (is_empty (path c) || negb (first_is 47 (path c))) (str "path must start with /") ;;
  validate_http_field "path" (path c) 2048 false ;;
  throw_if (is_empty (dev c) || (15 <? zlen (dev c))) (str "dev must contain 1..15 characters") ;;
  throw_if (is_empty (cidr c) || is_empty (peer_cidr c)) (str "cidr and peer_cidr are required") ;;
  throw_if (is_server && text_is (transport c) "tls" && (is_empty (tls_cert c) || is_empty (tls_key c)))
    (str "tls_cert and tls_key are required in server mode") ;;
  throw_if (negb (text_is (tls_backend c) "openssl") && negb (text_is (tls_backend c) "utls"))
    (str "tls_backend must be openssl or utls") ;;
  (if text_is (tls_backend c) "utls" then
     throw_if (negb is_client || negb is_websocket || negb (websocket_tls c) || negb (verify_peer c))
       (str "uTLS adapter requires authenticated HTTPS WebSocket client") ;;
     throw_if (edge_dns_rotation c)
       (str "disable edge_dns_rotation with uTLS: adapter performs DNS resolution") ;;
     throw_if (is_empty (tls_adapter_socket c) || negb (first_is 47 (tls_adapter_socket c))
               || (100 <=? zlen (tls_adapter_socket c)) || contains (str "..") (tls_adapter_socket c))
       (str "tls_adapter_socket must be a short absolute path without ..")
   else Ok tt) ;;
  throw_if (edge_dns_rotation c && (negb is_client || negb is_websocket))
    (str "edge_dns_rotation requires websocket client") ;;
  throw_if (is_client && is_websocket && (negb (websocket_tls c) || negb (verify_peer c)))
    (str "WSS requires websocket_tls=1 and verify_peer=1") ;;
  let client_uses_tls := is_client && (negb is_websocket || websocket_tls c) in
  throw_if (client_uses_tls && verify_peer c && is_empty (tls_ca c))
    (str "tls_ca is required when verify_peer=1") ;;
  throw_if (is_empty (psk_file c)) (str "psk_file is required") ;;
  throw_if (negb (text_is (profile c) "balanced") && negb (text_is (profile c) "lightning")
            && negb (text_is (profile c) "bulk") && negb (text_is (profile c) "ultra"))
    (str "profile must be balanced, lightning, bulk, or ultra") ;;
  throw_if (negb (text_is (resource_profile c) "normal") && negb (text_is (resource_profile c) "lowmem"))
    (str "resource_profile must be normal or lowmem").

(** The ranges of the numbers.
    [validate_config] src/cdn/src/config.cpp:203-259 *)
Definition validate_numbers (c : Config) : res unit :=
  range "mtu" (mtu c) 576 9000 ;;
  range "websocket_ping_sec" (websocket_ping_sec c) 0 300 ;;
  range "websocket_pong_timeout_sec" (websocket_pong_timeout_sec c) 0 120 ;;
  range "websocket_poll_ms" (websocket_poll_ms c) 1 100 ;;
  range "websocket_upgrade_timeout_sec" (websocket_upgrade_timeout_sec c) 1 120 ;;
  range "websocket_io_timeout_sec" (websocket_io_timeout_sec c) 1 300 ;;
  range "listen_backlog" (listen_backlog c) 16 4096 ;;
  range "session_max_age_sec" (session_max_age_sec c) 0 604800 ;;
  range_z "max_record_buffer_bytes" (max_record_buffer_bytes c) 65536 16777216 ;;
  range "control_mode" (control_mode c) 0 511 ;;
  range_z "queue_packets" (queue_packets c) 16 1000000 ;;
  range_z "queue_bytes" (queue_bytes c) 65536 (2 ^ 31) ;;
  range "queue_delay_ms" (queue_delay_ms c) 10 60000 ;;
  range "batch_packets" (batch_packets c) 1 256 ;;
  range_z "batch_bytes" (batch_bytes c) 1024 (4 * 1024 * 1024) ;;
  throw_if (text_is (transport c) "websocket"
            && (batch_bytes c <? u64 (mtu c + 32 + (if websocket_padding_max_bytes c =? 0 then 0
                                                    else 2 + websocket_padding_max_bytes c))))
    (str "batch_bytes must be at least mtu + 32 (plus 2 + websocket_padding_max_bytes when padding is enabled) for PTT5 WebSocket records") ;;
  range "adaptive_batch_min_packets" (adaptive_batch_min_packets c) 1 256 ;;
  range "adaptive_batch_max_packets" (adaptive_batch_max_packets c) (adaptive_batch_min_packets c) 256 ;;
  range "queue_target_delay_ms" (queue_target_delay_ms c) 1 60000 ;;
  throw_if (text_is (transport c) "websocket" && adaptive_batching c
            && (queue_delay_ms c <? queue_target_delay_ms c))
    (str "queue_target_delay_ms must not exceed queue_delay_ms for adaptive WebSocket batching") ;;
  range "connect_timeout_sec" (connect_timeout_sec c) 1 300 ;;
  range "idle_timeout_sec" (idle_timeout_sec c) 5 3600 ;;
  range "keepalive_sec" (keepalive_sec c) 0 300 ;;
  range "rtt_probe_sec" (rtt_probe_sec c) 0 300 ;;
  range "reconnect_initial_ms" (reconnect_initial_ms c) 100 60000 ;;
  range "reconnect_max_ms" (reconnect_max_ms c) (reconnect_initial_ms c) 600000 ;;
  range "reconnect_jitter_pct" (reconnect_jitter_pct c) 0 50 ;;
  range "tcp_keepidle_sec" (tcp_keepidle_sec c) 1 3600 ;;
  range "tcp_keepintvl_sec" (tcp_keepintvl_sec c) 1 300 ;;
  range "tcp_keepcnt" (tcp_keepcnt c) 1 20 ;;
  range "tcp_user_timeout_ms" (tcp_user_timeout_ms c) 1000 600000 ;;
  range "sndbuf" (sndbuf c) 65536 (2 ^ 30) ;;
  range "rcvbuf" (rcvbuf c) 65536 (2 ^ 30) ;;
  range "stats_interval_sec" (stats_interval_sec c) 1 300 ;;
  throw_if (is_empty (control_socket c)) (str "control_socket is required") ;;
  throw_if (100 <=? zlen (control_socket c)) (str "control_socket path is too long").

(** [validate_config] src/cdn/src/config.cpp:114-260 *)
Definition validate_config (c : Config) : res unit :=
  validate_traffic c ;; validate_identity c ;; validate_numbers c.

(** ** Loading *)

(** [std::getline] until the end of the file. *)
Fixpoint getlines (text : bytes) : list bytes :=
  match text with
  | [] => []
  | c :: text =>
      if c =? 10 then [] :: getlines text
      else match getlines text with
           | l :: ls => (c :: l) :: ls
           | [] => [[c]]
           end
  end.

(** What a line of the file says.
    [load_config] src/cdn/src/config.cpp:73-73 *)
Inductive Line := Blank | NoEquals | NoKey | Setting (key value : bytes).

(** [load_config] src/cdn/src/config.cpp:73-73 *)
Definition parse_line (line : bytes) : Line :=
  let line := match find_char 35 line with Some h => take h line | None => line end in
  let line := trim line in
  if is_empty line then Blank
  else match find_char 61 line with
       | None => NoEquals
       | Some e =>
           let k := trim (take e line) in
           let v := trim (drop (e + 1) line) in
           if is_empty k then NoKey else Setting k v
       end.

(** The loop over the lines of the file.
    [load_config] src/cdn/src/config.cpp:72-73 *)
Fixpoint parse_lines (no : Z) (m : Settings) (lines : list bytes) : res Settings :=
  match lines with
  | [] => Ok m
  | line :: lines =>
      let no := no + 1 in
      match parse_line line with
      | Blank => parse_lines no m lines
      | NoEquals => Err (str "config line " ++ to_string no ++ str ": expected key=value")
      | NoKey => Err (str "config line " ++ to_string no ++ str ": empty key")
      | Setting k v =>
          match m !! k with
          | Some _ => Err (str "duplicate config key: " ++ k)
          | None => parse_lines no (<[k := v]> m) lines
          end
      end
  end.

(** [load_config] src/cdn/src/config.cpp:103-103 *)
Definition known_keys : list bytes := map str [
  "browser_profile"; "traffic_shaping"; "shaping_startup_ms"; "shaping_delay_ms";
  "shaping_rate_bytes"; "shaping_burst_bytes"; "pool_drain_sec"; "pool_idle_poll_ms";
  "address_family"; "reply_degraded_sec"; "reply_renew_sec"; "reply_timeout_sec";
  "candidate_max_rtt_ms"; "latency_renew_ms"; "latency_renew_samples";
  "latency_renew_cooldown_sec"; "idle_probe_sec"; "websocket_control_padding_bytes";
  "padding_budget_pct"; "timing_jitter_pct"; "log_format"; "websocket_padding_max_bytes";
  "flow_scheduler"; "max_connections"; "mode"; "transport"; "listen"; "server"; "server_name";
  "path"; "host_header"; "edge_dns_rotation"; "tls_backend"; "tls_adapter_socket";
  "websocket_tls"; "websocket_ping_sec"; "websocket_pong_timeout_sec"; "websocket_poll_ms";
  "websocket_upgrade_timeout_sec"; "websocket_io_timeout_sec"; "listen_backlog";
  "session_max_age_sec"; "dev"; "cidr"; "peer_cidr"; "mtu"; "tls_cert"; "tls_key"; "tls_ca";
  "verify_peer"; "psk_file"; "psk_previous_file"; "profile"; "resource_profile";
  "max_record_buffer_bytes"; "control_mode"; "queue_packets"; "queue_bytes"; "queue_delay_ms";
  "batch_packets"; "batch_bytes"; "adaptive_batching"; "adaptive_batch_min_packets";
  "adaptive_batch_max_packets"; "queue_target_delay_ms"; "connect_timeout_sec";
  "idle_timeout_sec"; "keepalive_sec"; "rtt_probe_sec"; "reconnect_initial_ms";
  "reconnect_max_ms"; "reconnect_jitter_pct"; "tcp_keepidle_sec"; "tcp_keepintvl_sec";
  "tcp_keepcnt"; "tcp_user_timeout_ms"; "sndbuf"; "rcvbuf"; "stats_interval_sec";
  "control_socket"; "strict_file_permissions"]%string.

(** The order in which a [std::unordered_map] yields its keys: some order. *)
Class KeyOrder := {
  keys_in_order : Settings → list bytes;
  keys_in_order_all : ∀ m, Permutation (keys_in_order m) (map fst (map_to_list m)) }.

(** [load_config] src/cdn/src/config.cpp:104-109 *)
Definition check_known `{KeyOrder} (m : Settings) : res unit :=
  match List.find (λ k, negb (bool_decide (k ∈ known_keys))) (keys_in_order m) with
  | Some k => Err (str "unknown config key: " ++ k)
  | None => Ok tt
  end.

(** The configuration the settings stand for, before validation.
    [load_config] src/cdn/src/config.cpp:74-102 *)
Definition configure `{UndeclaredFields} (m : Settings) : res Config :=
  let d := default_config in
  let browser_profile' := sval m "browser_profile" (browser_profile d) in
  traffic_shaping' ← bopt m "traffic_shaping" (traffic_shaping d) ;
  shaping_startup_ms' ← ival m "shaping_startup_ms" (shaping_startup_ms d) ;
  shaping_delay_ms' ← ival m "shaping_delay_ms" (shaping_delay_ms d) ;
  shaping_rate_bytes' ← ival m "shaping_rate_bytes" (shaping_rate_bytes d) ;
  shaping_burst_bytes' ← ival m "shaping_burst_bytes" (shaping_burst_bytes d) ;
  websocket_control_padding_bytes' ← ival m "websocket_control_padding_bytes" 0 ;
  padding_budget_pct' ← ival m "padding_budget_pct" 10 ;
  latency_renew_ms' ← ival m "latency_renew_ms" 600 ;
  latency_renew_samples' ← ival m "latency_renew_samples" 3 ;
  latency_renew_cooldown_sec' ← ival m "latency_renew_cooldown_sec" 180 ;
  idle_probe_sec' ← ival m "idle_probe_sec" 20 ;
  reply_degraded_sec' ← ival m "reply_degraded_sec" 10 ;
  reply_renew_sec' ← ival m "reply_renew_sec" 30 ;
  reply_timeout_sec' ← ival m "reply_timeout_sec" 60 ;
  candidate_max_rtt_ms' ← ival m "candidate_max_rtt_ms" 1500 ;
  timing_jitter_pct' ← ival m "timing_jitter_pct" 15 ;
  let log_format' := sval m "log_format" (str "human") in
  websocket_padding_max_bytes' ← ival m "websocket_padding_max_bytes" 0 ;
  max_connections' ← ival m "max_connections" (max_connections d) ;
  pool_drain_sec' ← ival m "pool_drain_sec" (pool_drain_sec d) ;
  pool_idle_poll_ms' ← ival m "pool_idle_poll_ms" (pool_idle_poll_ms d) ;
  let address_family' := sval m "address_family" (address_family d) in
  flow_scheduler' ← bopt m "flow_scheduler" (flow_scheduler d) ;
  let profile' := sval m "profile" (profile d) in
  let resource_profile' := sval m "resource_profile" (resource_profile d) in
  let d := apply_profile d profile' in let mode' := sval m "mode" [] in
  let transport' := sval m "transport" (transport d) in let listen' := sval m "listen" [] in
  let server' := sval m "server" [] in let server_name' := sval m "server_name" [] in
  let path' := sval m "path" (path d) in let host_header' := sval m "host_header" (host_header d) in
  let tls_backend' := sval m "tls_backend" (tls_backend d) in
  let tls_adapter_socket' := sval m "tls_adapter_socket" (tls_adapter_socket d) in
  edge_dns_rotation' ← bopt m "edge_dns_rotation" (edge_dns_rotation d) ;
  websocket_tls' ← bopt m "websocket_tls" (websocket_tls d) ;
  websocket_ping_sec' ← ival m "websocket_ping_sec" (websocket_ping_sec d) ;
  websocket_pong_timeout_sec' ← ival m "websocket_pong_timeout_sec" (websocket_pong_timeout_sec d) ;
  websocket_poll_ms' ← ival m "websocket_poll_ms" (websocket_poll_ms d) ;
  websocket_upgrade_timeout_sec' ← ival m "websocket_upgrade_timeout_sec" (websocket_upgrade_timeout_sec d) ;
  websocket_io_timeout_sec' ← ival m "websocket_io_timeout_sec" (websocket_io_timeout_sec d) ;
  listen_backlog' ← ival m "listen_backlog" (listen_backlog d) ;
  session_max_age_sec' ← ival m "session_max_age_sec" (session_max_age_sec d) ;
  let dev' := sval m "dev" (dev d) in let cidr' := sval m "cidr" [] in
  let peer_cidr' := sval m "peer_cidr" [] in mtu' ← ival m "mtu" (mtu d) ;
  let tls_cert' := sval m "tls_cert" [] in let tls_key' := sval m "tls_key" [] in
  let tls_ca' := sval m "tls_ca" [] in verify_peer' ← bopt m "verify_peer" (verify_peer d) ;
  let psk_file' := sval m "psk_file" [] in
  let psk_previous_file' := sval m "psk_previous_file" [] in
  max_record_buffer_bytes' ← zval m "max_record_buffer_bytes" (max_record_buffer_bytes d) ;
  control_mode' ← octal m "control_mode" (control_mode d) ;
  queue_packets' ← zval m "queue_packets" (queue_packets d) ;
  queue_bytes' ← zval m "queue_bytes" (queue_bytes d) ;
  queue_delay_ms' ← ival m "queue_delay_ms" (queue_delay_ms d) ;
  batch_packets' ← ival m "batch_packets" (batch_packets d) ;
  batch_bytes' ← zval m "batch_bytes" (batch_bytes d) ;
  adaptive_batching' ← bopt m "adaptive_batching" (adaptive_batching d) ;
  adaptive_batch_min_packets' ← ival m "adaptive_batch_min_packets" (adaptive_batch_min_packets d) ;
  adaptive_batch_max_packets' ← ival m "adaptive_batch_max_packets" (adaptive_batch_max_packets d) ;
  queue_target_delay_ms' ← ival m "queue_target_delay_ms" (queue_target_delay_ms d) ;
  connect_timeout_sec' ← ival m "connect_timeout_sec" (connect_timeout_sec d) ;
  idle_timeout_sec' ← ival m "idle_timeout_sec" (idle_timeout_sec d) ;
  keepalive_sec' ← ival m "keepalive_sec" (keepalive_sec d) ;
  rtt_probe_sec' ← ival m "rtt_probe_sec" (rtt_probe_sec d) ;
  reconnect_initial_ms' ← ival m "reconnect_initial_ms" (reconnect_initial_ms d) ;
  reconnect_max_ms' ← ival m "reconnect_max_ms" (reconnect_max_ms d) ;
  reconnect_jitter_pct' ← ival m "reconnect_jitter_pct" (reconnect_jitter_pct d) ;
  tcp_keepidle_sec' ← ival m "tcp_keepidle_sec" (tcp_keepidle_sec d) ;
  tcp_keepintvl_sec' ← ival m "tcp_keepintvl_sec" (tcp_keepintvl_sec d) ;
  tcp_keepcnt' ← ival m "tcp_keepcnt" (tcp_keepcnt d) ;
  tcp_user_timeout_ms' ← ival m "tcp_user_timeout_ms" (tcp_user_timeout_ms d) ;
  sndbuf' ← ival m "sndbuf" (sndbuf d) ; rcvbuf' ← ival m "rcvbuf" (rcvbuf d) ;
  stats_interval_sec' ← ival m "stats_interval_sec" (stats_interval_sec d) ;
  let control_socket' := sval m "control_socket" [] in
  strict_file_permissions' ← bopt m "strict_file_permissions" (strict_file_permissions d) ;
  let c := {|
    mode := mode'; transport := transport'; listen := listen'; server := server';
    server_name := server_name'; path := path'; host_header := host_header';
    max_connections := max_connections'; pool_drain_sec := pool_drain_sec';
    pool_idle_poll_ms := pool_idle_poll_ms'; address_family := address_family';
    flow_scheduler := flow_scheduler'; edge_dns_rotation := edge_dns_rotation';
    websocket_tls := websocket_tls'; tls_backend := tls_backend';
    tls_adapter_socket := tls_adapter_socket'; websocket_ping_sec := websocket_ping_sec';
    websocket_pong_timeout_sec := websocket_pong_timeout_sec';
    websocket_poll_ms := websocket_poll_ms';
    websocket_upgrade_timeout_sec := websocket_upgrade_timeout_sec';
    websocket_io_timeout_sec := websocket_io_timeout_sec';
    websocket_padding_max_bytes := websocket_padding_max_bytes';
    websocket_control_padding_bytes := websocket_control_padding_bytes';
    padding_budget_pct := padding_budget_pct'; timing_jitter_pct := timing_jitter_pct';
    reply_degraded_sec := reply_degraded_sec'; reply_renew_sec := reply_renew_sec';
    reply_timeout_sec := reply_timeout_sec'; candidate_max_rtt_ms := candidate_max_rtt_ms';
    latency_renew_ms := latency_renew_ms'; latency_renew_samples := latency_renew_samples';
    latency_renew_cooldown_sec := latency_renew_cooldown_sec'; idle_probe_sec := idle_probe_sec';
    log_format := log_format'; listen_backlog := listen_backlog';
    session_max_age_sec := session_max_age_sec'; dev := dev'; cidr := cidr';
    peer_cidr := peer_cidr'; mtu := mtu'; tls_cert := tls_cert'; tls_key := tls_key';
    tls_ca := tls_ca'; verify_peer := verify_peer'; psk_file := psk_file';
    psk_previous_file := psk_previous_file'; profile := profile';
    resource_profile := resource_profile'; max_record_buffer_bytes := max_record_buffer_bytes';
    control_mode := control_mode'; queue_packets := queue_packets'; queue_bytes := queue_bytes';
    queue_delay_ms := queue_delay_ms'; batch_packets := batch_packets';
    batch_bytes := batch_bytes'; adaptive_batching := adaptive_batching';
    adaptive_batch_min_packets := adaptive_batch_min_packets';
    adaptive_batch_max_packets := adaptive_batch_max_packets';
    queue_target_delay_ms := queue_target_delay_ms'; connect_timeout_sec := connect_timeout_sec';
    idle_timeout_sec := idle_timeout_sec'; keepalive_sec := keepalive_sec';
    rtt_probe_sec := rtt_probe_sec'; reconnect_initial_ms := reconnect_initial_ms';
    reconnect_max_ms := reconnect_max_ms'; reconnect_jitter_pct := reconnect_jitter_pct';
    tcp_keepidle_sec := tcp_keepidle_sec'; tcp_keepintvl_sec := tcp_keepintvl_sec';
    tcp_keepcnt := tcp_keepcnt'; tcp_user_timeout_ms := tcp_user_timeout_ms'; sndbuf := sndbuf';
    rcvbuf := rcvbuf'; stats_interval_sec := stats_interval_sec';
    control_socket := control_socket'; strict_file_permissions := strict_file_permissions';
    browser_profile := browser_profile'; traffic_shaping := traffic_shaping';
    shaping_startup_ms := shaping_startup_ms'; shaping_delay_ms := shaping_delay_ms';
    shaping_rate_bytes := shaping_rate_bytes'; shaping_burst_bytes := shaping_burst_bytes' |} in

  Ok (apply_resource_cap c resource_profile').

(** [load_config] src/cdn/src/config.cpp:70-112; [contents] is what the file
    holds, or [None] when it cannot be opened. *)
Definition load_config `{UndeclaredFields} `{KeyOrder} (path : bytes) (contents : option bytes) : res Config :=
  text ← or_throw contents (str "cannot open config: " ++ path) ;
  m ← parse_lines 0 ∅ (getlines text) ;
  c ← configure m ;
  check_known m ;;
  validate_config c ;;
  Ok c.

(** ** Lemmas *)

(** The settings the lines of a file name, in their order. *)
Definition settings_of (lines : list bytes) : list (bytes * bytes) :=
  omap (λ l, match parse_line l with Setting k v => Some (k, v) | _ => None end) lines.

(** Every line is blank, a comment, or a setting. *)
Definition well_formed (lines : list bytes) : Prop :=
  Forall (λ l, parse_line l ≠ NoEquals ∧ parse_line l ≠ NoKey) lines.

Lemma parse_lines_ok no m lines m' :
  parse_lines no m lines = Ok m' ↔
  well_formed lines ∧ NoDup (settings_of lines).*1 ∧ Forall (λ k, m !! k = None) (settings_of lines).*1
  ∧ m' = list_to_map (settings_of lines) ∪ m.
Proof.
  revert no m. induction lines as [|l lines IH]; intros no m; cbn [parse_lines].
  { unfold well_formed. simpl. rewrite (left_id_L ∅ (∪)). split.
    - intros [= <-]. repeat constructor.
    - by intros (_ & _ & _ & ->). }
  unfold well_formed. rewrite Forall_cons. cbn [settings_of omap list_omap].
  destruct (parse_line l) as [| | |k v] eqn:El.
  - rewrite IH. unfold well_formed. simpl. intuition done.
  - split; [done|]. by intros (((?&?)&?)&_).
  - split; [done|]. by intros (((?&?)&?)&_).
  - fold (settings_of lines). cbn [fmap list_fmap fst list_to_map foldr].
    rewrite NoDup_cons, Forall_cons. destruct (m !! k) eqn:Hk.
    { split; [done|]. intros (_ & _ & [? _] & _). done. }
    rewrite IH. unfold well_formed. assert (Hin : (∀ k', k' ∈ (settings_of lines).*1 → (<[k:=v]> m) !! k' = None)
      ↔ (k ∉ (settings_of lines).*1) ∧ (∀ k', k' ∈ (settings_of lines).*1 → m !! k' = None)).
    { split.
      - intros H. split; [intros Hin; specialize (H k Hin); by rewrite lookup_insert_eq in H|].
        intros k' Hk'. specialize (H k' Hk'). by apply lookup_insert_None in H as [? _].
      - intros [H1 H2] k' Hk'. apply lookup_insert_None. split; [auto|congruence]. }
    rewrite !Forall_forall, Hin. simpl.
    assert (Hu : k ∉ (settings_of lines).*1 →
      list_to_map (settings_of lines) ∪ (<[k:=v]> m) = (<[k:=v]> (list_to_map (settings_of lines))) ∪ m).
    { intros Hk'. rewrite <- insert_union_l. symmetry. apply insert_union_r. by apply not_elem_of_list_to_map_1. }
    split.
    + intros (Hw & Hn & (Hk' & Hm) & ->). rewrite Hu by done. split_and!; done || auto.
    + intros (([? ?] & Hw) & (Hk' & Hn) & (_ & Hm) & ->). rewrite Hu by done. split_and!; done || auto.
Qed.

(** The order of the settings does not matter. *)
Lemma parse_lines_perm no no' lines lines' m :
  parse_lines no ∅ lines = Ok m → well_formed lines' → settings_of lines' ≡ₚ settings_of lines →
  parse_lines no' ∅ lines' = Ok m.
Proof.
  intros (Hw & Hn & _ & ->)%parse_lines_ok Hw' Hp. apply parse_lines_ok.
  split; [done|]. split; [by rewrite Hp|]. split.
  - apply Forall_forall. intros k _. apply lookup_empty.
  - f_equal. symmetry. apply list_to_map_proper; [by rewrite Hp|done].
Qed.

Lemma check_known_ok `{KeyOrder} m u : check_known m = Ok u ↔ ∀ k v, m !! k = Some v → k ∈ known_keys.
Proof.
  unfold check_known. destruct (List.find _ _) as [k|] eqn:E; destruct u; split; try done.
  - intros Hk. apply List.find_some in E as [Hin Hb]. bool_to_prop. destruct Hb.
    apply list_elem_of_In in Hin. rewrite keys_in_order_all in Hin.
    apply list_elem_of_fmap in Hin as ([k' v] & -> & Hin%elem_of_map_to_list). by eapply Hk.
  - intros _ k v Hk. destruct (bool_decide (k ∈ known_keys)) eqn:Eb; [by bool_to_prop|].
    eapply List.find_none in E; [by rewrite Eb in E|].
    apply list_elem_of_In. rewrite keys_in_order_all. apply list_elem_of_fmap. exists (k, v).
    split; [done|]. by apply elem_of_map_to_list.
Qed.

Lemma load_config_ok `{UndeclaredFields} `{KeyOrder} p t c :
  load_config p (Some t) = Ok c ↔
  ∃ m, parse_lines 0 ∅ (getlines t) = Ok m ∧ configure m = Ok c
       ∧ (∀ k v, m !! k = Some v → k ∈ known_keys) ∧ validate_config c = Ok tt.
Proof.
  unfold load_config. cbn [or_throw]. change (mbind ?f (Ok t)) with (f t). cbn beta. split.
  - intros (m & Hm & (c' & Hc & (u & Hk & (u' & Hv & [= ->])%bind_ok)%bind_ok)%bind_ok)%bind_ok.
    exists m. pose proof (proj1 (check_known_ok m u) Hk). destruct u'. auto.
  - intros (m & -> & Hc & Hk & Hv). simpl. rewrite Hc. simpl.
    rewrite (proj2 (check_known_ok m tt) Hk). simpl. by rewrite Hv.
Qed.

(** ** Properties *)

(** C37: what a file means is its set of settings: a file that loads has no two
    lines for the same key and no unknown key, and every file with the same
    settings in another order, with other comments, blank lines and spacing,
    loads as the same configuration. *)
Theorem load_config_means_its_settings `{UndeclaredFields} `{KeyOrder} p t c p' t' :
  load_config p (Some t) = Ok c →
  NoDup (settings_of (getlines t)).*1
  ∧ Forall (λ k, k ∈ known_keys) (settings_of (getlines t)).*1
  ∧ (well_formed (getlines t') → settings_of (getlines t') ≡ₚ settings_of (getlines t) →
     load_config p' (Some t') = Ok c).
Proof.
  intros (m & Hm & Hc & Hk & Hv)%load_config_ok. pose proof Hm as (Hw & Hn & _ & Hmap)%parse_lines_ok.
  split; [done|]. split.
  - apply Forall_forall. intros k ([k' v] & -> & Hin)%list_elem_of_fmap. apply (Hk k' v).
    rewrite Hmap, (right_id_L ∅ (∪)). by apply elem_of_list_to_map_1.
  - intros Hw' Hp. apply load_config_ok. exists m. split; [|done]. by eapply parse_lines_perm.
Qed.

(** ** Witnesses *)

(** A minimal client file; the settings the structure does not declare are
    harmless, and the keys come in the order of the map. *)
Module ConfigDemo.

#[export] Instance undeclared : UndeclaredFields := {|
  undeclared_browser_profile := str "none"; undeclared_traffic_shaping := false;
  undeclared_shaping_startup_ms := 0; undeclared_shaping_delay_ms := 0;
  undeclared_shaping_rate_bytes := 0; undeclared_shaping_burst_bytes := 0 |}.

#[export] Instance order : KeyOrder := {|
  keys_in_order m := map fst (map_to_list m); keys_in_order_all m := Permutation_refl _ |}.

Definition lines (ls : list string) : bytes := ls ≫= λ l, str l ++ [10].

Definition client : list string :=
  ["mode=client"; "transport=websocket"; "server=cdn.example:443"; "server_name=cdn.example";
   "cidr=10.0.0.2/30"; "peer_cidr=10.0.0.1/30"; "tls_ca=/etc/ssl/ca.pem"; "psk_file=/etc/pacetun/psk";
   "control_socket=/run/pacetun.sock"]%string.

(** The same settings, written differently. *)
Definition reordered : bytes :=
  lines (["# the tunnel"; " "; "  psk_file = /etc/pacetun/psk   # secret";
          "control_socket	=/run/pacetun.sock"; "tls_ca=/etc/ssl/ca.pem"]%string ++ firstn 6 client).

Definition profile_file (profile resource : string) : bytes :=
  lines (client ++ ["profile=" +:+ profile; "resource_profile=" +:+ resource]%string).

(** Every profile, with and without the low-memory caps, passes the validation. *)
Example profiles_load :
  forallb (λ p, forallb (λ r, is_ok (load_config [] (Some (profile_file p r)))) ["normal"; "lowmem"]%string)
    ["balanced"; "lightning"; "bulk"; "ultra"]%string = true.
Proof. vm_compute. reflexivity. Qed.

Example unknown_key : load_config [] (Some (lines (client ++ ["mtuu=1400"]%string))) = Err (str "unknown config key: mtuu").
Proof. vm_compute. reflexivity. Qed.

Example bad_line : load_config [] (Some (lines ["mode=client"; "mtu 1400"]%string)) = Err (str "config line 2: expected key=value").
Proof. vm_compute. reflexivity. Qed.

(** What the minimal file stands for. *)
Definition client_config : Config :=
  match load_config [] (Some (lines client)) with Ok c => c | Err _ => default_config end.

Lemma client_loads : load_config [] (Some (lines client)) = Ok client_config.
Proof. vm_compute. reflexivity. Qed.

End ConfigDemo.
Import ConfigDemo.

Lemma load_config_means_its_settings_witness : load_config (str "other.conf") (Some reordered) = Ok client_config.
Proof.
  apply (load_config_means_its_settings [] (lines client) client_config (str "other.conf") reordered client_loads).
  - vm_compute. repeat constructor; discriminate.
  - vm_compute. solve_Permutation.
Defined.
