(* ===== verification/ConfigBounds.v ===== *)
(** * What a validated configuration guarantees

    [validate_config] returns only for numbers in their ranges; the loops of the
    runtime rely on these. *)

From S2P Require Import Prelude.
From S2P Require Import Text Config.

(** The members of type [std::size_t] hold values of that type. *)
Record sizes_typed (c : Config) : Prop := {
  ty_record : u64_ok (max_record_buffer_bytes c);
  ty_packets : u64_ok (queue_packets c);
  ty_bytes : u64_ok (queue_bytes c);
  ty_batch : u64_ok (batch_bytes c);
}.

Record bounds (c : Config) : Prop := {
  b_mtu : 576 <= mtu c <= 9000;
  b_record : 65536 <= max_record_buffer_bytes c <= 16777216;
  b_queue_packets : 16 <= queue_packets c <= 1000000;
  b_queue_bytes : 65536 <= queue_bytes c <= 2 ^ 31;
  b_queue_delay : 10 <= queue_delay_ms c <= 60000;
  b_batch_packets : 1 <= batch_packets c <= 256;
  b_batch_bytes : 1024 <= batch_bytes c <= 4 * 1024 * 1024;
  b_padding : 0 <= websocket_padding_max_bytes c <= 1024;
  b_control_padding : 0 <= websocket_control_padding_bytes c <= 1024;
  b_adaptive_min : 1 <= adaptive_batch_min_packets c <= 256;
  b_adaptive_max : adaptive_batch_min_packets c <= adaptive_batch_max_packets c <= 256;
  b_reconnect_initial : 100 <= reconnect_initial_ms c <= 60000;
  b_reconnect_max : reconnect_initial_ms c <= reconnect_max_ms c <= 600000;
  b_jitter : 0 <= reconnect_jitter_pct c <= 50;
  b_timing_jitter : 0 <= timing_jitter_pct c <= 30;
  b_connections : 1 <= max_connections c <= 4;
}.

(** The batch limit holds any record, padded as much as is allowed. *)
Record batch_fits (c : Config) : Prop := {
  fits_data : mtu c + 32 + (if websocket_padding_max_bytes c =? 0 then 0 else 2 + websocket_padding_max_bytes c)
              <= batch_bytes c;
  fits_envelope : websocket_control_padding_bytes c ≠ 0 →
    Z.max (mtu c + websocket_padding_max_bytes c) (8 + websocket_control_padding_bytes c) + 35 <= batch_bytes c;
}.

Lemma range_ok n v lo hi u : range n v lo hi = Ok u → lo <= v <= hi.
Proof. unfold range. intros H%throw_if_ok. bool_to_prop. lia. Qed.

Lemma range_z_ok n v lo hi u : range_z n v lo hi = Ok u → u64_ok v → 0 <= lo → lo <= v <= hi.
Proof.
  intros H%range_ok Hv Hlo. unfold s64, u64_ok in *. destruct (Z.ltb_spec v (2 ^ 63)); lia.
Qed.

(** Follow a chain of checks that passed. *)
Ltac passed :=
  repeat match goal with
  | H : mbind _ _ = Ok _ |- _ => apply bind_ok in H as (? & ? & H)
  | H : range_z _ _ _ _ = Ok _ |- _ => apply range_z_ok in H; [|done|lia]
  | H : range _ _ _ _ = Ok _ |- _ => apply range_ok in H
  | H : throw_if _ _ = Ok _ |- _ => apply throw_if_ok in H
  end.

Lemma i32_small z : - 2 ^ 31 <= z < 2 ^ 31 → i32 z = z.
Proof. intros H. unfold i32. rewrite Z.mod_small; lia. Qed.

Lemma validated_bounds c : sizes_typed c → validate_config c = Ok tt → bounds c.
Proof.
  intros [T1 T2 T3 T4]. unfold validate_config. intros H.
  apply bind_ok in H as (u1 & Ht & H). apply bind_ok in H as (u2 & _ & Hn).
  unfold validate_traffic in Ht. unfold validate_numbers in Hn. passed. split; lia.
Qed.

Lemma validated_batch c :
  sizes_typed c → validate_config c = Ok tt → transport c = str "websocket" → batch_fits c.
Proof.
  intros T V W. pose proof (validated_bounds c T V) as B. destruct B.
  unfold validate_config in V.
  apply bind_ok in V as (u1 & Ht & V). apply bind_ok in V as (u2 & _ & Hn).
  unfold validate_traffic in Ht. unfold validate_numbers in Hn. destruct T. passed.
  assert (Hw : text_is (transport c) "websocket" = true) by (unfold text_is; by rewrite W, bool_decide_true).
  rewrite Hw in *. split.
  - match goal with H : true && (batch_bytes c <? u64 ?x) = false |- _ =>
      apply andb_false_iff in H as [H|H]; [done|apply Z.ltb_ge in H; unfold u64 in H; rewrite Z.mod_small in H; [lia|]]
    end.
    destruct (_ =? _); lia.
  - intros Hc. match goal with H : negb (websocket_control_padding_bytes c =? 0) && (batch_bytes c <? _) = false |- _ =>
      rewrite (proj2 (Z.eqb_neq _ _) Hc) in H; simpl in H; apply Z.ltb_ge in H end.
    rewrite (i32_small (mtu c + _)), (i32_small (8 + _)), i32_small in * by lia.
    unfold u64 in *. rewrite Z.mod_small in * by lia. lia.
Qed.
