(* ===== verification/Tun.v ===== *)
(** * The TUN device (cdn/src/platform/linux/tun_linux.cpp)

    The checks on the interface name and the addresses, and the constructor of
    [TunDevice], which opens the device and configures it with [ip] commands.
    What the system answers is the class [TunSystem]. *)

From S2P Require Import Prelude Text.

Inductive Family := AF_INET | AF_INET6.
#[export] Instance family_eq_dec : EqDecision Family.
Proof. solve_decision. Defined.

(** What comes of an [ip] process: [fork] or [waitpid] failed, or it ended. *)
Inductive IpOutcome := ForkFailed (error : bytes) | WaitFailed (error : bytes) | Exited (status : Z) | Killed.

(** The system calls of this file. *)
Class TunSystem := {
  (** [inet_pton(family, text, out) == 1] *)
  inet_pton : Family → bytes → bool;
  (** [open("/dev/net/tun", ...)]: [None], or the text of the error *)
  open_tun : option bytes;
  (** [ioctl(fd, TUNSETIFF, &ifr)]: the name the kernel writes back, or an error *)
  tunsetiff : bytes → bytes + bytes;
  (** the process [ip] with these arguments *)
  ip_process : list bytes → IpOutcome }.

Section Tun.
Context {T : TunSystem}.

(** ** Addresses *)

(** [ip_only] src/cdn/src/platform/linux/tun_linux.cpp:19-19 *)
Definition ip_only (cidr : bytes) : bytes :=
  match find_char 47 cidr with None => cidr | Some p => take p cidr end.

(** The characters of a network token.
    [safe_token] src/cdn/src/platform/linux/tun_linux.cpp:20-20 *)
Definition safe_char (c : Z) : bool :=
  isalnum c || (c =? 46) || (c =? 58) || (c =? 47) || (c =? 95) || (c =? 45).

(** [safe_token] src/cdn/src/platform/linux/tun_linux.cpp:20-20 *)
Definition safe_token (s : bytes) : res unit :=
  throw_if (length s =? 0)%nat (str "empty network token") ;;
  throw_if (negb (forallb safe_char s)) (str "unsafe network token: " ++ s).

(** [validate_cidr] src/cdn/src/platform/linux/tun_linux.cpp:21-36 *)
Definition validate_cidr (value : bytes) : res Family :=
  let no_prefix := str "TUN address must be an IP address with prefix length: " ++ value in
  let bad_prefix := str "invalid TUN address prefix: " ++ value in
  slash ← or_throw (find_char 47 value) no_prefix ;
  throw_if ((slash =? 0)%nat || (slash + 1 =? length value)%nat
            || bool_decide (is_Some (find_from [47] value (slash + 1)))) no_prefix ;;
  let address := take slash value in
  let prefix := drop (slash + 1) value in
  throw_if ((length prefix =? 0)%nat || negb (forallb isdigit prefix)) bad_prefix ;;
  bits ← match stoul prefix with Ok v => Ok v | Err _ => Err bad_prefix end ;
  let family := match find_char 58 address with None => AF_INET | Some _ => AF_INET6 end in
  throw_if (negb (inet_pton family address) || ((if decide (family = AF_INET) then 32 else 128) <? bits))
    (str "invalid TUN IP address or prefix: " ++ value) ;;
  Ok family.

(** [validate_tun_inputs] src/cdn/src/platform/linux/tun_linux.cpp:52-68 *)
Definition validate_tun_inputs (dev cidr peer_cidr : bytes) (mtu : Z) : res unit :=
  safe_token dev ;;
  throw_if ((16 <=? zlen dev) || bool_decide (head dev = Some 45) || bool_decide (is_Some (find_char 47 dev))
            || bool_decide (is_Some (find_char 58 dev)) || bool_decide (find_char 46 dev = Some 0%nat))
    (str "TUN interface name must be 1-15 safe characters") ;;
  safe_token cidr ;;
  safe_token peer_cidr ;;
  throw_if ((mtu <? 576) || (9000 <? mtu)) (str "TUN MTU must be 576-9000") ;;
  family ← validate_cidr cidr ;
  peer_family ← validate_cidr peer_cidr ;
  throw_if (negb (bool_decide (family = peer_family))) (str "TUN and peer addresses must use the same IP family") ;;
  throw_if (bool_decide (family = AF_INET6) && (mtu <? 1280)) (str "IPv6 TUN MTU must be at least 1280") ;;
  throw_if (bool_decide (ip_only cidr = ip_only peer_cidr)) (str "TUN and peer IP addresses must differ").

(** ** The constructor *)

(** The device under construction: whether [fd_] is open, the name the kernel
    gave, and the [ip] commands that ran.
    [TunDevice] src/cdn/include/pacetun/tun.hpp:10-27 *)
Record TunDevice := mkTun { tun_open : bool; name_ : bytes; ran : list (list bytes) }.

Abbreviation Tun := (M TunDevice).

(** [run_ip] src/cdn/src/platform/linux/tun_linux.cpp:37-50 *)
Definition run_ip (args : list bytes) : Tun unit :=
  modify (λ d, mkTun (tun_open d) (name_ d) (ran d ++ [args])) ;;
  match ip_process args with
  | ForkFailed e => throw (str "fork for ip failed: " ++ e)
  | WaitFailed e => throw (str "waitpid for ip failed: " ++ e)
  | Exited 0 => mret tt
  | Exited _ | Killed =>
      throw (str "command failed: " ++ str "ip" ++ (args ≫= λ a, str " " ++ a))
  end.

(** [::close(fd_); fd_ = -1;] *)
Definition close_tun : Tun unit := modify (λ d, mkTun false (name_ d) (ran d)).

(** [try { m } catch (...) { h; throw; }] *)
Definition on_error {S A} (m : M S A) (h : M S unit) : M S A := λ s,
  match m s with (Ok a, s') => (Ok a, s') | (Err e, s') => (Err e, (h s').2) end.

(** A function of the file that does not touch the device. *)
Definition pure_call {S A} (r : res A) : M S A :=
  match r with Ok a => mret a | Err e => throw e end.

(** The commands that configure the interface, in their order.
    [TunDevice::TunDevice] src/cdn/src/platform/linux/tun_linux.cpp:75-81 *)
Definition configure_tun (cidr peer_cidr : bytes) (mtu : Z) : Tun unit :=
  d ← gets name_ ;
  run_ip [str "link"; str "set"; str "dev"; d; str "mtu"; to_string mtu] ;;
  run_ip [str "addr"; str "flush"; str "dev"; d; str "scope"; str "global"] ;;
  run_ip [str "addr"; str "add"; ip_only cidr; str "peer"; ip_only peer_cidr; str "dev"; d] ;;
  run_ip [str "link"; str "set"; str "dev"; d; str "up"] ;;
  family ← pure_call (validate_cidr cidr) ;
  if decide (family = AF_INET6) then
    run_ip [str "-6"; str "route"; str "replace"; ip_only peer_cidr ++ str "/128"; str "dev"; d;
            str "src"; ip_only cidr]
  else mret tt.

(** [TunDevice::TunDevice] src/cdn/src/platform/linux/tun_linux.cpp:69-87 *)
Definition construct (dev cidr peer_cidr : bytes) (mtu : Z) : Tun unit :=
  pure_call (validate_tun_inputs dev cidr peer_cidr mtu) ;;
  match open_tun with
  | Some e => throw (str "open /dev/net/tun failed: " ++ e)
  | None =>
      modify (λ d, mkTun true (name_ d) (ran d)) ;;
      match tunsetiff (take 15 dev) with
      | inr e => close_tun ;; throw (str "TUNSETIFF failed: " ++ e)
      | inl name =>
          modify (λ d, mkTun (tun_open d) name (ran d)) ;;
          on_error (configure_tun cidr peer_cidr mtu) close_tun
      end
  end.

(** [TunDevice::~TunDevice] src/cdn/src/platform/linux/tun_linux.cpp:94-94 *)
Definition destruct_tun (d : TunDevice) : TunDevice := if tun_open d then (close_tun d).2 else d.
End Tun.

(** ** Lemmas *)

(** What the constructor relies on: [inet_pton] accepts nothing but hexadecimal
    digits, points and colons, and at least one of them; the kernel keeps a name
    that is no pattern (no percent sign). *)
Definition address_char (c : Z) : bool :=
  isdigit c || (97 <=? tolower c) && (tolower c <=? 102) || (c =? 46) || (c =? 58).

Class TunLaws (T : TunSystem) : Prop := {
  inet_pton_text f a : inet_pton f a = true → a ≠ [] ∧ forallb address_char a = true;
  tunsetiff_name d n : tunsetiff d = inl n → 37 ∉ d → n = d }.

(** An argument the [ip] program cannot take for an option. *)
Definition arg_safe (a : bytes) : Prop :=
  a = str "-6" ∨ (a ≠ [] ∧ forallb safe_char a = true ∧ head a ≠ Some 45).

Section TunLemmas.
Context {T : TunSystem} {L : TunLaws T}.

(** The commands that configure the interface. *)
Definition tun_commands (family : Family) (dev cidr peer_cidr : bytes) (mtu : Z) : list (list bytes) :=
  [[str "link"; str "set"; str "dev"; dev; str "mtu"; to_string mtu];
   [str "addr"; str "flush"; str "dev"; dev; str "scope"; str "global"];
   [str "addr"; str "add"; ip_only cidr; str "peer"; ip_only peer_cidr; str "dev"; dev];
   [str "link"; str "set"; str "dev"; dev; str "up"]]
  ++ (if decide (family = AF_INET6) then
        [[str "-6"; str "route"; str "replace"; ip_only peer_cidr ++ str "/128"; str "dev"; dev;
          str "src"; ip_only cidr]]
      else []).

(** Run commands until one fails. *)
Fixpoint run_all (cmds : list (list bytes)) : M TunDevice unit :=
  match cmds with [] => mret tt | a :: cmds => run_ip a ;; run_all cmds end.

Lemma run_ip_state args d :
  (run_ip args d).2 = mkTun (tun_open d) (name_ d) (ran d ++ [args]).
Proof using Type.
  unfold run_ip, mbind, M_bind, modify. simpl. destruct (ip_process args) as [| |[| |]|]; done.
Qed.

Lemma run_all_state cmds d r d' :
  run_all cmds d = (r, d') →
  tun_open d' = tun_open d ∧ name_ d' = name_ d
  ∧ ∃ k, ran d' = ran d ++ take k cmds ∧ (is_ok r = true → k = length cmds).
Proof using Type.
  revert d. induction cmds as [|a cmds IH]; intros d; cbn [run_all].
  - intros [= <- <-]. repeat split. exists 0%nat. by rewrite app_nil_r.
  - unfold mbind at 1, M_bind at 1. pose proof (run_ip_state a d) as Hs.
    destruct (run_ip a d) as [[u|e] d1]; simpl in Hs; subst d1.
    + intros (Ho & Hn & k & Hk & Hr)%IH. simpl in *. split_and!; [done..|].
      exists (S k). rewrite Hk, <- app_assoc. split; [done|]. intros H. simpl. by rewrite Hr.
    + intros [= <- <-]. simpl. split_and!; [done..|]. exists 1%nat. by destruct cmds.
Qed.

Lemma M_bind_assoc {A B D} (m : M TunDevice A) (f : A → M TunDevice B) (g : B → M TunDevice D) s :
  ((m ≫= f) ≫= g) s = (m ≫= λ a, f a ≫= g) s.
Proof using Type. unfold mbind, M_bind. by destruct (m s) as [[]]. Qed.

(** The constructor runs the commands of the specification. *)
Lemma configure_tun_runs family cidr peer mtu d :
  validate_cidr cidr = Ok family →
  configure_tun cidr peer mtu d = run_all (tun_commands family (name_ d) cidr peer mtu) d.
Proof using Type.
  intros Hf. unfold configure_tun, gets. unfold mbind at 1, M_bind at 1. cbv iota beta.
  unfold tun_commands. rewrite Hf. cbn [pure_call app run_all].
  unfold mbind, M_bind, mret, M_ret. repeat (destruct (run_ip _ _) as [[]]; [|done]).
  destruct (decide (family = AF_INET6)); [|done]. cbn [run_all].
  unfold mbind, M_bind, mret, M_ret. by destruct (run_ip _ _) as [[[]|]].
Qed.

Lemma ip_only_cidr family value : validate_cidr value = Ok family →
  inet_pton family (ip_only value) = true.
Proof using Type.
  unfold validate_cidr, ip_only. intros H. res_inv. by bool_to_prop.
Qed.

Lemma address_arg f a : inet_pton f a = true → forallb safe_char a = true ∧ a ≠ [] ∧ head a ≠ Some 45.
Proof using L.
  intros [Hne Ha]%inet_pton_text.
  assert (H : ∀ c, address_char c = true → safe_char c = true ∧ c ≠ 45).
  { intros c. unfold address_char, safe_char, isalnum, isalpha, isdigit, tolower.
    destruct (isupper c) eqn:E; unfold isupper in *; lia. }
  assert (Hs : forallb safe_char a = true).
  { clear Hne. induction a as [|c a IH]; [done|]. simpl in *. bool_to_prop.
    rewrite (proj1 (H c ltac:(done))). by apply IH. }
  split_and!; [done..|]. destruct a as [|c a]; [done|]. simpl in *. bool_to_prop.
  intros [= ->]. by destruct (H 45).
Qed.

Lemma address_arg_safe f a : inet_pton f a = true → arg_safe a.
Proof using L. intros (?&?&?)%address_arg. right. auto. Qed.

Lemma arg_safe_check a :
  bool_decide (a = str "-6") || (negb (length a =? 0)%nat && forallb safe_char a && negb (bool_decide (head a = Some 45))) = true →
  arg_safe a.
Proof using Type.
  intros [H|H]%orb_true_iff; [left; by apply bool_decide_eq_true in H|right]. bool_to_prop.
  by destruct a.
Qed.

Definition mtu_text_ok (mtu : Z) : bool :=
  let a := to_string mtu in
  negb (length a =? 0)%nat && forallb safe_char a && negb (bool_decide (head a = Some 45)).

Lemma mtu_texts_ok : forallb mtu_text_ok (seqZ 576 8425) = true.
Proof using Type. vm_compute. reflexivity. Qed.

Lemma mtu_arg_safe mtu : 576 <= mtu <= 9000 → arg_safe (to_string mtu).
Proof using Type.
  intros Hm. apply arg_safe_check, orb_true_iff. right. change (mtu_text_ok mtu = true).
  pose proof mtu_texts_ok as H. rewrite forallb_forall in H.
  apply H, list_elem_of_In, elem_of_seqZ. lia.
Qed.

Lemma safe_token_ok s u : safe_token s = Ok u → s ≠ [] ∧ forallb safe_char s = true.
Proof using Type. unfold safe_token. intros H. res_inv. bool_to_prop. by destruct s. Qed.

(** What the validation establishes. *)
Lemma validate_tun_inputs_ok dev cidr peer mtu u :
  validate_tun_inputs dev cidr peer mtu = Ok u →
  (arg_safe dev ∧ zlen dev < 16 ∧ 37 ∉ dev) ∧ 576 <= mtu <= 9000
  ∧ ∃ family, validate_cidr cidr = Ok family ∧ validate_cidr peer = Ok family
              ∧ (family = AF_INET6 → 1280 <= mtu) ∧ ip_only cidr ≠ ip_only peer.
Proof using Type.
  unfold validate_tun_inputs. intros H. res_inv. bool_to_prop. subst.
  match goal with Hd : safe_token dev = Ok _ |- _ => apply safe_token_ok in Hd as [Hne Hsafe] end.
  split; [split; [by right|split; [done|]]|split; [lia|]].
  - intros Hin. rewrite forallb_forall in Hsafe. by specialize (Hsafe 37 ltac:(by apply list_elem_of_In)).
  - eexists. split_and!; [done|done| |done]. intros ->. destruct_or?; [done|lia].
Qed.

Lemma tun_commands_safe family dev cidr peer mtu :
  arg_safe dev → 576 <= mtu <= 9000 → validate_cidr cidr = Ok family → validate_cidr peer = Ok family →
  Forall (Forall arg_safe) (tun_commands family dev cidr peer mtu).
Proof using L.
  intros Hdev Hmtu%mtu_arg_safe Hc%ip_only_cidr Hp%ip_only_cidr.
  pose proof (address_arg_safe _ _ Hc). pose proof (address_arg_safe _ _ Hp).
  assert (arg_safe (ip_only peer ++ str "/128")).
  { apply address_arg in Hp as (Hs & Hne & Hh). right. rewrite forallb_app, Hs. split_and!; [by destruct (ip_only peer)|done|].
    by destruct (ip_only peer). }
  unfold tun_commands. apply Forall_app. split; [|destruct (decide _)];
    repeat first [apply Forall_nil; done | apply Forall_cons; split | assumption
                 | apply arg_safe_check; vm_compute; reflexivity].
Qed.
End TunLemmas.

(** ** Properties *)

Section TunProperties.
Context {T : TunSystem} {L : TunLaws T}.

(** C40: constructing a TUN device either succeeds with the interface configured
    by exactly the commands of the specification, in their order, or throws with
    the descriptor closed; and whatever the configuration says, no argument of
    an [ip] command is empty, has a character outside the safe ones, or can be
    taken for an option, so that neither a name nor an address injects
    anything. *)
Theorem tun_device_configured_or_closed dev cidr peer mtu r d :
  construct dev cidr peer mtu (mkTun false [] []) = (r, d) →
  tun_open d = is_ok r
  ∧ Forall (Forall arg_safe) (ran d)
  ∧ (ran d = [] ∨ ∃ family, validate_cidr cidr = Ok family ∧ ran d `prefix_of` tun_commands family dev cidr peer mtu
       ∧ (is_ok r = true → ran d = tun_commands family dev cidr peer mtu)).
Proof using L.
  unfold construct. unfold mbind at 1, M_bind at 1.
  destruct (validate_tun_inputs dev cidr peer mtu) as [u|e] eqn:Hv; cbn [pure_call].
  2:{ intros [= <- <-]. split_and!; [done|constructor|by left]. }
  apply validate_tun_inputs_ok in Hv as ((Hdev & Hlen & Hpct) & Hmtu & family & Hc & Hp & _ & _).
  unfold mret, M_ret. cbv beta iota. destruct open_tun as [e|].
  { intros [= <- <-]. split_and!; [done|constructor|by left]. }
  assert (take 15 dev = dev) as -> by (apply take_ge; unfold zlen in Hlen; lia).
  destruct (tunsetiff dev) as [name|e] eqn:Hn; unfold mbind, M_bind, modify; cbn [tun_open name_ ran].
  2:{ cbn. intros [= <- <-]. split_and!; [done|constructor|by left]. }
  apply tunsetiff_name in Hn as ->; [|done]. unfold on_error.
  cbn [tun_open name_ ran]. rewrite (configure_tun_runs family) by done. cbn [name_].
  destruct (run_all _ _) as [r1 d1] eqn:Hr. apply run_all_state in Hr as (Ho & _ & k & Hk & Hall).
  cbn [tun_open ran app] in *.
  assert (Hargs : Forall (Forall arg_safe) (tun_commands family dev cidr peer mtu)) by by apply tun_commands_safe.
  assert (Hran : Forall (Forall arg_safe) (ran d1)) by (rewrite Hk; by apply Forall_take).
  assert (Hpre : ran d1 `prefix_of` tun_commands family dev cidr peer mtu) by (rewrite Hk; apply prefix_take).
  destruct r1 as [[]|e]; intros [= <- <-]; split_and!; try done; right; exists family; split_and!; try done.
  intros _. rewrite Hk, Hall by done. by rewrite firstn_all.
Qed.
End TunProperties.

(** ** Witnesses *)

(** A system where [inet_pton] accepts the texts with address characters only
    and every command succeeds. *)
Module TunDemo.

#[export] Instance system : TunSystem := {|
  inet_pton _ a := negb (length a =? 0)%nat && forallb address_char a;
  open_tun := None; tunsetiff d := inl d; ip_process _ := Exited 0 |}.

#[export] Instance laws : TunLaws system.
Proof.
  split.
  - intros f a H. simpl in H. bool_to_prop. split; [by destruct a|done].
  - by intros d n [= ->] _.
Qed.

Example refused : construct (str "-tun") (str "10.0.0.2/30") (str "10.0.0.1/30") 1280 (mkTun false [] [])
  = (Err (str "TUN interface name must be 1-15 safe characters"), mkTun false [] []).
Proof. vm_compute. reflexivity. Qed.

Example configured_v6 :
  length (ran (construct (str "phtun0") (str "fd00::2/64") (str "fd00::1/64") 1280 (mkTun false [] [])).2) = 5%nat.
Proof. vm_compute. reflexivity. Qed.
End TunDemo.

Lemma tun_device_configured_or_closed_witness :
  let run := construct (T:=TunDemo.system) (str "phtun0") (str "10.0.0.2/30") (str "10.0.0.1/30") 1280 (mkTun false [] []) in
  tun_open run.2 = is_ok run.1 ∧ Forall (Forall arg_safe) (ran run.2).
Proof.
  intros run.
  destruct (tun_device_configured_or_closed (T:=TunDemo.system) (L:=TunDemo.laws) (str "phtun0") (str "10.0.0.2/30")
              (str "10.0.0.1/30") 1280 run.1 run.2 (surjective_pairing run)) as (H1 & H2 & _).
  split; [exact H1|exact H2].
Defined.
