(* ===== verification/Admission.v ===== *)
(** * The admission server (cdn/src/admission.cpp, cdn/include/pacetun/admission.hpp)

    One acceptor thread, several workers and the runtime share the queues of
    [AdmissionServer] under one mutex; the destructor of an [AdmittedConnection]
    decrements [claimed] without it. The model is a labelled step function: an
    action is what one thread does between two points where another thread can
    run, and a run is any list of actions, so every interleaving is covered. A
    descriptor stands for one accepted connection; the list of the accepted ones
    is kept to state that none is lost. *)

From S2P Require Import Prelude.

(** ** State *)

(** The acceptor: at the top of its loop, between [accept4] and the lock, or
    gone. [AdmissionServer::accept_loop] src/cdn/src/admission.cpp:23-27 *)
Inductive Acceptor := Polling | Accepted (fd : Z) | AcceptorGone.

(** A worker: at the top of its loop; in [pending_cv_.wait] with the predicate
    found false and the lock still held; asleep; in the handshake; after it; in
    the critical section with the count it read; or gone.
    [AdmissionServer::worker] src/cdn/src/admission.cpp:31-46 *)
Inductive Worker :=
| Idle
| FallingAsleep
| Asleep
| Handshaking (fd : Z)
| Upgraded (fd : Z) (confirmed : bool)
| Deciding (fd : Z) (confirmed : bool) (count : Z)
| WorkerGone.

(** How far the destructor is: not called, [stop_] set, the condition variables
    notified. [AdmissionServer::~AdmissionServer] src/cdn/src/admission.cpp:14-17 *)
Inductive Closing := Running | Stopping | Notified.

(** [AdmissionServer] src/cdn/include/pacetun/admission.hpp:17-33 *)
Record Admission := mkAdmission {
  acceptor : Acceptor; pending_ : list Z; workers_ : list Worker; mu_ : option nat;
  ready_ : list Z; live : list Z; claimed_ : Z; closing : Closing;
  overloaded : Z; rejected : Z; closed : list Z; accepted : list Z }.

(** The arguments of the constructor that the threads use.
    [AdmissionServer::AdmissionServer] src/cdn/src/admission.cpp:9-9 *)
Record Limits := mkLimits { limit_ : Z; max_active_ : Z }.

(** [AdmissionServer::AdmissionServer] src/cdn/src/admission.cpp:9-13 *)
Definition admission_server (timeout workers limit pool_connections : Z) : res (Limits * Admission) :=
  throw_if ((workers <? 1) || (16 <? workers) || (limit <? 1) || (128 <? limit) || (timeout <? 100)
            || (120000 <? timeout) || (pool_connections <? 1) || (4 <? pool_connections))
    (str "invalid admission limits") ;;
  Ok (mkLimits limit (if 1 <? pool_connections then pool_connections + 1 else 2),
      mkAdmission Polling [] (replicate (Z.to_nat workers) Idle) None [] [] 0 Running 0 0 [] []).

(** ** Updates *)

Definition set_acceptor (x : Acceptor) (s : Admission) : Admission :=
  mkAdmission x (pending_ s) (workers_ s) (mu_ s) (ready_ s) (live s) (claimed_ s) (closing s)
    (overloaded s) (rejected s) (closed s) (accepted s).
Definition set_worker (i : nat) (x : Worker) (s : Admission) : Admission :=
  mkAdmission (acceptor s) (pending_ s) (<[i := x]> (workers_ s)) (mu_ s) (ready_ s) (live s) (claimed_ s)
    (closing s) (overloaded s) (rejected s) (closed s) (accepted s).
Definition set_pending (x : list Z) (s : Admission) : Admission :=
  mkAdmission (acceptor s) x (workers_ s) (mu_ s) (ready_ s) (live s) (claimed_ s) (closing s)
    (overloaded s) (rejected s) (closed s) (accepted s).
Definition set_mu (x : option nat) (s : Admission) : Admission :=
  mkAdmission (acceptor s) (pending_ s) (workers_ s) x (ready_ s) (live s) (claimed_ s) (closing s)
    (overloaded s) (rejected s) (closed s) (accepted s).
Definition set_ready (x : list Z) (s : Admission) : Admission :=
  mkAdmission (acceptor s) (pending_ s) (workers_ s) (mu_ s) x (live s) (claimed_ s) (closing s)
    (overloaded s) (rejected s) (closed s) (accepted s).
Definition set_live (x : list Z) (s : Admission) : Admission :=
  mkAdmission (acceptor s) (pending_ s) (workers_ s) (mu_ s) (ready_ s) x (claimed_ s) (closing s)
    (overloaded s) (rejected s) (closed s) (accepted s).
Definition set_claimed (x : Z) (s : Admission) : Admission :=
  mkAdmission (acceptor s) (pending_ s) (workers_ s) (mu_ s) (ready_ s) (live s) x (closing s)
    (overloaded s) (rejected s) (closed s) (accepted s).
Definition set_closing (x : Closing) (s : Admission) : Admission :=
  mkAdmission (acceptor s) (pending_ s) (workers_ s) (mu_ s) (ready_ s) (live s) (claimed_ s) x
    (overloaded s) (rejected s) (closed s) (accepted s).
(** [close(fd)], counted as an overload or a rejection or not at all. *)
Definition close_fd (fd over reject : Z) (s : Admission) : Admission :=
  mkAdmission (acceptor s) (pending_ s) (workers_ s) (mu_ s) (ready_ s) (live s) (claimed_ s) (closing s)
    (overloaded s + over) (rejected s + reject) (closed s ++ [fd]) (accepted s).
Definition accept_fd (fd : Z) (s : Admission) : Admission :=
  mkAdmission (Accepted fd) (pending_ s) (workers_ s) (mu_ s) (ready_ s) (live s) (claimed_ s) (closing s)
    (overloaded s) (rejected s) (closed s) (accepted s ++ [fd]).

Definition stopped (s : Admission) : bool := match closing s with Running => false | _ => true end.
Definition unlocked (s : Admission) : bool := match mu_ s with None => true | Some _ => false end.
Definition gone (w : Worker) : bool := match w with WorkerGone => true | _ => false end.
Definition wake (w : Worker) : Worker := match w with Asleep => Idle | _ => w end.

(** The destructor of [AdmittedConnection] for a claimed connection.
    [AdmittedConnection::~AdmittedConnection] src/cdn/include/pacetun/admission.hpp:15-15 *)
Definition drop_connection (fd : Z) (s : Admission) : Admission :=
  close_fd fd 0 0 (set_claimed (u32 (claimed_ s - 1)) s).

(** ** Steps *)

(** What a thread does next. *)
Inductive Action :=
| Accept (fd : Z)            (* accept4 returned a connection *)
| Enqueue (woken : option nat) (* the acceptor's critical section; notify_one may wake a worker *)
| AcceptorLeaves             (* stop_ seen, or the listener failed *)
| Wait (i : nat)             (* the predicate of pending_cv_.wait is false *)
| Sleep (i : nat)            (* the wait releases the lock and blocks *)
| Spurious (i : nat)         (* a wake-up without a notification *)
| Pop (i : nat)              (* the predicate is true: the worker takes the oldest connection *)
| Leave (i : nat)            (* the worker sees stop_ *)
| Upgrade (i : nat) (outcome : option bool) (* the handshake returned, or threw *)
| Count (i : nat)            (* the worker takes the lock and reads claimed *)
| Decide (i : nat)           (* it claims the connection, or throws "busy" *)
| Take                       (* the runtime takes a connection *)
| Release (fd : Z)           (* the runtime drops a connection it took *)
| Stop                       (* the destructor sets stop_ *)
| Notify                     (* and notifies both condition variables *)
| Drain.                     (* all threads joined: it empties a queue *)

(** The critical section of the acceptor.
    [AdmissionServer::accept_loop] src/cdn/src/admission.cpp:26-28 *)
Definition enqueue (l : Limits) (fd : Z) (woken : option nat) (s : Admission) : option Admission :=
  let s := set_acceptor Polling s in
  if stopped s || (limit_ l <=? zlen (pending_ s)) then Some (close_fd fd 1 0 s)
  else
    let s := set_pending (pending_ s ++ [fd]) s in
    match woken with
    | None => Some s
    | Some i => match workers_ s !! i with Some Asleep => Some (set_worker i Idle s) | _ => None end
    end.

(** The critical section of a worker after the handshake, and its [catch].
    [AdmissionServer::worker] src/cdn/src/admission.cpp:40-44 *)
Definition decide_claim (l : Limits) (i : nat) (fd : Z) (confirmed : bool) (count : Z) (s : Admission) : Admission :=
  let s := set_mu None (set_worker i Idle s) in
  if stopped s || (max_active_ l <=? count) || ((0 <? count) && negb confirmed) then close_fd fd 0 1 s
  else set_ready (ready_ s ++ [fd]) (set_claimed (u32 (claimed_ s + 1)) s).

(** The destructor after the joins.
    [AdmissionServer::~AdmissionServer] src/cdn/src/admission.cpp:18-19 *)
Definition drain_queues (s : Admission) : option Admission :=
  match pending_ s, ready_ s with
  | fd :: rest, _ => Some (close_fd fd 0 0 (set_pending rest s))
  | [], fd :: rest => Some (drop_connection fd (set_ready rest s))
  | [], [] => None
  end.

(** [AdmissionServer] src/cdn/src/admission.cpp:14-50; [None] when the thread
    cannot do this now. *)
Definition step (l : Limits) (a : Action) (s : Admission) : option Admission :=
  match a with
  | Accept fd =>
      match acceptor s with
      | Polling => if bool_decide (fd ∈ accepted s) then None else Some (accept_fd fd s)
      | _ => None
      end
  | Enqueue woken =>
      match acceptor s with
      | Accepted fd => if unlocked s then enqueue l fd woken s else None
      | _ => None
      end
  | AcceptorLeaves => match acceptor s with Polling => Some (set_acceptor AcceptorGone s) | _ => None end
  | Wait i =>
      match workers_ s !! i, pending_ s with
      | Some Idle, [] => if unlocked s && negb (stopped s) then Some (set_mu (Some i) (set_worker i FallingAsleep s)) else None
      | _, _ => None
      end
  | Sleep i =>
      match workers_ s !! i with
      | Some FallingAsleep => Some (set_mu None (set_worker i Asleep s))
      | _ => None
      end
  | Spurious i => match workers_ s !! i with Some Asleep => Some (set_worker i Idle s) | _ => None end
  | Pop i =>
      match workers_ s !! i, pending_ s with
      | Some Idle, fd :: rest =>
          if unlocked s && negb (stopped s) then Some (set_pending rest (set_worker i (Handshaking fd) s)) else None
      | _, _ => None
      end
  | Leave i =>
      match workers_ s !! i with
      | Some Idle => if stopped s then Some (set_worker i WorkerGone s) else None
      | _ => None
      end
  | Upgrade i outcome =>
      match workers_ s !! i with
      | Some (Handshaking fd) =>
          match outcome with
          | Some confirmed => Some (set_worker i (Upgraded fd confirmed) s)
          | None => Some (close_fd fd 0 1 (set_worker i Idle s))
          end
      | _ => None
      end
  | Count i =>
      match workers_ s !! i with
      | Some (Upgraded fd confirmed) =>
          if unlocked s then Some (set_mu (Some i) (set_worker i (Deciding fd confirmed (claimed_ s)) s)) else None
      | _ => None
      end
  | Decide i =>
      match workers_ s !! i with
      | Some (Deciding fd confirmed count) => Some (decide_claim l i fd confirmed count s)
      | _ => None
      end
  | Take =>
      match ready_ s with
      | fd :: rest => if unlocked s then Some (set_live (fd :: live s) (set_ready rest s)) else None
      | [] => None
      end
  | Release fd =>
      if bool_decide (fd ∈ live s) then
        Some (drop_connection fd (set_live (filter (λ x, x ≠ fd) (live s)) s))
      else None
  | Stop => match closing s with Running => Some (set_closing Stopping s) | _ => None end
  | Notify =>
      match closing s with
      | Stopping => Some (set_closing Notified (mkAdmission (acceptor s) (pending_ s) (map wake (workers_ s)) (mu_ s)
                            (ready_ s) (live s) (claimed_ s) (closing s) (overloaded s) (rejected s) (closed s) (accepted s)))
      | _ => None
      end
  | Drain =>
      match closing s, acceptor s with
      | Notified, AcceptorGone => if forallb gone (workers_ s) then drain_queues s else None
      | _, _ => None
      end
  end.

(** A run: the actions in the order in which they happen. *)
Fixpoint run (l : Limits) (actions : list Action) (s : Admission) : option Admission :=
  match actions with
  | [] => Some s
  | a :: actions => s' ← step l a s ; run l actions s'
  end.

(** ** The invariant *)

Definition worker_fd (w : Worker) : list Z :=
  match w with Handshaking fd | Upgraded fd _ | Deciding fd _ _ => [fd] | _ => [] end.
Definition acceptor_fd (x : Acceptor) : list Z := match x with Accepted fd => [fd] | _ => [] end.
Definition critical (w : Worker) : bool := match w with FallingAsleep | Deciding _ _ _ => true | _ => false end.
(** The count a worker decides with is not below [claimed]. *)
Definition count_ok (s : Admission) (w : Worker) : Prop :=
  match w with Deciding _ _ n => claimed_ s <= n | _ => True end.

(** Where the accepted connections are. *)
Definition held (s : Admission) : list Z :=
  acceptor_fd (acceptor s) ++ pending_ s ++ (workers_ s ≫= worker_fd) ++ ready_ s ++ live s ++ closed s.

Record inv (l : Limits) (s : Admission) : Prop := {
  inv_held : held s ≡ₚ accepted s;
  inv_nodup : NoDup (accepted s);
  inv_pending : zlen (pending_ s) <= limit_ l;
  inv_claimed : claimed_ s = zlen (ready_ s) + zlen (live s);
  inv_active : claimed_ s <= max_active_ l;
  inv_mutex : ∀ i w, workers_ s !! i = Some w → critical w = true ↔ mu_ s = Some i;
  inv_count : Forall (count_ok s) (workers_ s) }.

(** Replacing one worker replaces its connection. *)
Lemma worker_fds_at ws i w0 : ws !! i = Some w0 →
  ∃ rest, ws ≫= worker_fd ≡ₚ worker_fd w0 ++ rest
          ∧ ∀ w, <[i := w]> ws ≫= worker_fd ≡ₚ worker_fd w ++ rest.
Proof.
  intros Hi. exists ((take i ws ≫= worker_fd) ++ (drop (S i) ws ≫= worker_fd)). split.
  - rewrite <- (take_drop_middle ws i w0 Hi) at 1. rewrite bind_app. simpl. solve_Permutation.
  - intros w. rewrite insert_take_drop by by eapply lookup_lt_Some. rewrite bind_app. simpl. solve_Permutation.
Qed.

Lemma filter_ne_perm (x : Z) l : NoDup l → x ∈ l → l ≡ₚ x :: filter (λ y, y ≠ x) l.
Proof.
  intros Hn Hx. apply NoDup_Permutation; [done| |].
  - constructor; [|by apply NoDup_filter]. rewrite list_elem_of_filter. by intros [? _].
  - intros y. rewrite elem_of_cons, list_elem_of_filter. split.
    + intros Hy. destruct (decide (y = x)); auto.
    + by intros [->|[_ ?]].
Qed.

(** A worker that changes without touching the lock or the counts. *)
Lemma mutex_insert (s : Admission) i w0 w :
  (∀ j x, workers_ s !! j = Some x → critical x = true ↔ mu_ s = Some j) →
  workers_ s !! i = Some w0 → critical w = critical w0 →
  ∀ j x, <[i := w]> (workers_ s) !! j = Some x → critical x = true ↔ mu_ s = Some j.
Proof.
  intros Hm Hi Hc j x. rewrite list_lookup_insert. case_decide as Hj; [|apply Hm].
  intros [= <-]. destruct Hj as [<- _]. rewrite Hc. by apply Hm.
Qed.

(** A worker that takes the lock. *)
Lemma mutex_take (s : Admission) i w0 w :
  (∀ j x, workers_ s !! j = Some x → critical x = true ↔ mu_ s = Some j) →
  workers_ s !! i = Some w0 → mu_ s = None → critical w = true →
  ∀ j x, <[i := w]> (workers_ s) !! j = Some x → critical x = true ↔ Some i = Some j.
Proof.
  intros Hm Hi Hu Hc j x. rewrite list_lookup_insert. case_decide as Hj.
  - intros [= <-]. destruct Hj as [<- _]. by rewrite Hc.
  - intros Hx. rewrite (Hm j x Hx), Hu. split; [done|]. intros [= <-]. destruct Hj. split; [done|].
    by eapply lookup_lt_Some.
Qed.

(** A worker that gives it back. *)
Lemma mutex_give (s : Admission) i w0 w :
  (∀ j x, workers_ s !! j = Some x → critical x = true ↔ mu_ s = Some j) →
  workers_ s !! i = Some w0 → critical w0 = true → critical w = false →
  ∀ j x, <[i := w]> (workers_ s) !! j = Some x → critical x = true ↔ None = Some j.
Proof.
  intros Hm Hi H0 Hc j x. rewrite list_lookup_insert. case_decide as Hj.
  - intros [= <-]. destruct Hj as [<- _]. by rewrite Hc.
  - intros Hx. apply Hm in Hi as [Hi _]. rewrite (Hm j x Hx), (Hi H0). split; [|done]. intros [= <-].
    destruct Hj. split; [done|]. by eapply lookup_lt_Some.
Qed.

Lemma counts_insert (s : Admission) i w :
  Forall (count_ok s) (workers_ s) → count_ok s w → Forall (count_ok s) (<[i := w]> (workers_ s)).
Proof. intros H Hw. by apply Forall_insert. Qed.

Lemma counts_less (s s' : Admission) ws :
  claimed_ s' <= claimed_ s → Forall (count_ok s) ws → Forall (count_ok s') ws.
Proof.
  intros Hc Hw. eapply Forall_impl; [exact Hw|]. intros [| | | | |fd b n|]; simpl; try done. lia.
Qed.

(** Simplify the state of a successful step. *)
Ltac step_inv H :=
  repeat match type of H with
  | (match ?x with _ => _ end) = Some _ => destruct x eqn:?; try discriminate H
  | (if ?x then _ else _) = Some _ => destruct x eqn:?; try discriminate H
  end; try (injection H as <-).

Lemma held_worker (s s' : Admission) i w0 w :
  workers_ s !! i = Some w0 → worker_fd w = worker_fd w0 →
  acceptor s' = acceptor s → pending_ s' = pending_ s → workers_ s' = <[i := w]> (workers_ s) →
  ready_ s' = ready_ s → live s' = live s → closed s' = closed s → held s' ≡ₚ held s.
Proof.
  intros Hi Hw Ha Hp Hws Hr Hl Hc. unfold held. rewrite Ha, Hp, Hws, Hr, Hl, Hc.
  destruct (worker_fds_at _ _ _ Hi) as (rest & H0 & H1). by rewrite H1, Hw, <- H0.
Qed.

Lemma worker_step_inv l s s' i w0 w :
  inv l s → workers_ s !! i = Some w0 → worker_fd w = worker_fd w0 → critical w = critical w0 → count_ok s w →
  s' = set_worker i w s → inv l s'.
Proof.
  intros [] Hi Hw Hc Hn ->. split; simpl; try done.
  - rewrite (held_worker s _ i w0 w); done.
  - by eapply mutex_insert.
  - apply (counts_less s); [simpl; lia|]. by apply counts_insert.
Qed.

(** Changes outside the worker list. *)
Lemma frame_inv l s s' :
  inv l s → workers_ s' = workers_ s → mu_ s' = mu_ s → held s' ≡ₚ accepted s' → NoDup (accepted s') →
  zlen (pending_ s') <= limit_ l → claimed_ s' = zlen (ready_ s') + zlen (live s') → claimed_ s' <= claimed_ s →
  inv l s'.
Proof.
  intros [] Hw Hm ? ? ? ? ?. split; try done; [lia| |].
  - intros i w. rewrite Hw, Hm. by apply inv_mutex0.
  - rewrite Hw. by apply (counts_less s).
Qed.

Lemma accept_inv l fd s s' : inv l s → step l (Accept fd) s = Some s' → inv l s'.
Proof.
  intros Hi H. cbn [step] in H. step_inv H. pose proof Hi as []. bool_to_prop.
  apply (frame_inv l s); simpl; try done.
  - unfold held in *. simpl. rewrite <- inv_held0, Heqa. simpl. solve_Permutation.
  - apply NoDup_app. split_and!; [done| |apply NoDup_singleton]. intros x Hx ->%list_elem_of_singleton. done.
Qed.

Lemma enqueue_inv l woken s s' : 0 <= limit_ l → inv l s → step l (Enqueue woken) s = Some s' → inv l s'.
Proof.
  intros Hl Hi H. cbn [step] in H. step_inv H. pose proof Hi as []. unfold enqueue in H.
  assert (Hq : held (set_acceptor Polling s) ++ [fd] ≡ₚ accepted s).
  { rewrite <- inv_held0. unfold held. rewrite Heqa. simpl. solve_Permutation. }
  destruct (stopped _ || _) eqn:E.
  - injection H as <-. apply (frame_inv l s); simpl; try done.
    rewrite <- Hq. unfold held. simpl. solve_Permutation.
  - bool_to_prop. simpl in H. set (s1 := set_pending (pending_ s ++ [fd]) (set_acceptor Polling s)) in *.
    assert (Hs1 : inv l s1).
    { apply (frame_inv l s); simpl; try done.
      - rewrite <- Hq. unfold held. simpl. solve_Permutation.
      - rewrite zlen_app. simpl in *. change (zlen [fd]) with 1. lia. }
    destruct woken as [i|]; [|by injection H as <-]. step_inv H. by apply (worker_step_inv l s1 _ i Asleep Idle).
Qed.

Lemma sleep_inv l i s s' : inv l s → step l (Sleep i) s = Some s' → inv l s'.
Proof.
  intros Hi H. cbn [step] in H. step_inv H. pose proof Hi as []. split; simpl; try done.
  - by rewrite <- inv_held0, (held_worker s _ i FallingAsleep Asleep).
  - by eapply mutex_give.
  - apply (counts_less s); [simpl; lia|]. by apply counts_insert.
Qed.

Lemma wait_inv l i s s' : inv l s → step l (Wait i) s = Some s' → inv l s'.
Proof.
  intros Hi H. cbn [step] in H. step_inv H. pose proof Hi as []. bool_to_prop. split; simpl; try done.
  - by rewrite <- inv_held0, (held_worker s _ i Idle FallingAsleep).
  - eapply mutex_take; try done. unfold unlocked in *. by destruct (mu_ s).
  - apply (counts_less s); [simpl; lia|]. by apply counts_insert.
Qed.

Lemma count_inv l i s s' : inv l s → step l (Count i) s = Some s' → inv l s'.
Proof.
  intros Hi H. cbn [step] in H. step_inv H. pose proof Hi as []. split; simpl; try done.
  - by rewrite <- inv_held0, (held_worker s _ i (Upgraded fd confirmed) (Deciding fd confirmed (claimed_ s))).
  - eapply mutex_take; try done. unfold unlocked in *. by destruct (mu_ s).
  - apply (counts_less s); [simpl; lia|]. apply counts_insert; simpl; [done|lia].
Qed.

Lemma pop_inv l i s s' : inv l s → step l (Pop i) s = Some s' → inv l s'.
Proof.
  intros Hi H. cbn [step] in H. step_inv H. pose proof Hi as []. split; simpl; try done.
  - rewrite <- inv_held0. unfold held. simpl. rewrite Heql0.
    destruct (worker_fds_at _ _ _ Heqo) as (rest & H0 & H1). rewrite H1, H0. simpl. solve_Permutation.
  - rewrite Heql0, zlen_cons in inv_pending0. lia.
  - by eapply mutex_insert.
  - apply (counts_less s); [simpl; lia|]. by apply counts_insert.
Qed.

Lemma upgrade_inv l i outcome s s' : inv l s → step l (Upgrade i outcome) s = Some s' → inv l s'.
Proof.
  intros Hi H. cbn [step] in H. step_inv H; [by apply (worker_step_inv l s _ i (Handshaking fd) (Upgraded fd b))|].
  pose proof Hi as []. split; simpl; try done.
  - rewrite <- inv_held0. unfold held. simpl.
    destruct (worker_fds_at _ _ _ Heqo) as (rest & H0 & H1). rewrite H1, H0. simpl. solve_Permutation.
  - by eapply mutex_insert.
  - apply (counts_less s); [simpl; lia|]. by apply counts_insert.
Qed.

(** Claims stay far below the width of the counter. *)
Definition limits_ok (l : Limits) : Prop := 0 <= limit_ l ∧ max_active_ l < 2 ^ 32.

Lemma decide_inv l i s s' : limits_ok l → inv l s → step l (Decide i) s = Some s' → inv l s'.
Proof.
  intros [_ Hmax] Hi H. cbn [step] in H. step_inv H. pose proof Hi as [].
  unfold decide_claim. set (s1 := set_mu None (set_worker i Idle s)).
  destruct (worker_fds_at _ _ _ Heqo) as (rest & H0 & H1).
  assert (Hq : held s1 ++ [fd] ≡ₚ accepted s).
  { rewrite <- inv_held0. unfold held, s1. simpl. rewrite H1, H0. simpl. solve_Permutation. }
  assert (Hm : ∀ j x, workers_ s1 !! j = Some x → critical x = true ↔ None = Some j) by by eapply mutex_give.
  assert (Hc : Forall (count_ok s1) (workers_ s1)).
  { apply (counts_less s); [simpl; lia|]. by apply counts_insert. }
  assert (Hn : claimed_ s <= count) by (rewrite Forall_lookup in inv_count0; apply (inv_count0 i _ Heqo)).
  destruct (stopped s1 || _ || _) eqn:E.
  - split; simpl; try done. rewrite <- Hq. unfold held. simpl. solve_Permutation.
  - bool_to_prop.
    assert (Hs : ∀ j x, workers_ s1 !! j = Some x → critical x = false).
    { intros j x Hj. destruct (critical x) eqn:Ec; [|done]. by apply (Hm j x Hj) in Ec. }
    assert (Hu : u32 (claimed_ s + 1) = claimed_ s + 1).
    { unfold u32. pose proof (zlen_nonneg (ready_ s)). pose proof (zlen_nonneg (live s)). rewrite Z.mod_small; lia. }
    split; simpl; try done.
    + rewrite <- Hq. unfold held. simpl. solve_Permutation.
    + rewrite Hu, zlen_app. change (zlen [fd]) with 1. lia.
    + lia.
    + apply Forall_lookup. intros j x Hj. specialize (Hs j x Hj). by destruct x.
Qed.

Lemma take_inv l s s' : inv l s → step l Take s = Some s' → inv l s'.
Proof.
  intros Hi H. cbn [step] in H. step_inv H. pose proof Hi as []. apply (frame_inv l s); simpl; try done; try lia.
  - rewrite <- inv_held0. unfold held. simpl. rewrite Heql0. solve_Permutation.
  - rewrite Heql0, zlen_cons in inv_claimed0. rewrite zlen_cons. lia.
Qed.

(** The destructor of a claimed connection, wherever the connection was. *)
Lemma drop_inv l fd s s1 :
  limits_ok l → inv l s → workers_ s1 = workers_ s → mu_ s1 = mu_ s → accepted s1 = accepted s →
  claimed_ s1 = claimed_ s → pending_ s1 = pending_ s →
  held s1 ++ [fd] ≡ₚ held s → claimed_ s = zlen (ready_ s1) + zlen (live s1) + 1 →
  inv l (drop_connection fd s1).
Proof.
  intros [_ Hmax] Hi Hw Hm Ha Hc Hp Hh Hn. pose proof Hi as [].
  assert (Hu : u32 (claimed_ s - 1) = claimed_ s - 1).
  { unfold u32. pose proof (zlen_nonneg (ready_ s1)). pose proof (zlen_nonneg (live s1)). rewrite Z.mod_small; lia. }
  apply (frame_inv l s); simpl; rewrite ?Hw, ?Hm, ?Ha, ?Hp, ?Hc, ?Hu; try done; try lia.
  rewrite <- inv_held0, <- Hh. unfold held. simpl. solve_Permutation.
Qed.

Lemma release_inv l fd s s' : limits_ok l → inv l s → step l (Release fd) s = Some s' → inv l s'.
Proof.
  intros Hl Hi H. cbn [step] in H. step_inv H. bool_to_prop. pose proof Hi as [].
  assert (Hn : NoDup (live s)).
  { rewrite <- inv_held0 in inv_nodup0. unfold held in inv_nodup0. by repeat (apply NoDup_app in inv_nodup0 as (?&?&inv_nodup0)). }
  pose proof (filter_ne_perm fd (live s) Hn Heqb) as Hp.
  apply (drop_inv l fd s); simpl; try done.
  - unfold held. simpl. rewrite Hp at 2. solve_Permutation.
  - apply Permutation_length in Hp. unfold zlen in *. simpl in Hp. lia.
Qed.

Lemma drain_inv l s s' : limits_ok l → inv l s → step l Drain s = Some s' → inv l s'.
Proof.
  intros Hl Hi H. cbn [step] in H. step_inv H. pose proof Hi as []. unfold drain_queues in H.
  destruct (pending_ s) as [|fd rest] eqn:Hp.
  - destruct (ready_ s) as [|fd rest] eqn:Hr; [done|]. injection H as <-.
    apply (drop_inv l fd s); simpl; try done.
    + unfold held. simpl. rewrite Hr. solve_Permutation.
    + rewrite zlen_cons in inv_claimed0. lia.
  - injection H as <-. apply (frame_inv l s); simpl; try done; try lia.
    + rewrite <- inv_held0. unfold held. simpl. rewrite Hp. solve_Permutation.
    + rewrite zlen_cons in inv_pending0. lia.
Qed.

Lemma wake_fds ws : map wake ws ≫= worker_fd = ws ≫= worker_fd.
Proof.
  induction ws as [|w ws IH]; [done|]. rewrite map_cons, !bind_cons, IH. by destruct w.
Qed.

Lemma notify_inv l s s' : inv l s → step l Notify s = Some s' → inv l s'.
Proof.
  intros Hi H. cbn [step] in H. step_inv H. pose proof Hi as []. split; simpl; try done.
  - etrans; [|exact inv_held0]. unfold held. simpl. by rewrite wake_fds.
  - intros i w. rewrite list_lookup_fmap. destruct (workers_ s !! i) as [w'|] eqn:E; [|done]. intros [= <-].
    rewrite <- (inv_mutex0 i w' E). by destruct w'.
  - apply Forall_map. eapply Forall_impl; [exact inv_count0|]. by intros [].
Qed.

Lemma step_inv l a s s' : limits_ok l → inv l s → step l a s = Some s' → inv l s'.
Proof.
  intros Hl Hi H. destruct a.
  - by eapply accept_inv.
  - eapply enqueue_inv; [apply Hl|done..].
  - cbn [step] in H. step_inv H. pose proof Hi as []. apply (frame_inv l s); simpl; try done.
    rewrite <- inv_held0. unfold held. simpl. by rewrite Heqa.
  - by eapply wait_inv.
  - by eapply sleep_inv.
  - cbn [step] in H. step_inv H. by apply (worker_step_inv l s _ i Asleep Idle).
  - by eapply pop_inv.
  - cbn [step] in H. step_inv H. by apply (worker_step_inv l s _ i Idle WorkerGone).
  - by eapply upgrade_inv.
  - by eapply count_inv.
  - by eapply decide_inv.
  - by eapply take_inv.
  - by eapply release_inv.
  - cbn [step] in H. step_inv H. by apply (frame_inv l s); destruct Hi.
  - by eapply notify_inv.
  - by eapply drain_inv.
Qed.

Lemma run_inv l actions s s' : limits_ok l → inv l s → run l actions s = Some s' → inv l s'.
Proof.
  intros Hl. revert s. induction actions as [|a actions IH]; intros s Hi; cbn [run].
  - by intros [= <-].
  - intros (s1 & Hs & Hr)%bind_Some. eapply IH; [|done]. by eapply step_inv.
Qed.

Lemma start_inv timeout workers limit pool l s :
  admission_server timeout workers limit pool = Ok (l, s) → limits_ok l ∧ inv l s.
Proof.
  unfold admission_server. intros H. res_inv. bool_to_prop. split.
  - split; simpl; [lia|]. destruct (Z.ltb_spec 1 pool); lia.
  - assert (Hw : replicate (Z.to_nat workers) Idle ≫= worker_fd = []).
    { induction (Z.to_nat workers); [done|]. done. }
    split; simpl; try done.
    + unfold held. simpl. by rewrite Hw.
    + constructor.
    + rewrite zlen_nil. lia.
    + destruct (Z.ltb_spec 1 pool); lia.
    + by intros i w [-> _]%lookup_replicate.
    + by apply Forall_replicate.
Qed.

(** ** Properties *)

(** What the destructor leaves behind: both queues are empty and no thread has a
    connection. *)
Definition destroyed (s : Admission) : Prop :=
  acceptor s = AcceptorGone ∧ Forall (λ w, gone w = true) (workers_ s) ∧ pending_ s = [] ∧ ready_ s = [].

(** C35: in every interleaving of the acceptor, the workers, the runtime and the
    destructor, at most [limit] connections wait, at most [max_active] are
    admitted and not yet dropped (and [claimed] counts exactly these), and every
    accepted connection is in exactly one place, or closed exactly once; when the
    destructor has returned, all connections but those the runtime holds are
    closed. *)
Theorem admission_accounts_for_every_connection timeout workers limit pool l s0 actions s :
  admission_server timeout workers limit pool = Ok (l, s0) → run l actions s0 = Some s →
  zlen (pending_ s) <= limit
  ∧ zlen (ready_ s) + zlen (live s) = claimed_ s ∧ claimed_ s <= Z.max 2 (pool + 1)
  ∧ NoDup (held s) ∧ held s ≡ₚ accepted s
  ∧ (destroyed s → live s ++ closed s ≡ₚ accepted s).
Proof.
  intros Hs Hr. pose proof Hs as [Hl Hi]%start_inv. pose proof (run_inv _ _ _ _ Hl Hi Hr) as [].
  assert (El : limit_ l = limit ∧ max_active_ l <= Z.max 2 (pool + 1)).
  { unfold admission_server in Hs. res_inv. simpl. destruct (1 <? pool); lia. }
  destruct El as [<- Hmax]. split; [done|]. split; [lia|]. split; [lia|].
  split; [by rewrite inv_held0|]. split; [done|]. intros (Ha & Hw & Hp & Hq).
  rewrite <- inv_held0. unfold held. rewrite Ha, Hp, Hq. simpl.
  assert (Hb : workers_ s ≫= worker_fd = []).
  { clear -Hw. induction Hw as [|w ws Hg _ IH]; [done|]. rewrite bind_cons, IH. by destruct w. }
  by rewrite Hb.
Qed.

(** A state from which the destructor cannot return: it has set [stop_] and sent
    its notifications, the queues are empty, and a worker sleeps that was between
    the test of its predicate and the wait. *)
Definition stuck (l : Limits) (s : Admission) : Prop :=
  closing s = Notified ∧ ¬ Forall (λ w, gone w = true) (workers_ s)
  ∧ (∀ a s', step l a s = Some s' → ∃ i, a = Spurious i).

(** C36: the destructor sets [stop_] and notifies without the mutex, so a
    notification can be lost: there is a run at whose end the destructor joins a
    worker that sleeps, and nothing but a spurious wake-up can wake it. *)
Theorem admission_shutdown_can_miss_a_worker timeout limit pool l s0 :
  admission_server timeout 1 limit pool = Ok (l, s0) →
  ∃ actions s, run l actions s0 = Some s ∧ stuck l s.
Proof.
  unfold admission_server. intros H. res_inv. simpl.
  exists [Wait 0; Stop; Notify; Sleep 0; AcceptorLeaves]. eexists. split; [reflexivity|].
  split; [done|]. split; [by intros [? _]%Forall_cons|].
  intros a s'. destruct a as [| | |i|i|i|i|i|i|i|i| | | | |]; try done; try (by destruct i as [|[]]).
  intros _. by exists i.
Qed.

(** ** Witnesses *)

Module AdmissionDemo.
Definition server : res (Limits * Admission) := admission_server 10000 2 16 2.
Definition limits : Limits := mkLimits 16 3.
Definition start : Admission := mkAdmission Polling [] [Idle; Idle] None [] [] 0 Running 0 0 [] [].

(** Two connections, of which one is not authenticated; the other is admitted
    and taken; then the destructor. *)
Definition actions : list Action :=
  [Accept 5; Wait 0; Sleep 0; Enqueue (Some 0%nat); Accept 6; Pop 0; Enqueue None; Pop 1; Upgrade 1 None;
   Upgrade 0 (Some true); Count 0; Decide 0; Take; Stop; Notify; Leave 0; Leave 1; AcceptorLeaves; Release 5].

Definition final : Admission :=
  mkAdmission AcceptorGone [] [WorkerGone; WorkerGone] None [] [] 0 Notified 0 1 [6; 5] [5; 6].
End AdmissionDemo.
Import AdmissionDemo.

Lemma admission_accounts_for_every_connection_witness :
  run limits actions start = Some final ∧ live final ++ closed final ≡ₚ accepted final.
Proof.
  assert (H : run limits actions start = Some final) by (vm_compute; reflexivity). split; [exact H|].
  apply (admission_accounts_for_every_connection 10000 2 16 2 limits start actions final); [reflexivity|exact H|].
  repeat split; repeat constructor.
Defined.

Lemma admission_shutdown_can_miss_a_worker_witness :
  ∃ actions s, run limits actions (mkAdmission Polling [] [Idle] None [] [] 0 Running 0 0 [] []) = Some s ∧ stuck limits s.
Proof.
  apply (admission_shutdown_can_miss_a_worker 10000 16 2 limits
    (mkAdmission Polling [] [Idle] None [] [] 0 Running 0 0 [] [])). reflexivity.
Defined.
