(* ===== verification/HttpUpgrade.v ===== *)
(** * The HTTP upgrade (cdn/src/websocket.cpp)

    The helpers of the handshake on text: the header fields, their tokens, the
    [Sec-WebSocket-Key] and its answer, and the requests themselves. SHA-1 and
    base64 are OpenSSL's: the class [HttpLib]. *)

From S2P Require Import Prelude Text Crypto.

Class HttpLib := {
  (** [SHA1(data)] *)
  sha1 : bytes → option bytes;
  (** [EVP_EncodeBlock]: the text, or a negative count *)
  evp_encode_block : bytes → option bytes;
  (** [EVP_DecodeBlock]: the number of bytes, padding included, or a negative number *)
  evp_decode_block : bytes → Z }.

(** [lower] src/cdn/src/websocket.cpp:45-48 *)
Definition lower (s : bytes) : bytes := map tolower s.

Definition crlf : bytes := [13; 10].

Section Upgrade.
Context {H : HttpLib} {C : Crypto}.

(** [b64] src/cdn/src/websocket.cpp:55-61 *)
Definition b64 (s : bytes) : res bytes := or_throw (evp_encode_block s) (str "base64 encoding failed").

(** [ws_accept] src/cdn/src/websocket.cpp:62-68 *)
Definition ws_accept (key : bytes) : res bytes :=
  d ← or_throw (sha1 (key ++ str "258EAFA5-E914-47DA-95CA-C5AB0DC85B11")) (str "SHA1 failed") ;
  b64 d.

(** [rand_key] src/cdn/src/websocket.cpp:69-73 *)
Definition rand_key (g : rng) : res (bytes * rng) :=
  '(b, g) ← or_throw (rand_bytes 16 g) (str "RAND_bytes failed") ;
  k ← b64 b ;
  Ok (k, g).

(** [valid_ws_key] src/cdn/src/websocket.cpp:74-83 *)
Definition valid_ws_key (key : bytes) : bool :=
  if negb (length key =? 24)%nat then false
  else
    let n := evp_decode_block key in
    if n <? 0 then false
    else
      let padding := (if at_ key 23 =? 61 then 1 else 0) + (if at_ key 22 =? 61 then 1 else 0) in
      n - padding =? 16.

(** The blanks and tabs after the colon of a field. *)
Fixpoint skip_blanks (s : bytes) : bytes :=
  match s with c :: s' => if (c =? 32) || (c =? 9) then skip_blanks s' else s | [] => [] end.

(** [hdr] src/cdn/src/websocket.cpp:84-93 *)
Definition hdr (s : bytes) (name : string) : bytes :=
  let needle := crlf ++ lower (str name) ++ [58] in
  match find needle (lower s) with
  | None => []
  | Some p =>
      let value := skip_blanks (drop (p + length needle) s) in
      trim (match find crlf value with None => value | Some e => take e value end)
  end.

(** The parts of a list that commas separate. *)
Fixpoint comma_parts (fuel : nat) (value : bytes) : list bytes :=
  match fuel, find_char 44 value with
  | S fuel, Some comma => take comma value :: comma_parts fuel (drop (S comma) value)
  | _, _ => [value]
  end.

(** [header_token] src/cdn/src/websocket.cpp:94-105; a value has fewer commas
    than characters. *)
Definition header_token (value token : bytes) : bool :=
  existsb (λ part, bool_decide (lower (trim part) = lower token)) (comma_parts (length value) value).

(** [host_matches] src/cdn/src/websocket.cpp:106-109 *)
Definition host_matches (got expected : bytes) : bool :=
  let g := lower (trim got) in
  let e := lower (trim expected) in
  bool_decide (g = e) || bool_decide (g = e ++ str ":443") || bool_decide (g = e ++ str ":80").

(** The fields a client adds to look like a browser.
    [websocket_client_upgrade] src/cdn/src/websocket.cpp:350-356 *)
Definition browser_headers (profile host : bytes) : bytes :=
  if text_is profile "none" then []
  else
    let ua := if text_is profile "chrome120" then
        str "Mozilla/5.0 (X11; Linux x86_64) AppleWebKit/537.36 (KHTML, like Gecko) Chrome/120.0.0.0 Safari/537.36"
      else str "Mozilla/5.0 (X11; Linux x86_64; rv:120.0) Gecko/20100101 Firefox/120.0" in
    str "User-Agent: " ++ ua ++ crlf ++ str "Origin: https://" ++ host ++ crlf
    ++ str "Sec-Fetch-Dest: websocket" ++ crlf ++ str "Sec-Fetch-Mode: websocket" ++ crlf
    ++ str "Sec-Fetch-Site: same-origin" ++ crlf.

(** [websocket_client_upgrade] src/cdn/src/websocket.cpp:357-357 *)
Definition upgrade_request (profile host path key : bytes) : bytes :=
  str "GET " ++ path ++ str " HTTP/1.1" ++ crlf ++ str "Host: " ++ host ++ crlf
  ++ str "Upgrade: websocket" ++ crlf ++ str "Connection: Upgrade" ++ crlf
  ++ str "Sec-WebSocket-Key: " ++ key ++ crlf ++ str "Sec-WebSocket-Version: 13" ++ crlf
  ++ browser_headers profile host ++ crlf.

(** What the client requires of the answer.
    [websocket_client_upgrade] src/cdn/src/websocket.cpp:363-367 *)
Definition check_response (r key : bytes) : res unit :=
  throw_if (negb (starts_with (str "HTTP/1.1 101 ") r) && negb (starts_with (str "HTTP/1.1 101" ++ crlf) r))
    (str "WebSocket upgrade rejected: " ++ match find crlf r with Some e => take e r | None => r end) ;;
  throw_if (negb (bool_decide (lower (hdr r "Upgrade") = str "websocket"))
            || negb (header_token (hdr r "Connection") (str "upgrade"))) (str "invalid RFC6455 upgrade response") ;;
  want ← ws_accept key ;
  throw_if (negb (bool_decide (hdr r "Sec-WebSocket-Accept" = want))
            || negb (bool_decide (hdr r "Sec-WebSocket-Protocol" = [])))
    (str "invalid RFC6455 upgrade response").

(** What the server requires of the request; the result is its key.
    [websocket_server_upgrade] src/cdn/src/websocket.cpp:403-409 *)
Definition check_request (r host path : bytes) : res bytes :=
  throw_if (match find crlf r with
            | None => true
            | Some e => negb (bool_decide (take e r = str "GET " ++ path ++ str " HTTP/1.1"))
            end) (str "invalid WebSocket path or method") ;;
  let key := hdr r "Sec-WebSocket-Key" in
  throw_if (negb (bool_decide (lower (hdr r "Upgrade") = str "websocket"))
            || negb (header_token (hdr r "Connection") (str "upgrade"))
            || negb (text_is (hdr r "Sec-WebSocket-Version") "13") || negb (valid_ws_key key)
            || negb (bool_decide (hdr r "Sec-WebSocket-Protocol" = [])))
    (str "invalid RFC6455 request") ;;
  throw_if (negb (host_matches (hdr r "Host") host)) (str "invalid WebSocket Host") ;;
  Ok key.

(** [websocket_server_upgrade] src/cdn/src/websocket.cpp:410-410 *)
Definition upgrade_response (key : bytes) : res bytes :=
  a ← ws_accept key ;
  Ok (str "HTTP/1.1 101 Switching Protocols" ++ crlf ++ str "Upgrade: websocket" ++ crlf
      ++ str "Connection: Upgrade" ++ crlf ++ str "Sec-WebSocket-Accept: " ++ a ++ crlf ++ crlf).

(** The answer to a request that is no upgrade.
    [websocket_http_fallback] src/cdn/src/websocket.cpp:638-639 *)
Definition fallback_response : bytes :=
  let q := [34] in
  let body := str "<!doctype html><html lang=" ++ q ++ str "en" ++ q ++ str "><meta charset=" ++ q ++ str "utf-8" ++ q
    ++ str "><title>Not found</title><h1>Not found</h1><p>The requested page is unavailable.</p></html>" ++ [10] in
  str "HTTP/1.1 404 Not Found" ++ crlf ++ str "Content-Type: text/html; charset=utf-8" ++ crlf
  ++ str "Content-Length: " ++ to_string (zlen body) ++ crlf ++ str "Cache-Control: no-store" ++ crlf
  ++ str "Connection: close" ++ crlf ++ crlf ++ body.
End Upgrade.
