(* ===== verification/Handshake.v ===== *)
(** * The authenticated handshake (cdn/src/websocket.cpp)

    After the HTTP upgrade the two sides exchange a hello each (PTT6, or PTT8
    for a pool), confirm the derived keys, and run three timed trials and a
    commit. The WebSocket session below is the one of WebSocket.v; here it is
    seen through what the loops of the handshake observe: each turn reads the
    clock, and a call of [websocket_read_messages], [websocket_flush], [io_read]
    or [io_write] returns or throws. A [Party] holds what will be observed, in
    its order; where nothing is left, the deadline has passed. *)

From S2P Require Import Prelude Text Crypto Keys HttpUpgrade.

(** ** A party *)

(** What one [io_read] or [io_write] of the upgrade gives: bytes or a count; no
    data, with the outcome of [wait_io]; or a failure. *)
Inductive TextIo := Moved (b : bytes) | WouldBlock (waited : res unit) | IoError.

Section Handshake.
Context {H : HttpLib} {C : Crypto}.

(** The session as the handshake sees it, with what it will observe and what it
    did. [WsSession] src/cdn/include/pacetun/websocket.hpp:20-26 *)
Record Party := mkParty {
  is_client : bool; profile : bytes; upgraded : bool; authenticated : bool;
  rx_rest : bytes; prefetched : list bytes; entropy : rng;
  (* to be observed: deadlines passed, messages read, flushes, times, socket I/O *)
  clock : list bool; reads : list (res (list bytes)); flushes : list (res bool);
  times : list Z; io : list TextIo;
  (* done: messages sent, messages received, text written *)
  sent : list bytes; got : list bytes; written : bytes }.

Abbreviation P := (M Party).

Definition set_upgraded (p : Party) : Party :=
  mkParty (is_client p) (profile p) true (authenticated p) (rx_rest p) (prefetched p) (entropy p)
    (clock p) (reads p) (flushes p) (times p) (io p) (sent p) (got p) (written p).
Definition set_authenticated (p : Party) : Party :=
  mkParty (is_client p) (profile p) (upgraded p) true (rx_rest p) (prefetched p) (entropy p)
    (clock p) (reads p) (flushes p) (times p) (io p) (sent p) (got p) (written p).
Definition set_prefetched (l : list bytes) (p : Party) : Party :=
  mkParty (is_client p) (profile p) (upgraded p) (authenticated p) (rx_rest p) l (entropy p)
    (clock p) (reads p) (flushes p) (times p) (io p) (sent p) (got p) (written p).
Definition set_clock (l : list bool) (p : Party) : Party :=
  mkParty (is_client p) (profile p) (upgraded p) (authenticated p) (rx_rest p) (prefetched p) (entropy p)
    l (reads p) (flushes p) (times p) (io p) (sent p) (got p) (written p).
Definition set_flushes (l : list (res bool)) (p : Party) : Party :=
  mkParty (is_client p) (profile p) (upgraded p) (authenticated p) (rx_rest p) (prefetched p) (entropy p)
    (clock p) (reads p) l (times p) (io p) (sent p) (got p) (written p).
Definition log_sent (m : bytes) (p : Party) : Party :=
  mkParty (is_client p) (profile p) (upgraded p) (authenticated p) (rx_rest p) (prefetched p) (entropy p)
    (clock p) (reads p) (flushes p) (times p) (io p) (sent p ++ [m]) (got p) (written p).
Definition set_read (l : list (res (list bytes))) (ms : list bytes) (p : Party) : Party :=
  mkParty (is_client p) (profile p) (upgraded p) (authenticated p) (rx_rest p) (prefetched p) (entropy p)
    (clock p) l (flushes p) (times p) (io p) (sent p) (got p ++ ms) (written p).
Definition set_times (l : list Z) (p : Party) : Party :=
  mkParty (is_client p) (profile p) (upgraded p) (authenticated p) (rx_rest p) (prefetched p) (entropy p)
    (clock p) (reads p) (flushes p) l (io p) (sent p) (got p) (written p).
Definition set_io (l : list TextIo) (w : bytes) (p : Party) : Party :=
  mkParty (is_client p) (profile p) (upgraded p) (authenticated p) (rx_rest p) (prefetched p) (entropy p)
    (clock p) (reads p) (flushes p) (times p) l (sent p) (got p) w.
Definition set_rest (b : bytes) (p : Party) : Party :=
  mkParty (is_client p) (profile p) (upgraded p) (authenticated p) b (prefetched p) (entropy p)
    (clock p) (reads p) (flushes p) (times p) (io p) (sent p) (got p) (written p).
Definition set_entropy (g : rng) (p : Party) : Party :=
  mkParty (is_client p) (profile p) (upgraded p) (authenticated p) (rx_rest p) (prefetched p) g
    (clock p) (reads p) (flushes p) (times p) (io p) (sent p) (got p) (written p).

(** A computation that draws random bytes, and one that does not. *)
Definition draw {A} (f : rng → res (A * rng)) : P A := λ p,
  match f (entropy p) with Ok (a, g) => (Ok a, set_entropy g p) | Err e => (Err e, p) end.
Definition pure_call {A} (r : res A) : P A := match r with Ok a => mret a | Err e => throw e end.
(** [try { r } catch (...) { throw e; }] *)
Definition rename {A} (r : res A) (e : bytes) : res A := match r with Ok a => Ok a | Err _ => Err e end.

(** ** Text on the socket *)

(** [write_all_until] src/cdn/src/websocket.cpp:155-163 *)
Fixpoint write_loop (what : bytes) (data : bytes) (todo : list TextIo) (p : Party) : res unit * Party :=
  match data with
  | [] => (Ok tt, set_io todo (written p) p)
  | _ =>
      match todo with
      | [] => (Err (str "WebSocket " ++ what ++ str " timeout"), set_io [] (written p) p)
      | Moved b :: todo =>
          let n := length b in
          if (n =? 0)%nat then (Err (str "WebSocket " ++ what ++ str " write failed"), set_io todo (written p) p)
          else write_loop what (drop n data) todo (set_io todo (written p ++ take n data) p)
      | WouldBlock (Ok _) :: todo => write_loop what data todo p
      | WouldBlock (Err e) :: todo => (Err e, set_io todo (written p) p)
      | IoError :: todo => (Err (str "WebSocket " ++ what ++ str " write failed"), set_io todo (written p) p)
      end
  end.

(** [write_all_until] src/cdn/src/websocket.cpp:155-163 *)
Definition write_all (what data : bytes) : P unit := λ p, write_loop what data (io p) p.

(** The loop of [read_headers] on what was read so far.
    [read_headers] src/cdn/src/websocket.cpp:168-181 *)
Fixpoint read_headers_loop (s : bytes) (todo : list TextIo) (p : Party) : res bytes * Party :=
  match find (crlf ++ crlf) s with
  | Some e => (Ok (take (e + 4) s), set_rest (rx_rest p ++ drop (e + 4) s) (set_io todo (written p) p))
  | None =>
      if 32768 <? zlen s then (Err (str "WebSocket headers too large"), set_io todo (written p) p)
      else
        match todo with
        | [] => (Err (str "WebSocket upgrade timeout"), set_io [] (written p) p)
        | Moved b :: todo =>
            if (length b =? 0)%nat then (Err (str "WebSocket header read failed"), set_io todo (written p) p)
            else read_headers_loop (s ++ take 2048 b) todo p
        | WouldBlock (Ok _) :: todo => read_headers_loop s todo p
        | WouldBlock (Err e) :: todo => (Err e, set_io todo (written p) p)
        | IoError :: todo => (Err (str "WebSocket header read failed"), set_io todo (written p) p)
        end
  end.

(** [read_headers] src/cdn/src/websocket.cpp:164-182 *)
Definition read_headers : P bytes := λ p, read_headers_loop [] (io p) p.

(** ** Messages *)

(** One call of [websocket_read_messages]: the prefetched messages first. *)
Definition read_messages : P (list bytes) := λ p,
  match prefetched p with
  | _ :: _ => (Ok (prefetched p), set_prefetched [] p)
  | [] =>
      match reads p with
      | [] => (Ok [], p)
      | Ok ms :: rest => (Ok ms, set_read rest ms p)
      | Err e :: rest => (Err e, set_read rest [] p)
      end
  end.

(** The loops that wait for messages: [while (Clock::now() < deadline)]. *)
Fixpoint receive_loop (late : bytes) (ticks : list bool) (p : Party) : res (list bytes) * Party :=
  match ticks with
  | [] => (Err late, set_clock [] p)
  | true :: ticks => (Err late, set_clock ticks p)
  | false :: ticks =>
      match read_messages (set_clock ticks p) with
      | (Ok [], p) => receive_loop late ticks p
      | r => r
      end
  end.
Definition receive_some (late : bytes) : P (list bytes) := λ p, receive_loop late (clock p) p.

(** The loops that send a message: [websocket_send_binary], then flushes while
    data is pending; the deadline is read after every flush. An error before the
    first flush stands for an exception of [websocket_send_binary]. *)
Fixpoint flush_turns (late : bytes) (todo : list (res bool)) (ticks : list bool) (p : Party) : res unit * Party :=
  match todo, ticks with
  | Err e :: todo, _ => (Err e, set_flushes todo (set_clock ticks p))
  | Ok pending :: todo, false :: ticks =>
      if pending : bool then flush_turns late todo ticks p
      else (Ok tt, set_flushes todo (set_clock ticks p))
  | Ok _ :: todo, true :: ticks => (Err late, set_flushes todo (set_clock ticks p))
  | Ok _ :: todo, [] => (Err late, set_flushes todo (set_clock [] p))
  | [], _ => (Err late, set_flushes [] (set_clock ticks p))
  end.
Definition send_message (late m : bytes) : P unit := λ p,
  match flushes p with
  | Err e :: todo => (Err e, set_flushes todo p)
  | _ => flush_turns late (flushes p) (clock p) (log_sent m p)
  end.

(** [send_handshake] src/cdn/src/websocket.cpp:321-329 *)
Definition send_handshake (data : bytes) : P unit :=
  check (1024 <? zlen data) (str "oversized handshake") ;;
  send_message (str "post-upgrade authentication timeout") data.

(** [receive_handshake] src/cdn/src/websocket.cpp:330-339 *)
Definition receive_handshake : P bytes :=
  messages ← receive_some (str "post-upgrade authentication timeout") ;
  match messages with
  | [m] =>
      check (1024 <? zlen m) (str "invalid post-upgrade negotiation frame count or size") ;; mret m
  | _ => throw (str "invalid post-upgrade negotiation frame count or size")
  end.

(** ** Key confirmation and trials *)

(** [WsHandshakeResult] src/cdn/include/pacetun/websocket.hpp:58-69 *)
Record WsHandshakeResult := mkResult {
  keys : SessionKeys; peer_padding : bool; peer_envelope : bool; confirmed : bool; peer_trial : bool;
  trial_max_rtt_us : Z; psk_index : nat; pool_connections : Z; client_nonce : bytes; server_nonce : bytes }.

(** [confirmation_mac] src/cdn/src/websocket.cpp:236-241 *)
Definition confirmation_mac (k : SessionKeys) (client : bool) : res bytes :=
  let label := if client then str "PTT5 client key confirmation v1" else str "PTT5 server key confirmation v1" in
  out ← or_throw (hmac_sha256 (auth k) label) (str "confirmation MAC failed") ;
  throw_if (negb (zlen out =? 32)) (str "confirmation MAC failed") ;;
  Ok out.

(** [trial_message] src/cdn/src/websocket.cpp:242-251 *)
Definition trial_message (k : SessionKeys) (type : Z) (nonce : bytes) : res bytes :=
  let out := type :: nonce in
  m ← or_throw (hmac_sha256 (auth k) (str "PTT5 candidate trial v1" ++ out)) (str "trial MAC failed") ;
  throw_if (negb (zlen m =? 32)) (str "trial MAC failed") ;;
  Ok (out ++ m).

(** The first message of a batch; the others are kept for the next reader.
    [trial_session] src/cdn/src/websocket.cpp:262-270 *)
Definition receive_first (late : bytes) : P bytes :=
  messages ← receive_some late ;
  match messages with
  | first :: others => modify (λ p, set_prefetched (prefetched p ++ others) p) ;; mret first
  | [] => throw late
  end.

Abbreviation trial_send := (send_message (str "candidate trial send timeout")).
Abbreviation trial_receive := (receive_first (str "candidate trial receive timeout")).

(** The time between two readings of the clock, in microseconds. *)
Definition elapsed_us : P Z := λ p,
  match times p with [] => (Ok 0, p) | t :: ts => (Ok t, set_times ts p) end.

(** One trial of the client: the nonce it used and the round trip.
    [trial_session] src/cdn/src/websocket.cpp:275-281 *)
Definition client_trial (k : SessionKeys) (max_rtt_ms i : Z) : P (bytes * Z) :=
  nonce ← draw (λ g, or_throw (rand_bytes 32 g) (str "trial randomness failed")) ;
  request ← pure_call (trial_message k (64 + i) nonce) ;
  trial_send request ;;
  answer ← trial_receive ;
  want ← pure_call (trial_message k (80 + i) nonce) ;
  check (negb (bool_decide (answer = want))) (str "candidate trial authentication failed") ;;
  us ← elapsed_us ;
  check ((0 <? max_rtt_ms) && (max_rtt_ms * 1000 <? us))
    (str "candidate rejected: authenticated trial RTT exceeds " ++ to_string max_rtt_ms ++ str " ms") ;;
  mret (nonce, us).

(** One trial of the server: the nonce of the request.
    [trial_session] src/cdn/src/websocket.cpp:283-287 *)
Definition server_trial (k : SessionKeys) (i : Z) : P bytes :=
  request ← trial_receive ;
  check (negb (zlen request =? 65)) (str "invalid trial request") ;;
  let nonce := take 32 (drop 1 request) in
  want ← pure_call (trial_message k (64 + i) nonce) ;
  check (negb (bool_decide (request = want))) (str "candidate trial authentication failed") ;;
  response ← pure_call (trial_message k (80 + i) nonce) ;
  trial_send response ;;
  mret nonce.

(** [trial_session] src/cdn/src/websocket.cpp:252-299, as the client. The result
    is [trial_max_rtt_us]. *)
Definition client_trial_session (k : SessionKeys) (max_rtt_ms : Z) : P Z :=
  '(_, a) ← client_trial k max_rtt_ms 0 ;
  '(_, b) ← client_trial k max_rtt_ms 1 ;
  '(nonce, c) ← client_trial k max_rtt_ms 2 ;
  commit ← pure_call (trial_message k 96 nonce) ;
  ack ← pure_call (trial_message k 97 nonce) ;
  trial_send commit ;;
  answer ← trial_receive ;
  check (negb (bool_decide (answer = ack))) (str "candidate commit acknowledgement failed") ;;
  mret (Z.max (Z.max (Z.max (-1) a) b) c).

(** [trial_session] src/cdn/src/websocket.cpp:252-299, as the server. *)
Definition server_trial_session (k : SessionKeys) : P unit :=
  server_trial k 0 ;;
  server_trial k 1 ;;
  nonce ← server_trial k 2 ;
  commit ← pure_call (trial_message k 96 nonce) ;
  ack ← pure_call (trial_message k 97 nonce) ;
  request ← trial_receive ;
  check (negb (bool_decide (request = commit))) (str "candidate commit failed") ;;
  trial_send ack.

(** [confirm_session] src/cdn/src/websocket.cpp:302-302 *)
Definition confirm_send (k : SessionKeys) (client : bool) : P unit :=
  m ← pure_call (confirmation_mac k client) ;
  send_message (str "key confirmation timeout") m.

(** [confirm_session] src/cdn/src/websocket.cpp:303-310 *)
Definition confirm_receive (k : SessionKeys) (client : bool) : P unit :=
  messages ← receive_some (str "key confirmation timeout") ;
  wanted ← pure_call (confirmation_mac k (negb client)) ;
  match messages with
  | first :: others =>
      check (negb (bool_decide (first = wanted))) (str "key confirmation failed") ;;
      modify (λ p, set_prefetched (prefetched p ++ others) p)
  | [] => throw (str "key confirmation timeout")
  end.

(** [confirm_session] src/cdn/src/websocket.cpp:300-312 *)
Definition confirm_session (k : SessionKeys) (client : bool) : P unit :=
  if client then confirm_send k client ;; confirm_receive k client
  else confirm_receive k client ;; confirm_send k client.

(** ** The two sides *)

(** [kClientHello], [kPoolClientHello] src/cdn/src/websocket.cpp:315-316 *)
Definition client_prefix (pool : Z) : bytes := if 1 <? pool then str "PTT8-C:" else str "PTT6-C:".
(** [kServerHello], [kPoolServerHello] src/cdn/src/websocket.cpp:317-318 *)
Definition server_prefix (pool : Z) : bytes := if 1 <? pool then str "PTT8-S:" else str "PTT6-S:".
(** What binds the size of the pool to the tokens.
    [websocket_client_upgrade] src/cdn/src/websocket.cpp:369-370 *)
Definition pool_binding (pool : Z) : bytes := if 1 <? pool then str "pool-v2:" ++ to_string pool else [].

(** The three parts of a hello.
    [websocket_client_upgrade] src/cdn/src/websocket.cpp:375-380 *)
Definition hello_parts (prefix m : bytes) (e : string) : res (bytes * bytes * bytes) :=
  throw_if (negb (zlen m =? 199) || negb (bool_decide (take 7 m = prefix))) (str e) ;;
  Ok (substr 7 64 m, substr 71 64 m, substr 135 64 m).

(** One reading of the clock against the deadline. *)
Definition past_deadline : P bool := λ p,
  match clock p with [] => (Ok true, p) | late :: ticks => (Ok late, set_clock ticks p) end.

(** [websocket_client_upgrade] src/cdn/src/websocket.cpp:341-394 *)
Definition websocket_client_upgrade (host path psk : bytes) (candidate_max_rtt_ms : Z) (require_trial : bool)
    (pool : Z) : P WsHandshakeResult :=
  check ((pool <? 1) || (4 <? pool)) (str "invalid pool handshake size") ;;
  eph ← draw generate_x25519_keypair ;
  cnonce ← draw random_nonce_hex ;
  client_public_hex ← pure_call (key32_hex (public_key eph)) ;
  key ← draw rand_key ;
  browser ← gets profile ;
  write_all (str "upgrade") (upgrade_request browser host path key) ;;
  late ← past_deadline ;
  check late (str "WebSocket upgrade timeout") ;;
  r ← read_headers ;
  pure_call (check_response r key) ;;
  modify set_upgraded ;;
  let bind := pool_binding pool in
  token ← pure_call (websocket_client_auth_token_v5 psk host path cnonce (client_public_hex ++ bind)) ;
  send_handshake (client_prefix pool ++ cnonce ++ client_public_hex ++ token) ;;
  response ← receive_handshake ;
  parts ← pure_call (hello_parts (server_prefix pool) response "invalid authenticated server negotiation") ;
  let '(snonce, server_public_hex, proof) := (parts : bytes * bytes * bytes) in
  server_public ← pure_call (rename (key32_from_hex server_public_hex) (str "invalid server public key")) ;
  want ← pure_call (websocket_server_proof_v5 psk host path cnonce snonce client_public_hex (server_public_hex ++ bind)) ;
  check (negb (bool_decide (proof = want))) (str "server authentication failed") ;;
  shared ← pure_call (x25519_shared_secret (private_key eph) server_public) ;
  k ← pure_call (derive_session_keys_v5 psk shared snonce cnonce (public_key eph) server_public) ;
  confirm_session k true ;;
  rtt ← client_trial_session k candidate_max_rtt_ms ;
  check (require_trial && negb true) (str "replacement requires trial-v1") ;;
  modify set_authenticated ;;
  mret (mkResult k true true true true rtt 0 pool cnonce snonce).

(** The first key whose token is the one received.
    [websocket_server_upgrade] src/cdn/src/websocket.cpp:424-428 *)
Fixpoint find_psk (psks : list bytes) (token : bytes → res bytes) (got : bytes) (i : nat) : res (option (nat * bytes)) :=
  match psks with
  | [] => Ok None
  | psk :: psks =>
      want ← token psk ;
      if bool_decide (got = want) then Ok (Some (i, psk)) else find_psk psks token got (S i)
  end.

(** [websocket_server_upgrade] src/cdn/src/websocket.cpp:396-444 *)
Definition websocket_server_upgrade (host path : bytes) (psks : list bytes) (pool : Z) : P WsHandshakeResult :=
  check ((pool <? 1) || (4 <? pool)) (str "invalid server pool handshake size") ;;
  r ← read_headers ;
  key ← pure_call (check_request r host path) ;
  resp ← pure_call (upgrade_response key) ;
  write_all (str "upgrade") resp ;;
  modify set_upgraded ;;
  hello ← receive_handshake ;
  let bind := pool_binding pool in
  parts ← pure_call (hello_parts (client_prefix pool) hello "invalid post-upgrade client negotiation") ;
  let '(cnonce, client_public_hex, token) := (parts : bytes * bytes * bytes) in
  client_public ← pure_call (rename (key32_from_hex client_public_hex) (str "invalid client public key")) ;
  found ← pure_call (find_psk psks
    (λ psk, websocket_client_auth_token_v5 psk host path cnonce (client_public_hex ++ bind)) token 0) ;
  m ← pure_call (or_throw found (str "post-upgrade client authentication failed")) ;
  let '(idx, psk) := (m : nat * bytes) in
  eph ← draw generate_x25519_keypair ;
  snonce ← draw random_nonce_hex ;
  server_public_hex ← pure_call (key32_hex (public_key eph)) ;
  proof ← pure_call (websocket_server_proof_v5 psk host path cnonce snonce client_public_hex (server_public_hex ++ bind)) ;
  shared ← pure_call (x25519_shared_secret (private_key eph) client_public) ;
  k ← pure_call (derive_session_keys_v5 psk shared snonce cnonce client_public (public_key eph)) ;
  send_handshake (server_prefix pool ++ snonce ++ server_public_hex ++ proof) ;;
  confirm_session k false ;;
  server_trial_session k ;;
  modify set_authenticated ;;
  mret (mkResult k true true true true (-1) idx pool cnonce snonce).
End Handshake.
