(* ===== verification/WsClosing.v ===== *)
(** * The end of a session (cdn/src/websocket.cpp)

    [websocket_close] and the answer to a request that is no upgrade: writes with
    a deadline on the session of WebSocket.v, unlike the rest of it, which
    never waits. *)

From S2P Require Import Prelude.
From S2P Require Import Text Crypto Transport WsFrame WebSocket HttpUpgrade.

(** What is used here besides [Transport]: the steady clock in nanoseconds,
    [SSL_set_quiet_shutdown] and [SSL_free], [shutdown] and [close]. *)
Class SessionOs (T : Transport) := {
  now_ns : world → Z * world;
  free_ssl : world → world;
  shut_socket : world → world;
}.

(** The clock goes on: it is read only so many times before a given time, and
    nothing that is called here makes that number larger. *)
Class TimePasses (T : Transport) {SO : SessionOs T} := {
  readings : Z → world → nat;
  readings_now t w : (readings t (now_ns w).2 <= readings t w)%nat
    ∧ ((now_ns w).1 < t → (readings t (now_ns w).2 < readings t w)%nat);
  readings_send t b w : (readings t (send b w).2 <= readings t w)%nat;
  readings_ssl_write t b w : (readings t (ssl_write_ex b w).2 <= readings t w)%nat;
  readings_poll t e ms w : (readings t (poll e ms w).2 <= readings t w)%nat;
}.

(** The clock does not touch the streams. *)
Class ClockWire (T : Transport) {SO : SessionOs T} {Wi : Wire T} := {
  wire_now_ns w : outgoing (now_ns w).2 = outgoing w ∧ incoming (now_ns w).2 = incoming w;
}.

Section Closing.
Context {C : Crypto} {T : Transport} {SO : SessionOs T} {TP : TimePasses T}.

Abbreviation W := (M Conn).

(** ** Writing with a deadline *)

(** The loop of [wait_io], at most [fuel] turns of it, then [spent].
    [wait_io] src/cdn/src/websocket.cpp:141-153 *)
Fixpoint wait_io_loop (spent : W unit) (fuel : nat) (events : PollEvent) (deadline : Z) (what : bytes) : W unit :=
  match fuel with
  | O => spent
  | S fuel' =>
      now ← os now_ns ;
      let remain := Z.quot (deadline - now) 1000000 in
      check (remain <=? 0) (str "WebSocket " ++ what ++ str " timeout") ;;
      r ← os (poll events (Z.min remain 250)) ;
      match r with
      | PollReady invalid wanted hangup =>
          check invalid (str "WebSocket " ++ what ++ str " socket invalid") ;;
          if (wanted : bool) then mret tt
          else check hangup (str "WebSocket " ++ what ++ str " socket closed") ;;
               wait_io_loop spent fuel' events deadline what
      | PollError false => throw (str "WebSocket " ++ what ++ str " poll failed")
      | PollError true | PollTimeout => wait_io_loop spent fuel' events deadline what
      end
  end.

Definition out_of_time (what : bytes) : W unit := throw (str "WebSocket " ++ what ++ str " timeout").

(** [wait_io] src/cdn/src/websocket.cpp:140-154 *)
Definition wait_io (events : PollEvent) (deadline : Z) (what : bytes) : W unit := λ c,
  wait_io_loop (out_of_time what) (S (readings deadline (net c))) events deadline what c.

(** What [write_all_until] waits for when a write would block. *)
Definition write_event : W PollEvent := w ← session ; mret (if tx_wait (txs w) =? 1 then POLLIN else POLLOUT).

(** The loop of [write_all_until] on what is left to write.
    [write_all_until] src/cdn/src/websocket.cpp:156-163 *)
Fixpoint write_until_loop (spent : W unit) (fuel : nat) (d : bytes) (deadline : Z) (what : bytes) : W unit :=
  match fuel with
  | O => spent
  | S fuel' =>
      if (length d =? 0)%nat then mret tt
      else
        n ← io_write d ;
        match n with
        | IoGot n => write_until_loop spent fuel' (drop n d) deadline what
        | IoAgain =>
            e ← write_event ;
            wait_io e deadline what ;; write_until_loop spent fuel' d deadline what
        | _ => throw (str "WebSocket " ++ what ++ str " write failed")
        end
  end.

(** Turns enough: each one writes a byte, or reads the clock before the deadline. *)
Definition write_turns (d : bytes) (deadline : Z) (c : Conn) : nat := S (length d + readings deadline (net c)).

(** [write_all_until] src/cdn/src/websocket.cpp:155-164 *)
Definition write_all_until (d : bytes) (deadline : Z) (what : bytes) : W unit := λ c,
  write_until_loop (out_of_time what) (write_turns d deadline c) d deadline what c.

(** ** Closing *)

(** The queue is dropped, and a close frame is written if that is quick.
    [best_effort_close_frame] src/cdn/src/websocket.cpp:226-231 *)
Definition drop_queue_and_say_close : W unit :=
  on_tx (λ t, mkTx [] 0 0 (tx_wait t)) ;;
  f ← make_frame 8 [] ;
  w ← session ;
  now ← os now_ns ;
  write_all_until f (now + Z.min (Z.max 100 (io_timeout_ms (conf w))) 1000 * 1000000) (str "close").

(** [best_effort_close_frame] src/cdn/src/websocket.cpp:224-232 *)
Definition best_effort_close_frame : W unit :=
  w ← session ;
  if negb (upgraded (conf w)) || negb (open (conf w)) then mret tt else attempt drop_queue_and_say_close.

(** The configuration of a session without its TLS object, and without its socket. *)
Definition no_ssl (c : WsConf) : WsConf := mkConf false (open c) (client c) (io_timeout_ms c) (upgraded c) (authenticated c).
Definition no_socket (c : WsConf) : WsConf := mkConf (ssl c) false (client c) (io_timeout_ms c) (upgraded c) (authenticated c).

(** [websocket_close] src/cdn/src/websocket.cpp:645-645 *)
Definition release_ssl : W unit :=
  w ← session ;
  if ssl (conf w) then os (λ w, (tt, free_ssl w)) ;; on_ws (λ w, set_conf (no_ssl (conf w)) w) else mret tt.

(** [websocket_close] src/cdn/src/websocket.cpp:646-646 *)
Definition release_socket : W unit :=
  w ← session ;
  if open (conf w) then os (λ w, (tt, shut_socket w)) ;; on_ws (λ w, set_conf (no_socket (conf w)) w) else mret tt.

(** [websocket_close] src/cdn/src/websocket.cpp:643-648 *)
Definition websocket_close : W unit :=
  best_effort_close_frame ;;
  release_ssl ;;
  release_socket ;;
  on_tx (λ t, mkTx [] 0 0 0) ;;
  on_rx (set_rx_wait 0).

(** [websocket_http_fallback] src/cdn/src/websocket.cpp:636-641 *)
Definition websocket_http_fallback : W unit :=
  w ← session ;
  if upgraded (conf w) then mret tt
  else
    now ← os now_ns ;
    write_all_until fallback_response (now + 1000 * 1000000) (str "fallback").

(** ** Facts *)

(** What an operation leaves alone: the session but for the marks of what it waits for. *)
Definition bystander (c c' : Conn) : Prop :=
  conf (ws c') = conf (ws c) ∧ stats (ws c') = stats (ws c) ∧ closing (ws c') = closing (ws c)
  ∧ rxs (ws c') = rxs (ws c).

Lemma bystander_refl c : bystander c c.
Proof. by repeat split. Qed.
Lemma bystander_trans c1 c2 c3 : bystander c1 c2 → bystander c2 c3 → bystander c1 c3.
Proof. intros (? & ? & ? & ?) (? & ? & ? & ?). repeat split; congruence. Qed.

(** A call before an operation. *)
Lemma os_then {A B} (f : world → A * world) (g : A → W B) c :
  (os f ≫= g) c = g (f (net c)).1 (mkConn (ws c) (f (net c)).2 (entropy c)).
Proof using Type. unfold mbind, M_bind, os. by destruct (f (net c)). Qed.

(** A turn that is not the last one read the clock before the deadline. *)
Lemma before_deadline deadline now : (Z.quot (deadline - now) 1000000 <=? 0) = false → now < deadline.
Proof.
  rewrite Z.leb_gt. intros H. destruct (Z.lt_ge_cases now deadline) as [|Hge]; [done|].
  pose proof (Z.quot_le_mono (deadline - now) 0 1000000 ltac:(lia) ltac:(lia)) as Hm. rewrite Z.quot_0_l in Hm; lia.
Qed.

(** A wait ends before it has read the clock more often than that is possible
    before its deadline, so what it would do then is never done. *)
Lemma wait_io_loop_ends p q n n' events deadline what c :
  (readings deadline (net c) < n)%nat → (readings deadline (net c) < n')%nat →
  wait_io_loop p n events deadline what c = wait_io_loop q n' events deadline what c.
Proof using Type.
  revert n' c. induction n as [|n IH]; intros [|n'] c Hn Hn'; [lia..|]. cbn [wait_io_loop]. rewrite !os_then.
  destruct (readings_now deadline (net c)) as [_ H0]. destruct (now_ns (net c)) as [now n1]. cbn [fst snd ws net entropy] in *.
  set (t := Z.quot (deadline - now) 1000000). unfold check at 1 3. destruct (t <=? 0) eqn:Ht; [done|].
  specialize (H0 (before_deadline _ _ Ht)). apply bind_same. intros [] c1 [= <-]. rewrite !os_then. cbn [ws net entropy].
  pose proof (readings_poll deadline events (t `min` 250) n1) as Hp. destruct (poll events (t `min` 250) n1) as [r n2]. cbn [fst snd] in *.
  assert (Hagain : let c2 := mkConn (ws c) n2 (entropy c) in
    wait_io_loop p n events deadline what c2 = wait_io_loop q n' events deadline what c2) by (apply IH; cbn; lia).
  by destruct r as [[]| |[] [] []].
Qed.

Context {Wi : Wire T} {CW : ClockWire T}.

(** Waiting leaves the session and the streams alone, and the clock goes on. *)
Definition unmoved (c0 c : Conn) : Prop :=
  ws c = ws c0 ∧ same_wire c0 c ∧ ∀ t, (readings t (net c) <= readings t (net c0))%nat.

Lemma unmoved_refl c : unmoved c c.
Proof using Type. by repeat split. Qed.

Lemma unmoved_os {A} c0 (f : world → A * world) :
  (∀ w, (outgoing (f w).2 = outgoing w ∧ incoming (f w).2 = incoming w) ∧ ∀ t, (readings t (f w).2 <= readings t w)%nat) →
  keeps (unmoved c0) (os f).
Proof using Type.
  intros Hf c (Hw & [Ho Hi] & He). unfold os. specialize (Hf (net c)). destruct (f (net c)) as [a n]. cbn in *.
  destruct Hf as [[Fo Fi] Fe]. split; [done|]. split; [split; cbn; congruence|]. cbn. intros t. specialize (He t). specialize (Fe t). lia.
Qed.

Lemma unmoved_now c0 : keeps (unmoved c0) (os now_ns).
Proof using CW. apply unmoved_os. intros w. split; [apply wire_now_ns|intros t; apply readings_now]. Qed.
Lemma unmoved_poll c0 e t : keeps (unmoved c0) (os (poll e t)).
Proof using CW. apply unmoved_os. intros w. split; [apply wire_poll|intros t'; apply readings_poll]. Qed.
Hint Resolve unmoved_now unmoved_poll : pt.

Lemma unmoved_wait c0 e n events deadline what : keeps (unmoved c0) (wait_io_loop (throw e) n events deadline what).
Proof using CW.
  induction n as [|n IH]; cbn [wait_io_loop]; keep. destruct a1 as [[]| |i w h]; keep.
Qed.

(** What a write with a deadline leaves: a front of [d] was written, all of it when it returns. *)
Definition written_from (d : bytes) (c : Conn) (r : res unit) (c' : Conn) : Prop :=
  bystander c c' ∧ tx (txs (ws c')) = tx (txs (ws c))
  ∧ ∃ k, (k <= length d)%nat ∧ (∀ u, r = Ok u → k = length d)
      ∧ outgoing (net c') = outgoing (net c) ++ take k d ∧ incoming (net c') = incoming (net c).

Lemma written_nothing d c r : (∀ u, r = Ok u → d = []) → written_from d c r c.
Proof using Type.
  intros Hd. split; [apply bystander_refl|]. split; [done|]. exists 0%nat. rewrite take_0, app_nil_r.
  repeat split; [lia|]. intros u Hu. by rewrite (Hd u Hu).
Qed.

(** A write that was cut off, then the rest. *)
Lemma written_more d n c c1 r c' :
  bystander c c1 → tx (txs (ws c1)) = tx (txs (ws c)) → (n <= length d)%nat →
  outgoing (net c1) = outgoing (net c) ++ take n d → incoming (net c1) = incoming (net c) →
  written_from (drop n d) c1 r c' → written_from d c r c'.
Proof using Type.
  intros Hb Ht Hn Ho Hi (Hb' & Ht' & k & Hk & Hr & Ho' & Hi'). rewrite length_drop in *.
  split; [by eapply bystander_trans|]. split; [congruence|]. exists (n + k)%nat. split; [lia|].
  split; [intros u Hu; specialize (Hr u Hu); lia|]. split; [|congruence].
  rewrite Ho', Ho, <- app_assoc. f_equal. by rewrite take_take_drop.
Qed.

Lemma written_later d c c1 r c' :
  bystander c c1 → tx (txs (ws c1)) = tx (txs (ws c)) → same_wire c c1 → written_from d c1 r c' → written_from d c r c'.
Proof using Type.
  intros ? ? [Ho Hi] ?. apply (written_more d 0 c c1); try done; [lia|]. by rewrite take_0, app_nil_r.
Qed.

Context {TL : TransportLaws T}.

(** A write: the clock goes on meanwhile. *)
Lemma io_write_turn b c :
  ∃ i c1, io_write b c = (Ok i, c1) ∧ bystander c c1 ∧ tx (txs (ws c1)) = tx (txs (ws c))
    ∧ (∀ n, i = IoGot n → (0 < n <= length b)%nat)
    ∧ outgoing (net c1) = outgoing (net c) ++ match i with IoGot n => take n b | _ => [] end
    ∧ incoming (net c1) = incoming (net c)
    ∧ ∀ t, (readings t (net c1) <= readings t (net c))%nat.
Proof using TL TP.
  destruct (io_write b c) as [r c1] eqn:Hio.
  destruct (io_write_spec b c r c1 Hio) as (x & i & Hws & -> & Hn & Ho & Hi).
  exists i, c1. split; [done|]. split; [unfold bystander; by rewrite Hws|]. split; [by rewrite Hws|]. do 3 (split; [done|]).
  revert Hio. unfold io_write, mbind, M_bind, session, gets. destruct (ssl (conf (ws c))); unfold os.
  - intros Hw t. pose proof (readings_ssl_write t b (net c)) as Hle. destruct (ssl_write_ex b (net c)) as [o n'].
    by destruct o; injection Hw as <- <-.
  - intros Hw t. pose proof (readings_send t b (net c)) as Hle. destruct (send b (net c)) as [o n'].
    by destruct o; injection Hw as <- <-.
Qed.

(** A wait that succeeds has read the clock before its deadline. *)
Lemma wait_io_read_clock p n events deadline what c u c' :
  wait_io_loop (throw p) n events deadline what c = (Ok u, c') →
  (readings deadline (net c') < readings deadline (net c))%nat.
Proof using CW.
  destruct n as [|n]; cbn [wait_io_loop]; [done|]. rewrite os_then.
  destruct (readings_now deadline (net c)) as [_ H0]. destruct (now_ns (net c)) as [now n1]. cbn [fst snd ws net entropy] in *.
  unfold check. destruct (_ <=? 0) eqn:Ht; [done|]. specialize (H0 (before_deadline _ _ Ht)).
  match goal with |- (mret tt ≫= ?f) ?x = _ → _ => change ((mret tt ≫= f) x) with (f tt x) end. cbv beta. rewrite os_then. cbn [ws net entropy].
  match goal with |- context [poll events ?ms n1] => pose proof (readings_poll deadline events ms n1) as Hp; destruct (poll events ms n1) as [r n2] end.
  cbn [fst snd] in *.
  assert (Hagain : wait_io_loop (throw p) n events deadline what (mkConn (ws c) n2 (entropy c)) = (Ok u, c') →
    (readings deadline (net c') < readings deadline (net c))%nat).
  { intros Hw. destruct (unmoved_wait (mkConn (ws c) n2 (entropy c)) p n events deadline what _ (unmoved_refl _)) as (_ & _ & He).
    rewrite Hw in He. specialize (He deadline). cbn in He. lia. }
  destruct r as [[]| |[] [] []]; try done; unfold check, mbind, M_bind, mret, M_ret; try exact Hagain; intros [= <- <-]; cbn; lia.
Qed.

Lemma wait_io_unmoved events deadline what c r c' : wait_io events deadline what c = (r, c') → unmoved c c'.
Proof using CW.
  unfold wait_io, out_of_time. intros H. change c' with (r, c').2. rewrite <- H. apply unmoved_wait, unmoved_refl.
Qed.

(** Writing with a deadline ends. *)
Lemma write_until_ends p q n n' d deadline what c :
  (length d + readings deadline (net c) < n)%nat → (length d + readings deadline (net c) < n')%nat →
  write_until_loop p n d deadline what c = write_until_loop q n' d deadline what c.
Proof using TL CW.
  revert n' d c. induction n as [|n IH]; intros [|n'] d c Hn Hn'; [lia..|]. cbn [write_until_loop].
  destruct (_ =? 0)%nat; [done|]. destruct (io_write_turn d c) as (i & c1 & Hio & _ & _ & Hgot & _ & _ & Hle).
  specialize (Hle deadline). apply bind_same. intros a s Ha. rewrite Hio in Ha. injection Ha as <- <-. destruct i as [m| | |]; try done.
  - specialize (Hgot m eq_refl). apply IH; rewrite length_drop; lia.
  - apply bind_same. intros e s [= <- <-]. apply bind_same. intros [] s1 Hs1. apply wait_io_read_clock in Hs1. apply IH; lia.
Qed.

(** It writes a front of what it is given. *)
Lemma write_until_spec what n d deadline c r c' :
  write_until_loop (out_of_time what) n d deadline what c = (r, c') → written_from d c r c'.
Proof using TL CW.
  revert d c. induction n as [|n IH]; intros d c; cbn [write_until_loop].
  { intros [= <- <-]. by apply written_nothing. }
  destruct (Nat.eqb_spec (length d) 0) as [Hd%nil_length_inv|_].
  { intros [= <- <-]. by apply written_nothing. }
  destruct (io_write_turn d c) as (i & c1 & Hio & Hb & Ht & Hgot & Ho & Hi & _).
  unfold mbind, M_bind. rewrite Hio.
  assert (Hlater : outgoing (net c1) = outgoing (net c) ++ [] →
    ∀ c2 r2, unmoved c1 c2 → written_from d c2 r2 c' → written_from d c r2 c').
  { intros Ho1 c2 r2 (Hw2 & [Ho2 Hi2] & _). apply written_later; unfold bystander in *; rewrite ?Hw2; try done.
    split; [by rewrite Ho2, Ho1, app_nil_r|congruence]. }
  destruct i as [m| | |].
  - intros H%IH. by eapply written_more; [..|exact H]; try done; apply Hgot.
  - intros [= <- <-]. apply (Hlater Ho c1); [apply unmoved_refl|]. by apply written_nothing.
  - unfold write_event, mbind, M_bind, session, gets, mret, M_ret.
    destruct (wait_io _ deadline what c1) as [[[]|e] c2] eqn:Hwait; apply wait_io_unmoved in Hwait.
    + intros H%IH. by apply (Hlater Ho c2).
    + intros [= <- <-]. apply (Hlater Ho c2); [done|]. by apply written_nothing.
  - intros [= <- <-]. apply (Hlater Ho c1); [apply unmoved_refl|]. by apply written_nothing.
Qed.

Lemma write_all_spec d deadline what c r c' : write_all_until d deadline what c = (r, c') → written_from d c r c'.
Proof using TL CW. apply write_until_spec. Qed.

(** *** Closing *)

Context {CL : CryptoLaws C}.

Lemma make_close_frame c r c1 :
  make_frame 8 [] c = (r, c1) →
  ws c1 = ws c ∧ net c1 = net c
  ∧ ∀ d, r = Ok d → ∃ mk, length mk = 4%nat ∧ d = frame_bytes (client (conf (ws c))) 8 [] mk.
Proof using CL.
  intros (Hw & Hn & Hd)%make_frame_spec. split; [done|]. split; [done|].
  intros d ->. destruct (Hd d eq_refl) as (mk & ? & ? & _). by exists mk.
Qed.

(** What a close frame has done to the wire: a front of it may be there, right
    after what was written before, even in the middle of a frame. *)
Definition close_said (c c1 : Conn) : Prop :=
  incoming (net c1) = incoming (net c)
  ∧ ∃ mk k, outgoing (net c1) = outgoing (net c) ++ take k (frame_bytes (client (conf (ws c))) 8 [] mk).

Lemma close_said_nothing c c1 : net c1 = net c → close_said c c1.
Proof using Type. intros Hn. split; [by rewrite Hn|]. exists [], 0%nat. by rewrite take_0, app_nil_r, Hn. Qed.

Lemma say_close_spec c :
  let c1 := (drop_queue_and_say_close c).2 in bystander c c1 ∧ tx (txs (ws c1)) = [] ∧ close_said c c1.
Proof using CL TL CW.
  unfold drop_queue_and_say_close, on_tx, on_ws, modify, session, gets, mbind, M_bind, os. set (c0 := mkConn _ _ _).
  assert (H0 : bystander c c0 ∧ net c0 = net c) by done. destruct H0 as [Hb0 Hn0].
  destruct (make_frame 8 [] c0) as [[f|e] c1] eqn:Hf; apply make_close_frame in Hf as (Hw1 & Hn1 & Hd); cbn [snd].
  2:{ unfold bystander. rewrite Hw1. repeat (split; [done|]). apply close_said_nothing. by rewrite Hn1. }
  destruct (Hd f eq_refl) as (mk & Hmk & ->). pose proof (wire_now_ns (net c1)) as [Ho Hi].
  destruct (now_ns (net c1)) as [now n2]. cbn [fst snd] in *. set (c2 := mkConn _ _ _).
  match goal with |- context [write_all_until ?d ?t ?w c2] => destruct (write_all_until d t w c2) as [r c3] eqn:Hw end.
  apply write_all_spec in Hw as (Hb3 & Ht3 & k & _ & _ & Ho3 & Hi3). subst c2. cbn [snd ws net] in *.
  split; [eapply bystander_trans; [exact Hb0|]; unfold bystander in *; cbn [ws] in *; by rewrite <- Hw1|].
  split; [by rewrite Ht3, Hw1|]. split; [congruence|].
  exists mk, k. by rewrite Ho3, Ho, Hn1, Hn0.
Qed.

(** Everything that is there is given back. *)
Definition given_back (w : WsSession) (n : world) : world :=
  (if open (conf w) then shut_socket else id) ((if ssl (conf w) then free_ssl else id) n).
Definition closed_session (w : WsSession) : WsSession :=
  mkSession (no_socket (no_ssl (conf w))) (stats w) (closing w) (mkTx [] 0 0 0) (set_rx_wait 0 (rxs w)).

Lemma release_spec c :
  (release_ssl ;; release_socket ;; on_tx (λ t, mkTx [] 0 0 0) ;; on_rx (set_rx_wait 0)) c
  = (Ok tt, mkConn (closed_session (ws c)) (given_back (ws c) (net c)) (entropy c)).
Proof using Type.
  destruct c as [[[ssl op ? ? ? ?] ? ? ? ?] ? ?]. unfold release_ssl, release_socket, mbind, M_bind, session, gets.
  by destruct ssl, op.
Qed.

Lemma close_frame_spec c :
  ∃ c1, best_effort_close_frame c = (Ok tt, c1) ∧ bystander c c1
  ∧ if upgraded (conf (ws c)) && open (conf (ws c)) then close_said c c1 else net c1 = net c.
Proof using CL TL CW.
  unfold best_effort_close_frame, mbind, M_bind, session, gets.
  destruct (upgraded (conf (ws c))), (open (conf (ws c))); cbn; try by (eexists; repeat split).
  eexists. split; [reflexivity|]. by destruct (say_close_spec c) as (? & _ & ?).
Qed.


(** The page is written as far as the deadline lets it. *)
Lemma fallback_answered c r c' :
  websocket_http_fallback c = (r, c') →
  if upgraded (conf (ws c)) then r = Ok tt ∧ c' = c
  else bystander c c' ∧ ∃ k, outgoing (net c') = outgoing (net c) ++ take k fallback_response
    ∧ (r = Ok tt → k = length fallback_response).
Proof using TL CW.
  unfold websocket_http_fallback, mbind, M_bind, session, gets. destruct (upgraded _); [by intros [= <- <-]|].
  unfold os. pose proof (wire_now_ns (net c)) as [Ho Hi]. destruct (now_ns (net c)) as [now n1].
  intros (Hb & _ & k & _ & Hk & Hout & _)%write_all_spec. split; [done|]. exists k. cbn in Ho, Hout.
  split; [congruence|]. apply Hk.
Qed.
End Closing.

(** ** Witness *)

(** A socket that is busy for a number of writes, takes one byte at a time, has a clock that goes on, and notes what is given back. *)
Module ClosingDemo.
Record Slow := mkSlow { said : bytes; busy : nat; time : Z; given : list Z }.

#[export] Instance transport : Transport := {|
  world := Slow;
  now_ms w := (1 + time w mod 2 ^ 40, w);
  ssl_read_ex n w := (SslWantRead, w);
  ssl_write_ex b w :=
    match busy w with
    | O => (SslDone (Nat.min 1 (length b)), mkSlow (said w ++ take 1 b) 0 (time w) (given w))
    | S n => (SslWantRead, mkSlow (said w) n (time w) (given w))
    end;
  ssl_pending w := 0;
  recv n w := (SockAgain, w);
  send b w :=
    match busy w with
    | O => (SockDone (Nat.min 1 (length b)), mkSlow (said w ++ take 1 b) 0 (time w) (given w))
    | S n => (SockAgain, mkSlow (said w) n (time w) (given w))
    end;
  poll e t w := (PollReady false true false, mkSlow (said w) (busy w) (time w + Z.max 0 t * 1000000) (given w));
|}.

#[export] Instance transport_laws : TransportLaws transport.
Proof.
  split.
  - intros w. change (0 < 1 + time w mod 2 ^ 40 < 2 ^ 64). pose proof (Z.mod_pos_bound (time w) (2 ^ 40) ltac:(lia)). lia.
  - done.
  - intros b w n w'. cbn. destruct (busy w); [|done]. destruct b; intros [= <- _]; cbn; lia.
  - done.
  - intros b w n w'. cbn. destruct (busy w); [|done]. destruct b; intros [= <- _]; cbn; lia.
Qed.

#[export] Program Instance wire : Wire transport := {| outgoing := said; incoming w := [] |}.
Next Obligation. intros b w. cbn. destruct (busy w); cbn; [by destruct b|by rewrite app_nil_r]. Qed.
Next Obligation. intros b w. cbn. destruct (busy w); cbn; [by destruct b|by rewrite app_nil_r]. Qed.
Next Obligation. by intros n w. Qed.
Next Obligation. by intros n w. Qed.
Next Obligation. by intros e t w. Qed.
Next Obligation. by intros w. Qed.

Definition tick : Z := 10000000.

#[export] Instance session_os : SessionOs transport := {|
  now_ns (w : world (Transport := transport)) := (time w, mkSlow (said w) (busy w) (time w + tick) (given w));
  free_ssl (w : world (Transport := transport)) := mkSlow (said w) (busy w) (time w) (given w ++ [1]);
  shut_socket (w : world (Transport := transport)) := mkSlow (said w) (busy w) (time w) (given w ++ [2]);
|}.

(** A reading of the clock is ten milliseconds after the one before, a poll takes as long as it may. *)
#[export] Program Instance time_passes : TimePasses transport := {| readings t w := Z.to_nat ((t - time w + tick - 1) / tick) |}.
Next Obligation. intros t w. cbn. unfold tick. split; [|intros]; Z.to_euclidean_division_equations; lia. Qed.
Next Obligation. intros t b w. cbn. destruct (busy w); cbn; lia. Qed.
Next Obligation. intros t b w. cbn. destruct (busy w); cbn; lia. Qed.
Next Obligation. intros t e ms w. cbn. unfold tick. Z.to_euclidean_division_equations; lia. Qed.

#[export] Instance clock_wire : ClockWire transport.
Proof. by split. Qed.

Import Toy.

(** A server in the middle of a message of four bytes: two of them are written, two wait. *)
Definition midway : Conn (C := crypto) (T := transport) :=
  mkConn (C := crypto) (T := transport)
    (set_conf (mkConf false true false 30000 true true)
       (set_txs (mkTx [mkTxFrame [130; 4; 1; 2; 3; 4] 4 4 2] 2 7 0) (new_session false)))
    (mkSlow [130; 4; 1; 2] 3 0 []) 0.

(** A client with a TLS object. *)
Definition secure : Conn (C := crypto) (T := transport) :=
  mkConn (C := crypto) (T := transport) (set_conf (mkConf true true true 30000 true true) (new_session true)) (mkSlow [] 2 0 []) 0.

Example close_of_a_client :
  (websocket_close secure).1 = Ok tt ∧ given (net (websocket_close secure).2) = [1; 2]
  ∧ said (net (websocket_close secure).2) = [136; 128; 5; 46; 87; 128].
Proof. by vm_compute. Qed.

(** The close frame completes the message that was under way: the client reads its two bytes as the end of it. *)
Example close_frame_in_a_message :
  said (net (websocket_close midway).2) = [130; 4; 1; 2; 136; 0]
  ∧ parse_frame true true 0 (said (net (websocket_close midway).2)) = Frame true 2 [1; 2; 136; 0] 6.
Proof. by vm_compute. Qed.
End ClosingDemo.

Import Toy ClosingDemo.

