(* ===== verification/Agreement.v ===== *)
(** * Agreement of the two sides of the handshake

    The theory of Handshake.v: which messages a run sends and consumes, what each
    side has checked when it returns, and the theorems on both sides together. *)

From S2P Require Import Prelude Text Crypto Keys HttpUpgrade Handshake.

Section Moves.
Context {H : HttpLib} {C : Crypto}.

(** From [p] to [p'] a party sent [s] and consumed [c], where what it received
    and did not consume is kept in order. *)
Definition Moves (p p' : Party) (s c : list bytes) : Prop :=
  sent p' = sent p ++ s ∧ ∃ k, got p' = got p ++ k ∧ prefetched p ++ k = c ++ prefetched p'.

(** A step that moves no message. *)
Definition still (p p' : Party) : Prop :=
  sent p' = sent p ∧ got p' = got p ∧ prefetched p' = prefetched p.

Lemma still_moves p p' : still p p' → Moves p p' [] [].
Proof using Type. intros (Es & Eg & Ep). unfold Moves. rewrite Es, Eg, Ep. split; [by rewrite app_nil_r|]. exists []. by rewrite !app_nil_r. Qed.

Lemma moves_trans p p1 p2 s1 c1 s2 c2 :
  Moves p p1 s1 c1 → Moves p1 p2 s2 c2 → Moves p p2 (s1 ++ s2) (c1 ++ c2).
Proof using Type.
  intros [E1 (k1 & G1 & K1)] [E2 (k2 & G2 & K2)]. split; [by rewrite E2, E1, app_assoc|].
  exists (k1 ++ k2). by rewrite G2, G1, !app_assoc, K1, <- !app_assoc, K2.
Qed.

Lemma still_then p p1 p2 s c : still p p1 → Moves p1 p2 s c → Moves p p2 s c.
Proof using Type. intros H1%still_moves H2. exact (moves_trans _ _ _ _ _ _ _ H1 H2). Qed.

Lemma moves_still p p1 p2 s c : still p1 p2 → Moves p p1 s c → Moves p p2 s c.
Proof using Type. intros (Hs & Hg & Hp) M. unfold Moves in *. by rewrite Hs, Hg, Hp. Qed.

Lemma draw_ok {A} (f : rng → res (A * rng)) p a p' :
  draw f p = (Ok a, p') → still p p' ∧ ∃ g, f (entropy p) = Ok (a, g).
Proof using Type.
  unfold draw. destruct (f (entropy p)) as [[b g]|e]; [|done]. intros [= <- <-]. split; [done|eauto].
Qed.

Lemma pure_ok {A} (r : res A) (p : Party) a p' : pure_call r p = (Ok a, p') → r = Ok a ∧ p' = p.
Proof using Type. destruct r; [|done]. by intros [= <- <-]. Qed.

Lemma or_throw_ok {A} (o : option A) e a : or_throw o e = Ok a → o = Some a.
Proof using Type. destruct o; [|done]. by intros [= ->]. Qed.

Lemma rename_ok {A} (r : res A) e a : rename r e = Ok a → r = Ok a.
Proof using Type. by destruct r. Qed.

Lemma write_all_ok what data p u p' : write_all what data p = (Ok u, p') → still p p'.
Proof using Type.
  unfold write_all. generalize (io p) as todo. intros todo. revert data p.
  induction todo as [|[b|[v|e]|] todo IH]; intros [|x data] p; cbn [write_loop]; try done;
    try (by intros [= _ <-]); try apply IH.
  destruct (length b =? 0)%nat; [done|]. intros (?&?&?)%IH. done.
Qed.

Lemma read_headers_ok p r p' : read_headers p = (Ok r, p') → still p p'.
Proof using Type.
  unfold read_headers. generalize (io p) as todo, (@nil Z) as s. intros todo. revert p.
  induction todo as [|[b|[v|e]|] todo IH]; intros p s; cbn [read_headers_loop];
    (destruct (find _ s); [by intros [= _ <-]|]); (destruct (32768 <? zlen s); [done|]); try done; try apply IH.
  destruct (length b =? 0)%nat; [done|]. apply IH.
Qed.

Lemma flush_turns_ok late todo ticks p u p' : flush_turns late todo ticks p = (Ok u, p') → still p p'.
Proof using Type.
  revert ticks. induction todo as [|[[]|e] todo IH]; intros [|[] ticks]; cbn [flush_turns]; try done.
  - apply IH.
  - by intros [= _ <-].
Qed.

Lemma send_message_ok late m p u p' : send_message late m p = (Ok u, p') → Moves p p' [m] [].
Proof using Type.
  intros Hm. assert (Hf : still (log_sent m p) p').
  { unfold send_message in Hm. destruct (flushes p) as [|[b|e] todo]; [| |done]; by apply flush_turns_ok in Hm. }
  destruct Hf as (Hs & Hg & Hp). split; [done|]. exists []. rewrite Hg, Hp. by rewrite !app_nil_r.
Qed.

Lemma read_batch_ok p ms p' : read_messages p = (Ok ms, p') → Moves p p' [] ms ∧ prefetched p' = [].
Proof using Type.
  unfold read_messages, Moves. destruct (prefetched p) as [|x l] eqn:Ep.
  - destruct (reads p) as [|[l|e] rest] eqn:Er; intros [= <- <-]; simpl; (split; [|done]);
      (split; [by rewrite app_nil_r|]).
    + exists []. by rewrite Ep, app_nil_r.
    + exists l. rewrite Ep. by rewrite app_nil_r.
  - intros [= <- <-]. split; [|done]. split; [by rewrite app_nil_r|]. exists []. simpl. by rewrite !app_nil_r.
Qed.

Lemma receive_some_ok late p ms p' : receive_some late p = (Ok ms, p') → Moves p p' [] ms ∧ prefetched p' = [].
Proof using Type.
  unfold receive_some. generalize (clock p) as ticks. intros ticks. revert p.
  induction ticks as [|[] ticks IH]; intros p; cbn [receive_loop]; [done..|].
  destruct (read_messages _) as [[[|m l]|e] p1] eqn:Er; [| |done].
  - apply read_batch_ok in Er as [Hm _]. intros [H2 H3]%IH. split; [|done].
    exact (moves_trans _ _ _ _ _ _ _ Hm H2).
  - intros [= <- <-]. by apply read_batch_ok in Er.
Qed.

(** The first of a batch is consumed and the others are kept. *)
Lemma keep_others p p1 first others :
  Moves p p1 [] (first :: others) → prefetched p1 = [] →
  Moves p (set_prefetched (prefetched p1 ++ others) p1) [] [first].
Proof using Type.
  intros [Hs (k & Hg & Hk)] Hp. split; [done|]. exists k. simpl. rewrite Hk, Hp. by rewrite app_nil_r.
Qed.

Lemma receive_first_ok late p m p' : receive_first late p = (Ok m, p') → Moves p p' [] [m].
Proof using Type.
  unfold receive_first. intros (ms & p1 & [Hm Hp]%receive_some_ok & H2)%M_bind_ok.
  destruct ms as [|first others]; [done|]. injection H2 as <- <-. by apply keep_others.
Qed.

Lemma send_handshake_ok data p u p' : send_handshake data p = (Ok u, p') → Moves p p' [data] [] ∧ zlen data <= 1024.
Proof using Type.
  unfold send_handshake. intros (u1 & p1 & [Hc ->]%check_ok & Hm%send_message_ok)%M_bind_ok. bool_to_prop. done.
Qed.

Lemma receive_handshake_ok p m p' : receive_handshake p = (Ok m, p') → Moves p p' [] [m].
Proof using Type.
  unfold receive_handshake. intros (ms & p1 & [Hm Hp]%receive_some_ok & H2)%M_bind_ok.
  destruct ms as [|m1 [|? ?]]; [done| |done]. by apply M_bind_ok in H2 as (u & p2 & [_ ->]%check_ok & [= <- <-]).
Qed.

Lemma past_deadline_ok p b p' : past_deadline p = (Ok b, p') → still p p'.
Proof using Type. unfold past_deadline. destruct (clock p); by intros [= _ <-]. Qed.

Lemma elapsed_ok p b p' : elapsed_us p = (Ok b, p') → still p p'.
Proof using Type. unfold elapsed_us. destruct (times p); by intros [= _ <-]. Qed.

Lemma gets_ok {S A} (f : S → A) s a s' : gets f s = (Ok a, s') → a = f s ∧ s' = s.
Proof using Type. by intros [= <- <-]. Qed.

Lemma modify_ok {S} (f : S → S) s a s' : modify f s = (Ok a, s') → s' = f s.
Proof using Type. by intros [= _ <-]. Qed.

Lemma upgraded_ok p u p' : modify set_upgraded p = (Ok u, p') → still p p'.
Proof using Type. by intros ->%modify_ok. Qed.

Lemma authenticated_ok p u p' : modify set_authenticated p = (Ok u, p') → still p p' ∧ authenticated p' = true.
Proof using Type. by intros ->%modify_ok. Qed.
End Moves.

(** Follow a run that returns. *)
Ltac run_inv :=
  repeat match goal with
  | H : (let '(_, _) := ?x in _) _ = (Ok _, _) |- _ => destruct x
  | H : (_ ≫= _) _ = (Ok _, _) |- _ => apply M_bind_ok in H as (?&?&?&?)
  | H : draw _ _ = (Ok _, _) |- _ => apply draw_ok in H as [? [? ?]]
  | H : pure_call _ _ = (Ok _, _) |- _ => apply pure_ok in H as [? ->]
  | H : check _ _ _ = (Ok _, _) |- _ => apply check_ok in H as [? ->]
  | H : gets _ _ = (Ok _, _) |- _ => apply gets_ok in H as [-> ->]
  | H : modify set_upgraded _ = (Ok _, _) |- _ => apply upgraded_ok in H
  | H : modify set_authenticated _ = (Ok _, _) |- _ => apply authenticated_ok in H as [? ?]
  | H : mret _ _ = (Ok _, _) |- _ => injection H as ? ?; subst
  | H : write_all _ _ _ = (Ok _, _) |- _ => apply write_all_ok in H
  | H : read_headers _ = (Ok _, _) |- _ => apply read_headers_ok in H
  | H : past_deadline _ = (Ok _, _) |- _ => apply past_deadline_ok in H
  | H : elapsed_us _ = (Ok _, _) |- _ => apply elapsed_ok in H
  | H : send_message _ _ _ = (Ok _, _) |- _ => apply send_message_ok in H
  | H : receive_first _ _ = (Ok _, _) |- _ => apply receive_first_ok in H
  | H : send_handshake _ _ = (Ok _, _) |- _ => apply send_handshake_ok in H as [? ?]
  | H : receive_handshake _ = (Ok _, _) |- _ => apply receive_handshake_ok in H
  | H : rename _ _ = Ok _ |- _ => apply rename_ok in H
  | H : or_throw _ _ = Ok _ |- _ => apply or_throw_ok in H
  end.

(** Put the steps of a run together, in their order. *)
Ltac collect :=
  repeat first
    [ eassumption
    | match goal with
      | Hs : still ?p1 ?p2 |- Moves _ ?p2 _ _ => apply (moves_still _ _ _ _ _ Hs); clear Hs
      | Hs : still ?p _ |- Moves ?p _ _ _ => apply (still_then p _ _ _ _ Hs); clear Hs
      | Hm : Moves ?p _ _ _ |- Moves ?p _ _ _ => eapply (moves_trans p _ _ _ _ _ _ Hm); clear Hm
      end
    | apply still_moves; done ].

Section Sides.
Context {H : HttpLib} {C : Crypto}.

Lemma client_trial_ok k max i p nonce us p' :
  client_trial k max i p = (Ok (nonce, us), p') →
  ∃ request answer, trial_message k (64 + i) nonce = Ok request ∧ trial_message k (80 + i) nonce = Ok answer
    ∧ Moves p p' [request] [answer] ∧ (0 < max → us <= max * 1000).
Proof using Type.
  unfold client_trial. intros Hr. run_inv. bool_to_prop. subst. do 2 eexists. split; [eassumption|].
  split; [eassumption|]. split; [|lia].
  collect.
Qed.

(** The messages of the trials: requests, answers, the commit and its answer. *)
Definition trial_requests (k : SessionKeys) (n0 n1 n2 : bytes) : res (list bytes) :=
  a ← trial_message k 64 n0 ; b ← trial_message k 65 n1 ; c ← trial_message k 66 n2 ;
  d ← trial_message k 96 n2 ; Ok [a; b; c; d].
Definition trial_answers (k : SessionKeys) (n0 n1 n2 : bytes) : res (list bytes) :=
  a ← trial_message k 80 n0 ; b ← trial_message k 81 n1 ; c ← trial_message k 82 n2 ;
  d ← trial_message k 97 n2 ; Ok [a; b; c; d].

Lemma client_trials_ok k max p rtt p' :
  client_trial_session k max p = (Ok rtt, p') →
  ∃ n0 n1 n2 requests answers, trial_requests k n0 n1 n2 = Ok requests ∧ trial_answers k n0 n1 n2 = Ok answers
    ∧ Moves p p' requests answers ∧ (0 < max → rtt <= max * 1000).
Proof using Type.
  unfold client_trial_session.
  intros ([n0 t0] & p1 & (q0 & a0 & Hq0 & Ha0 & Hm0 & Ht0)%client_trial_ok & Hr)%M_bind_ok. cbv beta iota in Hr.
  apply M_bind_ok in Hr as ([n1 t1] & p2 & (q1 & a1 & Hq1 & Ha1 & Hm1 & Ht1)%client_trial_ok & Hr). cbv beta iota in Hr.
  apply M_bind_ok in Hr as ([n2 t2] & p3 & (q2 & a2 & Hq2 & Ha2 & Hm2 & Ht2)%client_trial_ok & Hr). cbv beta iota in Hr.
  run_inv. bool_to_prop. subst. exists n0, n1, n2. unfold trial_requests, trial_answers.
  change (64 + 0) with 64 in *. change (64 + 1) with 65 in *. change (64 + 2) with 66 in *.
  change (80 + 0) with 80 in *. change (80 + 1) with 81 in *. change (80 + 2) with 82 in *.
  rewrite Hq0, Hq1, Hq2, Ha0, Ha1, Ha2. simpl.
  repeat match goal with Ht : trial_message _ _ _ = Ok _ |- _ => rewrite Ht; clear Ht end. simpl.
  do 2 eexists. split; [reflexivity|]. split; [reflexivity|]. split; [|lia]. collect.
Qed.

Lemma server_trial_ok k i p nonce p' :
  server_trial k i p = (Ok nonce, p') →
  ∃ request answer, trial_message k (64 + i) nonce = Ok request ∧ trial_message k (80 + i) nonce = Ok answer
    ∧ Moves p p' [answer] [request].
Proof using Type.
  unfold server_trial. intros Hr. run_inv. bool_to_prop. subst. do 2 eexists. split; [eassumption|].
  split; [eassumption|]. collect.
Qed.

Lemma server_trials_ok k p u p' :
  server_trial_session k p = (Ok u, p') →
  ∃ n0 n1 n2 requests answers, trial_requests k n0 n1 n2 = Ok requests ∧ trial_answers k n0 n1 n2 = Ok answers
    ∧ Moves p p' answers requests.
Proof using Type.
  unfold server_trial_session.
  intros (n0 & p1 & (q0 & a0 & Hq0 & Ha0 & Hm0)%server_trial_ok & Hr)%M_bind_ok.
  apply M_bind_ok in Hr as (n1 & p2 & (q1 & a1 & Hq1 & Ha1 & Hm1)%server_trial_ok & Hr).
  apply M_bind_ok in Hr as (n2 & p3 & (q2 & a2 & Hq2 & Ha2 & Hm2)%server_trial_ok & Hr).
  run_inv. bool_to_prop. subst. exists n0, n1, n2. unfold trial_requests, trial_answers.
  change (64 + 0) with 64 in *. change (64 + 1) with 65 in *. change (64 + 2) with 66 in *.
  change (80 + 0) with 80 in *. change (80 + 1) with 81 in *. change (80 + 2) with 82 in *.
  rewrite Hq0, Hq1, Hq2, Ha0, Ha1, Ha2. simpl.
  repeat match goal with Ht : trial_message _ _ _ = Ok _ |- _ => rewrite Ht; clear Ht end. simpl.
  do 2 eexists. split; [reflexivity|]. split; [reflexivity|]. collect.
Qed.

(** The confirmation messages: the one a side sends and the one it consumes. *)
Lemma confirm_ok k client p u p' :
  confirm_session k client p = (Ok u, p') →
  ∃ mine theirs, confirmation_mac k client = Ok mine ∧ confirmation_mac k (negb client) = Ok theirs
    ∧ Moves p p' [mine] [theirs].
Proof using Type.
  assert (Hrecv : ∀ p u p', confirm_receive k client p = (Ok u, p') →
    ∃ theirs, confirmation_mac k (negb client) = Ok theirs ∧ Moves p p' [] [theirs]).
  { clear. intros p u p'. unfold confirm_receive. intros (ms & p1 & [Hm Hp]%receive_some_ok & H2)%M_bind_ok.
    apply M_bind_ok in H2 as (w & p2 & [Hw ->]%pure_ok & H2). destruct ms as [|first others]; [done|].
    apply M_bind_ok in H2 as (u1 & p3 & [Hc ->]%check_ok & [= _ <-]). bool_to_prop. subst.
    exists w. split; [done|]. by apply keep_others. }
  assert (Hsend : ∀ p u p', confirm_send k client p = (Ok u, p') →
    ∃ mine, confirmation_mac k client = Ok mine ∧ Moves p p' [mine] []).
  { clear. intros p u p'. unfold confirm_send. intros Hr. run_inv. eauto. }
  unfold confirm_session. destruct client; intros (u1 & p1 & H1 & H2)%M_bind_ok.
  - apply Hsend in H1 as (m & Hm & M1). apply Hrecv in H2 as (t & Ht & M2). exists m, t.
    split_and!; [done..|]. exact (moves_trans _ _ _ _ _ _ _ M1 M2).
  - apply Hrecv in H1 as (t & Ht & M1). apply Hsend in H2 as (m & Hm & M2). exists m, t.
    split_and!; [done..|]. exact (moves_trans _ _ _ _ _ _ _ M1 M2).
Qed.

(** What a side has established about the keys it returns: its own pair, the
    peer's public key and nonces, and the messages on both directions. *)
Record client_view (host path psk : bytes) (pool : Z) (r : WsHandshakeResult) (p p' : Party) : Prop := {
  cv_pool : 1 <= pool <= 4 ∧ pool_connections r = pool;
  cv_done : authenticated p' = true;
  cv_messages : ∃ eph chex token m shex proof spub shared mine theirs n0 n1 n2 requests answers,
    (∃ g g', generate_x25519_keypair g = Ok (eph, g')) ∧ key32_hex (public_key eph) = Ok chex
    ∧ (∃ g g', random_nonce_hex g = Ok (client_nonce r, g'))
    ∧ websocket_client_auth_token_v5 psk host path (client_nonce r) (chex ++ pool_binding pool) = Ok token
    ∧ hello_parts (server_prefix pool) m "invalid authenticated server negotiation" = Ok (server_nonce r, shex, proof)
    ∧ key32_from_hex shex = Ok spub
    ∧ websocket_server_proof_v5 psk host path (client_nonce r) (server_nonce r) chex (shex ++ pool_binding pool) = Ok proof
    ∧ x25519_shared_secret (private_key eph) spub = Ok shared
    ∧ derive_session_keys_v5 psk shared (server_nonce r) (client_nonce r) (public_key eph) spub = Ok (keys r)
    ∧ confirmation_mac (keys r) true = Ok mine ∧ confirmation_mac (keys r) false = Ok theirs
    ∧ trial_requests (keys r) n0 n1 n2 = Ok requests ∧ trial_answers (keys r) n0 n1 n2 = Ok answers
    ∧ Moves p p' ([client_prefix pool ++ client_nonce r ++ chex ++ token; mine] ++ requests) ([m; theirs] ++ answers) }.

Lemma client_upgrade_ok host path psk max trial pool p r p' :
  websocket_client_upgrade host path psk max trial pool p = (Ok r, p') →
  client_view host path psk pool r p p' ∧ (0 < max → trial_max_rtt_us r <= max * 1000).
Proof using Type.
  unfold websocket_client_upgrade. intros Hr. run_inv. bool_to_prop. subst.
  match goal with Hc : confirm_session _ _ _ = _ |- _ => apply confirm_ok in Hc as (mine & theirs & Hmine & Htheirs & Hmc) end.
  match goal with Ht : client_trial_session _ _ _ = _ |- _ =>
    apply client_trials_ok in Ht as (n0 & n1 & n2 & requests & answers & Hq & Ha & Hmt & Hrtt) end.
  split; [|done]. split; [split; [lia|done]|done|]. do 15 eexists.
  split; [eauto|]. split; [eassumption|]. split; [eauto|]. split; [eassumption|]. split; [eassumption|].
  split; [eassumption|]. split; [eassumption|]. split; [eassumption|]. split; [eassumption|].
  split; [eassumption|]. split; [eassumption|]. split; [eassumption|]. split; [eassumption|].
  cbn [client_nonce]. collect.
Qed.

(** The same for the server, and which key it used. *)
Record server_view (host path : bytes) (psks : list bytes) (pool : Z) (r : WsHandshakeResult) (p p' : Party) : Prop := {
  sv_pool : 1 <= pool <= 4 ∧ pool_connections r = pool;
  sv_done : authenticated p' = true;
  sv_messages : ∃ psk eph chex token m shex proof cpub shared mine theirs n0 n1 n2 requests answers,
    psks !! psk_index r = Some psk
    ∧ (∃ g g', generate_x25519_keypair g = Ok (eph, g')) ∧ key32_hex (public_key eph) = Ok shex
    ∧ (∃ g g', random_nonce_hex g = Ok (server_nonce r, g'))
    ∧ hello_parts (client_prefix pool) m "invalid post-upgrade client negotiation" = Ok (client_nonce r, chex, token)
    ∧ key32_from_hex chex = Ok cpub
    ∧ websocket_client_auth_token_v5 psk host path (client_nonce r) (chex ++ pool_binding pool) = Ok token
    ∧ websocket_server_proof_v5 psk host path (client_nonce r) (server_nonce r) chex (shex ++ pool_binding pool) = Ok proof
    ∧ x25519_shared_secret (private_key eph) cpub = Ok shared
    ∧ derive_session_keys_v5 psk shared (server_nonce r) (client_nonce r) cpub (public_key eph) = Ok (keys r)
    ∧ confirmation_mac (keys r) false = Ok mine ∧ confirmation_mac (keys r) true = Ok theirs
    ∧ trial_requests (keys r) n0 n1 n2 = Ok requests ∧ trial_answers (keys r) n0 n1 n2 = Ok answers
    ∧ Moves p p' ([server_prefix pool ++ server_nonce r ++ shex ++ proof; mine] ++ answers) ([m; theirs] ++ requests) }.

Lemma find_psk_ok psks token received i idx psk :
  find_psk psks token received i = Ok (Some (idx, psk)) →
  (i <= idx)%nat ∧ psks !! (idx - i)%nat = Some psk ∧ token psk = Ok received.
Proof using Type.
  revert i. induction psks as [|k psks IH]; intros i; cbn [find_psk]; [done|].
  intros (want & Hw & Hf)%bind_ok. case_bool_decide as Heq.
  - injection Hf as <- <-. rewrite Nat.sub_diag. by subst.
  - apply IH in Hf as (Hi & Hl & Ht). split_and!; [lia| |done].
    by replace (idx - i)%nat with (S (idx - S i)) by lia.
Qed.

Lemma server_upgrade_ok host path psks pool p r p' :
  websocket_server_upgrade host path psks pool p = (Ok r, p') → server_view host path psks pool r p p'.
Proof using Type.
  unfold websocket_server_upgrade. intros Hr. run_inv. bool_to_prop. subst.
  match goal with Hc : confirm_session _ _ _ = _ |- _ => apply confirm_ok in Hc as (mine & theirs & Hmine & Htheirs & Hmc) end.
  match goal with Ht : server_trial_session _ _ = _ |- _ =>
    apply server_trials_ok in Ht as (n0 & n1 & n2 & requests & answers & Hq & Ha & Hmt) end.
  match goal with Hf : find_psk _ _ _ _ = _ |- _ => apply find_psk_ok in Hf as (_ & Hpsk & Htok) end.
  rewrite Nat.sub_0_r in Hpsk. split; [split; [lia|done]|done|]. do 16 eexists.
  split; [eassumption|]. split; [eauto|]. split; [eassumption|]. split; [eauto|]. split; [eassumption|].
  split; [eassumption|]. split; [eassumption|]. split; [eassumption|]. split; [eassumption|].
  split; [eassumption|]. split; [eassumption|]. split; [eassumption|]. split; [eassumption|]. split; [eassumption|].
  cbn [server_nonce]. collect.
Qed.
End Sides.

(** ** Both sides together *)

(** What the agreement relies on: an HMAC and a public key are bytes, and the
    Diffie-Hellman property of X25519 for generated pairs. *)
Class HandshakeLaws (C : Crypto) : Prop := {
  hmac_bytes k d o : hmac_sha256 k d = Some o → bytes_ok o;
  keygen_bytes g a A g' : x25519_keygen g = Returned ((a, A), g') → bytes_ok A;
  diffie_hellman g a A g1 h b B h1 :
    x25519_keygen g = Returned ((a, A), g1) → x25519_keygen h = Returned ((b, B), h1) →
    x25519_derive a B = x25519_derive b A }.

(** The text under the client's token. *)
Definition token_input (host path cnonce cpub : bytes) : bytes :=
  str "pacetun-websocket-v5-client" ++ nl ++ host ++ nl ++ path ++ nl ++ cnonce ++ nl ++ cpub.

Lemma split_at_newline (h p h' p' : bytes) :
  10 ∉ h → 10 ∉ h' → h ++ 10 :: p = h' ++ 10 :: p' → h = h' ∧ p = p'.
Proof.
  intros Hh Hh' E. assert (Hl : length h = length h').
  { apply (f_equal (find_char 10)) in E. rewrite !find_char_app in E by done. congruence. }
  apply app_inj_1 in E as [-> [= ->]]; [done|exact Hl].
Qed.

Lemma pool_binding_inj a b :
  1 <= a <= 4 → 1 <= b <= 4 → pool_binding a = pool_binding b → a = b.
Proof.
  intros Ha Hb. assert (a = 1 ∨ a = 2 ∨ a = 3 ∨ a = 4) as [-> | [-> | [-> | ->]]] by lia;
    assert (b = 1 ∨ b = 2 ∨ b = 3 ∨ b = 4) as [-> | [-> | [-> | ->]]] by lia;
    try done; intros E; vm_compute in E; discriminate E.
Qed.

Lemma pool_binding_length a b :
  1 <= a <= 4 → 1 <= b <= 4 → client_prefix a = client_prefix b →
  length (pool_binding a) = length (pool_binding b) ∧ server_prefix a = server_prefix b.
Proof.
  intros Ha Hb. assert (a = 1 ∨ a = 2 ∨ a = 3 ∨ a = 4) as [-> | [-> | [-> | ->]]] by lia;
    assert (b = 1 ∨ b = 2 ∨ b = 3 ∨ b = 4) as [-> | [-> | [-> | ->]]] by lia;
    try (intros E; vm_compute in E; discriminate E); done.
Qed.

Lemma token_input_inj host path cnonce cpub pool host' path' pool' :
  10 ∉ host → 10 ∉ host' → 1 <= pool <= 4 → 1 <= pool' <= 4 → client_prefix pool' = client_prefix pool →
  token_input host' path' cnonce (cpub ++ pool_binding pool') = token_input host path cnonce (cpub ++ pool_binding pool) →
  host' = host ∧ path' = path ∧ pool' = pool.
Proof.
  intros Hh Hh' Hp Hp' Hpre. unfold token_input, nl. intros E%app_inv_head%app_inv_head.
  destruct (pool_binding_length _ _ Hp' Hp Hpre) as [Hlen _].
  replace (host' ++ [10] ++ path' ++ [10] ++ cnonce ++ [10] ++ cpub ++ pool_binding pool')
    with ((host' ++ 10 :: path') ++ [10] ++ cnonce ++ [10] ++ cpub ++ pool_binding pool') in E by by rewrite <- app_assoc.
  replace (host ++ [10] ++ path ++ [10] ++ cnonce ++ [10] ++ cpub ++ pool_binding pool)
    with ((host ++ 10 :: path) ++ [10] ++ cnonce ++ [10] ++ cpub ++ pool_binding pool) in E by by rewrite <- app_assoc.
  apply app_inj_2 in E as [E1 E2]; [|rewrite !length_app; lia].
  apply split_at_newline in E1 as [-> ->]; [|done..]. repeat apply app_inv_head in E2.
  split_and!; [done..|]. by apply pool_binding_inj.
Qed.

Lemma hello_parts_ok pre pre' a b c e a' b' c' :
  length pre = 7%nat → length a = 64%nat → length b = 64%nat →
  hello_parts pre' (pre ++ a ++ b ++ c) e = Ok (a', b', c') →
  pre' = pre ∧ a' = a ∧ b' = b ∧ c' = c.
Proof.
  intros Hpre Ha Hb. unfold hello_parts, substr. intros (u & Hc%throw_if_ok & [= <- <- <-])%bind_ok. bool_to_prop.
  assert (Hlc : length c = 64%nat).
  { unfold zlen in *. rewrite !length_app in *. lia. }
  assert (E1 : drop 7 (pre ++ a ++ b ++ c) = a ++ b ++ c) by (rewrite <- Hpre; apply drop_app_length).
  assert (E2 : drop 71 (pre ++ a ++ b ++ c) = b ++ c).
  { change 71%nat with (7 + 64)%nat. rewrite <- drop_drop, E1, <- Ha. apply drop_app_length. }
  assert (E3 : drop 135 (pre ++ a ++ b ++ c) = c).
  { change 135%nat with (71 + 64)%nat. rewrite <- drop_drop, E2, <- Hb. apply drop_app_length. }
  rewrite E1, E2, E3, !take_app_le, (take_ge a), (take_ge b), (take_ge c) by lia.
  split; [|done]. match goal with Ht : take 7 _ = pre' |- _ => rewrite <- Ht end.
  rewrite take_app_le by lia. apply take_ge. lia.
Qed.

Section Agreement.
Context {H : HttpLib} {C : Crypto} {L : CryptoLaws C} {HL : HandshakeLaws C}.

Lemma nonce_hex_length g n g' : random_nonce_hex g = Ok (n, g') → length n = 64%nat.
Proof using L.
  unfold random_nonce_hex. destruct (rand_bytes 32 g) as [[b g1]|] eqn:E; [|done].
  intros [= <- _]. rewrite length_hex_encode. by rewrite (rand_bytes_length _ _ _ _ E).
Qed.

Lemma key32_hex_ok key hex : key32_hex key = Ok hex → hex = hex_encode key ∧ length hex = 64%nat.
Proof using Type.
  unfold key32_hex. intros (u & Hc%throw_if_ok & [= <-])%bind_ok. bool_to_prop. split; [done|].
  rewrite length_hex_encode. unfold zlen in *. lia.
Qed.

Lemma generate_ok g eph g' : generate_x25519_keypair g = Ok (eph, g') →
  x25519_keygen g = Returned ((private_key eph, public_key eph), g').
Proof using Type.
  unfold generate_x25519_keypair. intros Hg. res_inv. simpl. done.
Qed.

Lemma from_hex_key eph hex key g g' :
  generate_x25519_keypair g = Ok (eph, g') → key32_hex (public_key eph) = Ok hex → key32_from_hex hex = Ok key →
  key = public_key eph.
Proof using HL.
  intros Hg%generate_ok [-> _]%key32_hex_ok. apply keygen_bytes in Hg. unfold key32_from_hex.
  rewrite hex_decode_encode by done. intros (v & [= <-] & (u & _ & [= <-])%bind_ok)%bind_ok. done.
Qed.

Lemma shared_agree e1 e2 g1 g1' g2 g2' s1 s2 :
  generate_x25519_keypair g1 = Ok (e1, g1') → generate_x25519_keypair g2 = Ok (e2, g2') →
  x25519_shared_secret (private_key e1) (public_key e2) = Ok s1 →
  x25519_shared_secret (private_key e2) (public_key e1) = Ok s2 → s1 = s2.
Proof using HL.
  intros H1%generate_ok H2%generate_ok. pose proof (diffie_hellman _ _ _ _ _ _ _ _ H1 H2) as Hd.
  unfold x25519_shared_secret. rewrite Hd. intros Ha Hb. res_inv. congruence.
Qed.

Lemma token_ok psk host path cnonce cpub t :
  websocket_client_auth_token_v5 psk host path cnonce cpub = Ok t →
  ∃ o, hmac_sha256 psk (token_input host path cnonce cpub) = Some o ∧ t = hex_encode o ∧ bytes_ok o.
Proof using HL.
  unfold websocket_client_auth_token_v5, mac. intros Ht.
  apply bind_ok in Ht as (m & Hm & [= <-]). res_inv. eexists. split; [eassumption|]. split; [done|]. by eapply hmac_bytes.
Qed.

Lemma hex_encode_inj a b : bytes_ok a → bytes_ok b → hex_encode a = hex_encode b → a = b.
Proof using Type.
  intros Ha%hex_decode_encode Hb%hex_decode_encode E. rewrite E in Ha. congruence.
Qed.

(** A party that has neither sent nor received a message. *)
Definition fresh (p : Party) : Prop := sent p = [] ∧ got p = [] ∧ prefetched p = [].

Lemma moves_fresh p p' s c : fresh p → Moves p p' s c → sent p' = s ∧ ∃ rest, got p' = c ++ rest.
Proof using Type.
  intros (Hs & Hg & Hp) [Es (k & Eg & Ek)]. rewrite Es, Hs, Eg, Hg. rewrite Hp in Ek. simpl in *.
  split; [done|]. exists (prefetched p'). done.
Qed.

(** What the two hellos prove: both sides computed the same tag, and when it is of
    the same input they hold the same secrets. *)
Lemma hellos_bind host path psk max trial pool host' path' psks pool' pc ps rc rs pc' ps' :
  websocket_client_upgrade host path psk max trial pool pc = (Ok rc, pc') →
  websocket_server_upgrade host' path' psks pool' ps = (Ok rs, ps') →
  fresh pc → fresh ps →
  head (got ps') = head (sent pc') → head (got pc') = head (sent ps') →
  10 ∉ host → 10 ∉ host' →
  ∃ used cpub, psks !! psk_index rs = Some used ∧
  let i := token_input host path (client_nonce rc) (cpub ++ pool_binding pool) in
  let i' := token_input host' path' (client_nonce rc) (cpub ++ pool_binding pool') in
  (∃ o, hmac_sha256 psk i = Some o ∧ hmac_sha256 used i' = Some o)
  ∧ ((psk, i) = (used, i') → used = psk ∧ host' = host ∧ path' = path ∧ pool' = pool
       ∧ client_nonce rs = client_nonce rc ∧ server_nonce rs = server_nonce rc ∧ keys rs = keys rc).
Proof using L HL.
  intros [Hc _]%client_upgrade_ok Hs%server_upgrade_ok Fc Fs Hcs Hsc Hn Hn'.
  destruct Hc as [[Hp _] _ (ec & chex & tc & mc & shex & proof & spub & shc & ? & ? & ? & ? & ? & ? & ? &
    (g1 & g1' & Hec) & Hchex & (g2 & g2' & Hcn) & Htc & Hhs & Hspub & _ & Hshc & Hkc & _ & _ & _ & _ & Mc)].
  destruct Hs as [[Hp' _] _ (used & es & chex' & ts & ms & shex' & proof' & cpub & shs & ? & ? & ? & ? & ? & ? & ? &
    Hused & (g3 & g3' & Hes) & Hshex & (g4 & g4' & Hsn) & Hhc & Hcpub & Hts & _ & Hshs & Hks & _ & _ & _ & _ & Ms)].
  apply (moves_fresh _ _ _ _ Fc) in Mc as [Esc [restc Egc]]. apply (moves_fresh _ _ _ _ Fs) in Ms as [Ess [rests Egs]].
  rewrite Esc, Egs in Hcs. rewrite Ess, Egc in Hsc. injection Hcs as ->. injection Hsc as ->.
  pose proof Hchex as [_ Hl]%key32_hex_ok. pose proof Hshex as [_ Hl']%key32_hex_ok.
  apply hello_parts_ok in Hhc as (Hpre & Ecn & -> & ->);
    [|by destruct (1 <? pool) eqn:E; unfold client_prefix; rewrite E|by eapply nonce_hex_length|done].
  apply hello_parts_ok in Hhs as (_ & Esn & -> & _);
    [|by destruct (1 <? pool') eqn:E; unfold server_prefix; rewrite E|by eapply nonce_hex_length|done].
  exists used, chex. split; [done|]. rewrite Ecn in *. rewrite <- Esn in *.
  apply token_ok in Htc as (o & Ho & -> & Hob). apply token_ok in Hts as (o' & Ho' & Et & Hob').
  apply hex_encode_inj in Et as ->; [|done..].
  split; [eauto|]. intros E.
  assert (E1 : psk = used) by congruence. assert (E2 : token_input host path (client_nonce rc) (chex ++ pool_binding pool)
    = token_input host' path' (client_nonce rc) (chex ++ pool_binding pool')) by congruence. clear E. subst used.
  symmetry in E2. apply token_input_inj in E2 as (-> & -> & ->); [|done..].
  pose proof (from_hex_key _ _ _ _ _ Hec Hchex Hcpub) as ->.
  pose proof (from_hex_key _ _ _ _ _ Hes Hshex Hspub) as ->.
  pose proof (shared_agree _ _ _ _ _ _ _ _ Hec Hes Hshc Hshs) as ->.
  split_and!; congruence.
Qed.

(** C21: when the client and the server both return from the handshake and their
    hellos arrived unaltered, they hold the same session keys, nonces and pool
    size, and the server used the client's pre-shared key, host and path, unless
    two different inputs of HMAC had the same tag in this run. *)
Theorem handshake_agreement host path psk max trial pool host' path' psks pool' pc ps rc rs pc' ps' :
  websocket_client_upgrade host path psk max trial pool pc = (Ok rc, pc') →
  websocket_server_upgrade host' path' psks pool' ps = (Ok rs, ps') →
  fresh pc → fresh ps →
  head (got ps') = head (sent pc') → head (got pc') = head (sent ps') →
  10 ∉ host → 10 ∉ host' →
  ∃ used, psks !! psk_index rs = Some used ∧
  ((used = psk ∧ host' = host ∧ path' = path ∧ pool' = pool
    ∧ client_nonce rs = client_nonce rc ∧ server_nonce rs = server_nonce rc ∧ keys rs = keys rc)
   ∨ ∃ cpub, same_tag psk (token_input host path (client_nonce rc) (cpub ++ pool_binding pool))
       used (token_input host' path' (client_nonce rc) (cpub ++ pool_binding pool'))).
Proof using L HL.
  intros Hc Hs Fc Fs Hcs Hsc Hn Hn'.
  destruct (hellos_bind _ _ _ _ _ _ _ _ _ _ _ _ _ _ _ _ Hc Hs Fc Fs Hcs Hsc Hn Hn')
    as (used & cpub & Hused & (o & Ho & Ho') & Hsame).
  exists used. split; [done|]. destruct (decide ((psk, token_input host path (client_nonce rc) (cpub ++ pool_binding pool))
    = (used, token_input host' path' (client_nonce rc) (cpub ++ pool_binding pool')))) as [E|E]; [left; by apply Hsame|].
  right. exists cpub. split; [done|]. eauto.
Qed.
End Agreement.

(** ** Witnesses *)

Module HandshakeDemo.
Import Toy.

(** Base64 as it is, and a toy SHA-1. *)
Definition alphabet : bytes := str "ABCDEFGHIJKLMNOPQRSTUVWXYZabcdefghijklmnopqrstuvwxyz0123456789+/".
Fixpoint base64 (b : bytes) : bytes :=
  match b with
  | x :: y :: z :: b =>
      let n := x * 65536 + y * 256 + z in
      map (λ i, at_ alphabet (Z.to_nat (n / i mod 64))) [262144; 4096; 64; 1] ++ base64 b
  | [x; y] =>
      let n := x * 65536 + y * 256 in map (λ i, at_ alphabet (Z.to_nat (n / i mod 64))) [262144; 4096; 64] ++ [61]
  | [x] => let n := x * 65536 in map (λ i, at_ alphabet (Z.to_nat (n / i mod 64))) [262144; 4096] ++ [61; 61]
  | [] => []
  end.

#[export] Instance http : HttpLib := {|
  sha1 d := Some (digest 20 [d]); evp_encode_block b := Some (base64 b);
  evp_decode_block k := 3 * (zlen k / 4) |}.

#[export] Instance laws : HandshakeLaws crypto.
Proof.
  split; simpl.
  - intros k d o [= <-]. apply Forall_map, Forall_forall. intros i _. apply Z.mod_pos_bound. lia.
  - intros g a A g' [= <- <- <-]. apply Forall_map, Forall_forall. intros i _. apply Z.mod_pos_bound. lia.
  - intros g a A g1 h b B h1 [= <- <- <-] [= <- <- <-]. f_equal. generalize (digest 32 [[g]]) as x, (digest 32 [[h]]) as y.
    induction x as [|x xs IH]; intros [|y ys]; simpl; [done..|]. by rewrite IH, (Z.add_comm x).
Qed.

(** A party that will read these messages and whose socket does this. *)
Definition party (client : bool) (g : Z) (io : list TextIo) (messages : list bytes) : Party (C:=crypto) :=
  mkParty (C:=crypto) client (str "none") false false [] [] g (repeat false 60) (map (λ m, Ok [m]) messages)
    (repeat (Ok false) 20) (repeat 500 5) io [] [] [].

Definition host : bytes := str "cdn.example".
Definition path : bytes := str "/assets/api/v6".
Definition psk : bytes := repeat 9 32.
Definition anything : TextIo := Moved (repeat 0 4096).

Definition client (response : bytes) (messages : list bytes) : res WsHandshakeResult * Party :=
  websocket_client_upgrade host path psk 1000 true 2 (party true 5 [anything; Moved response] messages).
Definition server (request : bytes) (messages : list bytes) : res WsHandshakeResult * Party :=
  websocket_server_upgrade host path [repeat 8 32; psk] 2 (party false 77 [Moved request; anything] messages).

(** The texts, then the messages, each side answering what the other sent so far. *)
Definition request : bytes := written (client [] []).2.
Definition response : bytes := written (server request []).2.
Fixpoint talk (n : nat) (from_client from_server : list bytes) : list bytes * list bytes :=
  match n with
  | O => (from_client, from_server)
  | S n => talk n (sent (client response from_server).2) (sent (server request from_client).2)
  end.
Definition messages : list bytes * list bytes := Eval vm_compute in talk 14 [] [].
Definition client_party : Party := party true 5 [anything; Moved response] messages.2.
Definition server_party : Party := party false 77 [Moved request; anything] messages.1.
Abbreviation client_run := (websocket_client_upgrade (H:=http) (C:=crypto) host path psk 1000 true 2 client_party).
Abbreviation server_run := (websocket_server_upgrade (H:=http) (C:=crypto) host path [repeat 8 32; psk] 2 server_party).

Definition result_or (r : res WsHandshakeResult) : WsHandshakeResult :=
  match r with Ok r => r | Err _ => mkResult {| client_tx := []; server_tx := []; auth := [] |} false false false false 0 0 0 [] [] end.
Definition rc : WsHandshakeResult := result_or client_run.1.
Definition rs : WsHandshakeResult := result_or server_run.1.

Lemma run_returns {A} (x : res A * Party (C:=crypto)) r : x.1 = r → x = (r, x.2).
Proof. destruct x. simpl. by intros ->. Qed.

Lemma client_returns : client_run = (Ok rc, client_run.2).
Proof. apply run_returns. vm_compute. reflexivity. Qed.
Lemma server_returns : server_run = (Ok rs, server_run.2).
Proof. apply run_returns. vm_compute. reflexivity. Qed.
Lemma server_key : [repeat 8 32; psk] !! psk_index rs = Some psk.
Proof. vm_compute. reflexivity. Qed.
Lemma hellos_arrive : head (got server_run.2) = head (sent client_run.2) ∧ head (got client_run.2) = head (sent server_run.2).
Proof. split; vm_compute; reflexivity. Qed.
Lemma host_is_a_line : 10 ∉ host.
Proof. apply find_char_none. vm_compute. reflexivity. Qed.
End HandshakeDemo.
Import HandshakeDemo.

Lemma handshake_agreement_witness : keys rs = keys rc.
Proof.
  destruct (handshake_agreement (C:=Toy.crypto) (H:=http) (L:=Toy.crypto_laws) (HL:=laws) host path psk 1000 true 2
    host path [repeat 8 32; psk] 2 client_party server_party rc rs client_run.2 server_run.2 client_returns server_returns)
    as (used & Hused & Hk).
  - repeat split.
  - repeat split.
  - apply hellos_arrive.
  - apply hellos_arrive.
  - exact host_is_a_line.
  - exact host_is_a_line.
  - rewrite server_key in Hused. destruct Hk as [Hk|[cpub [Hd _]]]; [apply Hk|].
    exfalso. apply Hd. by injection Hused as <-.
Defined.
