(* ===== verification/Outbox.v ===== *)
(** * The outgoing queue of the runtime loops (cdn/src/runtime.cpp)

    [tunnel_loop] and [carrier_tunnel_loop] keep encoded records in a
    [std::deque<Queued>] with a byte count, both updated by [enqueue]; this file
    holds that queue, the statistics it maintains, the size of a batch, and the
    eight-byte tokens of the probes. *)

From S2P Require Import Prelude.
From S2P Require Import Text RecordLoop Config.

(** ** Statistics *)

(** The atomic integers of [struct Stats] that the loops write, by name.
    [Stats] src/cdn/src/runtime.cpp:62-84 *)
Inductive Counter :=
| tun_in_bytes | tun_out_bytes | tun_in_pkts | tun_out_pkts
| payload_tx | payload_rx | wire_tx | wire_rx
| keepalive_tx | keepalive_rx | ping_tx | ping_rx | pong_tx | pong_rx
| drop_queue | drop_delay | drop_malformed | auth_fail | reconnects | replay_drop | sequence_gap
| queue_pkts | queue_bytes_now | last_rx_age_ms | degraded
| probe_pending_age_ms | reply_timeouts | candidate_attempts | candidate_failures | candidate_successes
| rtt_sample_us | rtt_sample_seq | padding_extra_tx | padding_control_extra_tx
| rtt_us | ws_rtt_us
| ws_messages_tx | ws_messages_rx | ws_control_tx | ws_control_rx
| ws_ping_tx | ws_ping_rx | ws_pong_tx | ws_pong_rx | ws_missed_pongs | session_renewals
| ws_tx_pending_bytes | event_loop_delay_us | queue_oldest_age_us
| queue_peak_pkts | queue_peak_bytes | tx_stalls | ptt5_sessions
| adaptive_batch_packets | pool_dials | pool_dial_failures | pool_failures | pool_active
| latency_renewals | reply_renewals.

#[export] Instance counter_eq_dec : EqDecision Counter.
Proof. solve_decision. Defined.

Definition Stats : Type := Counter → Z.

(** [Stats st;]: every member has an initialiser; [rtt_us] and [ws_rtt_us] start
    at -1 and [adaptive_batch_packets] at 1. *)
Definition new_stats : Stats := λ c,
  match c with rtt_us | ws_rtt_us => -1 | adaptive_batch_packets => 1 | _ => 0 end.

(** [st.c = v] and [st.c += n]. *)
Definition put (c : Counter) (v : Z) (st : Stats) : Stats := λ c', if decide (c' = c) then v else st c'.
Definition bump (c : Counter) (n : Z) (st : Stats) : Stats := put c (u64 (st c + n)) st.
(** [st.c.store(std::max<uint64_t>(st.c.load(), v))] *)
Definition put_max (c : Counter) (v : Z) (st : Stats) : Stats := put c (Z.max (st c) v) st.

Lemma put_same c v st : put c v st c = v.
Proof. unfold put. by rewrite decide_True. Qed.
Lemma put_other c c' v st : c' ≠ c → put c v st c' = st c'.
Proof. intros H. unfold put. by rewrite decide_False. Qed.

(** What [feed] adds to the counters of the decoder is added to the statistics. *)
Definition decoder_counts (d d' : Decoder) (st : Stats) : Stats :=
  bump sequence_gap (u64 (sequence_gaps_ d' - sequence_gaps_ d))
    (bump replay_drop (u64 (replay_drops_ d' - replay_drops_ d)) st).

(** ** Probe tokens *)

(** [encode_u64] src/cdn/src/runtime.cpp:264-264 *)
Definition encode_u64 (v : Z) : bytes := be_bytes 8 v.
(** [decode_u64] src/cdn/src/runtime.cpp:264-264 *)
Definition decode_u64 (b : bytes) : Z := be_decode b.

Lemma decode_encode_u64 v : u64_ok v → decode_u64 (encode_u64 v) = v.
Proof. intros H. apply be_decode_be_bytes; [lia|]. exact H. Qed.

Lemma encode_u64_length v : zlen (encode_u64 v) = 8.
Proof. unfold zlen, encode_u64. by rewrite length_be_bytes. Qed.

(** ** Time

    A [Clock::time_point] is a count of nanoseconds;
    [duration_cast<unit>(a - b).count()] divides and truncates towards 0. *)
Definition micros (d : Z) : Z := Z.quot d 1000.
Definition millis (d : Z) : Z := Z.quot d 1000000.
Definition seconds (d : Z) : Z := Z.quot d 1000000000.

(** ** The queue *)

(** [Queued] src/cdn/src/runtime.cpp:86-86 *)
Record Queued := mkQueued { q_data : bytes; enqueued : Z; is_payload : bool }.

(** [q], [queued_bytes] and the statistics of a loop. *)
Record Outbox := mkOutbox { queue : list Queued; queued_bytes : Z; counters : Stats }.

Definition q_size (x : Queued) : Z := zlen (q_data x).
Definition total (l : list Queued) : Z := foldr (λ x n, q_size x + n) 0 l.

Definition on_counters (f : Stats → Stats) (o : Outbox) : Outbox :=
  mkOutbox (queue o) (queued_bytes o) (f (counters o)).

(** [queued_bytes -= q.front().data.size(); q.pop_front();]
    [enqueue] src/cdn/src/runtime.cpp:272-273 *)
Definition pop_queued (x : Queued) (rest : list Queued) (o : Outbox) : Outbox :=
  mkOutbox rest (u64 (queued_bytes o - q_size x)) (counters o).

(** The loop of [enqueue] that drops from the front; [false]: the function
    returned without queueing [x].
    [enqueue] src/cdn/src/runtime.cpp:267-275 *)
Fixpoint make_space (cfg : Config) (protect_front : bool) (x : Queued) (q : list Queued) (o : Outbox)
  : bool * Outbox :=
  match q with
  | [] => (true, o)
  | front :: rest =>
      if (queue_packets cfg <=? zlen q) || (queue_bytes cfg <? u64 (queued_bytes o + q_size x)) then
        if protect_front then (false, on_counters (bump drop_queue 1) o)
        else make_space cfg protect_front x rest
               (on_counters (bump drop_queue 1) (pop_queued front rest o))
      else (true, o)
  end.

(** [st.queue_pkts=q.size(); st.queue_bytes=qb;] and the two peaks. *)
Definition publish_queue (o : Outbox) : Outbox :=
  let n := zlen (queue o) in
  on_counters (λ st, put_max queue_peak_bytes (queued_bytes o) (put_max queue_peak_pkts n
                 (put queue_bytes_now (queued_bytes o) (put queue_pkts n st)))) o.

(** [enqueue] src/cdn/src/runtime.cpp:265-281 *)
Definition enqueue_record (x : Queued) (cfg : Config) (protect_front : bool) (o : Outbox) : Outbox :=
  if queue_bytes cfg <? q_size x then on_counters (bump drop_queue 1) o
  else
    let (room, o) := make_space cfg protect_front x (queue o) o in
    if room then
      publish_queue (mkOutbox (queue o ++ [x]) (u64 (queued_bytes o + q_size x)) (counters o))
    else o.

(** The batch size: the configured one, or one between the two bounds that
    grows with the depth and the age of the queue.
    [effective_batch_packets] src/cdn/src/runtime.cpp:283-297 *)
Definition effective_batch_packets (q : list Queued) (cfg : Config) (now : Z) : Z :=
  if negb (adaptive_batching cfg) then batch_packets cfg
  else
    let lo := adaptive_batch_min_packets cfg in
    let hi := adaptive_batch_max_packets cfg in
    let chosen :=
      match q with
      | [] => lo
      | front :: _ =>
          let age := millis (now - enqueued front) in
          let depth := Z.min (zlen q) 64 in
          if queue_target_delay_ms cfg <=? age then hi
          else if (age <? Z.quot (queue_target_delay_ms cfg) 4) && (zlen q <=? 4) then lo
          else lo + Z.quot ((hi - lo) * depth) 64
      end in
    Z.max lo (Z.min chosen hi).

(** ** Invariant *)

(** The byte count is the size of the queue, and both limits hold. *)
Record outbox_ok (cfg : Config) (o : Outbox) : Prop := {
  box_bytes : queued_bytes o = total (queue o);
  box_packets : zlen (queue o) <= queue_packets cfg;
  box_limit : total (queue o) <= queue_bytes cfg;
}.

(** The limits that [validate_config] establishes. *)
Record limits_valid (cfg : Config) : Prop := {
  lim_packets : 1 <= queue_packets cfg;
  lim_bytes : 0 <= queue_bytes cfg < 2 ^ 63;
}.

Lemma q_size_nonneg x : 0 <= q_size x.
Proof. apply zlen_nonneg. Qed.

Lemma total_nonneg l : 0 <= total l.
Proof. induction l as [|x l IH]; simpl; [lia|]. pose proof (q_size_nonneg x). lia. Qed.

Lemma total_app l k : total (l ++ k) = total l + total k.
Proof. induction l as [|x l IH]; simpl; lia. Qed.

#[export] Hint Resolve q_size_nonneg total_nonneg : pt.

Lemma outbox_new cfg : limits_valid cfg → outbox_ok cfg (mkOutbox [] 0 new_stats).
Proof. intros [? ?]. split; simpl; unfold zlen; simpl; lia. Qed.

Lemma on_counters_ok cfg f o : outbox_ok cfg o → outbox_ok cfg (on_counters f o).
Proof. by intros [? ? ?]. Qed.

Lemma publish_ok cfg o : outbox_ok cfg o → outbox_ok cfg (publish_queue o).
Proof. by intros [? ? ?]. Qed.

Section Limits.
Context (cfg : Config) (V : limits_valid cfg).

Lemma pop_ok x rest o :
  outbox_ok cfg o → queue o = x :: rest → outbox_ok cfg (pop_queued x rest o).
Proof using V.
  intros [B1 B2 B3] Hq. rewrite Hq in *. pose proof (total_nonneg rest). pose proof (q_size_nonneg x).
  destruct V as [Vp Vb]. simpl in *. rewrite zlen_cons in *. split; simpl; try lia.
  rewrite B1. replace (_ - _) with (total rest) by lia. apply Z.mod_small. lia.
Qed.

(** What the loop leaves: a suffix of the queue with room for [x], the number of
    dropped records counted; with [protect_front] nothing is dropped. *)
Lemma make_space_spec p x q o room o' :
  outbox_ok cfg o → queue o = q → q_size x <= queue_bytes cfg →
  make_space cfg p x q o = (room, o') →
  ∃ n, queue o' = drop n q ∧ outbox_ok cfg o'
       ∧ (room = true → zlen (queue o') < queue_packets cfg
                        ∧ total (queue o') + q_size x <= queue_bytes cfg)
       ∧ (room = false → p = true) ∧ (p = true → queue o' = q).
Proof using V.
  revert o. induction q as [|front rest IH]; intros o Ho Hq Hx H; simpl in H.
  { injection H as <- <-. exists 0%nat. rewrite Hq. destruct V as [Vp Vb]. unfold zlen. simpl in *. split_and!; auto; try lia. }
  pose proof (total_nonneg rest). pose proof (q_size_nonneg front). pose proof (q_size_nonneg x).
  assert (Hu : u64 (queued_bytes o + q_size x) = total (front :: rest) + q_size x).
  { destruct Ho as [B1 B2 B3]. rewrite Hq in *. rewrite B1. destruct V as [Vp Vb]. apply Z.mod_small. simpl in *. lia. }
  rewrite Hu in H.
  destruct ((_ <=? _) || _) eqn:Hfull; [destruct p|].
  - injection H as <- <-. exists 0%nat. simpl. rewrite Hq. split_and!; auto; [by apply on_counters_ok|done].
  - apply IH in H as (n & Hd & Hok & Hr & Hp & _); [|by apply on_counters_ok, pop_ok|done|done].
    exists (S n). split_and!; auto. done.
  - injection H as <- <-. bool_to_prop. exists 0%nat. rewrite Hq. simpl in *. split_and!; auto; lia.
Qed.

(** Queueing keeps the limits; the new record goes to the back, older ones
    leave from the front, and with [protect_front] none leaves. *)
Lemma enqueue_spec x p o :
  outbox_ok cfg o →
  let o' := enqueue_record x cfg p o in
  outbox_ok cfg o' ∧ ∃ n, (queue o' = queue o ∨ queue o' = drop n (queue o) ++ [x])
                          ∧ (p = true → queue o' = queue o ∨ queue o' = queue o ++ [x])
                          ∧ (p = false → q_size x <= queue_bytes cfg → queue o' = drop n (queue o) ++ [x]).
Proof using V.
  intros Ho. unfold enqueue_record. destruct (Z.ltb_spec (queue_bytes cfg) (q_size x)).
  { split; [by apply on_counters_ok|]. exists 0%nat. simpl. split_and!; auto; lia. }
  destruct (make_space _ _ _ _ _) as [room o1] eqn:Hm.
  destruct (make_space_spec p x (queue o) o room o1) as (n & Hd & Hok & Hr & Hp & Hkeep); auto.
  destruct room.
  - destruct (Hr eq_refl) as [Hr1 Hr2]. destruct Hok as [B1 B2 B3]. destruct V as [Vp Vb].
    pose proof (total_nonneg (queue o1)). pose proof (q_size_nonneg x).
    split; [|exists n; simpl; rewrite <- Hd; split_and!; auto].
    + apply publish_ok. split; simpl; rewrite ?total_app, ?zlen_app, ?B1; simpl; unfold zlen in *; simpl; try lia.
      replace (q_size x + 0) with (q_size x) by lia. apply Z.mod_small. lia.
    + intros ->. right. by rewrite Hkeep.
  - split; [done|]. specialize (Hp eq_refl). subst p. exists n. rewrite Hkeep by done. split_and!; auto.
    done.
Qed.
End Limits.

(** The order of the queue does not depend on the limits: a new record goes to the
    back, only records in front of it leave, and none when the front is protected. *)
Lemma make_space_order cfg p x q o room o' :
  queue o = q → make_space cfg p x q o = (room, o') →
  ∃ n, queue o' = drop n q ∧ (p = true → n = 0%nat) ∧ (room = false → n = 0%nat).
Proof.
  revert o. induction q as [|front rest IH]; intros o Hq H; simpl in H.
  { injection H as <- <-. by exists 0%nat. }
  destruct (_ || _); [destruct p|].
  - injection H as <- <-. by exists 0%nat.
  - apply IH in H as H'; [|done]. destruct H' as (n & Hd & _ & Hr).
    exists (S n). split_and!; [done|done|]. intros ->.
    exfalso. clear -H. revert H. generalize (on_counters (bump drop_queue 1) (pop_queued front rest o)).
    induction rest as [|y l IHl]; intros o1; simpl; [done|]. destruct (_ || _); [apply IHl|done].
  - injection H as <- <-. by exists 0%nat.
Qed.

Lemma enqueue_order cfg p x o :
  queue (enqueue_record x cfg p o) = queue o
  ∨ ∃ n, queue (enqueue_record x cfg p o) = drop n (queue o) ++ [x] ∧ (p = true → n = 0%nat).
Proof.
  unfold enqueue_record. destruct (_ <? _); [by left|].
  destruct (make_space _ _ _ _ _) as [room o1] eqn:Hm.
  destruct (make_space_order cfg p x (queue o) o room o1) as (n & Hd & Hp & Hr); [done..|].
  destruct room; [right; exists n; simpl; by rewrite Hd|left]. by rewrite Hd, Hr.
Qed.

(** The adaptive batch stays between its bounds. *)
Lemma batch_in_bounds q cfg now :
  adaptive_batch_min_packets cfg <= adaptive_batch_max_packets cfg →
  adaptive_batching cfg = true →
  adaptive_batch_min_packets cfg <= effective_batch_packets q cfg now <= adaptive_batch_max_packets cfg.
Proof. intros H Ha. unfold effective_batch_packets. rewrite Ha. simpl. lia. Qed.
