(* ===== verification/LoopOs.v ===== *)
(** * What the packet loops need from the kernel, OpenSSL and the clock

    [tunnel_loop], [carrier_tunnel_loop] and [pool_tunnel_loop] run over a TUN
    device, [poll], the steady clock and two atomic flags that a signal handler
    and the control thread set; the first of them also calls OpenSSL. These are
    an unknown [lworld] with the calls the loops make on it. *)

From S2P Require Import Prelude.
From S2P Require Import Tun.

(** The descriptor events the loops ask for and look at. *)
Record Events := mkEvents { ev_in : bool; ev_out : bool }.
(** [revents]: [POLLIN], [POLLOUT] and any of [POLLERR], [POLLHUP], [POLLNVAL]. *)
Record Revents := mkRevents { r_in : bool; r_out : bool; r_bad : bool }.

Inductive PollBoth := PollBroken | PollInterrupted | PollGot (socket tun : Revents).

(** [TunDevice::read_packet]: a packet, or -1 with [EINTR], [EAGAIN] or another
    [errno] of the given text, or 0. *)
Inductive TunRead :=
| TunPacket (b : bytes)
| TunInterrupted
| TunAgain
| TunClosed
| TunBroken (errno : bytes).

(** [SSL_read_ex] and [SSL_write_ex] with [SSL_get_error]. *)
Inductive TlsIo (A : Type) := TlsDone (a : A) | TlsWant | TlsZeroReturn | TlsFailed.
Arguments TlsDone {A}.
Arguments TlsWant {A}.
Arguments TlsZeroReturn {A}.
Arguments TlsFailed {A}.

Class LoopOs := {
  lworld : Type;
  (** [Clock::now()] in nanoseconds *)
  clock_ns : lworld → Z * lworld;
  (** [g_stop] and [g_force_disconnect.exchange(false)] *)
  stop_flag : lworld → bool * lworld;
  take_disconnect : lworld → bool * lworld;
  (** [poll] on the carrier with the given events and on the TUN device *)
  poll_both : Events → Z → lworld → PollBoth * lworld;
  read_packet : Z → lworld → TunRead * lworld;
  write_packet : bytes → lworld → Z * lworld;
  (** one draw of [std::uniform_int_distribution<int>(lo, hi)] *)
  uniform : Z → Z → lworld → Z * lworld;
  tls_write : bytes → lworld → TlsIo nat * lworld;
  tls_read : Z → lworld → TlsIo bytes * lworld;
  tls_pending : lworld → bool * lworld;
  (** [sslerr()]: the text of the oldest error of the queue *)
  ssl_error : lworld → bytes * lworld;
}.

(** Documented behaviour: a read returns at most what was asked for, the TUN
    device (opened with [IFF_NO_PI]) yields whole IP packets, of which the
    shortest header has 20 bytes, a write takes at most what it was given, and a
    distribution stays in its range. *)
Class LoopLaws (K : LoopOs) : Prop := {
  read_packet_ip n w b w' :
    read_packet n w = (TunPacket b, w') → bytes_ok b ∧ 20 <= zlen b <= n;
  tls_write_fits b w n w' : tls_write b w = (TlsDone n, w') → (n <= length b)%nat;
  tls_read_fits n w b w' : tls_read n w = (TlsDone b, w') → bytes_ok b ∧ zlen b <= n;
  uniform_range lo hi w : lo <= hi → lo <= (uniform lo hi w).1 <= hi;
}.

(** A bound on the calls that return data or ask for a retry before the world
    has nothing more to say: the inner loops run until then. *)
Class Patience (K : LoopOs) := {
  patience : lworld → nat;
  patience_clock w : (patience (clock_ns w).2 <= patience w)%nat;
  patience_stop w : (patience (stop_flag w).2 <= patience w)%nat;
  patience_write b w : (patience (write_packet b w).2 <= patience w)%nat;
  patience_packet n w :
    (patience (read_packet n w).2 <= patience w)%nat
    ∧ ((read_packet n w).1 = TunInterrupted → (patience (read_packet n w).2 < patience w)%nat);
  patience_read n w :
    (patience (tls_read n w).2 <= patience w)%nat
    ∧ (∀ b, (tls_read n w).1 = TlsDone b → (patience (tls_read n w).2 < patience w)%nat);
}.

(** [jittered]: [base], give or take [pct] percent.
    [jittered] src/cdn/src/runtime.cpp:985-985 *)
Definition jittered {K : LoopOs} (base pct : Z) (w : lworld) : Z * lworld :=
  if pct =? 0 then (base, w)
  else
    let span := Z.quot (base * pct) 100 in
    let (d, w) := uniform (- span) span w in (Z.max 1 (base + d), w).

(** ** Events

    The ring of the last events of the process; the time stamp in front of each
    text is left out. *)

Definition kMaxEvents : Z := 64.

(** [event] src/cdn/src/runtime.cpp:58-62 *)
Definition push_event (text : bytes) (l : list bytes) : list bytes :=
  (if kMaxEvents <=? zlen l then tail l else l) ++ [text].

Lemma push_event_bound text l : zlen l <= kMaxEvents → zlen (push_event text l) <= kMaxEvents.
Proof.
  intros H. unfold push_event, kMaxEvents in *. destruct (Z.leb_spec 64 (zlen l)).
  - destruct l as [|x l]; simpl; autorewrite with pt in *; lia.
  - autorewrite with pt. lia.
Qed.

(** An operation as a callback of the decoder, which runs it on the rest of the
    state. *)
Definition callback {S} (m : Z → bytes → M S unit) (flags seq : Z) (payload : bytes) (s : S)
  : S * option bytes :=
  match m flags payload s with (Ok _, s') => (s', None) | (Err e, s') => (s', Some e) end.

(** ** Postconditions

    How an operation ends: in [Q], with its result, or by an exception, in [E]. *)
Definition ends {S A} (Q : A → S → Prop) (E : S → Prop) (r : res A * S) : Prop :=
  match r with (Ok a, s) => Q a s | (Err _, s) => E s end.

(** [m] keeps [P] as long as it returns, and ends in [E] when it throws. *)
Definition upholds {S A} (P E : S → Prop) (m : M S A) : Prop := ∀ s, P s → ends (λ _, P) E (m s).

Section Ends.
Context {S : Type}.

Lemma ends_bind {A B} (R : A → S → Prop) (Q : B → S → Prop) E (m : M S A) (f : A → M S B) s :
  ends R E (m s) → (∀ a s', R a s' → ends Q E (f a s')) → ends Q E ((m ≫= f) s).
Proof. unfold mbind, M_bind. intros Hm Hf. destruct (m s) as [[a|e] s']; [by apply Hf|done]. Qed.

Lemma ends_weaken {A} (Q Q' : A → S → Prop) (E E' : S → Prop) r :
  ends Q E r → (∀ a s, Q a s → Q' a s) → (∀ s, E s → E' s) → ends Q' E' r.
Proof. destruct r as [[]]; simpl; eauto. Qed.

Lemma ends_both {A} (Q Q' : A → S → Prop) (E E' : S → Prop) r :
  ends Q E r → ends Q' E' r → ends (λ a s, Q a s ∧ Q' a s) (λ s, E s ∧ E' s) r.
Proof. destruct r as [[]]; simpl; eauto. Qed.

Context (P E : S → Prop) (PE : ∀ s, P s → E s).

Lemma upholds_ret {A} (a : A) : upholds P E (mret a : M S A).
Proof using Type. by intros s. Qed.
Lemma upholds_throw {A} e : upholds P E (throw e : M S A).
Proof using PE. intros s. apply PE. Qed.
Lemma upholds_gets {A} (f : S → A) : upholds P E (gets f).
Proof using Type. by intros s. Qed.
Lemma upholds_modify f : (∀ s, P s → P (f s)) → upholds P E (modify f).
Proof using Type. intros H s. apply H. Qed.
Lemma upholds_check b e : upholds P E (check b e).
Proof using PE. destruct b; [apply upholds_throw|apply upholds_ret]. Qed.
Lemma upholds_bind {A B} (m : M S A) (f : A → M S B) :
  upholds P E m → (∀ a, upholds P E (f a)) → upholds P E (m ≫= f).
Proof using Type. intros Hm Hf s Hs. eapply ends_bind; [by apply Hm|]. intros a s' Hs'. by apply Hf. Qed.
(** With one predicate for both exits it is [keeps]. *)
Lemma upholds_keeps {A} (m : M S A) : upholds P P m ↔ keeps P m.
Proof using Type.
  unfold upholds, keeps. split; intros H s Hs; specialize (H s Hs); by destruct (m s) as [[]].
Qed.
Lemma upholds_if {A} (b : bool) (m n : M S A) :
  upholds P E m → upholds P E n → upholds P E (if b then m else n).
Proof using Type. by destruct b. Qed.
(** An operation that reads the state first may use what [P] says of it. *)
Lemma upholds_read {A} (m : S → M S A) :
  (∀ s, P s → ends (λ _, P) E (m s s)) → upholds P E (gets id ≫= m).
Proof using Type. intros H s Hs. by apply H. Qed.
End Ends.

(** ** A concrete world

    Packets wait at the TUN device, pieces of a stream at the connection; the
    clock moves by a millisecond per look, a connection takes at most 40 bytes
    at a time, and the next [turns] readings of the TUN device are interrupted. It
    satisfies the laws and has a patience. *)
Module World.

Record World := mkWorld { tun_packets : list bytes; pieces : list bytes; ticks : Z; turns : nat }.

Definition fits (n : Z) (p : bytes) : bool := forallb (λ z, (0 <=? z) && (z <? 256)) p && (20 <=? zlen p) && (zlen p <=? n).

Definition next_packet (n : Z) (w : World) : TunRead * World :=
  match tun_packets w, turns w with
  | _, S t => (TunInterrupted, mkWorld (tun_packets w) (pieces w) (ticks w) t)
  | p :: rest, _ => if fits n p then (TunPacket p, mkWorld rest (pieces w) (ticks w) 0) else (TunAgain, w)
  | [], _ => (TunAgain, w)
  end.

Definition next_piece (n : Z) (w : World) : TlsIo bytes * World :=
  match pieces w with
  | p :: rest =>
      if forallb (λ z, (0 <=? z) && (z <? 256)) p && (zlen p <=? n)
      then (TlsDone p, mkWorld (tun_packets w) rest (ticks w) (turns w)) else (TlsWant, w)
  | [] => (TlsWant, w)
  end.

Definition readable {A} (l : list A) : Revents := mkRevents (negb (length l =? 0)%nat) true false.

#[export] Instance loop_os : LoopOs := {|
  lworld := World;
  clock_ns w := (ticks w, mkWorld (tun_packets w) (pieces w) (ticks w + 1000000) (turns w));
  stop_flag w := (false, w);
  take_disconnect w := (false, w);
  poll_both _ _ w := (PollGot (readable (pieces w)) (readable (tun_packets w)), w);
  read_packet := next_packet;
  write_packet p w := (zlen p, w);
  uniform lo _ w := (lo, w);
  tls_write b w := (TlsDone (Nat.min 40 (length b)), w);
  tls_read := next_piece;
  tls_pending w := (false, w);
  ssl_error w := (str "none", w);
|}.

#[export] Instance loop_laws : LoopLaws loop_os.
Proof.
  split; simpl.
  - unfold next_packet, fits. intros n [ps cs t [|k]] b w' H; simpl in *; [|by destruct ps].
    destruct ps as [|p ps]; [done|]. destruct (_ && _) eqn:Hf; [|done]. injection H as <- _.
    apply andb_true_iff in Hf as [[Hb Hl]%andb_true_iff Hn]. split; [by apply bytes_ok_check|lia].
  - intros b w n w' [= <- _]. apply (Nat.le_min_r 40).
  - unfold next_piece. intros n [ps [|c cs] t k] b w' H; simpl in *; [done|].
    destruct (_ && _) eqn:Hf; [|done]. injection H as <- _.
    apply andb_true_iff in Hf as [Hb Hn]. split; [by apply bytes_ok_check|lia].
  - intros. lia.
Qed.

#[export] Instance loop_patience : Patience loop_os.
Proof.
  refine {| patience (w : lworld (LoopOs := loop_os)) := (length (pieces w) + turns w)%nat |}; simpl; try lia.
  - intros n [[|p ps] cs t [|k]]; unfold next_packet; simpl; try destruct (fits n p); simpl; split; try lia; done.
  - intros n [ps [|c cs] t k]; unfold next_piece; simpl; [by split; [lia|]|].
    destruct (_ && _); simpl; split; try lia; done.
Defined.

(** A packet of [n] bytes with this first byte. *)
Definition packet (n : nat) (first : Z) : bytes := first :: repeat 7 (pred n).

End World.
