(* ===== verification/DeviceLog.v ===== *)
(** * What passes through a device and a connection

    A world of LoopOs.v that can tell what was read from and written to the TUN
    device and the TLS connection so far; and, for any world, one that keeps such
    a log beside it. *)

From S2P Require Import Prelude.
From S2P Require Import LoopOs.

(** Packets read from the device and written to it; bytes read from the
    connection and taken by it. *)
Record Logs := mkLogs { tun_given : list bytes; tun_taken : list bytes; tls_given : bytes; tls_taken : bytes }.

Definition log_app (a b : Logs) : Logs :=
  mkLogs (tun_given a ++ tun_given b) (tun_taken a ++ tun_taken b) (tls_given a ++ tls_given b) (tls_taken a ++ tls_taken b).
Definition log_nil : Logs := mkLogs [] [] [] [].

Lemma log_app_nil l : log_app l log_nil = l.
Proof. destruct l. unfold log_app, log_nil. cbn. by rewrite !app_nil_r. Qed.
Lemma log_app_assoc a b c : log_app (log_app a b) c = log_app a (log_app b c).
Proof. unfold log_app. cbn. by rewrite <- !app_assoc. Qed.

(** What a log says beyond an earlier one. *)
Definition log_since (a b : Logs) : Logs :=
  mkLogs (drop (length (tun_given a)) (tun_given b)) (drop (length (tun_taken a)) (tun_taken b))
    (drop (length (tls_given a)) (tls_given b)) (drop (length (tls_taken a)) (tls_taken b)).

Lemma log_since_app a b : log_since a (log_app a b) = b.
Proof. destruct b. unfold log_since, log_app. cbn. by rewrite !drop_app_length. Qed.

(** What one call adds. *)
Definition packet_log (r : TunRead) : Logs := mkLogs (match r with TunPacket b => [b] | _ => [] end) [] [] [].
Definition given_log (r : TlsIo bytes) : Logs := mkLogs [] [] (match r with TlsDone b => b | _ => [] end) [].
Definition taken_log (b : bytes) (r : TlsIo nat) : Logs := mkLogs [] [] [] (match r with TlsDone n => take n b | _ => [] end).

Class DeviceLog (K : LoopOs) := {
  logs : lworld → Logs;
  log_clock w : logs (clock_ns w).2 = logs w;
  log_stop w : logs (stop_flag w).2 = logs w;
  log_disconnect w : logs (take_disconnect w).2 = logs w;
  log_poll e t w : logs (poll_both e t w).2 = logs w;
  log_packet n w : logs (read_packet n w).2 = log_app (logs w) (packet_log (read_packet n w).1);
  log_write b w : logs (write_packet b w).2 = log_app (logs w) (mkLogs [] [b] [] []);
  log_tls_write b w : logs (tls_write b w).2 = log_app (logs w) (taken_log b (tls_write b w).1);
  log_tls_read n w : logs (tls_read n w).2 = log_app (logs w) (given_log (tls_read n w).1);
  log_pending w : logs (tls_pending w).2 = logs w;
  log_error w : logs (ssl_error w).2 = logs w;
}.

(** ** A log beside a world *)

Section Logging.
Context (K : LoopOs).

Definition aside {A} (f : lworld → A * lworld) (p : Logs * lworld) : A * (Logs * lworld) :=
  let (a, w) := f p.2 in (a, (p.1, w)).
Definition logged_as {A} (g : A → Logs) (f : lworld → A * lworld) (p : Logs * lworld) : A * (Logs * lworld) :=
  let (a, w) := f p.2 in (a, (log_app p.1 (g a), w)).

Definition logging : LoopOs := {|
  lworld := Logs * lworld;
  clock_ns := aside clock_ns; stop_flag := aside stop_flag; take_disconnect := aside take_disconnect;
  poll_both e t := aside (poll_both e t); uniform lo hi := aside (uniform lo hi);
  read_packet n := logged_as packet_log (read_packet n);
  write_packet b := logged_as (λ _, mkLogs [] [b] [] []) (write_packet b);
  tls_write b := logged_as (taken_log b) (tls_write b);
  tls_read n := logged_as given_log (tls_read n);
  tls_pending := aside tls_pending; ssl_error := aside ssl_error |}.

#[export] Instance logging_log : DeviceLog logging.
Proof.
  refine {| logs (p : lworld (LoopOs := logging)) := p.1 |}; intros; cbn; unfold aside, logged_as;
    match goal with |- context [?f ?p.2] => by destruct (f p.2) end.
Defined.

#[export] Instance logging_laws : LoopLaws K → LoopLaws logging.
Proof.
  intros KL. split; cbn; unfold aside, logged_as.
  - intros n p b p' H. destruct (read_packet n p.2) as [r w] eqn:Hr. injection H as -> _. by eapply read_packet_ip.
  - intros b p n p' H. destruct (tls_write b p.2) as [r w] eqn:Hr. injection H as -> _. by eapply tls_write_fits.
  - intros n p b p' H. destruct (tls_read n p.2) as [r w] eqn:Hr. injection H as -> _. by eapply tls_read_fits.
  - intros lo hi p H. pose proof (uniform_range lo hi p.2 H). by destruct (uniform lo hi p.2).
Qed.

#[export] Instance logging_patience : Patience K → Patience logging.
Proof.
  intros P. refine {| patience (p : lworld (LoopOs := logging)) := patience p.2 |}; intros; cbn; unfold aside, logged_as.
  - pose proof (patience_clock w.2). by destruct (clock_ns _).
  - pose proof (patience_stop w.2). by destruct (stop_flag _).
  - pose proof (patience_write b w.2). by destruct (write_packet _ _).
  - pose proof (patience_packet n w.2). by destruct (read_packet _ _).
  - pose proof (patience_read n w.2). by destruct (tls_read _ _).
Defined.
End Logging.
