(* ===== verification/Pacing.v ===== *)
(** * Waits before a new attempt

    The jitter of both clients keeps a wait within its percentage of a delay between the two
    limits of the configuration. *)

From S2P Require Import Prelude.
From S2P Require Import Config ConfigBounds LoopOs.

Section Pacing.
Context {K : LoopOs} (cfg : Config).

(** A wait that comes from a delay between the two limits. *)
Definition wait_ok (w : Z) : Prop := ∃ d, reconnect_initial_ms cfg <= d <= reconnect_max_ms cfg
  ∧ d - d * reconnect_jitter_pct cfg / 100 <= w <= d + d * reconnect_jitter_pct cfg / 100.

(** [jittered] stays within its percentage, and no [int] of it overflows. *)
Lemma jittered_range {LL : LoopLaws K} d w : bounds cfg →
  reconnect_initial_ms cfg <= d <= reconnect_max_ms cfg →
  wait_ok (jittered d (reconnect_jitter_pct cfg) w).1.
Proof using Type.
  intros HB Hd. exists d. split; [done|]. unfold jittered.
  pose proof (b_jitter _ HB). pose proof (b_reconnect_initial _ HB).
  destruct (Z.eqb_spec (reconnect_jitter_pct cfg) 0) as [->|Hp]; simpl; [rewrite Z.mul_0_r, Z.div_0_l; lia|].
  set (span := Z.quot _ _). assert (Hs : span = d * reconnect_jitter_pct cfg / 100) by (apply Z.quot_div_nonneg; nia).
  pose proof (uniform_range (- span) span w) as Hu. destruct (uniform _ _ w) as [x w']. simpl in *.
  assert (0 <= span) by (rewrite Hs; apply Z.div_pos; nia).
  assert (span <= d / 2) by (rewrite Hs; apply Z.div_le_lower_bound; [lia|]; Z.div_mod_to_equations; nia).
  rewrite <- Hs. specialize (Hu ltac:(lia)). Z.div_mod_to_equations. lia.
Qed.

End Pacing.
Arguments wait_ok cfg w : simpl never.
