(* ===== verification/Sequence.v ===== *)
(** * Deliveries in the order of their sequence numbers

    Both tunnel loops number what they hand to the record encoders from 1 on;
    these are the facts about such lists that their theorems share, and the part
    of a list of deliveries that is packets. *)

From S2P Require Import Prelude RecordLoop.

(** Sequence numbers count what was handed to the encoder. *)
Definition numbered (h : list Delivery) : Prop :=
  ∀ i x, h !! i = Some x → d_seq x = u64 (Z.of_nat i + 1).

Lemma numbered_snoc h x : numbered h → d_seq x = u64 (zlen h + 1) → numbered (h ++ [x]).
Proof.
  intros Hh Hx i y [Hi|[Hi Hy]]%lookup_app_Some; [by apply Hh|].
  apply list_lookup_singleton_Some in Hy as [Hn <-]. rewrite Hx. unfold zlen. do 2 f_equal. lia.
Qed.

Lemma numbered_seq h x :
  numbered h → zlen h < 2 ^ 64 - 1 → x ∈ h → u64_ok (d_seq x).
Proof. intros Hh _ [i Hi]%list_elem_of_lookup. rewrite (Hh _ _ Hi). apply Z.mod_pos_bound. lia. Qed.

Lemma numbered_sorted h : numbered h → zlen h < 2 ^ 64 - 1 → StronglySorted Z.lt (map d_seq h).
Proof.
  intros Hh Hlen. induction h as [|x h IH] using rev_ind; simpl; [constructor|].
  rewrite map_app. apply StronglySorted_app.
  rewrite zlen_app in Hlen. pose proof (zlen_nonneg h).
  assert (Hh' : numbered h).
  { intros i y Hy. apply Hh. by apply lookup_app_l_Some. }
  assert (Hx : d_seq x = zlen h + 1).
  { rewrite (Hh (length h) x) by (rewrite lookup_app_r, Nat.sub_diag; done).
    apply Z.mod_small. unfold zlen in *. simpl in *. lia. }
  split_and!; [|apply IH; [done|unfold zlen in *; simpl in *; lia]|repeat constructor].
  intros a b Ha Hb. apply list_elem_of_singleton in Hb as ->.
  apply list_elem_of_fmap in Ha as (y & -> & [i Hi]%list_elem_of_lookup).
  rewrite (Hh' _ _ Hi), Hx. apply lookup_lt_Some in Hi.
  unfold u64. rewrite Z.mod_small; unfold zlen in *; simpl in *; lia.
Qed.

Definition packets (ds : list Delivery) : list bytes :=
  map d_payload (filter (λ x, d_flags x = 0) ds).

Lemma packets_app ds ds' : packets (ds ++ ds') = packets ds ++ packets ds'.
Proof. unfold packets. by rewrite filter_app, map_app. Qed.

Lemma packets_prefix ds ds' : ds `prefix_of` ds' → packets ds `prefix_of` packets ds'.
Proof. intros [k ->]. rewrite packets_app. by apply prefix_app_r. Qed.

Lemma singletons {A} (l : list A) : concat (map (λ z, [z]) l) = l.
Proof. induction l as [|z l IH]; simpl; congruence. Qed.

