(* ===== verification/TlsLoop.v ===== *)
(** * The TLS tunnel loop (cdn/src/runtime.cpp, [tunnel_loop])

    One turn of the loop reads packets from the TUN device, encodes and queues
    them, decodes what the TLS connection brings, sends probes and keepalives,
    and writes the queue to the connection, possibly a record in several pieces.
    [update_tcp_info] (kernel statistics) is left out.

    Five members of [Tunnel] are not in the code: the bytes the connection took
    ([wire]), everything handed to [encode_record] ([history]), the packets that
    [read_packet] returned ([from_tun]), those given to the TUN device ([to_tun]),
    and the arguments of [feed] so far ([received]); no operation reads them. *)

From S2P Require Import Prelude.
From S2P Require Import Text Crypto Keys RecordLoop Record Config Tun LoopOs Outbox.

Section TlsLoop.
Context {C : Crypto} {K : LoopOs} {Pt : Patience K} (cfg : Config) (tx_key : bytes).

(** ** State *)

(** The local variables of the loop.
    [tunnel_loop] src/cdn/src/runtime.cpp:332-342 *)
Record Tunnel := mkTunnel {
  box : Outbox; front_offset : nat; sequence : Z; dec : Decoder;
  last_rx : Z; last_tx : Z; last_probe : Z; last_tcp_info : Z;
  events : list bytes; outside : lworld;
  wire : bytes; history : list Delivery; from_tun : list bytes; to_tun : list bytes; received : list bytes }.

Definition with_out (b : Outbox) (off : nat) (s : Tunnel) : Tunnel :=
  mkTunnel b off (sequence s) (dec s) (last_rx s) (last_tx s) (last_probe s) (last_tcp_info s)
    (events s) (outside s) (wire s) (history s) (from_tun s) (to_tun s) (received s).
Definition with_box (b : Outbox) (s : Tunnel) : Tunnel := with_out b (front_offset s) s.
Definition with_world (w : lworld) (s : Tunnel) : Tunnel :=
  mkTunnel (box s) (front_offset s) (sequence s) (dec s) (last_rx s) (last_tx s) (last_probe s)
    (last_tcp_info s) (events s) w (wire s) (history s) (from_tun s) (to_tun s) (received s).
Definition with_decoder (d : Decoder) (s : Tunnel) : Tunnel :=
  mkTunnel (box s) (front_offset s) (sequence s) d (last_rx s) (last_tx s) (last_probe s)
    (last_tcp_info s) (events s) (outside s) (wire s) (history s) (from_tun s) (to_tun s) (received s).
Definition with_clocks (rx tx probe tcp : Z) (s : Tunnel) : Tunnel :=
  mkTunnel (box s) (front_offset s) (sequence s) (dec s) rx tx probe tcp
    (events s) (outside s) (wire s) (history s) (from_tun s) (to_tun s) (received s).
Definition with_events (l : list bytes) (s : Tunnel) : Tunnel :=
  mkTunnel (box s) (front_offset s) (sequence s) (dec s) (last_rx s) (last_tx s) (last_probe s)
    (last_tcp_info s) l (outside s) (wire s) (history s) (from_tun s) (to_tun s) (received s).
Definition count (f : Stats → Stats) (s : Tunnel) : Tunnel := with_box (on_counters f (box s)) s.

(** The members of the model only. *)
Definition note_encoded (x : Delivery) (s : Tunnel) : Tunnel :=
  mkTunnel (box s) (front_offset s) (u64 (sequence s + 1)) (dec s) (last_rx s) (last_tx s)
    (last_probe s) (last_tcp_info s) (events s) (outside s) (wire s) (history s ++ [x]) (from_tun s) (to_tun s) (received s).
Definition note_sent (b : bytes) (s : Tunnel) : Tunnel :=
  mkTunnel (box s) (front_offset s) (sequence s) (dec s) (last_rx s) (last_tx s) (last_probe s)
    (last_tcp_info s) (events s) (outside s) (wire s ++ b) (history s) (from_tun s) (to_tun s) (received s).
Definition note_read (r : TunRead) (s : Tunnel) : Tunnel :=
  mkTunnel (box s) (front_offset s) (sequence s) (dec s) (last_rx s) (last_tx s) (last_probe s)
    (last_tcp_info s) (events s) (outside s) (wire s) (history s)
    (match r with TunPacket b => from_tun s ++ [b] | _ => from_tun s end) (to_tun s) (received s).
Definition note_injected (p : bytes) (s : Tunnel) : Tunnel :=
  mkTunnel (box s) (front_offset s) (sequence s) (dec s) (last_rx s) (last_tx s) (last_probe s)
    (last_tcp_info s) (events s) (outside s) (wire s) (history s) (from_tun s) (to_tun s ++ [p]) (received s).
Definition note_received (b : bytes) (s : Tunnel) : Tunnel :=
  mkTunnel (box s) (front_offset s) (sequence s) (dec s) (last_rx s) (last_tx s) (last_probe s)
    (last_tcp_info s) (events s) (outside s) (wire s) (history s) (from_tun s) (to_tun s) (received s ++ [b]).

Abbreviation Tls := (M Tunnel).

Definition sys {A} (f : lworld → A * lworld) : Tls A := λ s,
  let (a, w) := f (outside s) in (Ok a, with_world w s).

Definition now : Tls Z := sys clock_ns.
(** [mono_us] src/cdn/src/runtime.cpp:264-264 *)
Definition mono_us : Tls Z := t ← now ; mret (u64 (micros t)).

(** ** Sending *)

(** [encode_record(tx_key, sequence++, payload, flags)]. *)
Definition make_record (flags : Z) (payload : bytes) : Tls bytes :=
  s ← gets id ;
  modify (note_encoded (mkDelivery flags (sequence s) payload)) ;;
  pure_call (encode_record tx_key (sequence s) payload flags).

(** Encode and queue. [enqueue_control] for control records; the loop over the
    TUN device for packets, which counts the payload in between.
    [tunnel_loop] src/cdn/src/runtime.cpp:344-347 *)
Definition send_record (flags : Z) (payload : bytes) (packet : bool) (counted : Stats → Stats) : Tls unit :=
  record ← make_record flags payload ;
  modify (count counted) ;;
  t ← now ;
  modify (λ s, with_box (enqueue_record (mkQueued record t packet) cfg (0 <? front_offset s)%nat (box s)) s).

Definition enqueue_control (flags : Z) (payload : bytes) : Tls unit := send_record flags payload false id.

(** [n] bytes of the front record were written.
    [tunnel_loop] src/cdn/src/runtime.cpp:359-371 *)
Definition wrote_front (item : Queued) (rest : list Queued) (n : nat) : Tls unit :=
  s ← gets id ;
  let off := (front_offset s + n)%nat in
  modify (note_sent (take n (drop (front_offset s) (q_data item)))) ;;
  modify (with_out (on_counters (bump wire_tx (Z.of_nat n)) (box s)) off) ;;
  t ← now ;
  modify (λ s, with_clocks (last_rx s) t (last_probe s) (last_tcp_info s) s) ;;
  if (off =? length (q_data item))%nat then
    modify (λ s, with_out (pop_queued item rest (box s)) 0 s) ;;
    modify (λ s, count (λ st, put queue_bytes_now (queued_bytes (box s))
                                (put queue_pkts (zlen (queue (box s))) st)) s)
  else mret tt.

(** The loop of [flush_tls], at most [fuel] turns of it; every turn writes a byte.
    [tunnel_loop] src/cdn/src/runtime.cpp:349-378 *)
Fixpoint flush_tls (fuel : nat) (sent_records sent_bytes : Z) : Tls unit :=
  match fuel with
  | O => mret tt
  | S fuel' =>
      s ← gets id ;
      match queue (box s) with
      | [] => mret tt
      | item :: rest =>
          if (Z.max 1 (batch_packets cfg) <=? sent_records) || (Z.max 1 (batch_bytes cfg) <=? sent_bytes)
          then mret tt
          else
            r ← sys (tls_write (drop (front_offset s) (q_data item))) ;
            match r with
            | TlsDone (S n) =>
                wrote_front item rest (S n) ;;
                flush_tls fuel'
                  (if (front_offset s + S n =? length (q_data item))%nat then sent_records + 1 else sent_records)
                  (sent_bytes + Z.of_nat (S n))
            | TlsWant => mret tt
            | TlsZeroReturn => throw (str "TLS peer closed")
            | _ => e ← sys ssl_error ; throw (str "TLS write failed: " ++ e)
            end
      end
  end.

(** ** Receiving *)

(** The callback of [dec.feed].
    [tunnel_loop] src/cdn/src/runtime.cpp:442-466 *)
Definition on_record (flags : Z) (payload : bytes) : Tls unit :=
  if flags =? 0 then
    modify (note_injected payload) ;;
    n ← sys (write_packet payload) ;
    if n =? zlen payload then
      modify (count (λ st, bump payload_rx (zlen payload) (bump tun_out_pkts 1
                             (bump tun_out_bytes (zlen payload) st))))
    else modify (count (bump drop_malformed 1))
  else if negb (Z.land flags RECORD_KEEPALIVE =? 0) then modify (count (bump keepalive_rx 1))
  else if negb (Z.land flags RECORD_PING =? 0) then
    modify (count (bump ping_rx 1)) ;;
    enqueue_control RECORD_PONG payload ;;
    modify (count (bump pong_tx 1))
  else if negb (Z.land flags RECORD_PONG =? 0) then
    modify (count (bump pong_rx 1)) ;;
    if zlen payload =? 8 then
      current ← mono_us ;
      let sent := decode_u64 payload in
      if sent <=? current then modify (count (put rtt_us (current - sent))) else mret tt
    else mret tt
  else mret tt.

(** What the failure of [feed] is counted as. *)
Definition decoder_error (e : bytes) (st : Stats) : Stats :=
  if contains (str "authentication") e then bump auth_fail 1 st
  else if negb (contains (str "replay") e) then bump drop_malformed 1 st
  else st.

(** The call of [feed] and what follows it. [feed] never runs out of turns
    ([feed_terminates]).
    [tunnel_loop] src/cdn/src/runtime.cpp:438-474 *)
Definition feed_decoder (b : bytes) : Tls unit :=
  s ← gets id ;
  match feed_v3 (callback on_record) (dec s) b s with
  | None => mret tt
  | Some (d', s', Accepted) =>
      modify (λ _, with_decoder d' s') ;;
      modify (count (bump sequence_gap (u64 (sequence_gaps_ d' - sequence_gaps_ (dec s)))))
  | Some (d', s', Rejected e) =>
      modify (λ _, with_decoder d' s') ;;
      modify (count (λ st, decoder_error e (decoder_counts (dec s) d' st))) ;;
      modify (λ s, with_events (push_event (str "decoder_error " ++ e) (events s)) s) ;;
      throw e
  | Some (d', s', Raised e) => modify (λ _, with_decoder d' s') ;; throw e
  end.

(** [n] decrypted bytes.
    [tunnel_loop] src/cdn/src/runtime.cpp:435-475 *)
Definition receive (b : bytes) : Tls unit :=
  t ← now ;
  modify (λ s, with_clocks t (last_tx s) (last_probe s) (last_tcp_info s) s) ;;
  modify (count (bump wire_rx (zlen b))) ;;
  modify (note_received b) ;;
  feed_decoder b.

(** [sizeof read_buffer]. *)
Definition kReadBuffer : Z := 65536.

(** [while (true) { ... SSL_read_ex ... }], at most [fuel] turns.
    [tunnel_loop] src/cdn/src/runtime.cpp:432-481 *)
Fixpoint read_tls (fuel : nat) : Tls unit :=
  match fuel with
  | O => mret tt
  | S fuel' =>
      r ← sys (tls_read kReadBuffer) ;
      match r with
      | TlsDone ((_ :: _) as b) => receive b ;; read_tls fuel'
      | TlsWant => mret tt
      | TlsZeroReturn => throw (str "TLS peer closed")
      | _ => e ← sys ssl_error ; throw (str "TLS read failed: " ++ e)
      end
  end.

(** Packets of the TUN device, at most [fuel] calls of [read_packet].
    [tunnel_loop] src/cdn/src/runtime.cpp:409-428 *)
Fixpoint read_tun (fuel : nat) (reads : Z) : Tls unit :=
  match fuel with
  | O => mret tt
  | S fuel' =>
      if reads <? Z.max 1 (batch_packets cfg) then
        r ← sys (read_packet (mtu cfg + 256)) ;
        modify (note_read r) ;;
        match r with
        | TunPacket b =>
            modify (count (λ st, bump tun_in_pkts 1 (bump tun_in_bytes (zlen b) st))) ;;
            send_record 0 b true (bump payload_tx (zlen b)) ;;
            read_tun fuel' (reads + 1)
        | TunInterrupted => stop ← sys stop_flag ; if (stop : bool) then mret tt else read_tun fuel' reads
        | TunAgain => mret tt
        | TunClosed => throw (str "TUN closed")
        | TunBroken e => throw (str "TUN read failed: " ++ e)
        end
      else mret tt
  end.

(** ** One turn *)

(** Records that waited too long leave, unless the first bytes of the front one
    are on the wire.
    [tunnel_loop] src/cdn/src/runtime.cpp:386-393 *)
Fixpoint drop_delayed (q : list Queued) (now : Z) : Tls unit :=
  match q with
  | [] => mret tt
  | x :: rest =>
      s ← gets id ;
      if (front_offset s =? 0)%nat && (queue_delay_ms cfg <? millis (now - enqueued x)) then
        modify (λ s, with_out (pop_queued x rest (box s)) 0 s) ;;
        modify (count (bump drop_delay 1)) ;;
        modify (λ s, with_events (push_event (str "queue_delay_drop") (events s)) s) ;;
        drop_delayed rest now
      else mret tt
  end.

Definition no_records (s : Tunnel) : bool := (length (queue (box s)) =? 0)%nat.

(** Probes, keepalives and the flush, at time [t].
    [tunnel_loop] src/cdn/src/runtime.cpp:485-497 *)
Definition timers_and_flush (t : Z) : Tls unit :=
  s ← gets id ;
  (if (0 <? rtt_probe_sec cfg) && (rtt_probe_sec cfg <=? seconds (t - last_probe s)) then
     token ← mono_us ;
     enqueue_control RECORD_PING (encode_u64 token) ;;
     modify (count (bump ping_tx 1)) ;;
     modify (λ s, with_clocks (last_rx s) (last_tx s) t (last_tcp_info s) s)
   else mret tt) ;;
  s ← gets id ;
  (if (0 <? keepalive_sec cfg) && no_records s && (keepalive_sec cfg <=? seconds (t - last_tx s)) then
     enqueue_control RECORD_KEEPALIVE [] ;;
     modify (count (bump keepalive_tx 1))
   else mret tt) ;;
  s ← gets id ;
  flush_tls (S (Z.to_nat (total (queue (box s))))) 0 0.

(** The body of [while (!g_stop)]. The turns given to the two reading loops are
    those after which the world has no more to say.
    [tunnel_loop] src/cdn/src/runtime.cpp:380-509 *)
Definition tunnel_turn : Tls unit :=
  force ← sys take_disconnect ;
  check force (str "control requested reconnect") ;;
  t ← now ;
  s ← gets id ;
  drop_delayed (queue (box s)) t ;;
  modify (λ s, count (λ st, put last_rx_age_ms (millis (t - last_rx s))
                              (put queue_bytes_now (queued_bytes (box s))
                                 (put queue_pkts (zlen (queue (box s))) st))) s) ;;
  s ← gets id ;
  ready ← sys (poll_both (mkEvents true (negb (no_records s)))
                 (if no_records s then Z.min 10 (Z.max 1 (websocket_poll_ms cfg)) else 0)) ;
  match ready with
  | PollInterrupted => mret tt
  | PollBroken => throw (str "poll failed")
  | PollGot sock tun =>
      (if r_in tun then
         s ← gets id ; read_tun (S (Z.to_nat (Z.max 1 (batch_packets cfg))) + patience (outside s)) 0
       else mret tt) ;;
      pending ← (if r_in sock then mret true else sys tls_pending) ;
      (if (pending : bool) then s ← gets id ; read_tls (S (patience (outside s))) else mret tt) ;;
      t ← now ;
      timers_and_flush t ;;
      modify (λ s, if 1 <=? seconds (t - last_tcp_info s)
                   then with_clocks (last_rx s) (last_tx s) (last_probe s) t s else s) ;;
      s ← gets id ;
      check (idle_timeout_sec cfg <? seconds (t - last_rx s)) (str "idle timeout") ;;
      check (r_bad sock) (str "TLS socket closed")
  end.

(** [n] turns of [while (!g_stop)], or fewer when the flag is set or an
    exception leaves the loop.
    [tunnel_loop] src/cdn/src/runtime.cpp:326-510 *)
Fixpoint tunnel_loop (n : nat) : Tls unit :=
  match n with
  | O => mret tt
  | S n' => stop ← sys stop_flag ; if (stop : bool) then mret tt else tunnel_turn ;; tunnel_loop n'
  end.

(** The state at the start of the loop.
    [tunnel_loop] src/cdn/src/runtime.cpp:332-342 *)
Definition enter (rx_key : bytes) (st : Stats) (ev : list bytes) (w : lworld) : Tunnel :=
  let (rx, w) := clock_ns w in
  let (tx, w) := clock_ns w in
  let (probe, w) := clock_ns w in
  let (tcp, w) := clock_ns w in
  mkTunnel (mkOutbox [] 0 st) 0 1 (new_decoder rx_key (max_record_buffer_bytes cfg))
    rx tx probe tcp ev w [] [] [] [] [].
End TlsLoop.
