(* ===== verification/TlsProps.v ===== *)
(** * Properties of the TLS tunnel loop

    What the connection takes is a sequence of whole records although records
    are written in pieces and dropped from the queue; what the decoder delivers
    is what reaches the TUN device; the queue stays within its limits; what the
    model notes is what the log of the world (DeviceLog.v) says; and all of it
    together: packets arrive at the other end in order, unaltered, at most
    once. *)

From S2P Require Import Prelude.
From S2P Require Import Text Crypto Keys RecordLoop Record Config ConfigBounds Tun LoopOs DeviceLog Outbox Sequence TlsLoop.

Section TlsProps.
Context {C : Crypto} {K : LoopOs} {KL : LoopLaws K} {Pt : Patience K} (cfg : Config) (tx_key : bytes).

(** What [flush_tls] keeps: what calls on the world and a written piece of the
    front record keep. *)
Lemma keeps_flush (P : Tunnel → Prop) fuel n m :
  (∀ A (f : lworld → A * lworld), keeps P (sys f)) →
  (∀ item rest k s, P s → queue (box s) = item :: rest →
     (0 < k <= length (q_data item) - front_offset s)%nat → P (wrote_front item rest k s).2) →
  keeps P (flush_tls cfg fuel n m).
Proof using KL.
  intros Hsys Hwrote. revert n m. induction fuel as [|fuel IH]; intros n m; [apply keeps_ret|].
  simpl. apply keeps_read. intros s Hs.
  destruct (queue (box s)) as [|item rest] eqn:Hq; [done|]. destruct (_ || _); [done|].
  unfold mbind at 1, M_bind at 1, sys at 1. destruct (tls_write _ _) as [o w] eqn:Hwr.
  assert (Hw : P (with_world w s)).
  { specialize (Hsys _ (tls_write (drop (front_offset s) (q_data item))) s Hs).
    unfold sys in Hsys. by rewrite Hwr in Hsys. }
  assert (Hfail : keeps P (e ← sys ssl_error ; (throw (str "TLS write failed: " ++ e) : M Tunnel unit))).
  { apply keeps_bind; [auto|intros e; apply keeps_throw]. }
  destruct o as [[|k]| | |]; [by apply Hfail| |done|done|by apply Hfail].
  apply tls_write_fits in Hwr. rewrite length_drop in Hwr.
  specialize (Hwrote item rest (S k) (with_world w s) Hw Hq ltac:(simpl; lia)).
  unfold mbind, M_bind. destruct (wrote_front _ _ _ _) as [[[]|e] s']; [by apply IH|done].
Qed.

Lemma ping_shape flags len :
  v3_shape flags len = true → Z.land flags RECORD_PING ≠ 0 → len = 8.
Proof using Type.
  unfold v3_shape. rewrite !andb_true_iff, !negb_true_iff, !andb_false_iff, !negb_false_iff.
  intros (((_ & _) & [H|H]) & _) Hp; [|by apply Z.eqb_eq].
  exfalso. apply Hp, Z.bits_inj'. intros n Hn. apply Z.eqb_eq in H.
  apply (f_equal (λ z, Z.land z RECORD_PING)) in H. rewrite <- Z.land_assoc, Z.land_0_l in H.
  change (Z.land (Z.lor RECORD_PING RECORD_PONG) RECORD_PING) with RECORD_PING in H. by rewrite H.
Qed.

(** A decoder run keeps what its callback keeps for the records that have one of
    the known shapes. *)
Lemma feed_keeps {S} (P : S → Prop) (m : Z → bytes → M S unit) d b s d' s' r :
  (∀ f p, v3_shape f (zlen p) = true → keeps P (m f p)) →
  P s → feed_v3 (callback m) d b s = Some (d', s', r) → P s'.
Proof using Type.
  intros Hm Hs. unfold feed_v3, feed_with. destruct (_ <? _); [by intros [= <- <- <-]|].
  apply (loop_inv v3_step (callback m) (λ _ s, P s) (λ _ s _, P s)); auto.
  intros d0 s0 f n p t d1 HP Hstep%v3_step_shape. specialize (Hm f p Hstep s0 HP).
  unfold callback. by destruct (m f p s0) as [[] ?].
Qed.

(** *** Invariants of the loop

    [P] may depend on the queue and on what was sent, not on the counters, the
    clocks, the events or the receiving side. It is an invariant of the loop once
    sending a record of a known shape, writing a piece of the front record and
    dropping the front record keep it. *)

Definition same_sent (s s' : Tunnel) : Prop :=
  sequence s' = sequence s ∧ history s' = history s ∧ from_tun s' = from_tun s ∧ wire s' = wire s
  ∧ front_offset s' = front_offset s ∧ queue (box s') = queue (box s)
  ∧ queued_bytes (box s') = queued_bytes (box s).

Section Invariant.
Context (P : Tunnel → Prop).
Hypothesis P_same : ∀ s s', same_sent s s' → P s → P s'.
Hypothesis P_control : ∀ flags p,
  flags ≠ 0 → v3_shape flags (zlen p) = true → zlen p <= mtu cfg + 256 →
  keeps P (enqueue_control cfg tx_key flags p).
Hypothesis P_packet : ∀ p s, P s → v3_shape 0 (zlen p) = true → zlen p <= mtu cfg + 256 →
  P (send_record cfg tx_key 0 p true (bump payload_tx (zlen p))
       (count (λ st, bump tun_in_pkts 1 (bump tun_in_bytes (zlen p) st)) (note_read (TunPacket p) s))).2.
Hypothesis P_wrote : ∀ item rest k s, P s → queue (box s) = item :: rest →
  (0 < k <= length (q_data item) - front_offset s)%nat → P (wrote_front item rest k s).2.
Hypothesis P_pop : ∀ x rest s, P s → queue (box s) = x :: rest → front_offset s = 0%nat →
  P (with_out (pop_queued x rest (box s)) 0 s).
Hypothesis mtu_ok : 576 <= mtu cfg.

Lemma inv_modify f : (∀ s, same_sent s (f s)) → keeps P (modify f).
Proof using P_same. intros H. apply keeps_modify. intros s. apply P_same, H. Qed.

Lemma inv_sys {A} (f : lworld → A * lworld) : keeps P (sys f).
Proof using P_same. intros s. unfold sys. destruct (f _). by apply P_same. Qed.

Hint Resolve inv_sys : pt.
Hint Extern 1 (keeps P (modify _)) => apply inv_modify; done : pt.
Hint Extern 1 (keeps P now) => apply inv_sys : pt.

(** What a call returned may be used for the rest. *)
Lemma inv_call {A B} (f : lworld → A * lworld) (g : A → M Tunnel B) :
  (∀ w a w', f w = (a, w') → keeps P (g a)) → keeps P (sys f ≫= g).
Proof using P_same.
  intros Hg s Hs. unfold mbind, M_bind, sys. destruct (f _) as [a w] eqn:Hf.
  apply (keeps_at P); [by eapply Hg|]. by apply (P_same s).
Qed.

Lemma inv_flush fuel n m : keeps P (flush_tls cfg fuel n m).
Proof using KL P_same P_wrote. apply keeps_flush; [apply @inv_sys|apply P_wrote]. Qed.

Lemma inv_delayed q t : ∀ s, queue (box s) = q → P s → P (drop_delayed cfg q t s).2.
Proof using P_same P_pop.
  induction q as [|x rest IH]; intros s Hq Hs; [done|]. simpl. unfold mbind at 1, M_bind at 1, gets. simpl.
  destruct (Nat.eqb_spec (front_offset s) 0) as [H0|]; simpl; [|done].
  destruct (_ <? _); [|done]. unfold mbind, M_bind, modify; simpl. apply IH; [done|].
  eapply P_same; [|by apply P_pop]. done.
Qed.

Lemma inv_control flags p :
  flags ≠ 0 → v3_shape flags (zlen p) = true → zlen p <= 8 → keeps P (enqueue_control cfg tx_key flags p).
Proof using mtu_ok P_control. intros. apply P_control; [done..|lia]. Qed.

Lemma inv_record flags p : v3_shape flags (zlen p) = true → keeps P (on_record cfg tx_key flags p).
Proof using mtu_ok P_control P_same.
  intros Hf. unfold on_record. destruct (flags =? 0).
  { apply keeps_bind; [auto with pt|intros _]. keep. }
  destruct (negb _); [auto with pt|].
  destruct (Z.eqb_spec (Z.land flags RECORD_PING) 0) as [|Hping]; simpl.
  - destruct (negb _); [|auto with pt]. unfold mono_us. keep.
  - apply ping_shape in Hf; [|done]. apply keeps_bind; [auto with pt|intros _].
    apply keeps_bind; [|auto with pt]. apply inv_control; [done|by rewrite Hf|lia].
Qed.

Lemma inv_receive b : keeps P (receive cfg tx_key b).
Proof using mtu_ok P_control P_same.
  unfold receive, feed_decoder. do 4 (apply keeps_bind; [auto with pt|intros ?]). apply keeps_read. intros s Hs.
  destruct (feed_v3 _ _ _ _) as [[[d' s'] r]|] eqn:Hf; [|done].
  assert (Hs' : P (with_decoder d' s')).
  { apply (P_same s'); [done|]. eapply feed_keeps, Hf; [apply inv_record|done]. }
  destruct r; apply (keeps_set P); auto; keep.
Qed.

Lemma inv_read_tls fuel : keeps P (read_tls cfg tx_key fuel).
Proof using mtu_ok P_control P_same.
  induction fuel as [|fuel IH]; [apply keeps_ret|]. simpl.
  apply keeps_bind; [auto with pt|intros r]. destruct r as [[|]| | |]; try solve [keep].
  apply keeps_bind; [apply inv_receive|auto].
Qed.

Lemma inv_read_tun fuel n : keeps P (read_tun cfg tx_key fuel n).
Proof using P_packet P_same KL.
  revert n. induction fuel as [|fuel IH]; intros n; [apply keeps_ret|]. simpl.
  apply keeps_if; [|apply keeps_ret]. apply inv_call. intros w r w' Hr.
  destruct r as [b| | | |]; try solve [keep].
  apply read_packet_ip in Hr as [_ Hb]. intros s Hs. unfold mbind, M_bind, modify.
  assert (Hp : v3_shape 0 (zlen b) = true) by (unfold v3_shape; rewrite (proj2 (Z.ltb_ge _ _)) by lia; done).
  specialize (P_packet b s Hs Hp ltac:(lia)).
  destruct (send_record _ _ _ _ _ _ _) as [[[]|e] s']; [by apply IH|done].
Qed.

Lemma inv_timers t : keeps P (timers_and_flush cfg tx_key t).
Proof using mtu_ok KL P_control P_same P_wrote.
  assert (Hk : keeps P (enqueue_control cfg tx_key RECORD_KEEPALIVE [])) by (by apply inv_control).
  assert (Hp : ∀ v, keeps P (enqueue_control cfg tx_key RECORD_PING (encode_u64 v))).
  { intros v. apply inv_control; [done|by rewrite encode_u64_length..]. }
  pose proof inv_flush. unfold timers_and_flush, mono_us. keep.
Qed.

Lemma inv_turn : keeps P (tunnel_turn cfg tx_key).
Proof using All.
  unfold tunnel_turn. do 3 (apply keeps_bind; [auto with pt|intros ?]). apply keeps_read. intros s Hs.
  assert (Hd : P (drop_delayed cfg (queue (box s)) a1 s).2) by (by apply inv_delayed).
  unfold mbind at 1, M_bind at 1. destruct (drop_delayed _ _ _ _) as [[[]|e] s']; [|done].
  apply (keeps_at P); [|done]. pose proof inv_timers. pose proof inv_read_tls. pose proof inv_read_tun.
  keep.
  match goal with |- keeps _ (match ?x with _ => _ end) => destruct x end; keep.
  apply inv_modify. intros s1. by destruct (_ <=? _).
Qed.

Lemma inv_loop n : keeps P (tunnel_loop cfg tx_key n).
Proof using All. pose proof inv_turn. induction n; simpl; keep. Qed.
End Invariant.

(** *** The stream *)

Definition front_of (q : list Queued) : bytes := default [] (q_data <$> head q).

Record stream_ok (s : Tunnel) : Prop := {
  st_seq : sequence s = u64 (zlen (history s) + 1);
  st_numbered : numbered (history s);
  st_small : Forall (λ x, zlen (d_payload x) <= mtu cfg + 256) (history s);
  st_records : ∃ xs rs ys,
    Forall2 (encodes3 tx_key) xs rs ∧ Forall2 (encodes3 tx_key) ys (map q_data (queue (box s)))
    ∧ (xs ++ ys) `sublist_of` history s
    ∧ wire s = concat rs ++ take (front_offset s) (front_of (queue (box s)));
  st_offset : front_offset s = 0%nat ∨ (front_offset s < length (front_of (queue (box s))))%nat }.

Lemma stream_same s s' : same_sent s s' → stream_ok s → stream_ok s'.
Proof using Type.
  intros (Hs & Hh & _ & Hw & Hf & Hq & _) [H1 H2 H3 H4 H5].
  split; rewrite ?Hs, ?Hh, ?Hw, ?Hf, ?Hq; done.
Qed.

(** A record joins the queue, whatever leaves it. *)
Lemma stream_send flags p b f :
  v3_shape flags (zlen p) = true → zlen p <= mtu cfg + 256 →
  keeps stream_ok (send_record cfg tx_key flags p b f).
Proof using Type.
  intros Hshape Hp s [H1 H2 H3 (xs & rs & ys & Hx & Hy & Hsub & Hw) H5].
  set (x := mkDelivery flags (sequence s) p).
  assert (Hnum : numbered (history s ++ [x])) by (by apply numbered_snoc).
  assert (Hseq : u64 (sequence s + 1) = u64 (zlen (history s ++ [x]) + 1)).
  { rewrite zlen_app, H1, u64_add_l. f_equal. }
  assert (Hsmall : Forall (λ x, zlen (d_payload x) <= mtu cfg + 256) (history s ++ [x])).
  { apply Forall_app. split; [done|]. by apply Forall_singleton. }
  unfold send_record, make_record, now, sys, pure_call, mbind, M_bind, gets, modify. simpl.
  destruct (encode_record _ _ _ _) as [r|e] eqn:He; simpl.
  2:{ split; simpl; auto. exists xs, rs, ys. split_and!; auto using sublist_inserts_r. }
  destruct (clock_ns _) as [t w]. simpl.
  set (item := mkQueued r t b).
  assert (Henc : encodes3 tx_key x r) by done.
  destruct (enqueue_order cfg (0 <? front_offset s)%nat item
              (on_counters f (box s))) as [Hq|(n & Hq & Hn)]; split; simpl; auto; simpl in Hq; rewrite Hq.
  - exists xs, rs, ys. split_and!; auto using sublist_inserts_r.
  - done.
  - exists xs, rs, (drop n ys ++ [x]). split_and!; auto.
    + rewrite map_app, <- skipn_map. apply Forall2_app; [by apply Forall2_drop|by repeat constructor].
    + rewrite app_assoc. apply sublist_app; [|done]. etrans; [|exact Hsub].
      apply sublist_app; [done|apply sublist_drop].
    + rewrite Hw. f_equal. destruct (front_offset s) as [|o]; [done|]. rewrite (Hn eq_refl), drop_0.
      destruct H5 as [?|H5]; [lia|]. destruct (queue (box s)); [simpl in H5; lia|done].
  - destruct (front_offset s) as [|o]; [by left|right]. rewrite (Hn eq_refl), drop_0.
    destruct H5 as [?|H5]; [lia|]. destruct (queue (box s)); [simpl in H5; lia|done].
Qed.
(** Some bytes of the front record reach the connection. *)
Lemma stream_wrote item rest n s :
  stream_ok s → queue (box s) = item :: rest → (0 < n <= length (q_data item) - front_offset s)%nat →
  stream_ok (wrote_front item rest n s).2.
Proof using Type.
  intros [H1 H2 H3 (xs & rs & ys & Hx & Hy & Hsub & Hw) H5] Hq Hn.
  rewrite Hq in *. unfold front_of in *; simpl in *.
  assert (Hcut : take (front_offset s) (q_data item) ++ take n (drop (front_offset s) (q_data item))
                 = take (front_offset s + n) (q_data item)) by (by rewrite take_take_drop).
  unfold wrote_front, now, sys, mbind, M_bind, gets, modify. simpl.
  destruct (clock_ns _) as [t w]. simpl.
  destruct (Nat.eqb_spec (front_offset s + n) (length (q_data item))) as [Hall|Hpart]; simpl.
  - split; simpl; auto. apply Forall2_cons_inv_r in Hy as (y & ys' & Hy & Hys & ->).
    exists (xs ++ [y]), (rs ++ [q_data item]), ys'. split_and!; [|done| |].
    + apply Forall2_app; [done|]. constructor; [done|constructor].
    + by rewrite <- app_assoc.
    + rewrite Hw, <- app_assoc, Hcut, Hall, firstn_all, concat_app. simpl. by rewrite !app_nil_r.
  - split; simpl; auto; rewrite Hq; simpl; [|right; unfold front_of; simpl; lia].
    exists xs, rs, ys. split_and!; auto. by rewrite Hw, <- app_assoc, Hcut.
Qed.

(** The front record is dropped before any of it was written. *)
Lemma stream_pop x rest s :
  stream_ok s → queue (box s) = x :: rest → front_offset s = 0%nat →
  stream_ok (with_out (pop_queued x rest (box s)) 0 s).
Proof using Type.
  intros [H1 H2 H3 (xs & rs & ys & Hx & Hy & Hsub & Hw) H5] Hq H0. split; simpl; auto.
  rewrite Hq in *. apply Forall2_cons_inv_r in Hy as (y & ys' & _ & Hys & ->).
  exists xs, rs, ys'. split_and!; auto.
  - etrans; [|exact Hsub]. apply sublist_app; [done|]. by constructor.
  - by rewrite Hw, H0.
Qed.

Lemma stream_loop n : 576 <= mtu cfg → keeps stream_ok (tunnel_loop cfg tx_key n).
Proof using KL.
  intros Hm. apply inv_loop; [exact stream_same| | |exact stream_wrote|exact stream_pop|done].
  - intros flags p _. apply stream_send.
  - intros p s Hs Hp Hl. apply stream_send; [done..|]. by destruct Hs; split.
Qed.

(** *** What is encoded was read *)

(** The packets handed to [encode_record] are those that [read_packet] returned. *)
Definition all_read (s : Tunnel) : Prop := packets (history s) = from_tun s.

Lemma all_read_same s s' : same_sent s s' → all_read s → all_read s'.
Proof using Type. intros (_ & Hh & Hf & _). unfold all_read. by rewrite Hh, Hf. Qed.

(** A record is noted before it is encoded, and nothing after that changes what
    was read and what was noted. *)
Lemma send_noted flags p b f s :
  let s' := (send_record cfg tx_key flags p b f s).2 in
  history s' = history s ++ [mkDelivery flags (sequence s) p] ∧ from_tun s' = from_tun s.
Proof using Type.
  unfold send_record, make_record, now, sys, pure_call, mbind, M_bind, gets, modify. simpl.
  destruct (encode_record _ _ _ _); simpl; [|done]. by destruct (clock_ns _).
Qed.

Lemma all_read_loop n : 576 <= mtu cfg → keeps all_read (tunnel_loop cfg tx_key n).
Proof using KL.
  intros Hm. apply inv_loop; [exact all_read_same| | | | |done].
  - intros flags p Hf _ _ s Hs. unfold all_read, enqueue_control in *.
    destruct (send_noted flags p false id s) as [-> ->]. rewrite packets_app, <- Hs.
    unfold packets at 2. rewrite filter_cons. cbn [d_flags]. rewrite decide_False by done. apply app_nil_r.
  - intros p s Hs _ _. unfold all_read in *. set (s1 := count _ _).
    destruct (send_noted 0 p true (bump payload_tx (zlen p)) s1) as [-> ->]. rewrite packets_app.
    change (packets (history s) ++ [p] = from_tun s ++ [p]). by rewrite Hs.
  - intros item rest k s Hs _ _. unfold wrote_front, now, sys, mbind, M_bind, gets, modify. simpl.
    destruct (clock_ns _) as [t w]. by destruct (_ =? _)%nat.
  - by intros x rest s Hs _ _.
Qed.

(** *** What reaches the TUN device *)

(** The members that receiving changes. *)
Definition input (s : Tunnel) : Decoder * list bytes * list bytes := (dec s, to_tun s, received s).
Definition input_is (i : Decoder * list bytes * list bytes) (s : Tunnel) : Prop := input s = i.

Section Input.
Context (i : Decoder * list bytes * list bytes).

Lemma input_modify f : (∀ s, input (f s) = input s) → keeps (input_is i) (modify f).
Proof using Type. intros H. apply keeps_modify. unfold input_is. intros s. by rewrite H. Qed.

Lemma input_sys {A} (f : lworld → A * lworld) : keeps (input_is i) (sys f).
Proof using Type. intros s. unfold sys. by destruct (f _). Qed.

Lemma input_pure {A} (r : res A) : keeps (input_is i) (pure_call r).
Proof using Type. destruct r; [apply keeps_ret|apply keeps_throw]. Qed.

#[local] Hint Resolve input_sys input_pure : pt.
#[local] Hint Extern 1 (keeps (input_is _) (modify _)) => apply input_modify; done : pt.
#[local] Hint Extern 1 (keeps (input_is _) now) => apply input_sys : pt.

Lemma input_send flags p b f : keeps (input_is i) (send_record cfg tx_key flags p b f).
Proof using Type. unfold send_record, make_record. keep. Qed.

Lemma input_control flags p : keeps (input_is i) (enqueue_control cfg tx_key flags p).
Proof using Type. apply input_send. Qed.

#[local] Hint Resolve input_send input_control : pt.

Lemma input_flush fuel n m : keeps (input_is i) (flush_tls cfg fuel n m).
Proof using KL.
  apply keeps_flush; [apply @input_sys|]. intros item rest k s Hs _ _.
  apply (keeps_at (input_is i)); [|done]. unfold wrote_front. keep.
Qed.

Lemma input_delayed q t : keeps (input_is i) (drop_delayed cfg q t).
Proof using Type. induction q; simpl; keep. Qed.

Lemma input_read_tun fuel n : keeps (input_is i) (read_tun cfg tx_key fuel n).
Proof using Type.
  revert n. induction fuel as [|fuel IH]; intros n; simpl; [auto with pt|].
  apply keeps_if; [|auto with pt]. apply keeps_bind; [auto with pt|intros r]. destruct r; keep.
Qed.

Lemma input_timers t : keeps (input_is i) (timers_and_flush cfg tx_key t).
Proof using KL. pose proof input_flush. unfold timers_and_flush, mono_us. keep. Qed.

(** A delivery that is not a packet. *)
Lemma input_record flags p : flags ≠ 0 → keeps (input_is i) (on_record cfg tx_key flags p).
Proof using Type.
  intros Hf. unfold on_record, mono_us. rewrite (proj2 (Z.eqb_neq _ _) Hf). keep.
Qed.
End Input.

Definition fresh (rx_key : bytes) : Decoder := new_decoder rx_key (max_record_buffer_bytes cfg).
Abbreviation decode d chunks ds := (feed_all v3_step collect limit_exceeded d chunks ds).

(** What one read returns fits the buffer it was given. *)
Definition chunks_ok (l : list bytes) : Prop := Forall (λ c, zlen c <= kReadBuffer) l.

(** The loop still runs: the decoder is the one a plain run on the received bytes
    gives, and its packets are at the TUN device. *)
Definition decoded (rx_key : bytes) (s : Tunnel) : Prop :=
  ∃ ds, decode (fresh rx_key) (received s) [] = Some (dec s, ds, Accepted) ∧ to_tun s = packets ds
        ∧ chunks_ok (received s).

(** The loop has ended: some of the packets are. *)
Definition decoded_end (rx_key : bytes) (s : Tunnel) : Prop :=
  ∃ d ds r, decode (fresh rx_key) (received s) [] = Some (d, ds, r) ∧ to_tun s `prefix_of` packets ds
            ∧ chunks_ok (received s).

Section Decoded.
Context (rx_key : bytes).
Abbreviation going := (upholds (decoded rx_key) (decoded_end rx_key)).

Lemma decoded_ends s : decoded rx_key s → decoded_end rx_key s.
Proof using Type. intros (ds & H & Ht & Hc). exists (dec s), ds, Accepted. by rewrite Ht. Qed.

Lemma going_steady {A} (m : M Tunnel A) : (∀ i, keeps (input_is i) m) → going m.
Proof using Type.
  intros Hm s (ds & Hd & Ht & Hc). pose proof (Hm (input s) s eq_refl) as Hi. unfold input_is, input in Hi.
  destruct (m s) as [[a|e] s']; simpl in *; injection Hi as Hi1 Hi2 Hi3.
  - exists ds. by rewrite Hi1, Hi2, Hi3.
  - apply decoded_ends. exists ds. by rewrite Hi1, Hi2, Hi3.
Qed.

Lemma injected_input d ts rcv p s :
  input_is (d, ts, rcv) s → input_is (d, ts ++ [p], rcv) (on_record cfg tx_key 0 p s).2.
Proof using Type.
  intros Hs. unfold on_record. simpl.
  match goal with |- input_is ?j ((modify ?f ≫= ?g) ?s).2 => apply (keeps_at (input_is j) (g tt) (f s)) end.
  - pose proof @input_sys. pose proof @input_modify.
    apply keeps_bind; [auto|intros n]. apply keeps_if; auto.
  - unfold input_is, input in *. simpl. by injection Hs as -> -> ->.
Qed.

(** The callback, run against the plain list of deliveries. *)
Lemma record_mirror d rcv f n p ds s :
  input_is (d, packets ds, rcv) s →
  input_is (d, packets (ds ++ [mkDelivery f n p]), rcv) (callback (on_record cfg tx_key) f n p s).1.
Proof using Type.
  intros Hs. assert (Hcb : (callback (on_record cfg tx_key) f n p s).1 = (on_record cfg tx_key f p s).2).
  { unfold callback. by destruct (on_record _ _ _ _ _) as [[]]. }
  rewrite Hcb, packets_app. unfold packets at 2. rewrite filter_cons. simpl.
  destruct (decide (f = 0)) as [->|Hf]; [by apply injected_input|].
  rewrite app_nil_r. by apply input_record.
Qed.

(** [feed], from a state where only the chunk is new. *)
Lemma going_feed b s rcv :
  (∃ ds, decode (fresh rx_key) rcv [] = Some (dec s, ds, Accepted) ∧ to_tun s = packets ds) →
  received s = rcv ++ [b] → chunks_ok (rcv ++ [b]) →
  ends (λ _, decoded rx_key) (decoded_end rx_key) (feed_decoder cfg tx_key b s).
Proof using Type.
  intros (ds & Hd & Ht) Hr Hc.
  assert (Happ : decode (fresh rx_key) (rcv ++ [b]) [] = feed_with v3_step collect limit_exceeded (dec s) b ds).
  { rewrite feed_all_app, Hd. simpl. by destruct (feed_with _ _ _ _ _ _) as [[[? ?] []]|]. }
  assert (Hin : input_is (dec s, packets ds, rcv ++ [b]) s) by (unfold input_is, input; by rewrite Ht, Hr).
  unfold feed_decoder, feed_v3. unfold mbind at 1, M_bind at 1, gets. cbn [id].
  unfold feed_with in Happ |- *. destruct (_ <? _).
  { exists (dec s), ds, (Rejected limit_exceeded). split_and!; [|by rewrite <- Ht|by rewrite <- Hr in Hc].
    rewrite <- Happ, <- Hr. done. }
  destruct (feed_loop v3_step (callback _) _ _ _) as [[[d' s'] r]|] eqn:Hl.
  - apply (loop_mirror v3_step (callback (on_record cfg tx_key))
             (λ ds s0, input_is (dec s, packets ds, rcv ++ [b]) s0)) with (ds := ds) in Hl; [|..|done|simpl; lia].
    + destruct Hl as (dc & xs & rc & Hl & Hend). rewrite <- Happ in Hl.
      destruct r as [|e|e]; [destruct Hend as (-> & -> & Hi)|destruct Hend as (ys & Hp%packets_prefix & Hi)..];
        unfold input_is, input in Hi; injection Hi as Hi1 Hi2 Hi3.
      * exists xs. simpl. by rewrite Hi3, Hi2.
      * exists dc, xs, rc. simpl. by rewrite Hi3, Hi2.
      * exists dc, xs, rc. simpl. by rewrite Hi3, Hi2.
    + intros. by apply record_mirror.
  - destruct (loop_terminates v3_step (callback (on_record cfg tx_key))
                (S (length (buffer_ (with_buffer (buffer_ (dec s) ++ b) (dec s)))))
                (with_buffer (buffer_ (dec s) ++ b) (dec s)) s ltac:(lia)). congruence.
Qed.

Lemma going_receive b : zlen b <= kReadBuffer → going (receive cfg tx_key b).
Proof using Type.
  intros Hb s (ds & Hd & Ht & Hc). unfold receive, now, sys.
  unfold mbind, M_bind, modify. destruct (clock_ns _) as [t w].
  apply (going_feed b _ (received s)); [by exists ds|done|].
  apply Forall_app. split; [done|by apply Forall_singleton].
Qed.

Lemma going_call {A B} (f : lworld → A * lworld) (g : A → M Tunnel B) :
  (∀ w a w', f w = (a, w') → going (g a)) → going (sys f ≫= g).
Proof using Type.
  intros Hg s Hs. unfold mbind, M_bind, sys. destruct (f _) as [a w] eqn:Hf. by eapply Hg.
Qed.

Lemma going_read_tls fuel : going (read_tls cfg tx_key fuel).
Proof using KL.
  pose proof decoded_ends. pose proof @input_sys as Hsys.
  induction fuel as [|fuel IH]; simpl; [apply upholds_ret|].
  apply going_call. intros w r w' Hr.
  destruct r as [[|z l]| | |]; try (by apply upholds_ret || by apply upholds_throw);
    [|apply tls_read_fits in Hr as [_ Hr]; apply upholds_bind; [by apply going_receive|auto]|];
    (apply upholds_bind; [apply going_steady; auto|intros e; by apply upholds_throw]).
Qed.

Lemma going_turn : going (tunnel_turn cfg tx_key).
Proof using KL.
  pose proof decoded_ends as Hend. pose proof @input_sys as Hsys.
  assert (Hg : ∀ A (f : Tunnel → A), going (gets f)) by (intros; apply upholds_gets).
  assert (Hc : ∀ b e, going (check b e)) by (intros; by apply upholds_check).
  assert (Hf : ∀ f, (∀ s, input (f s) = input s) → going (modify f)).
  { intros f Hf. apply going_steady. intros i. by apply input_modify. }
  assert (Hs : ∀ A (f : lworld → A * lworld), going (sys f)) by (intros; apply going_steady; auto).
  unfold tunnel_turn, now.
  assert (Hturns : ∀ (b : bool) (m : M Tunnel unit), going m → going (if b then m else mret tt)).
  { intros b m Hm. apply upholds_if; [done|apply upholds_ret]. }
  do 4 (apply upholds_bind; [by auto|intros ?]).
  apply upholds_bind; [apply going_steady; intros; apply input_delayed|intros _].
  do 3 (apply upholds_bind; [by auto|intros ?]).
  match goal with |- upholds _ _ (match ?x with _ => _ end) => destruct x as [| |sock tun] end;
    [by apply upholds_throw|apply upholds_ret|].
  apply upholds_bind.
  { apply Hturns, upholds_bind; [auto|intros s]. apply going_steady. intros. apply input_read_tun. }
  intros _. apply upholds_bind; [destruct (r_in sock); [apply upholds_ret|auto]|intros pending].
  apply upholds_bind.
  { apply Hturns, upholds_bind; [auto|intros s]. apply going_read_tls. }
  intros _. apply upholds_bind; [auto|intros t].
  apply upholds_bind; [apply going_steady; intros; apply input_timers|intros _].
  apply upholds_bind; [apply Hf; intros s; by destruct (_ <=? _)|intros _].
  do 2 (apply upholds_bind; [auto|intros ?]). auto.
Qed.

Lemma going_loop n : going (tunnel_loop cfg tx_key n).
Proof using KL.
  pose proof decoded_ends. pose proof @input_sys.
  induction n as [|n IH]; simpl; [apply upholds_ret|].
  apply upholds_bind; [apply going_steady; auto|intros stop]. apply upholds_if; [apply upholds_ret|].
  apply upholds_bind; [apply going_turn|auto].
Qed.
End Decoded.

(** *** The limits of the queue *)

Definition box_ok (s : Tunnel) : Prop := outbox_ok cfg (box s).

Section Box.
Hypothesis valid : limits_valid cfg.

Lemma box_same s s' : same_sent s s' → box_ok s → box_ok s'.
Proof using Type. intros (_ & _ & _ & _ & _ & Hq & Hb) [? ? ?]. split; by rewrite ?Hq, ?Hb. Qed.

Lemma box_send flags p b f : keeps box_ok (send_record cfg tx_key flags p b f).
Proof using valid.
  assert (Hs : ∀ A (g : lworld → A * lworld), keeps box_ok (sys g)).
  { intros A g s. unfold sys. by destruct (g _). }
  assert (Hr : ∀ A (r : res A), keeps box_ok (pure_call r)).
  { intros A r. destruct r; [apply keeps_ret|apply keeps_throw]. }
  unfold send_record, make_record, now. keep; apply keeps_modify; intros s Ho;
    [exact Ho|by apply on_counters_ok|by apply enqueue_spec].
Qed.

Lemma box_wrote item rest k s :
  box_ok s → queue (box s) = item :: rest → box_ok (wrote_front item rest k s).2.
Proof using valid.
  intros Hs Hq. unfold wrote_front, now, sys, mbind, M_bind, gets, modify, box_ok. simpl.
  destruct (clock_ns _) as [t w]. simpl.
  destruct (_ =? _)%nat; simpl; repeat apply on_counters_ok; [|done].
  apply (pop_ok cfg valid item rest (on_counters (bump wire_tx (Z.of_nat k)) (box s))); [by apply on_counters_ok|done].
Qed.

Lemma box_loop n : 576 <= mtu cfg → keeps box_ok (tunnel_loop cfg tx_key n).
Proof using valid KL.
  intros Hm. apply inv_loop; [exact box_same|intros flags p _ _ _; apply box_send|intros p s Hs _ _; apply box_send; by destruct Hs|intros; by apply box_wrote| |done].
  intros. by apply pop_ok.
Qed.
End Box.

(** *** From end to end *)

(** The records the connection has taken, the one in progress included, are an
    encoding of a part of what was handed to the encoder. *)
Lemma stream_whole s :
  stream_ok s →
  ∃ xs rs tail, Forall2 (encodes3 tx_key) xs rs ∧ xs `sublist_of` history s ∧ concat rs = wire s ++ tail.
Proof using Type.
  intros [_ _ _ (xs & rs & ys & Hx & Hy & Hsub & Hw) _]. unfold front_of in *.
  destruct (queue (box s)) as [|item rest]; simpl in *.
  - exists xs, rs, []. split_and!; [done| |by rewrite Hw, take_nil, !app_nil_r].
    etrans; [|exact Hsub]. by apply sublist_inserts_r.
  - apply Forall2_cons_inv_r in Hy as (y & ys' & Hy & _ & ->).
    exists (xs ++ [y]), (rs ++ [q_data item]), (drop (front_offset s) (q_data item)). split_and!.
    + apply Forall2_app; [done|]. constructor; [done|constructor].
    + etrans; [|exact Hsub]. apply sublist_app; [done|]. constructor. apply sublist_nil_l.
    + rewrite Hw, concat_app, <- app_assoc, take_drop. simpl. by rewrite app_nil_r.
Qed.

Lemma enter_stream rx_key st ev w : stream_ok (enter cfg rx_key st ev w).
Proof using Type.
  unfold enter. repeat destruct (clock_ns _). split; simpl; auto; [done|].
  exists [], [], []. split_and!; auto using Forall2_nil_2.
Qed.

Lemma enter_decoded rx_key st ev w : decoded rx_key (enter cfg rx_key st ev w).
Proof using Type.
  unfold enter. repeat destruct (clock_ns _). exists []. split_and!; [done|done|by constructor].
Qed.

Lemma enter_box rx_key st ev w : limits_valid cfg → box_ok (enter cfg rx_key st ev w).
Proof using Type. unfold enter. repeat destruct (clock_ns _). intros [? ?]. split; simpl; unfold zlen; simpl; lia. Qed.
End TlsProps.

(** *** The log of the world

    The members of the model only say what the device and the connection saw. *)

Section Logged.
Context {C : Crypto} {K : LoopOs} {DL : DeviceLog K} {Pt : Patience K} (cfg : Config) (tx_key : bytes) (l0 : Logs).

Definition noted (s : Tunnel) : Logs := mkLogs (from_tun s) (to_tun s) (concat (received s)) (wire s).
(** All but [l] is noted. *)
Definition ahead (l : Logs) (s : Tunnel) : Prop := logs (outside s) = log_app (log_app l0 (noted s)) l.
Definition logged (s : Tunnel) : Prop := logs (outside s) = log_app l0 (noted s).

Lemma ahead_logged s : ahead log_nil s ↔ logged s.
Proof using Type. unfold ahead. by rewrite log_app_nil. Qed.

Lemma ahead_sys {A} l (f : lworld → A * lworld) : (∀ w, logs (f w).2 = logs w) → keeps (ahead l) (sys f).
Proof using Type. intros H s Hs. unfold sys, ahead in *. specialize (H (outside s)). destruct (f _) as [a w]. cbn [snd] in H. cbn [snd outside with_world].
  rewrite H. exact Hs.
Qed.

Lemma ahead_modify l f : (∀ s, noted (f s) = noted s ∧ outside (f s) = outside s) → keeps (ahead l) (modify f).
Proof using Type. intros H. apply keeps_modify. intros s Hs. unfold ahead in *. by destruct (H s) as [-> ->]. Qed.

Lemma logged_sys {A} (f : lworld → A * lworld) : (∀ w, logs (f w).2 = logs w) → keeps logged (sys f).
Proof using Type. intros H s Hs. by apply ahead_logged, ahead_sys, ahead_logged. Qed.
Lemma logged_modify f : (∀ s, noted (f s) = noted s ∧ outside (f s) = outside s) → keeps logged (modify f).
Proof using Type. intros H s Hs. by apply ahead_logged, ahead_modify, ahead_logged. Qed.
Lemma logged_pure {A} (r : res A) : keeps logged (pure_call r).
Proof using Type. destruct r; [apply keeps_ret|apply keeps_throw]. Qed.

Lemma logged_now : keeps logged now.
Proof using Type. apply logged_sys, log_clock. Qed.
Lemma logged_stop : keeps logged (sys stop_flag).
Proof using Type. apply logged_sys, log_stop. Qed.
Lemma logged_disconnect : keeps logged (sys take_disconnect).
Proof using Type. apply logged_sys, log_disconnect. Qed.
Lemma logged_poll e t : keeps logged (sys (poll_both e t)).
Proof using Type. apply logged_sys, log_poll. Qed.
Lemma logged_pending : keeps logged (sys tls_pending).
Proof using Type. apply logged_sys, log_pending. Qed.
Lemma logged_error : keeps logged (sys ssl_error).
Proof using Type. apply logged_sys, log_error. Qed.

#[local] Hint Resolve @logged_pure logged_now logged_stop logged_disconnect logged_poll logged_pending logged_error : pt.
#[local] Hint Extern 1 (keeps logged (modify _)) => apply logged_modify; done : pt.

Lemma logged_send flags p b f : keeps logged (send_record cfg tx_key flags p b f).
Proof using Type. unfold send_record, make_record. keep. Qed.
Lemma logged_control flags p : keeps logged (enqueue_control cfg tx_key flags p).
Proof using Type. apply logged_send. Qed.
#[local] Hint Resolve logged_send logged_control : pt.

(** A call that the log shows, and the note of it. *)
Lemma ahead_noted l s s' :
  ahead l s → outside s' = outside s → noted s' = log_app (noted s) l → logged s'.
Proof using Type. unfold ahead, logged. intros H -> ->. by rewrite H, log_app_assoc. Qed.

Lemma logged_call {A} (f : lworld → A * lworld) (g : A → Logs) s a w :
  logs (f (outside s)).2 = log_app (logs (outside s)) (g (f (outside s)).1) →
  f (outside s) = (a, w) → logged s → ahead (g a) (with_world w s).
Proof using Type. unfold ahead, logged. intros H Hf Hs. rewrite Hf in H. cbn in *. by rewrite H, Hs. Qed.

Lemma logged_record flags p : keeps logged (on_record cfg tx_key flags p).
Proof using Type.
  unfold on_record, mono_us. destruct (flags =? 0); [|keep].
  intros s Hs. unfold mbind at 1, M_bind at 1, modify at 1. cbn [fst snd].
  set (s1 := note_injected p s).
  match goal with |- logged ((sys ?f ≫= ?k) s1).2 => assert (Hk : ∀ n, keeps logged (k n)) by (intros n; keep) end.
  unfold mbind, M_bind, sys. pose proof (log_write p (outside s1)) as Hl.
  destruct (write_packet p (outside s1)) as [n w]. apply Hk. unfold logged in *. cbn in *. rewrite Hl, Hs, log_app_assoc.
  unfold log_app. cbn. by rewrite !app_nil_r.
Qed.

Lemma logged_feed b : keeps logged (feed_decoder cfg tx_key b).
Proof using Type.
  unfold feed_decoder. apply keeps_read. intros s Hs.
  destruct (feed_v3 _ _ _ _) as [[[d' s'] r]|] eqn:Hf; [|done].
  assert (Hs' : logged (with_decoder d' s')).
  { change (logged s'). eapply (feed_keeps logged), Hf; [intros; apply logged_record|done]. }
  destruct r; apply (keeps_set logged); auto; keep.
Qed.

(** What was read is fed. *)
Lemma logged_receive b s : ahead (given_log (TlsDone b)) s → logged (receive cfg tx_key b s).2.
Proof using Type.
  intros Hs. unfold receive, now, sys, mbind, M_bind, modify.
  pose proof (log_clock (outside s)) as Hl. destruct (clock_ns _) as [t w]. cbn in Hl.
  apply logged_feed. unfold ahead, logged in *. cbn. rewrite Hl, Hs, log_app_assoc.
  f_equal. unfold noted, log_app. cbn. rewrite concat_app. cbn. by rewrite !app_nil_r.
Qed.

Lemma logged_read_tls fuel : keeps logged (read_tls cfg tx_key fuel).
Proof using Type.
  induction fuel as [|fuel IH]; [apply keeps_ret|]. cbn [read_tls]. intros s Hs.
  unfold mbind at 1, M_bind at 1, sys at 1. destruct (tls_read _ _) as [r w] eqn:Hr.
  pose proof (logged_call (tls_read kReadBuffer) given_log s r w (log_tls_read _ _) Hr Hs) as H.
  destruct r as [[|z b]| | |];
    try (apply ahead_logged in H; apply (keeps_at logged); [keep|exact H]).
  apply logged_receive in H. unfold mbind, M_bind. destruct (receive _ _ _ _) as [[[]|e] s']; [by apply IH|done].
Qed.

Lemma logged_read_tun fuel n : keeps logged (read_tun cfg tx_key fuel n).
Proof using Type.
  revert n. induction fuel as [|fuel IH]; intros n; [apply keeps_ret|]. cbn [read_tun]. apply keeps_if; [|apply keeps_ret].
  intros s Hs. unfold mbind at 1, M_bind at 1, sys at 1. destruct (read_packet _ _) as [r w] eqn:Hr.
  pose proof (logged_call (read_packet (mtu cfg + 256)) packet_log s r w (log_packet _ _) Hr Hs) as H.
  unfold mbind at 1, M_bind at 1, modify at 1. set (s1 := note_read r _).
  assert (H1 : logged s1).
  { apply (ahead_noted _ _ _ H); [done|]. subst s1. unfold noted, log_app. cbn. destruct r; cbn; by rewrite !app_nil_r. }
  destruct r; apply (keeps_at logged); try exact H1; keep.
Qed.

(** What the connection took of the front record. *)
Lemma logged_wrote item rest n s :
  ahead (taken_log (drop (front_offset s) (q_data item)) (TlsDone n)) s → logged (wrote_front item rest n s).2.
Proof using Type.
  intros Hs. unfold wrote_front. unfold mbind at 1, M_bind at 1, gets. cbn [id].
  unfold mbind at 1, M_bind at 1, modify at 1. set (s1 := note_sent _ s).
  assert (H1 : logged s1).
  { apply (ahead_noted _ _ _ Hs); [done|]. subst s1. unfold noted, log_app. cbn. by rewrite !app_nil_r. }
  apply (keeps_at logged); [keep|exact H1].
Qed.

Lemma logged_flush fuel n m : keeps logged (flush_tls cfg fuel n m).
Proof using Type.
  revert n m. induction fuel as [|fuel IH]; intros n m; [apply keeps_ret|]. cbn [flush_tls]. apply keeps_read. intros s Hs.
  cbn [id]. destruct (queue (box s)) as [|item rest]; [done|]. destruct (_ || _); [done|].
  unfold mbind at 1, M_bind at 1, sys at 1. destruct (tls_write _ _) as [r w] eqn:Hr.
  pose proof (logged_call (tls_write (drop (front_offset s) (q_data item))) (taken_log (drop (front_offset s) (q_data item)))
    s r w (log_tls_write _ _) Hr Hs) as H.
  destruct r as [[|k]| | |];
    try (apply ahead_logged in H; apply (keeps_at logged); [keep|exact H]).
  apply (logged_wrote item rest (S k) (with_world w s)) in H. unfold mbind, M_bind.
  destruct (wrote_front _ _ _ _) as [[[]|e] s']; [by apply IH|done].
Qed.

Lemma logged_delayed q t : keeps logged (drop_delayed cfg q t).
Proof using Type. induction q; simpl; keep. Qed.
Lemma logged_timers t : keeps logged (timers_and_flush cfg tx_key t).
Proof using Type. pose proof logged_flush. unfold timers_and_flush, mono_us. keep. Qed.

Lemma logged_turn : keeps logged (tunnel_turn cfg tx_key).
Proof using Type.
  pose proof logged_delayed. pose proof logged_timers. pose proof logged_read_tls. pose proof logged_read_tun.
  unfold tunnel_turn. keep. match goal with |- keeps _ (match ?x with _ => _ end) => destruct x end; keep.
  apply logged_modify. intros s. by destruct (_ <=? _).
Qed.

Lemma logged_loop n : keeps logged (tunnel_loop cfg tx_key n).
Proof using Type. pose proof logged_turn. induction n; simpl; keep. Qed.
End Logged.

Lemma enter_logged {C : Crypto} {K : LoopOs} {DL : DeviceLog K} cfg rx_key st ev w : logged (logs w) (enter cfg rx_key st ev w).
Proof.
  unfold enter. destruct (clock_ns w) as [t1 w1] eqn:E1, (clock_ns w1) as [t2 w2] eqn:E2, (clock_ns w2) as [t3 w3] eqn:E3, (clock_ns w3) as [t4 w4] eqn:E4.
  pose proof (log_clock w) as H1. pose proof (log_clock w1) as H2. pose proof (log_clock w2) as H3. pose proof (log_clock w3) as H4.
  rewrite E1 in H1. rewrite E2 in H2. rewrite E3 in H3. rewrite E4 in H4. unfold logged. cbn in *. rewrite H4, H3, H2, H1.
  by rewrite <- (log_app_nil (logs w)) at 1.
Qed.

Section Theorems.
Context {C : Crypto} {K : LoopOs} {KL : LoopLaws K} {Pt : Patience K}.

Lemma encodes3_small cfg key xs rs h :
  Forall2 (encodes3 key) xs rs → xs `sublist_of` h →
  Forall (λ x, zlen (d_payload x) <= mtu cfg + 256) h → Forall (λ r, zlen r <= mtu cfg + 288) rs.
Proof using Type.
  intros Hx Hsub Hsmall. eapply Forall_sublist in Hsmall; [|exact Hsub]. clear Hsub.
  induction Hx as [|x r xs rs [_ He] Hx IH]; [constructor|].
  apply Forall_cons in Hsmall as [Hs Hsmall]. apply encode_record_inv in He as (_ & Hl & _).
  constructor; [lia|auto].
Qed.

(** In terms of the members that are not in the code. *)
Lemma tunnel_delivers cfg1 cfg2 key key' rx st1 st2 ev1 ev2 w1 w2 n1 n2 :
  let a := (tunnel_loop cfg1 key n1 (enter cfg1 rx st1 ev1 w1)).2 in
  let b := (tunnel_loop cfg2 key' n2 (enter cfg2 key st2 ev2 w2)).2 in
  576 <= mtu cfg1 → mtu cfg1 + 288 + kReadBuffer <= max_record_buffer_bytes cfg2 →
  zlen (history a) < 2 ^ 64 - 1 → concat (received b) `prefix_of` wire a →
  packets (history a) = from_tun a ∧ to_tun b `sublist_of` from_tun a.
Proof using KL.
  intros a b Hmtu Hbuf Hlen [k Hk].
  assert (Hread : packets (history a) = from_tun a)
    by (apply (all_read_loop cfg1 key n1 Hmtu); unfold enter; by repeat destruct (clock_ns _)).
  split; [done|]. rewrite <- Hread.
  assert (Ha : stream_ok cfg1 key a) by (apply stream_loop; [done|apply enter_stream]).
  assert (Hb : decoded_end cfg2 key b).
  { pose proof (going_loop cfg2 key' key n2 _ (enter_decoded cfg2 key st2 ev2 w2)) as H.
    subst b. destruct (tunnel_loop cfg2 key' n2 _) as [[]]; [by apply decoded_ends|done]. }
  pose proof (stream_whole _ _ _ Ha) as (xs & rs & tail & Hx & Hsub & Hcat).
  destruct Ha as [_ Hnum Hsmall _ _]. destruct Hb as (d & ds & r & Hd & Hto & Hchunks).
  rewrite Hk, <- app_assoc in Hcat.
  pose proof (encodes3_small cfg1 key xs rs (history a) Hx Hsub Hsmall) as Hr.
  destruct (ptt3_stream_delivered key (max_record_buffer_bytes cfg2) (mtu cfg1 + 288)
              (received b ++ map (λ z, [z]) (k ++ tail)) xs rs) as (d' & Hall & _); auto.
  - by rewrite concat_app, singletons, Hcat.
  - eapply sorted_sublist; [by apply sublist_map|]. by apply numbered_sorted.
  - eapply Forall_sublist; [exact Hsub|]. apply Forall_forall. intros x. by apply numbered_seq.
  - apply Forall_app. split; [eapply Forall_impl; [exact Hchunks|]; simpl; lia|].
    apply Forall_map, Forall_true. intros z. unfold zlen, kReadBuffer in *. simpl. lia.
  - unfold kReadBuffer in *. lia.
  - rewrite feed_all_app in Hall. unfold fresh in Hd. rewrite Hd in Hall.
    assert (Hxs : ds `prefix_of` xs).
    { destruct r; [by apply (feed_all_extends v3_step) in Hall|by injection Hall as _ -> _..]. }
    etrans; [apply prefix_sublist; etrans; [exact Hto|by apply packets_prefix]|].
    unfold packets. apply sublist_map, filter_sublists, Hsub.
Qed.

(** C2: the TLS tunnel from end to end. [la] and [lb] are what the TUN devices and
    the connections of the two loops have seen since the loops began. Whatever the
    devices, the networks and the clocks do, and however the connection cuts the
    stream: when the bytes that one loop has read from its connection are the
    beginning of those the other's connection has taken, the packets written to its
    TUN device are a subsequence of those read from the other's: in order,
    unaltered, none twice. The sender encodes every packet it reads, as it is and in
    this order, and no other. The sender's MTU is at least 576, the receiver's
    [max_record_buffer_bytes] has room for a record of that MTU and one read of the
    connection, and fewer than 2^64 - 1 records were made. *)
Theorem tls_tunnel_end_to_end {DL : DeviceLog K} cfg1 cfg2 key key' rx st1 st2 ev1 ev2 w1 w2 n1 n2 :
  let a := (tunnel_loop cfg1 key n1 (enter cfg1 rx st1 ev1 w1)).2 in
  let b := (tunnel_loop cfg2 key' n2 (enter cfg2 key st2 ev2 w2)).2 in
  let la := log_since (logs w1) (logs (outside a)) in
  let lb := log_since (logs w2) (logs (outside b)) in
  576 <= mtu cfg1 → mtu cfg1 + 288 + kReadBuffer <= max_record_buffer_bytes cfg2 →
  zlen (history a) < 2 ^ 64 - 1 → tls_given lb `prefix_of` tls_taken la →
  packets (history a) = tun_given la ∧ tun_taken lb `sublist_of` tun_given la.
Proof using KL.
  intros a b la lb Hmtu Hbuf Hlen Hwire.
  assert (Ha : la = noted a).
  { pose proof (logged_loop cfg1 key (logs w1) n1 _ (enter_logged cfg1 rx st1 ev1 w1)) as H.
    unfold la. unfold logged in H. fold a in H. by rewrite H, log_since_app. }
  assert (Hb : lb = noted b).
  { pose proof (logged_loop cfg2 key' (logs w2) n2 _ (enter_logged cfg2 key st2 ev2 w2)) as H.
    unfold lb. unfold logged in H. fold b in H. by rewrite H, log_since_app. }
  rewrite Ha, Hb in *. by apply (tunnel_delivers cfg1 cfg2 key key' rx st1 st2 ev1 ev2 w1 w2 n1 n2).
Qed.

(** The queue of the TLS tunnel stays within [queue_packets] and
    [queue_bytes] of a configuration that passed the validation, and its byte
    count is exact, for any run from the start of the loop, also one that ends by
    an exception. *)
Theorem tls_queue_within_limits cfg key rx st ev w n :
  sizes_typed cfg → validate_config cfg = Ok tt →
  let o := box (tunnel_loop cfg key n (enter cfg rx st ev w)).2 in
  zlen (queue o) <= queue_packets cfg ∧ total (queue o) <= queue_bytes cfg
  ∧ queued_bytes o = total (queue o).
Proof using KL.
  intros T B%validated_bounds; [|done]. destruct B.
  assert (V : limits_valid cfg) by (split; lia).
  destruct (box_loop cfg key V n ltac:(lia) _ (enter_box cfg rx st ev w V)). done.
Qed.

(** *** The inner loops end *)

Section Finish.
Context (cfg : Config) (key : bytes).

(** What the reading loops call in between does not prolong them. *)
Definition calm (p : nat) (s : Tunnel) : Prop := (patience (outside s) <= p)%nat.

Lemma calm_now p : keeps (calm p) now.
Proof using Type.
  intros s Hs. unfold now, sys, calm in *. pose proof (patience_clock (outside s)).
  destruct (clock_ns _). simpl in *. lia.
Qed.

Lemma calm_modify p f : (∀ s, outside (f s) = outside s) → keeps (calm p) (modify f).
Proof using Type. intros H. apply keeps_modify. unfold calm. intros s. by rewrite H. Qed.

#[local] Hint Resolve calm_now : pt.
#[local] Hint Extern 1 (keeps (calm _) (modify _)) => apply calm_modify; done : pt.

Lemma calm_send p flags b q f : keeps (calm p) (send_record cfg key flags b q f).
Proof using Type.
  assert (Hr : ∀ A (r : res A), keeps (calm p) (pure_call r)).
  { intros A r. destruct r; [apply keeps_ret|apply keeps_throw]. }
  unfold send_record, make_record. keep.
Qed.

Lemma calm_record p flags b : keeps (calm p) (on_record cfg key flags b).
Proof using Type.
  pose proof (calm_send p). assert (Hw : keeps (calm p) (sys (write_packet b))).
  { intros s Hs. unfold sys, calm in *. pose proof (patience_write b (outside s)).
    destruct (write_packet _ _). simpl in *. lia. }
  unfold on_record, mono_us, enqueue_control. keep.
Qed.

Lemma calm_receive p b : keeps (calm p) (receive cfg key b).
Proof using Type.
  unfold receive, feed_decoder. do 4 (apply keeps_bind; [auto with pt|intros ?]). apply keeps_read. intros s Hs.
  destruct (feed_v3 _ _ _ _) as [[[d' s'] r]|] eqn:Hf; [|done].
  assert (Hs' : calm p (with_decoder d' s')).
  { change (calm p s'). eapply (feed_keeps (calm p)), Hf; [intros; apply calm_record|done]. }
  destruct r; apply (keeps_set (calm p)); auto; keep.
Qed.

Lemma sys_inv {A} (f : lworld → A * lworld) s a s' :
  sys f s = (Ok a, s') → ∃ w, f (outside s) = (a, w) ∧ s' = with_world w s.
Proof using Type. unfold sys. destruct (f _) as [a' w]. intros [= -> <-]. eauto. Qed.

Lemma read_tls_finishes n m s :
  (patience (outside s) < n)%nat → (n <= m)%nat → read_tls cfg key m s = read_tls cfg key n s.
Proof using Type.
  revert m s. induction n as [|n IH]; intros m s Hp Hm; [lia|]. destruct m as [|m]; [lia|].
  cbn [read_tls]. apply bind_same. intros r s1 (w & Hr & ->)%sys_inv.
  pose proof (patience_read kReadBuffer (outside s)) as [_ Hlt]. rewrite Hr in Hlt. simpl in Hlt.
  destruct r as [[|z l]| | |]; try done. specialize (Hlt _ eq_refl).
  apply bind_same. intros [] s' Hs'.
  pose proof (calm_receive (patience w) (z :: l) (with_world w s) (le_n _)) as Hc.
  rewrite Hs' in Hc. unfold calm in Hc. simpl in Hc. apply IH; lia.
Qed.

Lemma read_tun_finishes n m reads s :
  (Z.to_nat (Z.max 1 (batch_packets cfg) - reads) + patience (outside s) < n)%nat → (n <= m)%nat →
  read_tun cfg key m reads s = read_tun cfg key n reads s.
Proof using Type.
  revert m reads s. induction n as [|n IH]; intros m reads s Hp Hm; [lia|]. destruct m as [|m]; [lia|].
  cbn [read_tun]. destruct (Z.ltb_spec reads (Z.max 1 (batch_packets cfg))); [|done].
  apply bind_same. intros r s1 (w & Hr & ->)%sys_inv.
  pose proof (patience_packet (mtu cfg + 256) (outside s)) as [Hle Hlt]. rewrite Hr in Hle, Hlt. simpl in Hle, Hlt.
  apply bind_same. intros [] s1 [= <-].
  destruct r as [b| | | |]; try done.
  - apply bind_same. intros [] s2 [= <-]. apply bind_same. intros [] s' Hs'.
    match type of Hs' with _ ?s2 = _ =>
      pose proof (calm_send (patience w) 0 b true (bump payload_tx (zlen b)) s2 (le_n _)) as Hc end.
    rewrite Hs' in Hc. unfold calm in Hc. simpl in Hc. apply IH; lia.
  - specialize (Hlt eq_refl). apply bind_same. intros stop s1 (w' & Hs & ->)%sys_inv.
    pose proof (patience_stop w) as Hw. simpl in Hs. rewrite Hs in Hw. destruct stop; [done|].
    apply IH; [|lia]. simpl in *. lia.
Qed.

Definition unsent (s : Tunnel) : nat := (Z.to_nat (total (queue (box s))) - front_offset s)%nat.

Lemma wrote_unsent item rest k s s' u :
  queue (box s) = item :: rest → (0 < k <= length (q_data item) - front_offset s)%nat →
  wrote_front item rest k s = (Ok u, s') → (unsent s' < unsent s)%nat.
Proof using Type.
  intros Hq Hk. unfold wrote_front, now, sys, mbind, M_bind, gets, modify. simpl.
  destruct (clock_ns _) as [t w]. simpl.
  destruct (Nat.eqb_spec (front_offset s + k) (length (q_data item))) as [Hall|Hpart];
    intros [= _ <-]; unfold unsent; simpl; rewrite Hq; simpl;
    pose proof (total_nonneg rest); unfold q_size, zlen; lia.
Qed.

Lemma flush_finishes n m a b s :
  (unsent s < n)%nat → (n <= m)%nat → flush_tls cfg m a b s = flush_tls cfg n a b s.
Proof using KL.
  revert m a b s. induction n as [|n IH]; intros m a b s Hp Hm; [lia|]. destruct m as [|m]; [lia|].
  cbn [flush_tls]. apply bind_same. intros s0 s1 [= <- <-]. cbn [id].
  destruct (queue (box s)) as [|item rest] eqn:Hq; [done|]. destruct (_ || _); [done|].
  apply bind_same. intros r s1 (w & Hw & ->)%sys_inv.
  destruct r as [[|k]| | |]; try done. apply tls_write_fits in Hw. rewrite length_drop in Hw.
  apply bind_same. intros u s' Hf.
  apply wrote_unsent in Hf; [|done|simpl; lia]. apply IH; [|lia].
  change (unsent (with_world w s)) with (unsent s) in Hf. lia.
Qed.
End Finish.

(** The inner loops of the TLS tunnel end: the reading loops after as many
    turns as the world answers with data or interruptions, the writing loop
    after one turn per unsent byte. With more turns each gives the same result,
    so the numbers of turns the model uses cut nothing off. *)
Theorem tls_inner_loops_finish cfg key s :
  (∀ m, (S (patience (outside s)) <= m)%nat →
     read_tls cfg key m s = read_tls cfg key (S (patience (outside s))) s)
  ∧ (∀ m, let n := (S (Z.to_nat (Z.max 1 (batch_packets cfg))) + patience (outside s))%nat in
       (n <= m)%nat → read_tun cfg key m 0 s = read_tun cfg key n 0 s)
  ∧ (∀ m, let n := S (Z.to_nat (total (queue (box s)))) in
       (n <= m)%nat → flush_tls cfg m 0 0 s = flush_tls cfg n 0 0 s).
Proof using KL.
  split_and!; intros m.
  - intros Hm. by apply read_tls_finishes; [lia|].
  - intros n Hm. by apply read_tun_finishes; [lia|].
  - intros n Hm. apply flush_finishes; [unfold unsent; lia|done].
Qed.
End Theorems.

(** *** Two ends in a concrete world *)
Module TlsDemo.
Import Toy World.

Definition cfg : Config := ConfigDemo.client_config.
Definition key : bytes := repeat 7 32.
Definition key' : bytes := repeat 9 32.
Definition wa : lworld := mkWorld [packet 30 69; packet 100 96; packet 25 70] [] 0 2.
Definition a : Tunnel := (tunnel_loop cfg key 9 (enter cfg key' new_stats [] wa)).2.
(** The other end has received all but the last bytes, in two pieces. *)
Definition cut : nat := 70.
Definition kept : nat := length (wire a) - 10 - cut.
Definition wb : lworld := mkWorld [packet 20 1] [take cut (wire a); take kept (drop cut (wire a))] 0 0.
Definition b : Tunnel := (tunnel_loop cfg key' 3 (enter cfg key new_stats [] wb)).2.

(** The same two loops on worlds that keep a log. *)
Definition start_a : lworld (LoopOs := logging loop_os) := (log_nil, wa).
Definition start_b : lworld (LoopOs := logging loop_os) := (log_nil, wb).
Definition logged_a : Tunnel (K := logging loop_os) :=
  (tunnel_loop (K := logging loop_os) cfg key 9 (enter (K := logging loop_os) cfg key' new_stats [] start_a)).2.
Definition logged_b : Tunnel (K := logging loop_os) :=
  (tunnel_loop (K := logging loop_os) cfg key' 3 (enter (K := logging loop_os) cfg key new_stats [] start_b)).2.

Example first_packets_arrive : to_tun b = [packet 30 69; packet 100 96].
Proof. by vm_compute. Qed.

Lemma cfg_typed : sizes_typed cfg.
Proof. split; vm_compute; intuition discriminate. Qed.
End TlsDemo.
Import Toy World.

Lemma tls_tunnel_end_to_end_witness :
  let la := log_since (logs TlsDemo.start_a) (logs (outside TlsDemo.logged_a)) in
  let lb := log_since (logs TlsDemo.start_b) (logs (outside TlsDemo.logged_b)) in
  (tun_given la = [packet 30 69; packet 100 96; packet 25 70] ∧ tun_taken lb = [packet 30 69; packet 100 96])
  ∧ packets (history TlsDemo.logged_a) = tun_given la ∧ tun_taken lb `sublist_of` tun_given la.
Proof.
  split; [split; by vm_compute|]. unfold TlsDemo.logged_a, TlsDemo.logged_b.
  apply (tls_tunnel_end_to_end (K := logging loop_os) TlsDemo.cfg TlsDemo.cfg TlsDemo.key TlsDemo.key' TlsDemo.key'
           new_stats new_stats [] [] TlsDemo.start_a TlsDemo.start_b 9 3).
  - by vm_compute.
  - by vm_compute.
  - by vm_compute.
  - exists (drop (TlsDemo.cut + TlsDemo.kept) (wire TlsDemo.a)). by vm_compute.
Defined.

Lemma tls_queue_within_limits_witness :
  let o := box TlsDemo.a in
  zlen (queue o) <= queue_packets TlsDemo.cfg ∧ total (queue o) <= queue_bytes TlsDemo.cfg
  ∧ queued_bytes o = total (queue o).
Proof.
  unfold TlsDemo.a. apply (tls_queue_within_limits TlsDemo.cfg TlsDemo.key TlsDemo.key' new_stats [] TlsDemo.wa 9).
  - exact TlsDemo.cfg_typed.
  - by vm_compute.
Defined.

Lemma tls_inner_loops_finish_witness :
  read_tls TlsDemo.cfg TlsDemo.key 7 TlsDemo.a = read_tls TlsDemo.cfg TlsDemo.key 1 TlsDemo.a.
Proof.
  assert (Hp : patience (outside TlsDemo.a) = 0%nat) by by vm_compute.
  destruct (tls_inner_loops_finish TlsDemo.cfg TlsDemo.key TlsDemo.a) as (H & _ & _). rewrite Hp in H.
  apply H. lia.
Defined.
