(* ===== verification/Budget.v ===== *)
(** * Padding budgets (cdn/include/pacetun/traffic.hpp)

    [PaddingBudget] and [ShapeBudget] keep their tokens in [double]s. The model
    computes with the IEEE-754 binary64 numbers of the Standard Library
    ([SpecFloat]), rounding to nearest even as the code does. *)

From S2P Require Import Prelude.
From Stdlib Require Import SpecFloat.

(** ** Doubles *)

Definition double : Type := spec_float.
Definition prec : Z := 53.
Definition emax : Z := 1024.

(** The conversion of an integer, rounded. *)
Definition to_double (z : Z) : double := binary_normalize prec emax z 0 false.
Definition d_add : double → double → double := SFadd prec emax.
Definition d_sub : double → double → double := SFsub prec emax.
Definition d_mul : double → double → double := SFmul prec emax.
Definition d_div : double → double → double := SFdiv prec emax.
(** [std::min(a, b)] is [b < a ? b : a], [std::max(a, b)] is [a < b ? b : a]. *)
Definition d_min (a b : double) : double := if SFltb b a then b else a.
Definition d_max (a b : double) : double := if SFltb a b then b else a.

(** [static_cast<int>]: truncation towards zero. *)
Definition to_int (d : double) : Z :=
  match d with
  | S754_finite s m e =>
      let v := if e <? 0 then Zpos m / 2 ^ (- e) else Zpos m * 2 ^ e in if s then - v else v
  | _ => 0
  end.

(** ** PaddingBudget *)

(** [PaddingBudget] src/cdn/include/pacetun/traffic.hpp:32-35 *)
Record PaddingBudget := mkPadding { data_ : double; control_ : double; pad_last_ : Z; pct_ : Z }.

(** [PaddingBudget::PaddingBudget] src/cdn/include/pacetun/traffic.hpp:35-35 *)
Definition new_padding (percent now : Z) : PaddingBudget :=
  mkPadding (S754_zero false) (to_double 128) now percent.
(** [PaddingBudget::data_allowance] src/cdn/include/pacetun/traffic.hpp:36-36 *)
Definition data_allowance (n maximum : Z) (b : PaddingBudget) : Z * PaddingBudget :=
  let data := d_min (to_double 4096) (d_add (data_ b) (d_div (to_double (u64 (n * u64 (pct_ b)))) (to_double 100))) in
  (Z.min (maximum + 3) (to_int data), mkPadding data (control_ b) (pad_last_ b) (pct_ b)).
(** [PaddingBudget::spend_data] src/cdn/include/pacetun/traffic.hpp:37-37 *)
Definition spend_data (extra : Z) (b : PaddingBudget) : PaddingBudget :=
  mkPadding (d_max (S754_zero false) (d_sub (data_ b) (to_double extra))) (control_ b) (pad_last_ b) (pct_ b).
(** [PaddingBudget::control_allowance] src/cdn/include/pacetun/traffic.hpp:38-38 *)
Definition control_allowance (maximum now : Z) (b : PaddingBudget) : Z * PaddingBudget :=
  let control :=
    if pad_last_ b <=? now then
      d_min (to_double 128)
        (d_add (control_ b) (d_div (d_mul (to_double (now - pad_last_ b)) (to_double 64)) (to_double 1000000)))
    else control_ b in
  (Z.min (maximum + 3) (to_int control), mkPadding (data_ b) control now (pct_ b)).
(** [PaddingBudget::spend_control] src/cdn/include/pacetun/traffic.hpp:39-39 *)
Definition spend_control (extra : Z) (b : PaddingBudget) : PaddingBudget :=
  mkPadding (data_ b) (d_max (S754_zero false) (d_sub (control_ b) (to_double extra))) (pad_last_ b) (pct_ b).

(** ** ShapeBudget *)

(** [ShapeBudget] src/cdn/include/pacetun/traffic.hpp:43-46 *)
Record ShapeBudget := mkShape { tokens_ : double; shape_last_ : Z; rate_ : Z; burst_ : Z; enabled_ : bool }.

(** [ShapeBudget::ShapeBudget] src/cdn/include/pacetun/traffic.hpp:46-46 *)
Definition new_shape (enabled : bool) (rate burst now : Z) : ShapeBudget :=
  mkShape (to_double burst) now rate burst enabled.
(** [ShapeBudget::allowance] src/cdn/include/pacetun/traffic.hpp:47-51 *)
Definition shape_allowance (requested now : Z) (b : ShapeBudget) : Z * ShapeBudget :=
  if negb (enabled_ b) then (requested, b)
  else
    let tokens :=
      if shape_last_ b <? now then
        d_min (to_double (burst_ b))
          (d_add (tokens_ b)
             (d_div (d_mul (to_double (now - shape_last_ b)) (to_double (rate_ b))) (to_double 1000000)))
      else tokens_ b in
    (Z.min requested (to_int tokens), mkShape tokens now (rate_ b) (burst_ b) (enabled_ b)).
(** [ShapeBudget::spend] src/cdn/include/pacetun/traffic.hpp:52-52 *)
Definition spend_shape (n : Z) (b : ShapeBudget) : ShapeBudget :=
  if enabled_ b then
    mkShape (d_max (S754_zero false) (d_sub (tokens_ b) (to_double n))) (shape_last_ b) (rate_ b) (burst_ b) (enabled_ b)
  else b.

(** ** Signs

    Sums, products and quotients of numbers that are not negative are not
    negative; this is all the rest needs of rounding. *)
Definition nonneg (d : double) : bool :=
  match d with S754_finite true _ _ | S754_infinity true => false | _ => true end.

Lemma round_aux_nonneg m e l : nonneg (binary_round_aux prec emax false m e l) = true.
Proof.
  unfold binary_round_aux. destruct (shr_fexp _ _ _ _ _) as [mrs e1].
  destruct (shr_fexp _ _ _ _ _) as [mrs' e2]. destruct (shr_m mrs'); [done| |done]. by destruct (_ <=? _).
Qed.

Lemma normalize_nonneg m e : 0 <= m → nonneg (binary_normalize prec emax m e false) = true.
Proof.
  intros Hm. destruct m as [|m|m]; [done| |lia]. unfold binary_normalize, binary_round.
  destruct (shl_align _ _ _). apply round_aux_nonneg.
Qed.

Lemma to_double_nonneg z : 0 <= z → nonneg (to_double z) = true.
Proof. apply normalize_nonneg. Qed.

Lemma add_nonneg x y : nonneg x = true → nonneg y = true → nonneg (d_add x y) = true.
Proof.
  destruct x as [[]|[]| |[] m1 e1], y as [[]|[]| |[] m2 e2]; intros Hx Hy; try done.
  unfold d_add, SFadd. apply normalize_nonneg. simpl. lia.
Qed.

Lemma mul_nonneg x y : nonneg x = true → nonneg y = true → nonneg (d_mul x y) = true.
Proof.
  destruct x as [[]|[]| |[] m1 e1], y as [[]|[]| |[] m2 e2]; intros Hx Hy; try done.
  unfold d_mul, SFmul. apply round_aux_nonneg.
Qed.

(** A divisor: finite and greater than 0. *)
Definition positive (d : double) : bool := match d with S754_finite false _ _ => true | _ => false end.

Lemma div_nonneg x y : nonneg x = true → positive y = true → nonneg (d_div x y) = true.
Proof.
  destruct x as [[]|[]| |[] m1 e1], y as [[]|[]| |[] m2 e2]; intros Hx Hy; try done.
  unfold d_div, SFdiv. destruct (SFdiv_core_binary _ _ _ _ _ _) as [[mz ez] lz]. apply round_aux_nonneg.
Qed.

Lemma min_nonneg x y : nonneg x = true → nonneg y = true → nonneg (d_min x y) = true.
Proof. unfold d_min. by destruct (SFltb y x). Qed.

(** Whatever is subtracted, the maximum with 0.0 is not negative. *)
Lemma max_zero_nonneg x : nonneg (d_max (S754_zero false) x) = true.
Proof.
  unfold d_max, SFltb. destruct x as [[]|[]| |[] m e]; done.
Qed.

Lemma to_int_nonneg d : nonneg d = true → 0 <= to_int d.
Proof.
  destruct d as [[]|[]| |[] m e]; simpl; try done. intros _. destruct (Z.ltb_spec e 0).
  - apply Z.div_pos; [lia|]. apply Z.pow_pos_nonneg; lia.
  - apply Z.mul_nonneg_nonneg; [lia|]. apply Z.pow_nonneg. lia.
Qed.

#[export] Hint Resolve to_double_nonneg add_nonneg mul_nonneg div_nonneg min_nonneg max_zero_nonneg to_int_nonneg : pt.

(** ** The budgets in use *)

Inductive PaddingOp :=
| DataAllowance (n maximum : Z)
| SpendData (extra : Z)
| ControlAllowance (maximum now : Z)
| SpendControl (extra : Z).

Definition padding_step (b : PaddingBudget) (op : PaddingOp) : PaddingBudget :=
  match op with
  | DataAllowance n m => (data_allowance n m b).2
  | SpendData e => spend_data e b
  | ControlAllowance m t => (control_allowance m t b).2
  | SpendControl e => spend_control e b
  end.

Definition padding_ok (b : PaddingBudget) : Prop := nonneg (data_ b) = true ∧ nonneg (control_ b) = true.
Definition shape_ok (b : ShapeBudget) : Prop := 0 <= burst_ b ∧ 0 <= rate_ b ∧ nonneg (tokens_ b) = true.

Lemma padding_new p t : padding_ok (new_padding p t).
Proof. done. Qed.

Lemma padding_step_ok b op : padding_ok b → padding_ok (padding_step b op).
Proof.
  intros [Hd Hc]. destruct op; split; simpl; auto with pt.
  - apply min_nonneg; [done|]. apply add_nonneg; [done|]. apply div_nonneg; [|done].
    apply to_double_nonneg. apply Z.mod_pos_bound. lia.
  - destruct (Z.leb_spec (pad_last_ b) now); [|done]. apply min_nonneg; [done|]. apply add_nonneg; [done|].
    apply div_nonneg; [|done]. apply mul_nonneg; [|done]. apply to_double_nonneg. lia.
Qed.

Lemma padding_run_ok p t ops : padding_ok (fold_left padding_step ops (new_padding p t)).
Proof.
  assert (H : ∀ b, padding_ok b → padding_ok (fold_left padding_step ops b)).
  { induction ops as [|op ops IH]; intros b Hb; simpl; [done|]. by apply IH, padding_step_ok. }
  apply H, padding_new.
Qed.

Lemma data_allowance_range n m b :
  padding_ok b → 0 <= m → 0 <= (data_allowance n m b).1 <= m + 3.
Proof.
  intros Hb Hm. pose proof (padding_step_ok b (DataAllowance n m) Hb) as [Hd _]. simpl in *.
  pose proof (to_int_nonneg _ Hd). lia.
Qed.

Lemma control_allowance_range m t b :
  padding_ok b → 0 <= m → 0 <= (control_allowance m t b).1 <= m + 3.
Proof.
  intros Hb Hm. pose proof (padding_step_ok b (ControlAllowance m t) Hb) as [_ Hc]. simpl in *.
  pose proof (to_int_nonneg _ Hc). lia.
Qed.

Lemma shape_new e rate burst t : 0 <= rate → 0 <= burst → shape_ok (new_shape e rate burst t).
Proof. intros. split_and!; simpl; auto with pt. Qed.

Lemma shape_allowance_ok requested t b :
  shape_ok b → shape_ok (shape_allowance requested t b).2
  ∧ (0 <= requested → 0 <= (shape_allowance requested t b).1 <= requested).
Proof.
  intros (Hb & Hr & Ht). unfold shape_allowance. destruct (enabled_ b); cbn [negb fst snd]; [|by repeat split; auto; lia].
  assert (Hn : nonneg (if shape_last_ b <? t then
      d_min (to_double (burst_ b))
        (d_add (tokens_ b) (d_div (d_mul (to_double (t - shape_last_ b)) (to_double (rate_ b))) (to_double 1000000)))
      else tokens_ b) = true).
  { destruct (Z.ltb_spec (shape_last_ b) t); [|done].
    apply min_nonneg; [auto with pt|]. apply add_nonneg; [done|]. apply div_nonneg; [|done].
    apply mul_nonneg; apply to_double_nonneg; lia. }
  match type of Hn with nonneg ?d = true => set (tok := d) in * end.
  split; [done|]. intros H. pose proof (to_int_nonneg _ Hn). lia.
Qed.

Lemma spend_shape_ok n b : shape_ok b → shape_ok (spend_shape n b).
Proof. intros (Hb & Hr & Ht). unfold spend_shape. destruct (enabled_ b); split_and!; simpl; auto with pt. Qed.
