(* ===== verification/Carrier.v ===== *)
(** * The carrier interface (cdn/include/pacetun/carrier.hpp, cdn/src/carrier.cpp)

    [carrier_tunnel_loop] sends and receives messages through the abstract class
    [Carrier]; here it is a type class, and [WebSocketCarrier] its instance over
    a [WsSession]. [name] and [native_fd] are left out. *)

From S2P Require Import Prelude Crypto WsFrame Transport WebSocket.

(** [CarrierCounters] src/cdn/include/pacetun/carrier.hpp:11-19 *)
Record CarrierCounters := mkCounters {
  k_rx_frames : Z; k_rx_ping_frames : Z; k_rx_pong_frames : Z;
  k_tx_messages : Z; k_tx_payload_bytes : Z; k_tx_ping_frames : Z; k_tx_pong_frames : Z }.

(** [Carrier] src/cdn/include/pacetun/carrier.hpp:21-37 *)
Class Carrier := {
  carrier : Type;
  carrier_send : bytes → M carrier unit;
  carrier_read : Z → M carrier (list bytes);
  carrier_flush : nat → M carrier nat;
  carrier_tx_pending : carrier → bool;
  carrier_tx_poll_events : carrier → option PollEvent;
  carrier_rx_poll_events : carrier → PollEvent;
  carrier_tx_pending_bytes : carrier → Z;
  carrier_tx_stalled : Z → M carrier bool;
  carrier_send_ping : bytes → M carrier unit;
  carrier_take_pongs : M carrier (list bytes);
  carrier_counters : carrier → CarrierCounters;
}.

(** [WebSocketCarrier::counters] src/cdn/src/carrier.cpp:17-21 *)
Definition ws_counters (w : WsSession) : CarrierCounters :=
  let s := stats w in
  mkCounters (rx_frames s) (rx_ping_frames s) (rx_pong_frames s) (tx_binary_frames s)
    (tx_binary_payload_bytes s) (tx_ping_frames s) (tx_pong_frames s).

(** [WebSocketCarrier] src/cdn/src/carrier.cpp:5-21 *)
Definition WebSocketCarrier {C : Crypto} {T : Transport} : Carrier := {|
  carrier := Conn;
  carrier_send p := websocket_send_binary p;
  carrier_read t := websocket_read_messages t;
  carrier_flush n := websocket_flush n;
  carrier_tx_pending c := websocket_tx_pending (ws c);
  carrier_tx_poll_events c := websocket_tx_poll_events (ws c);
  carrier_rx_poll_events c := websocket_rx_poll_events (ws c);
  carrier_tx_pending_bytes c := tx_queued_bytes (txs (ws c));
  carrier_tx_stalled t := websocket_tx_stalled t;
  carrier_send_ping p := websocket_send_ping p;
  carrier_take_pongs := websocket_take_pongs;
  carrier_counters c := ws_counters (ws c);
|}.

(** The calls of a carrier that carry no message. *)
Inductive plain_call {R : Carrier} : ∀ {A}, M carrier A → Prop :=
| call_flush n : plain_call (carrier_flush n)
| call_stalled t : plain_call (carrier_tx_stalled t)
| call_ping p : plain_call (carrier_send_ping p)
| call_pongs : plain_call carrier_take_pongs.
