(* ===== verification/CarrierLoop.v ===== *)
(** * The carrier tunnel loop (cdn/src/runtime.cpp, [carrier_tunnel_loop])

    The loop of a tunnel over one carrier: packets of the TUN device wait in the
    flow queue (when [flow_scheduler] is set) or are encoded at once, encoded
    records wait in the outgoing queue, and a flush gathers them into messages
    for the carrier. Messages of the carrier are decoded; probes, pings,
    keepalives and deadlines follow. [update_tcp_info], [update_socket_family]
    and the lines written to [std::cerr] are left out.

    [trace] is not in the code: the messages given to [carrier.send], everything
    handed to the record encoders, the packets given to the TUN device and the
    arguments of [feed]; no operation reads it. *)

From S2P Require Import Prelude.
From S2P Require Import Text Crypto Keys RecordLoop Record Config Tun LoopOs Outbox.
From S2P Require Import FlowScheduler FlowQueue Traffic Telemetry Budget Transport Carrier.

(** ** State *)

(** The time points of the loop.
    [carrier_tunnel_loop] src/cdn/src/runtime.cpp:525-531 *)
Record Marks := mkMarks {
  at_rx : Z; at_tx : Z; at_probe : Z; at_payload : Z; at_ping : Z; at_tcp : Z; at_start : Z }.

(** Intervals, budgets and the watchdog.
    [carrier_tunnel_loop] src/cdn/src/runtime.cpp:534-541 *)
Record Pacing := mkPacing {
  keepalive_interval : Z; probe_interval : Z; shape_budget : ShapeBudget; shaper : BurstShaper;
  padding : PaddingBudget; watchdog : ReplyWatchdog; rtt_history : RttHistory }.

(** The ping of the carrier.
    [carrier_tunnel_loop] src/cdn/src/runtime.cpp:561-564 *)
Record PingState := mkPing { ping_queued : bool; ping_outstanding : bool; ping_payload : bytes; ping_sent_at : Z }.

Record Trace := mkTrace {
  messages_sent : list bytes; encoded : list Delivery; injected : list bytes; fed : list bytes }.

(** What [tick] may look at and change: the statistics, their round trips, the
    events and the world. *)
Record Ticking {K : LoopOs} := mkTicking {
  tick_stats : Stats; tick_history : RttHistory; tick_events : list bytes; tick_os : lworld }.

Section CarrierLoop.
Context {C : Crypto} {K : LoopOs} {Pt : Patience K} {R : Carrier} (cfg : Config) (tx_key : bytes).
Context (tick : M Ticking unit).

(** [carrier_tunnel_loop] src/cdn/src/runtime.cpp:519-531 *)
Record Link := mkLink {
  link_box : Outbox; pending_packets : FlowQueue; link_seq : Z; link_dec : Decoder;
  marks : Marks; pacing : Pacing; seen : CarrierCounters; ping : PingState;
  link_events : list bytes; link_os : lworld; link_carrier : carrier; link_rng : rng; trace : Trace }.

Definition set_queues (b : Outbox) (p : FlowQueue.FlowQueue) (s : Link) : Link :=
  mkLink b p (link_seq s) (link_dec s) (marks s) (pacing s) (seen s) (ping s) (link_events s) (link_os s)
    (link_carrier s) (link_rng s) (trace s).
Definition set_coder (n : Z) (d : Decoder) (t : Trace) (s : Link) : Link :=
  mkLink (link_box s) (pending_packets s) n d (marks s) (pacing s) (seen s) (ping s) (link_events s)
    (link_os s) (link_carrier s) (link_rng s) t.
Definition set_marks (m : Marks) (s : Link) : Link :=
  mkLink (link_box s) (pending_packets s) (link_seq s) (link_dec s) m (pacing s) (seen s) (ping s)
    (link_events s) (link_os s) (link_carrier s) (link_rng s) (trace s).
Definition set_pacing (p : Pacing) (s : Link) : Link :=
  mkLink (link_box s) (pending_packets s) (link_seq s) (link_dec s) (marks s) p (seen s) (ping s)
    (link_events s) (link_os s) (link_carrier s) (link_rng s) (trace s).
Definition set_ping (k : CarrierCounters) (p : PingState) (s : Link) : Link :=
  mkLink (link_box s) (pending_packets s) (link_seq s) (link_dec s) (marks s) (pacing s) k p
    (link_events s) (link_os s) (link_carrier s) (link_rng s) (trace s).
Definition set_outer (ev : list bytes) (w : lworld) (g : rng) (s : Link) : Link :=
  mkLink (link_box s) (pending_packets s) (link_seq s) (link_dec s) (marks s) (pacing s) (seen s) (ping s)
    ev w (link_carrier s) g (trace s).
Definition set_carrier (c : carrier) (s : Link) : Link :=
  mkLink (link_box s) (pending_packets s) (link_seq s) (link_dec s) (marks s) (pacing s) (seen s) (ping s)
    (link_events s) (link_os s) c (link_rng s) (trace s).

Definition set_box (b : Outbox) (s : Link) : Link := set_queues b (pending_packets s) s.
Definition set_pending (p : FlowQueue.FlowQueue) (s : Link) : Link := set_queues (link_box s) p s.
Definition tally (f : Stats → Stats) (s : Link) : Link := set_box (on_counters f (link_box s)) s.
Definition set_trace (t : Trace) (s : Link) : Link := set_coder (link_seq s) (link_dec s) t s.
Definition log_event (text : bytes) (s : Link) : Link :=
  set_outer (push_event text (link_events s)) (link_os s) (link_rng s) s.

Definition mark_rx (t : Z) (s : Link) : Link :=
  let m := marks s in set_marks (mkMarks t (at_tx m) (at_probe m) (at_payload m) (at_ping m) (at_tcp m) (at_start m)) s.
Definition mark_tx (t : Z) (s : Link) : Link :=
  let m := marks s in set_marks (mkMarks (at_rx m) t (at_probe m) (at_payload m) (at_ping m) (at_tcp m) (at_start m)) s.
Definition mark_probe (t : Z) (s : Link) : Link :=
  let m := marks s in set_marks (mkMarks (at_rx m) (at_tx m) t (at_payload m) (at_ping m) (at_tcp m) (at_start m)) s.
Definition mark_payload (t : Z) (s : Link) : Link :=
  let m := marks s in set_marks (mkMarks (at_rx m) (at_tx m) (at_probe m) t (at_ping m) (at_tcp m) (at_start m)) s.
Definition mark_ping (t : Z) (s : Link) : Link :=
  let m := marks s in set_marks (mkMarks (at_rx m) (at_tx m) (at_probe m) (at_payload m) t (at_tcp m) (at_start m)) s.
Definition mark_tcp (t : Z) (s : Link) : Link :=
  let m := marks s in set_marks (mkMarks (at_rx m) (at_tx m) (at_probe m) (at_payload m) (at_ping m) t (at_start m)) s.

Definition on_pacing (f : Pacing → Pacing) (s : Link) : Link := set_pacing (f (pacing s)) s.
Definition with_keepalive (v : Z) (p : Pacing) : Pacing :=
  mkPacing v (probe_interval p) (shape_budget p) (shaper p) (padding p) (watchdog p) (rtt_history p).
Definition with_probe (v : Z) (p : Pacing) : Pacing :=
  mkPacing (keepalive_interval p) v (shape_budget p) (shaper p) (padding p) (watchdog p) (rtt_history p).
Definition with_budgets (b : ShapeBudget) (x : BurstShaper) (d : PaddingBudget) (p : Pacing) : Pacing :=
  mkPacing (keepalive_interval p) (probe_interval p) b x d (watchdog p) (rtt_history p).
Definition with_replies (w : ReplyWatchdog) (h : RttHistory) (p : Pacing) : Pacing :=
  mkPacing (keepalive_interval p) (probe_interval p) (shape_budget p) (shaper p) (padding p) w h.
Definition with_shape (b : ShapeBudget) (p : Pacing) : Pacing := with_budgets b (shaper p) (padding p) p.
Definition with_shaper (x : BurstShaper) (p : Pacing) : Pacing := with_budgets (shape_budget p) x (padding p) p.
Definition with_padding (d : PaddingBudget) (p : Pacing) : Pacing := with_budgets (shape_budget p) (shaper p) d p.

Abbreviation L := (M Link).

Definition get : L Link := gets id.
Definition ask {A} (f : lworld → A * lworld) : L A := λ s,
  let (a, w) := f (link_os s) in (Ok a, set_outer (link_events s) w (link_rng s) s).
(** A call of the carrier. *)
Definition on_carrier {A} (m : M carrier A) : L A := λ s,
  let (r, c) := m (link_carrier s) in (r, set_carrier c s).
(** An encoder that draws padding. *)
Definition with_rng {A} (f : rng → res (A * rng)) : L A := λ s,
  match f (link_rng s) with
  | Ok (a, g) => (Ok a, set_outer (link_events s) (link_os s) g s)
  | Err e => (Err e, s)
  end.
Definition read_clock : L Z := ask clock_ns.
Definition clock_us : L Z := t ← read_clock ; mret (u64 (micros t)).

Definition no_queued (s : Link) : bool := (length (queue (link_box s)) =? 0)%nat.

(** ** Encoding *)

(** The choice of an encoder, given the allowance.
    [carrier_tunnel_loop] src/cdn/src/runtime.cpp:551-554 *)
Definition encode_with (maximum allowance seq : Z) (payload : bytes) (flags : Z) (g : rng) : res (bytes * rng) :=
  if (0 <? maximum) && (3 <=? allowance) then
    if 0 <? websocket_control_padding_bytes cfg
    then encode_envelope_record_v5 tx_key seq payload flags (allowance - 3) g
    else encode_padded_record_v5 tx_key seq payload (allowance - 3) g
  else r ← encode_record_v5 tx_key seq payload flags ; Ok (r, g).

(** What a record of this kind may be padded with.
    [carrier_tunnel_loop] src/cdn/src/runtime.cpp:546-549 *)
Definition padding_for (control : bool) (size : Z) : L (Z * Z) :=
  maximum ← (if control then mret (websocket_control_padding_bytes cfg)
             else if traffic_shaping cfg then
               t ← clock_us ; s ← get ;
               mret (maximum (websocket_padding_max_bytes cfg) (shaping_startup_ms cfg) t (shaper (pacing s)))
             else mret (websocket_padding_max_bytes cfg)) ;
  allowance ← (if control then
                 t ← clock_us ; s ← get ;
                 let (a, d) := control_allowance maximum t (padding (pacing s)) in
                 modify (on_pacing (with_padding d)) ;; mret a
               else
                 s ← get ;
                 let (a, d) := data_allowance size maximum (padding (pacing s)) in
                 modify (on_pacing (with_padding d)) ;; mret a) ;
  t ← clock_us ;
  s ← get ;
  let (a, b) := shape_allowance allowance t (shape_budget (pacing s)) in
  modify (on_pacing (with_shape b)) ;;
  mret (maximum, a).

(** [sequence++] and what the model notes of it. *)
Definition take_sequence (payload : bytes) (flags : Z) : L Z :=
  s ← get ;
  let t := trace s in
  modify (λ s, set_coder (u64 (link_seq s + 1)) (link_dec s)
    (mkTrace (messages_sent t) (encoded t ++ [mkDelivery flags (link_seq s) payload]) (injected t) (fed t)) s) ;;
  mret (link_seq s).

(** [encode].
    [carrier_tunnel_loop] src/cdn/src/runtime.cpp:543-559 *)
Definition encode (payload : bytes) (flags : Z) : L bytes :=
  let control := negb (flags =? 0) in
  (if control then mret tt
   else t ← clock_us ; modify (λ s, on_pacing (with_shaper (observe_bytes (zlen payload) t (shaper (pacing s)))) s)) ;;
  limits ← padding_for control (zlen payload) ;
  seq ← take_sequence payload flags ;
  record ← with_rng (encode_with limits.1 limits.2 seq payload flags) ;
  let extra := u64 (zlen record - 32 - zlen payload) in
  modify (λ s, on_pacing (with_shape (spend_shape extra (shape_budget (pacing s)))) s) ;;
  (if control then
     modify (λ s, on_pacing (with_padding (spend_control extra (padding (pacing s)))) s) ;;
     modify (tally (bump padding_control_extra_tx extra))
   else
     modify (λ s, on_pacing (with_padding (spend_data extra (padding (pacing s)))) s) ;;
     modify (tally (bump padding_extra_tx extra))) ;;
  mret record.

(** [encode] and [enqueue]: [enqueue_control] for control records, and the same
    lines for packets.
    [carrier_tunnel_loop] src/cdn/src/runtime.cpp:566-569 *)
Definition submit (payload : bytes) (flags : Z) (packet : bool) : L unit :=
  record ← encode payload flags ;
  t ← read_clock ;
  modify (λ s, set_box (enqueue_record (mkQueued record t packet) cfg false (link_box s)) s).

(** ** Flushing *)

(** [sync_carrier_tx] src/cdn/src/runtime.cpp:571-593 *)
Definition sync_carrier_tx : L unit :=
  s ← get ;
  let cur := carrier_counters (link_carrier s) in
  let old := seen s in
  (if k_tx_messages cur =? k_tx_messages old then mret tt
   else
     modify (tally (bump ws_messages_tx (u64 (k_tx_messages cur - k_tx_messages old)))) ;;
     t ← read_clock ; modify (mark_tx t)) ;;
  modify (tally (bump wire_tx (u64 (k_tx_payload_bytes cur - k_tx_payload_bytes old)))) ;;
  (if k_tx_ping_frames cur =? k_tx_ping_frames old then mret tt
   else
     let delta := u64 (k_tx_ping_frames cur - k_tx_ping_frames old) in
     modify (tally (λ st, bump ws_control_tx delta (bump ws_ping_tx delta st))) ;;
     s ← get ;
     if ping_queued (ping s) then
       t ← read_clock ;
       modify (λ s, set_ping (seen s) (mkPing false true (ping_payload (ping s)) t) s)
     else mret tt) ;;
  (let delta := u64 (k_tx_pong_frames cur - k_tx_pong_frames old) in
   modify (tally (λ st, bump ws_control_tx delta (bump ws_pong_tx delta st)))) ;;
  modify (λ s, set_ping cur (ping s) s) ;;
  modify (λ s, tally (put ws_tx_pending_bytes (carrier_tx_pending_bytes (link_carrier s))) s).

(** [256 * 1024] *)
Definition kFlushBudget : nat := Z.to_nat (256 * 1024).

(** [flush_transport] src/cdn/src/runtime.cpp:595-601 *)
Definition flush_transport : L unit :=
  on_carrier (carrier_flush kFlushBudget) ;;
  sync_carrier_tx ;;
  stalled ← on_carrier (carrier_tx_stalled (websocket_io_timeout_sec cfg * 1000)) ;
  check stalled (str "carrier TX no-progress timeout").

(** The records of one message: whole records from the front, as many as the
    batch allows and the limit holds.
    [carrier_tunnel_loop] src/cdn/src/runtime.cpp:609-618 *)
Fixpoint gather (limit count : Z) (message : bytes) (q : list Queued) (o : Outbox) : bytes * Outbox :=
  match q with
  | [] => (message, o)
  | x :: rest =>
      if (count <? Z.max 1 limit) && (u64 (zlen message + q_size x) <=? batch_bytes cfg)
      then gather limit (count + 1) (message ++ q_data x) rest (pop_queued x rest o)
      else (message, o)
  end.

(** [carrier.send(message)] *)
Definition send_message (message : bytes) : L unit :=
  on_carrier (carrier_send message) ;;
  modify (λ s, set_trace (mkTrace (messages_sent (trace s) ++ [message]) (encoded (trace s))
                            (injected (trace s)) (fed (trace s))) s).

(** Whether the shaper lets a queue of payload records go now.
    [carrier_tunnel_loop] src/cdn/src/runtime.cpp:606-607 *)
Definition shaper_allows : L bool :=
  s ← get ;
  if traffic_shaping cfg && forallb is_payload (queue (link_box s)) then
    t ← read_clock ;
    t_us ← clock_us ;
    draw ← ask (uniform 0 (shaping_delay_ms cfg * 1000)) ;
    let age := match queue (link_box s) with [] => 0 | x :: _ => u64 (micros (t - enqueued x)) end in
    let (go, x) := shaper_ready (zlen (queue (link_box s))) age (shaping_delay_ms cfg) t_us draw (shaper (pacing s)) in
    modify (on_pacing (with_shaper x)) ;;
    mret go
  else mret true.

(** [effective_batch_packets] on the queue, which also publishes its result. *)
Definition batch_limit (t : Z) : L Z :=
  s ← get ;
  let n := effective_batch_packets (queue (link_box s)) cfg t in
  modify (tally (put adaptive_batch_packets n)) ;; mret n.

(** [flush_carrier] src/cdn/src/runtime.cpp:603-624 *)
Definition flush_carrier : L unit :=
  flush_transport ;;
  s ← get ;
  if carrier_tx_pending (link_carrier s) || no_queued s then mret tt
  else
    go ← shaper_allows ;
    if negb go then mret tt
    else
      t ← read_clock ;
      limit ← batch_limit t ;
      s ← get ;
      let (message, o) := gather limit 0 [] (queue (link_box s)) (link_box s) in
      modify (set_box o) ;;
      if (length message =? 0)%nat then mret tt
      else
        send_message message ;;
        modify (λ s, tally (λ st, put queue_bytes_now (queued_bytes (link_box s))
                                    (put queue_pkts (zlen (queue (link_box s))) st)) s) ;;
        flush_transport.

(** ** The flow queue *)

(** [for (int i = 0; i < budget && !pending_packets.empty(); ++i)].
    [carrier_tunnel_loop] src/cdn/src/runtime.cpp:630-636 *)
Fixpoint drain_packets (budget : nat) : L unit :=
  match budget with
  | O => mret tt
  | S budget' =>
      s ← get ;
      if queue_empty (pending_packets s) then mret tt
      else if (queue_packets cfg <=? zlen (queue (link_box s)) + packets_ (pending_packets s))
              && (queue_bytes cfg / 2 <=? queued_bytes (link_box s))
      then mret tt
      else
        let (item, p) := pop (pending_packets s) in
        modify (set_pending p) ;;
        if (length (fp_bytes item) =? 0)%nat then mret tt
        else submit (fp_bytes item) 0 true ;; drain_packets budget'
  end.

(** [st.queue_pkts] and [st.queue_bytes] over both queues. *)
Definition publish_both (s : Link) : Link :=
  tally (λ st, put queue_bytes_now (u64 (queued_bytes (link_box s) + FlowQueue.bytes_ (pending_packets s)))
                 (put queue_pkts (u64 (zlen (queue (link_box s)) + packets_ (pending_packets s))) st)) s.

(** [drain_pending] src/cdn/src/runtime.cpp:626-641 *)
Definition drain_pending : L unit :=
  s ← get ;
  if negb (flow_scheduler cfg) || queue_empty (pending_packets s) then mret tt
  else if carrier_tx_pending (link_carrier s) && (u64 (batch_bytes cfg * 2) <? queued_bytes (link_box s)) then mret tt
  else
    drain_packets (Z.to_nat (Z.max 1 (batch_packets cfg))) ;;
    modify publish_both ;;
    modify (tally (λ st, put_max queue_peak_bytes (st queue_bytes_now) (put_max queue_peak_pkts (st queue_pkts) st))).

(** ** Packets of the TUN device *)

(** One burst, at most [fuel] calls of [read_packet].
    [carrier_tunnel_loop] src/cdn/src/runtime.cpp:684-699 *)
Fixpoint read_burst (fuel : nat) (budget i : Z) (burst : list bytes) : L (list bytes) :=
  match fuel with
  | O => mret burst
  | S fuel' =>
      if i <? budget then
        r ← ask (read_packet (mtu cfg + 256)) ;
        match r with
        | TunPacket b =>
            t ← read_clock ;
            modify (mark_payload t) ;;
            modify (tally (λ st, bump payload_tx (zlen b) (bump tun_in_pkts 1 (bump tun_in_bytes (zlen b) st)))) ;;
            read_burst fuel' budget (i + 1) (burst ++ [b])
        | TunInterrupted =>
            stop ← ask stop_flag ; if (stop : bool) then mret burst else read_burst fuel' budget i burst
        | TunAgain => mret burst
        | TunClosed => throw (str "TUN closed")
        | TunBroken _ => throw (str "TUN read failed")
        end
      else mret burst
  end.

(** A packet for the flow queue.
    [carrier_tunnel_loop] src/cdn/src/runtime.cpp:702-708 *)
Definition admit_packet (packet : bytes) : L unit :=
  s ← get ;
  let p := pending_packets s in
  let room := (u64 (zlen (queue (link_box s)) + packets_ p) <? queue_packets cfg)
              && (zlen packet + 64 <=? queue_bytes cfg)
              && (u64 (queued_bytes (link_box s) + FlowQueue.bytes_ p) <=? queue_bytes cfg - zlen packet - 64) in
  if negb room then modify (tally (bump drop_queue 1))
  else
    t ← clock_us ;
    let (ok, p) := push packet t (queue_packets cfg) (queue_bytes cfg) p in
    modify (set_pending p) ;;
    if (ok : bool) then mret tt else modify (tally (bump drop_queue 1)).

Fixpoint each {A} (f : A → L unit) (l : list A) : L unit :=
  match l with [] => mret tt | x :: l' => f x ;; each f l' end.

(** [carrier_tunnel_loop] src/cdn/src/runtime.cpp:683-718 *)
Definition take_packets : L unit :=
  let budget := Z.max 1 (if adaptive_batching cfg then adaptive_batch_max_packets cfg else Z.max 1 (batch_packets cfg)) in
  s ← get ;
  burst ← read_burst (S (Z.to_nat budget) + patience (link_os s)) budget 0 [] ;
  (if flow_scheduler cfg then each admit_packet burst ;; drain_pending
   else each (λ packet, submit packet 0 true) burst) ;;
  flush_carrier.

(** ** Messages of the carrier *)

(** [tun.write_packet(payload)]; what is written is noted.
    [carrier_tunnel_loop] src/cdn/src/runtime.cpp:742-742 *)
Definition inject (payload : bytes) : L Z :=
  modify (λ s, set_trace (mkTrace (messages_sent (trace s)) (encoded (trace s))
                            (injected (trace s) ++ [payload]) (fed (trace s))) s) ;;
  ask (write_packet payload).

(** The callback of [dec.feed]; whether a control record was generated is in
    the answer of [feed_message].
    [carrier_tunnel_loop] src/cdn/src/runtime.cpp:741-746 *)
Definition on_delivery (flags : Z) (payload : bytes) : L unit :=
  if flags =? 0 then
    t ← read_clock ;
    modify (mark_payload t) ;;
    n ← inject payload ;
    if n =? zlen payload then
      modify (tally (λ st, bump payload_rx (zlen payload) (bump tun_out_pkts 1 (bump tun_out_bytes (zlen payload) st))))
    else modify (tally (bump drop_malformed 1))
  else if negb (Z.land flags RECORD_KEEPALIVE =? 0) then
    modify (tally (λ st, bump ws_control_rx 1 (bump keepalive_rx 1 st)))
  else if negb (Z.land flags RECORD_PING =? 0) then
    modify (tally (λ st, bump ws_control_rx 1 (bump ping_rx 1 st))) ;;
    submit payload RECORD_PONG false ;;
    modify (tally (λ st, bump ws_control_tx 1 (bump pong_tx 1 st)))
  else if negb (Z.land flags RECORD_PONG =? 0) then
    modify (tally (λ st, bump ws_control_rx 1 (bump pong_rx 1 st))) ;;
    if zlen payload =? 8 then
      cur ← clock_us ;
      s ← get ;
      let sent := decode_u64 payload in
      let (fresh, w) := reply sent cur (watchdog (pacing s)) in
      if (fresh : bool) then
        t ← read_clock ;
        modify (tally (λ st, bump rtt_sample_seq 1 (put rtt_sample_us cur (put rtt_us (cur - sent) st)))) ;;
        modify (λ s, on_pacing (with_replies w (record (cur - sent) (t - at_payload (marks s) <=? 60 * 10 ^ 9)
                                                  (rtt_history (pacing s)))) s)
      else modify (on_pacing (λ p, with_replies w (rtt_history p) p))
    else mret tt
  else mret tt.

(** What the failure of [feed] is counted as. *)
Definition feed_error (e : bytes) (st : Stats) : Stats :=
  if contains (str "authentication") e then bump auth_fail 1 st else bump drop_malformed 1 st.

(** The call of [feed] on a message and what follows it; a control record was
    generated when [pong_tx] moved.
    [carrier_tunnel_loop] src/cdn/src/runtime.cpp:741-752 *)
Definition feed_message (msg : bytes) : L unit :=
  s ← get ;
  match feed_v5 (callback on_delivery) (link_dec s) msg s with
  | None => mret tt
  | Some (d', s', Accepted) =>
      modify (λ _, set_coder (link_seq s') d' (trace s') s') ;;
      modify (tally (bump sequence_gap (u64 (sequence_gaps_ d' - sequence_gaps_ (link_dec s))))) ;;
      if counters (link_box s') pong_tx =? counters (link_box s) pong_tx then mret tt else flush_carrier
  | Some (d', s', Rejected e) =>
      modify (λ _, set_coder (link_seq s') d' (trace s') s') ;;
      modify (tally (λ st, feed_error e (decoder_counts (link_dec s) d' st))) ;;
      throw e
  | Some (d', s', Raised e) => modify (λ _, set_coder (link_seq s') d' (trace s') s') ;; throw e
  end.

(** [for (auto& msg : messages)].
    [carrier_tunnel_loop] src/cdn/src/runtime.cpp:738-753 *)
Definition handle_message (msg : bytes) : L unit :=
  modify (tally (λ st, bump wire_rx (zlen msg) (bump ws_messages_rx 1 st))) ;;
  modify (λ s, set_trace (mkTrace (messages_sent (trace s)) (encoded (trace s)) (injected (trace s))
                            (fed (trace s) ++ [msg])) s) ;;
  feed_message msg.

(** A pong that answers the outstanding ping.
    [carrier_tunnel_loop] src/cdn/src/runtime.cpp:729-736 *)
Definition handle_pong (pong : bytes) : L unit :=
  s ← get ;
  if ping_outstanding (ping s) && bool_decide (pong = ping_payload (ping s)) then
    cur ← clock_us ;
    let sent := decode_u64 pong in
    (if sent <=? cur then modify (tally (put ws_rtt_us (cur - sent))) else mret tt) ;;
    modify (λ s, set_ping (seen s) (mkPing (ping_queued (ping s)) false (ping_payload (ping s)) (ping_sent_at (ping s))) s)
  else mret tt.

(** [carrier_tunnel_loop] src/cdn/src/runtime.cpp:720-753 *)
Definition receive_messages : L unit :=
  s ← get ;
  let before := carrier_counters (link_carrier s) in
  messages ← on_carrier (carrier_read 0) ;
  s ← get ;
  let after := carrier_counters (link_carrier s) in
  (if k_rx_frames after =? k_rx_frames before then mret tt else t ← read_clock ; modify (mark_rx t)) ;;
  let pings := u64 (k_rx_ping_frames after - k_rx_ping_frames before) in
  let pongs := u64 (k_rx_pong_frames after - k_rx_pong_frames before) in
  modify (tally (λ st, bump ws_control_rx (u64 (pings + pongs)) (bump ws_pong_rx pongs (bump ws_ping_rx pings st)))) ;;
  modify (λ s, set_ping (mkCounters (k_rx_frames after) (k_rx_ping_frames after) (k_rx_pong_frames after)
            (k_tx_messages (seen s)) (k_tx_payload_bytes (seen s)) (k_tx_ping_frames (seen s))
            (k_tx_pong_frames (seen s))) (ping s) s) ;;
  pongs ← on_carrier carrier_take_pongs ;
  each handle_pong pongs ;;
  each handle_message messages.

(** ** Timers *)

(** [traffic_interval_ms] with a draw of [timing_rng]. *)
Definition next_interval (secs : Z) : L Z :=
  let spread := Z.quot (secs * 1000 * timing_jitter_pct cfg) 100 in
  d ← ask (uniform (- spread) spread) ;
  mret (traffic_interval_ms secs (timing_jitter_pct cfg) (λ _, d)).

(** [std::clamp(x, lo, hi)] *)
Definition clamp (x lo hi : Z) : Z := Z.max lo (Z.min x hi).

(** The authenticated probe.
    [carrier_tunnel_loop] src/cdn/src/runtime.cpp:758-763 *)
Definition probe_timer (t : Z) : L unit :=
  s ← get ;
  if negb (pending (watchdog (pacing s))) && (probe_interval (pacing s) <=? millis (t - at_probe (marks s))) then
    token ← clock_us ;
    modify (λ s, on_pacing (with_replies (sent token (watchdog (pacing s))) (rtt_history (pacing s))) s) ;;
    submit (encode_u64 token) RECORD_PING false ;;
    modify (tally (λ st, bump ws_control_tx 1 (bump ping_tx 1 st))) ;;
    modify (mark_probe t) ;;
    s ← get ;
    let secs := if (0 <? idle_probe_sec cfg) && (60 * 10 ^ 9 <? t - at_payload (marks s))
                then Z.max (idle_probe_sec cfg) (rtt_probe_sec cfg) else rtt_probe_sec cfg in
    v ← next_interval (clamp secs 5 20) ;
    modify (on_pacing (with_probe v)) ;;
    flush_carrier
  else mret tt.

(** The ping of the carrier and its deadline.
    [carrier_tunnel_loop] src/cdn/src/runtime.cpp:765-776 *)
Definition ping_timer (t : Z) : L unit :=
  s ← get ;
  (if (0 <? websocket_ping_sec cfg) && negb (ping_queued (ping s)) && negb (ping_outstanding (ping s))
      && (websocket_ping_sec cfg <=? seconds (t - at_ping (marks s))) then
     v ← clock_us ;
     let b := encode_u64 v in
     modify (λ s, set_ping (seen s) (mkPing (ping_queued (ping s)) (ping_outstanding (ping s)) b (ping_sent_at (ping s))) s) ;;
     on_carrier (carrier_send_ping b) ;;
     modify (λ s, set_ping (seen s) (mkPing true (ping_outstanding (ping s)) (ping_payload (ping s)) (ping_sent_at (ping s))) s) ;;
     modify (mark_ping t) ;;
     flush_transport
   else mret tt) ;;
  s ← get ;
  if ping_outstanding (ping s) && (0 <? websocket_pong_timeout_sec cfg)
     && (websocket_pong_timeout_sec cfg <=? seconds (t - ping_sent_at (ping s))) then
    modify (tally (bump ws_missed_pongs 1)) ;;
    modify (log_event (str "carrier_pong_timeout")) ;;
    throw (str "carrier PONG timeout")
  else if ping_outstanding (ping s) && (websocket_pong_timeout_sec cfg =? 0)
          && (websocket_ping_sec cfg <=? seconds (t - ping_sent_at (ping s))) then
    modify (λ s, set_ping (seen s) (mkPing (ping_queued (ping s)) false (ping_payload (ping s)) (ping_sent_at (ping s))) s)
  else mret tt.

(** [carrier_tunnel_loop] src/cdn/src/runtime.cpp:778-779 *)
Definition keepalive_timer (t : Z) : L unit :=
  s ← get ;
  if (0 <? keepalive_sec cfg) && no_queued s && queue_empty (pending_packets s)
     && negb (carrier_tx_pending (link_carrier s))
     && (keepalive_interval (pacing s) <=? millis (t - at_tx (marks s))) then
    submit [] RECORD_KEEPALIVE false ;;
    v ← next_interval (keepalive_sec cfg) ;
    modify (on_pacing (with_keepalive v)) ;;
    modify (tally (λ st, bump ws_control_tx 1 (bump keepalive_tx 1 st))) ;;
    flush_carrier
  else mret tt.

(** The age and idle limits of the session.
    [carrier_tunnel_loop] src/cdn/src/runtime.cpp:782-785 *)
Definition session_limits (t : Z) (bad : bool) : L unit :=
  modify (λ s, if 1 <=? seconds (t - at_tcp (marks s)) then mark_tcp t s else s) ;;
  s ← get ;
  (if (0 <? session_max_age_sec cfg) && (session_max_age_sec cfg <=? seconds (t - at_start (marks s))) then
     modify (tally (bump session_renewals 1)) ;;
     modify (log_event (str "carrier_session_renewal")) ;;
     throw (str "session max age reached")
   else mret tt) ;;
  check (idle_timeout_sec cfg <? seconds (t - at_rx (marks s))) (str "idle timeout") ;;
  check bad (str "carrier closed").

(** ** One turn *)

(** [tick()] *)
Definition run_tick : L unit := λ s,
  let (r, p) := tick (mkTicking _ (counters (link_box s)) (rtt_history (pacing s)) (link_events s) (link_os s)) in
  (r, set_outer (tick_events p) (tick_os p) (link_rng s) (tally (λ _, tick_stats p) s)).

(** The reply deadline and the orders from outside.
    [carrier_tunnel_loop] src/cdn/src/runtime.cpp:644-653 *)
Definition watch_replies : L unit :=
  t ← clock_us ;
  s ← get ;
  let pending_ms := age_us t (watchdog (pacing s)) / 1000 in
  modify (tally (put probe_pending_age_ms pending_ms)) ;;
  modify (tally (put degraded (if u64 (reply_degraded_sec cfg) * 1000 <=? pending_ms then 1 else 0))) ;;
  run_tick ;;
  (if u64 (reply_timeout_sec cfg) * 1000 <=? pending_ms then
     modify (tally (bump reply_timeouts 1)) ;; throw (str "authenticated probe reply timeout")
   else mret tt) ;;
  force ← ask take_disconnect ;
  check force (str "control requested reconnect").

(** Records that waited too long.
    [carrier_tunnel_loop] src/cdn/src/runtime.cpp:657-660 *)
Fixpoint drop_late (q : list Queued) (t : Z) : L unit :=
  match q with
  | [] => mret tt
  | x :: rest =>
      if queue_delay_ms cfg <? millis (t - enqueued x) then
        modify (λ s, set_box (on_counters (bump drop_delay 1) (pop_queued x rest (link_box s))) s) ;;
        modify (log_event (str "queue_delay_drop")) ;;
        drop_late rest t
      else mret tt
  end.

(** [carrier_tunnel_loop] src/cdn/src/runtime.cpp:657-668 *)
Definition drop_old (t : Z) : L unit :=
  s ← get ;
  drop_late (queue (link_box s)) t ;;
  (if flow_scheduler cfg then
     t_us ← clock_us ;
     s ← get ;
     let (n, p) := drop_expired t_us (u64 (queue_delay_ms cfg) * 1000) (pending_packets s) in
     modify (set_pending p) ;;
     if n =? 0 then mret tt
     else modify (tally (bump drop_delay n)) ;; modify (log_event (str "plaintext_flow_queue_delay_drop"))
   else mret tt) ;;
  modify publish_both ;;
  modify (λ s, tally (λ st, put last_rx_age_ms (millis (t - at_rx (marks s)))
    (put queue_oldest_age_us
       (match queue (link_box s) with [] => 0 | x :: _ => micros (t - enqueued x) end) st)) s) ;;
  batch_limit t ;;
  mret tt.

Definition wants (e : PollEvent) (s : Link) : bool :=
  bool_decide (Some e = Some (carrier_rx_poll_events (link_carrier s)))
  || bool_decide (Some e = carrier_tx_poll_events (link_carrier s)).

(** What the loop waits for, and how long.
    [carrier_tunnel_loop] src/cdn/src/runtime.cpp:673-677 *)
Definition wait_for_events : L PollBoth :=
  s ← get ;
  let timeout := if (negb (no_queued s) || negb (queue_empty (pending_packets s)))
                    && negb (carrier_tx_pending (link_carrier s))
                 then (if traffic_shaping cfg then 1 else 0) else websocket_poll_ms cfg in
  ask (poll_both (mkEvents (wants POLLIN s) (wants POLLOUT s)) timeout).

(** The body of [while (!g_stop)].
    [carrier_tunnel_loop] src/cdn/src/runtime.cpp:643-786 *)
Definition carrier_turn : L unit :=
  watch_replies ;;
  started ← read_clock ;
  drop_old started ;;
  flush_transport ;;
  drain_pending ;;
  flush_carrier ;;
  ready ← wait_for_events ;
  match ready with
  | PollInterrupted => mret tt
  | PollBroken => throw (str "poll failed")
  | PollGot sock tun =>
      t ← read_clock ;
      modify (tally (put event_loop_delay_us (micros (t - started)))) ;;
      (if r_in sock || r_out sock then flush_transport else mret tt) ;;
      (if r_in tun then take_packets else mret tt) ;;
      receive_messages ;;
      flush_transport ;;
      t ← read_clock ;
      probe_timer t ;;
      ping_timer t ;;
      keepalive_timer t ;;
      drain_pending ;;
      s ← get ;
      (if no_queued s then mret tt else flush_carrier) ;;
      session_limits t (r_bad sock)
  end.

(** [n] turns, or fewer.
    [carrier_tunnel_loop] src/cdn/src/runtime.cpp:643-786 *)
Fixpoint carrier_loop (n : nat) : L unit :=
  match n with
  | O => mret tt
  | S n' => stop ← ask stop_flag ; if (stop : bool) then mret tt else carrier_turn ;; carrier_loop n'
  end.

(** The state before the first turn: the members, the intervals and the
    statistics that a session resets.
    [carrier_tunnel_loop] src/cdn/src/runtime.cpp:516-564 *)
Definition begin_session : L unit :=
  rx ← read_clock ; tx ← read_clock ; probe ← read_clock ; payload ← read_clock ;
  ping_at ← read_clock ; tcp ← read_clock ; start ← read_clock ;
  modify (set_marks (mkMarks rx tx probe (payload - 61 * 10 ^ 9) ping_at tcp start)) ;;
  keepalive ← next_interval (keepalive_sec cfg) ;
  _ ← next_interval (rtt_probe_sec cfg) ;
  t1 ← clock_us ; t2 ← clock_us ; t3 ← clock_us ;
  modify (tally (λ st, put last_rx_age_ms 0 (put probe_pending_age_ms 0 (put degraded 0
    (put ws_rtt_us (-1) (put rtt_sample_us 0 (put rtt_us (-1) st))))))) ;;
  probe_every ← next_interval (clamp (rtt_probe_sec cfg) 5 20) ;
  modify (set_pacing (mkPacing keepalive probe_every
    (new_shape (traffic_shaping cfg) (shaping_rate_bytes cfg) (shaping_burst_bytes cfg) t1)
    (new_shaper t2) (new_padding (padding_budget_pct cfg) t3) (mkWatchdog 0) reset)) ;;
  s ← get ;
  t ← read_clock ;
  modify (set_ping (carrier_counters (link_carrier s)) (mkPing false false (repeat 0 8) t)).

(** The locals with their initialisers, the clocks aside. *)
Definition new_link (rx_key : bytes) (st : Stats) (ev : list bytes) (w : lworld) (c : carrier) (g : rng) : Link :=
  mkLink (mkOutbox [] 0 st) clear 1 (new_decoder rx_key (max_record_buffer_bytes cfg))
    (mkMarks 0 0 0 0 0 0 0)
    (mkPacing 0 0 (new_shape false 0 0 0) (new_shaper 0) (new_padding 0 0) (mkWatchdog 0) reset)
    (carrier_counters c) (mkPing false false [] 0) ev w c g (mkTrace [] [] [] []).

(** [carrier_tunnel_loop] src/cdn/src/runtime.cpp:513-787 *)
Definition carrier_tunnel_loop (n : nat) : L unit := begin_session ;; carrier_loop n.
End CarrierLoop.
