(* ===== verification/CarrierProps.v ===== *)
(** * Properties of the carrier tunnel loop

    The messages a carrier is given are whole records in the order of their
    numbers, never more than a batch; what the decoder delivers is what reaches
    the TUN device; the queue of records stays within its limits; and over two
    loops packets arrive at the other end in order, unaltered, at most once. *)

From S2P Require Import Prelude.
From S2P Require Import Text Crypto Keys RecordLoop Record Config ConfigBounds Tun LoopOs Outbox.
From S2P Require Import FlowScheduler FlowQueue Traffic Telemetry Budget Transport Carrier CarrierLoop Sequence.

Section CarrierProps.
Context {C : Crypto} {K : LoopOs} {Pt : Patience K} {R : Carrier} (cfg : Config) (tx_key : bytes).
Context (tick : M Ticking unit).

(** ** What the operations leave alone

    [outgoing] is the state of the sending side, [incoming] that of the receiving
    side; most of the loop touches neither. *)

Definition outgoing (s : Link) : Z * list Delivery * list bytes * list Queued * Z :=
  (link_seq s, encoded (trace s), messages_sent (trace s), queue (link_box s), queued_bytes (link_box s)).
Definition incoming (s : Link) : Decoder * list bytes * list bytes :=
  (link_dec s, injected (trace s), fed (trace s)).
Definition same_link (s s' : Link) : Prop := outgoing s' = outgoing s ∧ incoming s' = incoming s.

Ltac walk :=
  repeat first [ progress keep | match goal with |- keeps _ (match ?x with _ => _ end) => destruct x end ].

(** [P] does not depend on the locals that no sender and no receiver reads, and
    survives the calls of the carrier that carry no message. *)
Record steady (P : Link → Prop) : Prop := {
  steady_same s s' : same_link s s' → link_carrier s' = link_carrier s → P s → P s';
  steady_call A (m : M carrier A) : plain_call m → keeps P (on_carrier m);
}.

(** An invariant of the two sides alone survives every call of the carrier. *)
Lemma quiet_carrier (P : Link → Prop) {A} (m : M carrier A) :
  (∀ s s', same_link s s' → P s → P s') → keeps P (on_carrier m).
Proof using Type. intros P_same s. unfold on_carrier. destruct (m _). by apply P_same. Qed.

Lemma same_steady (P : Link → Prop) : (∀ s s', same_link s s' → P s → P s') → steady P.
Proof using Type.
  intros P_same. split; [intros s s' Hs _; by apply P_same|]. intros A m _. by apply quiet_carrier.
Qed.

Section Quiet.
Context (P : Link → Prop) (P_st : steady P).

Lemma quiet_modify f : (∀ s, same_link s (f s) ∧ link_carrier (f s) = link_carrier s) → keeps P (modify f).
Proof using P_st. intros H. apply keeps_modify. intros s. by apply (steady_same P P_st); apply H. Qed.

Lemma quiet_ask {A} (f : lworld → A * lworld) : keeps P (ask f).
Proof using P_st. intros s. unfold ask. destruct (f _). by apply (steady_same P P_st). Qed.

Lemma quiet_plain_call {A} (m : M carrier A) : plain_call m → keeps P (on_carrier m).
Proof using P_st. apply (steady_call P P_st). Qed.

Lemma quiet_rng {A} (f : rng → res (A * rng)) : keeps P (with_rng f).
Proof using P_st. intros s. unfold with_rng. destruct (f _) as [[]|]; [by apply (steady_same P P_st)|done]. Qed.
End Quiet.

#[local] Hint Resolve quiet_ask quiet_plain_call quiet_rng : pt.
#[local] Hint Constructors plain_call : pt.
#[local] Hint Extern 1 (keeps _ get) => apply keeps_gets : pt.
#[local] Hint Extern 1 (keeps _ read_clock) => apply quiet_ask; assumption : pt.
#[local] Hint Extern 2 (keeps _ (modify _)) => apply quiet_modify; [assumption|done] : pt.

Section Steady.
Context (P : Link → Prop) (P_st : steady P).

Lemma steady_us : keeps P clock_us.
Proof using P_st. unfold clock_us. keep. Qed.
#[local] Hint Resolve steady_us : pt.

Lemma steady_interval n : keeps P (next_interval cfg n).
Proof using P_st. unfold next_interval. keep. Qed.

Lemma steady_padding c n : keeps P (padding_for cfg c n).
Proof using P_st. unfold padding_for. walk. Qed.

Lemma steady_sync : keeps P sync_carrier_tx.
Proof using P_st. unfold sync_carrier_tx. walk. Qed.
#[local] Hint Resolve steady_sync : pt.

Lemma steady_transport : keeps P (flush_transport cfg).
Proof using P_st. unfold flush_transport. walk. Qed.

Lemma steady_shaper : keeps P (shaper_allows cfg).
Proof using P_st. unfold shaper_allows. walk. Qed.

Lemma steady_limit t : keeps P (batch_limit cfg t).
Proof using P_st. unfold batch_limit. keep. Qed.

Lemma steady_burst fuel budget i burst : keeps P (read_burst cfg fuel budget i burst).
Proof using P_st.
  revert i burst. induction fuel as [|fuel IH]; intros i burst; cbn [read_burst]; [keep|].
  apply keeps_if; [|keep]. apply keeps_bind; [auto with pt|intros r]. destruct r; keep.
Qed.

Lemma steady_admit p : keeps P (admit_packet cfg p).
Proof using P_st. unfold admit_packet. walk. Qed.

Lemma steady_pong p : keeps P (handle_pong p).
Proof using P_st. unfold handle_pong. walk. Qed.

Lemma steady_each {A} (f : A → M Link unit) l : (∀ x, keeps P (f x)) → keeps P (each f l).
Proof using Type. intros Hf. induction l; simpl; keep. Qed.

Lemma steady_tick : keeps P (run_tick tick).
Proof using P_st. intros s. unfold run_tick. destruct (tick _) as [r p]. by apply (steady_same P P_st). Qed.
#[local] Hint Resolve steady_tick : pt.

Lemma steady_watch : keeps P (watch_replies cfg tick).
Proof using P_st. unfold watch_replies. walk. Qed.

Lemma steady_wait : keeps P (wait_for_events cfg).
Proof using P_st. unfold wait_for_events. walk. Qed.

Lemma steady_limits t bad : keeps P (session_limits cfg t bad).
Proof using P_st.
  unfold session_limits. apply keeps_bind; [|intros _; walk].
  apply keeps_modify. intros s. apply (steady_same P P_st); by destruct (_ <=? _).
Qed.
End Steady.

#[local] Hint Resolve steady_us steady_interval steady_padding steady_sync steady_transport steady_shaper : pt.
#[local] Hint Resolve steady_limit steady_burst steady_admit steady_pong steady_each steady_tick : pt.
#[local] Hint Resolve steady_watch steady_wait steady_limits : pt.

(** ** Sending

    [P] is kept by everything that only sends once it is kept by a record that is
    encoded and queued, by a message that is taken from the queue and by a front
    record that is dropped. *)

Definition known_flags (f : Z) : Prop := f ∈ [0; RECORD_KEEPALIVE; RECORD_PING; RECORD_PONG].

Definition note_message (message : bytes) (s : Link) : Link :=
  set_trace (mkTrace (messages_sent (trace s) ++ [message]) (encoded (trace s)) (injected (trace s)) (fed (trace s))) s.

Section Sending.
Context (P : Link → Prop) (P_st : steady P).
Hypothesis P_submit : ∀ payload flags packet, known_flags flags → keeps P (submit cfg tx_key payload flags packet).
Hypothesis P_gather : ∀ s limit message o,
  P s → gather cfg limit 0 [] (queue (link_box s)) (link_box s) = (message, o) →
  P (set_box o s) ∧ (message ≠ [] → P (send_message message (set_box o s)).2).
Hypothesis P_pop : ∀ x rest s, P s → queue (link_box s) = x :: rest → P (set_box (pop_queued x rest (link_box s)) s).

Lemma sends_control payload flags packet : known_flags flags → keeps P (submit cfg tx_key payload flags packet).
Proof using P_submit. apply P_submit. Qed.
Lemma known_0 : known_flags 0.
Proof using Type. by left. Qed.
Lemma known_keepalive : known_flags RECORD_KEEPALIVE.
Proof using Type. right. by left. Qed.
Lemma known_ping : known_flags RECORD_PING.
Proof using Type. do 2 right. by left. Qed.
Lemma known_pong : known_flags RECORD_PONG.
Proof using Type. do 3 right. by left. Qed.
#[local] Hint Resolve sends_control known_0 known_keepalive known_ping known_pong : pt.

Lemma sends_flush : keeps P (flush_carrier cfg).
Proof using P_st P_gather.
  unfold flush_carrier. apply keeps_bind; [auto with pt|intros _]. apply keeps_bind; [auto with pt|intros s].
  apply keeps_if; [keep|]. apply keeps_bind; [auto with pt|intros go]. apply keeps_if; [keep|].
  apply keeps_bind; [auto with pt|intros t]. apply keeps_bind; [auto with pt|intros limit].
  apply keeps_read. clear s. intros s Hs.
  destruct (gather _ _ _ _ _ _) as [message o] eqn:Hg. unfold mbind at 1, M_bind at 1, modify at 1. cbn [id].
  destruct (Nat.eqb_spec (length message) 0) as [Hm|Hm].
  - simpl. by eapply P_gather.
  - assert (Hsend : P (send_message message (set_box o s)).2)
      by (eapply (P_gather s limit message o Hs Hg); by intros ->).
    unfold mbind at 1, M_bind at 1. destruct (send_message message _) as [[[]|e] s'] eqn:Hs'; [|done].
    apply (keeps_at P); [keep|done].
Qed.
#[local] Hint Resolve sends_flush : pt.

Lemma sends_drain_packets n : keeps P (drain_packets cfg tx_key n).
Proof using P_st P_submit. induction n as [|n IH]; simpl; walk. Qed.
#[local] Hint Resolve sends_drain_packets : pt.

Lemma sends_drain : keeps P (drain_pending cfg tx_key).
Proof using P_st P_submit. unfold drain_pending. keep. Qed.
#[local] Hint Resolve sends_drain : pt.

Lemma sends_packets : keeps P (take_packets cfg tx_key).
Proof using P_st P_submit P_gather. unfold take_packets. keep. Qed.

Lemma sends_probe t : keeps P (probe_timer cfg tx_key t).
Proof using P_st P_submit P_gather. unfold probe_timer. walk. Qed.

Lemma sends_ping t : keeps P (ping_timer cfg t).
Proof using P_st. unfold ping_timer. walk. Qed.

Lemma sends_keepalive t : keeps P (keepalive_timer cfg tx_key t).
Proof using P_st P_submit P_gather. unfold keepalive_timer. walk. Qed.

Lemma sends_drop_late q t : ∀ s, queue (link_box s) = q → P s → P (drop_late cfg q t s).2.
Proof using P_st P_pop.
  induction q as [|x rest IH]; intros s Hq Hs; [done|]. cbn [drop_late].
  destruct (_ <? _); [|done]. unfold mbind, M_bind, modify; simpl. apply IH; [done|].
  eapply (steady_same P P_st); [..|by apply P_pop]; done.
Qed.

Lemma sends_drop_old t : keeps P (drop_old cfg t).
Proof using P_st P_pop.
  unfold drop_old. apply keeps_read. intros s Hs. unfold mbind at 1, M_bind at 1. cbn [id].
  pose proof (sends_drop_late (queue (link_box s)) t s eq_refl Hs) as Hd.
  destruct (drop_late _ _ _ _) as [[[]|e] s']; [|done]. apply (keeps_at P); [walk|done].
Qed.
End Sending.

(** A message is sent, or the carrier throws: either way the two sides are as noted. *)
Lemma message_sent (P : Link → Prop) :
  (∀ s s', same_link s s' → P s → P s') →
  (∀ s limit message o,
     P s → gather cfg limit 0 [] (queue (link_box s)) (link_box s) = (message, o) →
     P (set_box o s) ∧ (message ≠ [] → P (note_message message (set_box o s)))) →
  ∀ s limit message o,
    P s → gather cfg limit 0 [] (queue (link_box s)) (link_box s) = (message, o) →
    P (set_box o s) ∧ (message ≠ [] → P (send_message message (set_box o s)).2).
Proof using Type.
  intros P_same P_note s limit message o Hs Hg. destruct (P_note s limit message o Hs Hg) as [Hpop Hsent].
  split; [done|]. intros Hm. unfold send_message, on_carrier, mbind, M_bind.
  destruct (carrier_send message _) as [[[]|e] c]; simpl.
  - eapply P_same; [|by apply Hsent]. done.
  - eapply P_same; [|exact Hpop]. done.
Qed.

(** ** One record *)

(** What a record of this kind may be padded with: never more than configured. *)
Definition limits_ok (control : bool) (l : Z * Z) : Prop :=
  l.2 <= l.1 + 3
  ∧ (if control then l.1 = websocket_control_padding_bytes cfg else l.1 <= websocket_padding_max_bytes cfg).

Lemma same_link_trans s s1 s2 : same_link s s1 → same_link s1 s2 → same_link s s2.
Proof using Type. intros [H1 H2] [H3 H4]. split; congruence. Qed.

(** An operation that changes neither side. *)
Lemma quiet_ends {A} (m : M Link A) s :
  keeps (same_link s) m → ends (λ _, same_link s) (same_link s) (m s).
Proof using Type. intros Hm. specialize (Hm s (conj eq_refl eq_refl)). by destruct (m s) as [[a|e] s']. Qed.

Lemma quiet_then {A B} (m : M Link A) (f : A → M Link B) (Q : B → Link → Prop) s :
  (∀ s0, keeps (same_link s0) m) → (∀ a s', same_link s s' → ends Q (same_link s) (f a s')) →
  ends Q (same_link s) ((m ≫= f) s).
Proof using Type. intros Hm Hf. eapply ends_bind; [by apply quiet_ends|]. done. Qed.

(** The same when the rest is known from any state like [s]. *)
Lemma quiet_bind {A B} (m : M Link A) (f : A → M Link B) (Q : B → Link → Prop) (E : Link → Prop) s0 s :
  (∀ s1, keeps (same_link s1) m) → (∀ s1, same_link s0 s1 → E s1) → same_link s0 s →
  (∀ a s', same_link s0 s' → ends Q E (f a s')) → ends Q E ((m ≫= f) s).
Proof using Type.
  intros Hm HE Hs Hf. pose proof (quiet_ends m s (Hm s)) as H.
  eapply ends_bind; [eapply ends_weaken; [exact H| |]|].
  - intros a s' Hs'. exact (same_link_trans _ _ _ Hs Hs').
  - intros s' Hs'. apply HE. exact (same_link_trans _ _ _ Hs Hs').
  - done.
Qed.

Lemma same_trans s0 : ∀ s s', same_link s s' → same_link s0 s → same_link s0 s'.
Proof using Type. intros s s' H1 H2. by eapply same_link_trans. Qed.
Lemma steady_from s0 : steady (same_link s0).
Proof using Type. apply same_steady, same_trans. Qed.
#[local] Hint Resolve steady_from : pt.

Lemma shape_le requested t b : (shape_allowance requested t b).1 <= requested.
Proof using Type. unfold shape_allowance. destruct (negb _); simpl; lia. Qed.

Lemma control_le m t b : (control_allowance m t b).1 <= m + 3.
Proof using Type. unfold control_allowance. cbn [fst]. lia. Qed.
Lemma data_le n m b : (data_allowance n m b).1 <= m + 3.
Proof using Type. unfold data_allowance. cbn [fst]. lia. Qed.

Lemma padding_limits control n s0 s :
  same_link s0 s → ends (λ l s', limits_ok control l ∧ same_link s0 s') (same_link s0) (padding_for cfg control n s).
Proof using Type.
  intros Hs. unfold padding_for.
  eapply (ends_bind (λ m s', (if control then m = websocket_control_padding_bytes cfg
                              else m <= websocket_padding_max_bytes cfg) ∧ same_link s0 s')).
  { destruct control; [done|]. destruct (traffic_shaping cfg); [|done].
    unfold clock_us, read_clock, ask, mbind, M_bind, get, gets, mret, M_ret. destruct (clock_ns _) as [t w]. cbn.
    split; [unfold maximum; lia|]. exact Hs. }
  intros m s1 [Hm Hs1].
  eapply (ends_bind (λ a s', a <= m + 3 ∧ same_link s0 s')).
  { destruct control; unfold clock_us, read_clock, ask, mbind, M_bind, get, gets, modify, mret, M_ret.
    - destruct (clock_ns _) as [t w]. cbn [id]. pose proof (control_le m (u64 (micros t)) (padding (pacing s1))).
      cbn [pacing set_outer set_pacing]. destruct (control_allowance _ _ _) as [a d]. by split.
    - cbn [id]. pose proof (data_le n m (padding (pacing s1))). destruct (data_allowance _ _ _) as [a d]. by split. }
  intros a s2 [Ha Hs2]. unfold clock_us, read_clock, ask, mbind, M_bind, get, gets, modify, mret, M_ret.
  destruct (clock_ns _) as [t w]. cbn [id]. pose proof (shape_le a (u64 (micros t)) (shape_budget (pacing s2))) as Hb.
  cbn [pacing set_outer]. destruct (shape_allowance _ _ _) as [b sb]. simpl in Hb |- *. split; [|exact Hs2].
  split; simpl; [lia|done].
Qed.

(** The most bytes of a record with a payload of [n] bytes. *)
Definition padded_size (control : bool) (n : Z) : Z :=
  if websocket_control_padding_bytes cfg =? 0 then
    n + 32 + (if control || (websocket_padding_max_bytes cfg =? 0) then 0 else 2 + websocket_padding_max_bytes cfg)
  else n + 35 + (if control then websocket_control_padding_bytes cfg else websocket_padding_max_bytes cfg).

Definition padding_valid : Prop :=
  0 <= websocket_padding_max_bytes cfg ∧ 0 <= websocket_control_padding_bytes cfg.

Section Encoding.
Context {CL : CryptoLaws C}.

Lemma encode_with_encodes l seq payload flags g r g' :
  limits_ok (negb (flags =? 0)) l → known_flags flags →
  encode_with cfg tx_key l.1 l.2 seq payload flags g = Ok (r, g') →
  encodes tx_key (mkDelivery flags seq payload) r
  ∧ (padding_valid → zlen r <= padded_size (negb (flags =? 0)) (zlen payload)).
Proof using CL.
  intros [Hl Hm] Hf. unfold encode_with, padded_size.
  assert (Hplain : ∀ r, encode_record_v5 tx_key seq payload flags = Ok r →
    encodes tx_key (mkDelivery flags seq payload) r ∧ zlen r = zlen payload + 32).
  { intros r0 He. split.
    - apply encodes_plain; [..|done]; intros ->; unfold known_flags in Hf; repeat (apply elem_of_cons in Hf as [?|Hf]; [done|]); by apply elem_of_nil in Hf.
    - apply encode_aead_inv in He as (_&_&_&_&?&_). lia. }
  destruct (Z.ltb_spec 0 l.1), (Z.leb_spec 3 l.2); cbn [andb];
    try (intros He; apply bind_ok in He as (r0 & He & [= <- _]); apply Hplain in He as [? ->];
         split; [done|]; intros [? ?]; destruct (Z.eqb_spec (websocket_control_padding_bytes cfg) 0);
           destruct (negb _); cbn [orb]; try destruct (_ =? 0); lia).
  destruct (Z.ltb_spec 0 (websocket_control_padding_bytes cfg)); intros He.
  - split; [by eapply encodes_envelope|]. intros _. rewrite (proj2 (Z.eqb_neq _ _)) by lia.
    apply (padding_cost_bounded tx_key seq payload flags (l.2 - 3) g r g') in He. destruct (negb _); lia.
  - destruct (Z.eqb_spec flags 0) as [->|Hne]; cbn [negb orb] in *; [|exfalso; lia].
    split; [by eapply encodes_padded|]. intros [? ?]. rewrite (proj2 (Z.eqb_eq _ _)) by lia.
    apply (padding_cost_bounded tx_key seq payload 0 (l.2 - 3) g r g') in He. rewrite (proj2 (Z.eqb_neq (websocket_padding_max_bytes cfg) 0)) by lia.
    destruct (_ =? _); lia.
Qed.

(** The state after [sequence++]. *)
Definition taken (x : Delivery) (s : Link) : Link :=
  set_coder (u64 (link_seq s + 1)) (link_dec s)
    (mkTrace (messages_sent (trace s)) (encoded (trace s) ++ [x]) (injected (trace s)) (fed (trace s))) s.

Lemma taken_same x s s' : same_link s s' → same_link (taken x s) (taken x s').
Proof using Type.
  unfold same_link, outgoing, incoming. intros [H1 H2]. injection H1 as H1 H3 H4 H5 H6. injection H2 as H2 H7 H8.
  unfold taken. simpl. by rewrite H1, H2, H3, H4, H5, H6, H7, H8.
Qed.

Lemma bind_taken {B} payload flags (f : Z → M Link B) s :
  (take_sequence payload flags ≫= f) s = f (link_seq s) (taken (mkDelivery flags (link_seq s) payload) s).
Proof using Type. done. Qed.

Lemma bind_rng {A B} (f : rng → res (A * rng)) (k : A → M Link B) s :
  (with_rng f ≫= k) s =
    match f (link_rng s) with
    | Ok (a, g) => k a (set_outer (link_events s) (link_os s) g s)
    | Err e => (Err e, s)
    end.
Proof using Type. unfold with_rng, mbind, M_bind. by destruct (f _) as [[]|]. Qed.

(** The record that [encode] returns, and what it leaves. *)
Lemma encode_ends payload flags s :
  known_flags flags →
  let x := mkDelivery flags (link_seq s) payload in
  ends (λ r s', encodes tx_key x r ∧ (padding_valid → zlen r <= padded_size (negb (flags =? 0)) (zlen payload))
                ∧ same_link (taken x s) s')
    (λ s', same_link s s' ∨ same_link (taken x s) s') (encode cfg tx_key payload flags s).
Proof using CL.
  intros Hf x. unfold encode.
  eapply (ends_bind (λ _ s', same_link s s')).
  { eapply ends_weaken; [apply quiet_ends|done|by left]. pose proof (steady_from s). walk. }
  intros [] s1 Hs1.
  eapply (ends_bind (λ l s', limits_ok (negb (flags =? 0)) l ∧ same_link s s')).
  { eapply ends_weaken; [by apply (padding_limits _ _ s)|done|by left]. }
  intros l s2 [Hl Hs2]. rewrite bind_taken.
  assert (Hseq : link_seq s2 = link_seq s) by (destruct Hs2 as [[= -> _ _ _ _] _]; done).
  rewrite Hseq. fold x. assert (Hs3 : same_link (taken x s) (taken x s2)) by (by apply taken_same).
  generalize dependent (taken x s2). clear Hs1. intros s3 Hs3. rewrite bind_rng.
  destruct (encode_with _ _ _ _ _ _ _ _) as [[r g]|e] eqn:He; [|by right].
  apply encode_with_encodes in He as [Henc Hsize]; [|done..].
  eapply (quiet_bind _ _ _ _ (taken x s)); [intros s6; pose proof (steady_from s6); walk|by right|exact Hs3|].
  intros _ s4 Hs4.
  eapply (quiet_bind _ _ _ _ (taken x s)); [intros s6; pose proof (steady_from s6); walk|by right|exact Hs4|].
  intros _ s5 Hs5. done.
Qed.

(** [submit]: nothing but a number is taken, or the record is queued as well. *)
Lemma submit_ends payload flags packet s :
  known_flags flags →
  let x := mkDelivery flags (link_seq s) payload in
  let s' := (submit cfg tx_key payload flags packet s).2 in
  same_link s s' ∨ same_link (taken x s) s'
  ∨ ∃ s1 r t, same_link (taken x s) s1 ∧ encodes tx_key x r
      ∧ (padding_valid → zlen r <= padded_size (negb (flags =? 0)) (zlen payload))
      ∧ s' = set_box (enqueue_record (mkQueued r t packet) cfg false (link_box s1)) s1.
Proof using CL.
  intros Hf x s'. subst s'. pose proof (encode_ends payload flags s Hf) as He.
  unfold submit, mbind, M_bind. destruct (encode _ _ _ _ s) as [[r|e] s1]; simpl in He; [|by destruct He; auto].
  destruct He as (Henc & Hsize & Hs1). right. right.
  unfold read_clock, ask, modify. destruct (clock_ns _) as [t w].
  by exists (set_outer (link_events s1) w (link_rng s1) s1), r, t.
Qed.
End Encoding.

(** ** The loop around the receiver

    An invariant [I] of the loop, which an exception leaves in [E], is a matter of
    [receive_messages] alone when it follows from a family of invariants that all
    the other operations keep. *)
Section Turns.
Context {X : Type} (P : X → Link → Prop) (I E : Link → Prop).
Context (P_st : ∀ x, steady (P x)) (I_end : ∀ s, I s → E s).
Hypothesis P_submit : ∀ x payload flags packet, known_flags flags → keeps (P x) (submit cfg tx_key payload flags packet).
Hypothesis P_gather : ∀ x s limit message o,
  P x s → gather cfg limit 0 [] (queue (link_box s)) (link_box s) = (message, o) →
  P x (set_box o s) ∧ (message ≠ [] → P x (send_message message (set_box o s)).2).
Hypothesis P_pop : ∀ x q rest s,
  P x s → queue (link_box s) = q :: rest → P x (set_box (pop_queued q rest (link_box s)) s).
Hypothesis I_family : ∀ A (m : M Link A), (∀ x, keeps (P x) m) → upholds I E m.
Hypothesis I_receive : upholds I E (receive_messages cfg tx_key).

Lemma turns_turn : upholds I E (carrier_turn cfg tx_key tick).
Proof using P_st I_end P_submit P_gather P_pop I_family I_receive.
  pose proof (λ x, sends_flush (P x) (P_st x) (P_gather x)).
  pose proof (λ x, sends_drain (P x) (P_st x) (P_submit x)).
  pose proof (λ x, sends_packets (P x) (P_st x) (P_submit x) (P_gather x)).
  pose proof (λ x, sends_probe (P x) (P_st x) (P_submit x) (P_gather x)).
  pose proof (λ x, sends_ping (P x) (P_st x)).
  pose proof (λ x, sends_keepalive (P x) (P_st x) (P_submit x) (P_gather x)).
  pose proof (λ x, sends_drop_old (P x) (P_st x) (P_pop x)).
  unfold carrier_turn.
  do 7 (apply upholds_bind; [apply I_family; intros x; pose proof (P_st x); auto with pt|intros ?]).
  match goal with |- upholds _ _ (match ?x with _ => _ end) => destruct x as [| |sock tun] end;
    [by apply upholds_throw|apply upholds_ret|].
  do 4 (apply upholds_bind; [apply I_family; intros x; pose proof (P_st x); walk|intros ?]).
  apply upholds_bind; [exact I_receive|intros []].
  do 8 (apply upholds_bind; [apply I_family; intros x; pose proof (P_st x); walk|intros ?]).
  apply I_family. intros x. pose proof (P_st x). walk.
Qed.

Lemma turns_run n : upholds I E (carrier_tunnel_loop cfg tx_key tick n).
Proof using P_st I_end P_submit P_gather P_pop I_family I_receive.
  apply upholds_bind; [apply I_family; intros x; pose proof (P_st x); unfold begin_session; walk|intros _].
  induction n as [|n IH]; simpl; [apply upholds_ret|].
  apply upholds_bind; [apply I_family; intros x; pose proof (P_st x); walk|intros stop].
  apply upholds_if; [apply upholds_ret|]. apply upholds_bind; [apply turns_turn|auto].
Qed.
End Turns.

(** ** Receiving

    [P] is kept by the decoding of a message when it depends on the sending side,
    the messages received and the carrier only. *)
Section Feeding.
Context (P : Link → Prop).
Context (P_view : ∀ s s', outgoing s' = outgoing s → fed (trace s') = fed (trace s) →
                  link_carrier s' = link_carrier s → P s → P s').
Context (P_call : ∀ A (m : M carrier A), plain_call m → keeps P (on_carrier m)).
Hypothesis P_submit : ∀ payload flags packet, known_flags flags → keeps P (submit cfg tx_key payload flags packet).
Hypothesis P_gather : ∀ s limit message o,
  P s → gather cfg limit 0 [] (queue (link_box s)) (link_box s) = (message, o) →
  P (set_box o s) ∧ (message ≠ [] → P (send_message message (set_box o s)).2).

Lemma feeding_steady : steady P.
Proof using P_view P_call.
  split; [|done]. intros s s' [Ho Hi]. apply P_view; [done|]. unfold incoming in Hi. by injection Hi.
Qed.

Lemma feeding_modify f :
  (∀ s, outgoing (f s) = outgoing s ∧ fed (trace (f s)) = fed (trace s) ∧ link_carrier (f s) = link_carrier s) →
  keeps P (modify f).
Proof using P_view. intros H. apply keeps_modify. intros s. destruct (H s) as (?&?&?). by apply P_view. Qed.
#[local] Hint Extern 3 (keeps _ (modify _)) => apply feeding_modify; done : pt.

Lemma feeding_delivery flags payload : keeps P (on_delivery cfg tx_key flags payload).
Proof using P_view P_call P_submit.
  pose proof feeding_steady.
  assert (keeps P (submit cfg tx_key payload RECORD_PONG false)) by apply P_submit, known_pong.
  unfold on_delivery, inject. walk.
Qed.

Lemma feeding_message msg : keeps P (feed_message cfg tx_key msg).
Proof using P_view P_call P_submit P_gather.
  pose proof feeding_steady as St. pose proof (sends_flush P St P_gather).
  unfold feed_message. apply keeps_read. intros s Hs.
  destruct (feed_v5 _ _ _ _) as [[[d' s'] r]|] eqn:Hf; [|done].
  assert (Hs' : P s').
  { revert Hf. unfold feed_v5, feed_with. cbn [id]. destruct (_ <? _); [by intros [= <- <- <-]|].
    apply (loop_inv (aead_step PTT5) (callback (on_delivery cfg tx_key)) (λ _ s, P s) (λ _ s _, P s)); auto.
    intros d0 s0 f n p t d1 HP _. pose proof (feeding_delivery f p s0 HP).
    unfold callback. by destruct (on_delivery _ _ _ _ _) as [[] ?]. }
  assert (Hd : P (set_coder (link_seq s') d' (trace s') s')) by (by apply (P_view s')).
  destruct r; apply (keeps_set P); auto; walk.
Qed.
End Feeding.

(** ** A whole run

    [P] may not depend on the receiving side. *)
Section Whole.
Context (P : Link → Prop) (P_out : ∀ s s', outgoing s' = outgoing s → P s → P s').
Hypothesis P_submit : ∀ payload flags packet, known_flags flags → keeps P (submit cfg tx_key payload flags packet).
Hypothesis P_gather : ∀ s limit message o,
  P s → gather cfg limit 0 [] (queue (link_box s)) (link_box s) = (message, o) →
  P (set_box o s) ∧ (message ≠ [] → P (note_message message (set_box o s))).
Hypothesis P_pop : ∀ x rest s, P s → queue (link_box s) = x :: rest → P (set_box (pop_queued x rest (link_box s)) s).

Lemma whole_same : ∀ s s', same_link s s' → P s → P s'.
Proof using P_out. intros s s' [H _]. by apply P_out. Qed.

Lemma whole_receive : keeps P (receive_messages cfg tx_key).
Proof using P_out P_submit P_gather.
  pose proof (same_steady P whole_same).
  assert (Hcall : ∀ A (m : M carrier A), keeps P (on_carrier m)) by (intros; apply quiet_carrier, whole_same).
  assert (Hfed : ∀ f, (∀ s, outgoing (f s) = outgoing s) → keeps P (modify f)).
  { intros f Hf. apply keeps_modify. intros s. apply P_out, Hf. }
  assert (∀ msg, keeps P (feed_message cfg tx_key msg)).
  { intros msg. apply feeding_message; auto; [intros s s' Ho _ _; by apply P_out|].
    by apply message_sent; [apply whole_same|]. }
  unfold receive_messages, handle_message. walk; apply steady_each; walk.
Qed.

Lemma whole_run n : keeps P (carrier_tunnel_loop cfg tx_key tick n).
Proof using P_out P_submit P_gather P_pop.
  apply upholds_keeps, (turns_run (λ _ : unit, P)); try done.
  - intros _. apply same_steady, whole_same.
  - intros _. by apply message_sent; [apply whole_same|].
  - intros A m Hm. apply upholds_keeps, (Hm tt).
  - apply upholds_keeps, whole_receive.
Qed.
End Whole.

(** ** Messages *)

(** What [gather] takes is a number of whole records from the front, within the
    batch size. *)
Lemma gather_spec limit count message q o m o' :
  0 <= batch_bytes cfg < 2 ^ 63 → zlen message <= batch_bytes cfg →
  Forall (λ x, q_size x <= 65567) q → queue o = q → gather cfg limit count message q o = (m, o') →
  ∃ n, m = message ++ concat (map q_data (take n q)) ∧ queue o' = drop n q ∧ zlen m <= batch_bytes cfg.
Proof using Type.
  intros Hb. revert count message o. induction q as [|x rest IH]; intros count message o Hm Hsmall Hq Hg; simpl in Hg.
  { injection Hg as <- <-. exists 0%nat. by rewrite app_nil_r, Hq. }
  apply Forall_cons in Hsmall as [Hx Hsmall]. pose proof (q_size_nonneg x). pose proof (zlen_nonneg message).
  destruct (_ && _) eqn:Hgo; [|injection Hg as <- <-; exists 0%nat; by rewrite app_nil_r, Hq].
  bool_to_prop. unfold u64 in *. rewrite Z.mod_small in * by lia.
  apply IH in Hg as (n & -> & Hd & Hl); [|unfold q_size in *; rewrite zlen_app; lia|done|done].
  exists (S n). split_and!; [|done|done]. simpl. by rewrite <- app_assoc.
Qed.

Lemma gather_box limit count message q o m o' :
  limits_valid cfg → outbox_ok cfg o → queue o = q → gather cfg limit count message q o = (m, o') → outbox_ok cfg o'.
Proof using Type.
  intros V. revert count message o. induction q as [|x rest IH]; intros count message o Ho Hq Hg; simpl in Hg.
  { by injection Hg as _ <-. }
  destruct (_ && _); [|by injection Hg as _ <-]. apply IH in Hg; [done| |done]. by apply pop_ok.
Qed.

Record link_ok (s : Link) : Prop := {
  lk_seq : link_seq s = u64 (zlen (encoded (trace s)) + 1);
  lk_numbered : numbered (encoded (trace s));
  lk_records : ∃ xs rss ys,
    messages_sent (trace s) = map (λ rs, concat rs) rss
    ∧ Forall (λ rs, zlen (concat rs) <= batch_bytes cfg) rss
    ∧ Forall2 (encodes tx_key) xs (concat rss) ∧ Forall2 (encodes tx_key) ys (map q_data (queue (link_box s)))
    ∧ (xs ++ ys) `sublist_of` encoded (trace s) }.

Lemma link_out s s' : outgoing s' = outgoing s → link_ok s → link_ok s'.
Proof using Type.
  intros H. injection H as H1 H2 H3 H4 H5. intros [A B D]. split; by rewrite ?H1, ?H2, ?H3, ?H4.
Qed.

Lemma link_taken x s : d_seq x = link_seq s → link_ok s → link_ok (taken x s).
Proof using Type.
  intros Hx [A B (xs & rss & ys & E & F & G & H & I)]. split; simpl.
  - by rewrite zlen_app, A, u64_add_l.
  - apply numbered_snoc; [done|by rewrite Hx].
  - exists xs, rss, ys. split_and!; auto using sublist_inserts_r.
Qed.

Section Stream.
Context {CL : CryptoLaws C} (batch_ok : 0 <= batch_bytes cfg < 2 ^ 63).

Lemma link_submit payload flags packet :
  known_flags flags → keeps link_ok (submit cfg tx_key payload flags packet).
Proof using CL.
  intros Hf s Hs.
  destruct (submit_ends payload flags packet s Hf) as [[H _]|[[H _]|(s1 & r & t & [H _] & Henc & _ & ->)]].
  - by apply (link_out s).
  - eapply link_out; [exact H|]. by apply link_taken.
  - set (x := mkDelivery flags (link_seq s) payload) in *.
    assert (Hn : (encoded (trace s) ++ [x]) `sublist_of` encoded (trace s1)) by (by injection H as _ -> _ _ _).
    assert (Hold : ∃ xs rss ys,
      messages_sent (trace s1) = map (λ rs, concat rs) rss
      ∧ Forall (λ rs, zlen (concat rs) <= batch_bytes cfg) rss
      ∧ Forall2 (encodes tx_key) xs (concat rss) ∧ Forall2 (encodes tx_key) ys (map q_data (queue (link_box s1)))
      ∧ (xs ++ ys) `sublist_of` encoded (trace s)).
    { destruct Hs as [_ _ Hr]. by injection H as _ _ -> -> _. }
    assert (Hs1 : link_ok s1) by (eapply link_out; [exact H|]; by apply link_taken).
    destruct Hs1 as [A B _]. destruct Hold as (xs & rss & ys & E & F & G & I & J).
    split; simpl; [done..|].
    destruct (enqueue_order cfg false (mkQueued r t packet) (link_box s1)) as [->|(n & -> & _)].
    + exists xs, rss, ys. split_and!; auto. etrans; [exact J|]. etrans; [|exact Hn]. by apply sublist_inserts_r.
    + exists xs, rss, (drop n ys ++ [x]). split_and!; auto.
      * rewrite map_app, <- skipn_map. apply Forall2_app; [by apply Forall2_drop|constructor; [exact Henc|constructor]].
      * rewrite app_assoc. etrans; [|exact Hn]. apply sublist_app; [|done]. etrans; [|exact J].
        apply sublist_app; [done|apply sublist_drop].
Qed.

Lemma link_pop x rest s :
  link_ok s → queue (link_box s) = x :: rest → link_ok (set_box (pop_queued x rest (link_box s)) s).
Proof using Type.
  intros [A B (xs & rss & ys & E & F & G & H & I)] Hq. split; simpl; auto.
  rewrite Hq in H. apply Forall2_cons_inv_r in H as (y & ys' & _ & H & ->).
  exists xs, rss, ys'. split_and!; auto. etrans; [|exact I]. apply sublist_app; [done|]. by constructor.
Qed.

Lemma link_gather s limit message o :
  link_ok s → gather cfg limit 0 [] (queue (link_box s)) (link_box s) = (message, o) →
  link_ok (set_box o s) ∧ (message ≠ [] → link_ok (note_message message (set_box o s))).
Proof using CL batch_ok.
  intros [A B (xs & rss & ys & E & F & G & H & I)] Hg.
  apply gather_spec in Hg as (n & -> & Ho & Hl); [|done|unfold zlen; simpl; lia| |done].
  2:{ apply (Forall_map q_data (λ b, zlen b <= 65567)). clear -H CL.
      induction H as [|y r ys rs Hy H IH]; constructor; [|done]. by eapply encodes_small. }
  split; [|intros _]; (split; simpl; auto).
  - exists xs, rss, (drop n ys). split_and!; auto.
    + rewrite Ho, <- skipn_map. by apply Forall2_drop.
    + etrans; [|exact I]. apply sublist_app; [done|apply sublist_drop].
  - exists (xs ++ take n ys), (rss ++ [take n (map q_data (queue (link_box s)))]), (drop n ys). split_and!.
    + rewrite map_app, E. simpl. by rewrite firstn_map.
    + apply Forall_app. split; [done|]. apply Forall_singleton. by rewrite firstn_map.
    + rewrite concat_app. simpl. rewrite app_nil_r. apply Forall2_app; [done|by apply Forall2_take].
    + rewrite Ho, <- skipn_map. by apply Forall2_drop.
    + by rewrite <- app_assoc, take_drop.
Qed.

Lemma link_run n : keeps link_ok (carrier_tunnel_loop cfg tx_key tick n).
Proof using CL batch_ok.
  apply whole_run; [exact link_out|exact link_submit|exact link_gather|exact link_pop].
Qed.
End Stream.

(** ** The limits of the queue *)

Definition link_box_ok (s : Link) : Prop := outbox_ok cfg (link_box s).

Lemma box_out s s' : outgoing s' = outgoing s → link_box_ok s → link_box_ok s'.
Proof using Type. intros H. injection H as _ _ _ H4 H5. intros [A B D]. split; by rewrite ?H4, ?H5. Qed.

Lemma box_run {CL : CryptoLaws C} n : limits_valid cfg → keeps link_box_ok (carrier_tunnel_loop cfg tx_key tick n).
Proof using Type.
  intros V. apply whole_run; [exact box_out|..].
  - intros payload flags packet Hf s Hs.
    destruct (submit_ends payload flags packet s Hf) as [[H _]|[[H _]|(s1 & r & t & [H _] & _ & _ & ->)]];
      [by apply (box_out s)| |]; assert (link_box_ok (taken (mkDelivery flags (link_seq s) payload) s)) by done;
      [by eapply box_out|]. apply enqueue_spec; [done|]. by eapply box_out.
  - intros s limit message o Hs Hg. assert (outbox_ok cfg o) by (by eapply gather_box). done.
  - intros x rest s Hs Hq. by apply pop_ok.
Qed.

(** ** What reaches the TUN device *)

Definition input_is (i : Decoder * list bytes * list bytes) (s : Link) : Prop := incoming s = i.

Section Input.
Context {CL : CryptoLaws C} (i : Decoder * list bytes * list bytes).

Lemma input_same s s' : same_link s s' → input_is i s → input_is i s'.
Proof using Type. intros [_ H] Hs. unfold input_is in *. congruence. Qed.

Lemma input_steady : steady (input_is i).
Proof using Type. apply same_steady, input_same. Qed.

Lemma input_submit payload flags packet :
  known_flags flags → keeps (input_is i) (submit cfg tx_key payload flags packet).
Proof using CL.
  intros Hf s Hs. unfold input_is in *.
  destruct (submit_ends payload flags packet s Hf) as [[_ H]|[[_ H]|(s1 & r & t & [_ H] & _ & _ & ->)]].
  - by rewrite H.
  - by rewrite H.
  - by rewrite <- Hs, <- (H : incoming s1 = incoming s).
Qed.

Lemma input_gather s limit message o :
  input_is i s → gather cfg limit 0 [] (queue (link_box s)) (link_box s) = (message, o) →
  input_is i (set_box o s) ∧ (message ≠ [] → input_is i (note_message message (set_box o s))).
Proof using Type. done. Qed.

Lemma input_pop x rest s :
  input_is i s → queue (link_box s) = x :: rest → input_is i (set_box (pop_queued x rest (link_box s)) s).
Proof using Type. done. Qed.

(** A delivery that is not a packet. *)
Lemma input_delivery flags payload : flags ≠ 0 → keeps (input_is i) (on_delivery cfg tx_key flags payload).
Proof using CL.
  intros Hf. pose proof input_steady. pose proof (input_submit payload RECORD_PONG false known_pong).
  unfold on_delivery, inject. rewrite (proj2 (Z.eqb_neq _ _) Hf). walk.
Qed.
End Input.

Definition fresh (rx_key : bytes) : Decoder := new_decoder rx_key (max_record_buffer_bytes cfg).
Abbreviation decode d chunks ds := (feed_all (aead_step PTT5) collect limit_exceeded d chunks ds).

(** The loop still runs: the decoder is the one a plain run on the messages gives,
    and its packets are at the TUN device. *)
Definition decoded (rx_key : bytes) (s : Link) : Prop :=
  ∃ ds, decode (fresh rx_key) (fed (trace s)) [] = Some (link_dec s, ds, Accepted)
        ∧ injected (trace s) = packets ds.

(** The loop has ended: some of the packets are. *)
Definition decoded_end (rx_key : bytes) (s : Link) : Prop :=
  ∃ d ds r, decode (fresh rx_key) (fed (trace s)) [] = Some (d, ds, r)
            ∧ injected (trace s) `prefix_of` packets ds.

Section Decoded.
Context {CL : CryptoLaws C} (rx_key : bytes).
Abbreviation going := (upholds (decoded rx_key) (decoded_end rx_key)).

Lemma heard_ends s : decoded rx_key s → decoded_end rx_key s.
Proof using Type. intros (ds & H & Ht). exists (link_dec s), ds, Accepted. by rewrite Ht. Qed.

Lemma hears_steady {A} (m : M Link A) : (∀ i, keeps (input_is i) m) → going m.
Proof using Type.
  intros Hm s (ds & Hd & Ht). pose proof (Hm (incoming s) s eq_refl) as Hi. unfold input_is, incoming in Hi.
  destruct (m s) as [[a|e] s']; simpl in *; injection Hi as Hi1 Hi2 Hi3.
  - exists ds. by rewrite Hi1, Hi2, Hi3.
  - apply heard_ends. exists ds. by rewrite Hi1, Hi2, Hi3.
Qed.

Lemma heard_packet d ts rcv p s :
  input_is (d, ts, rcv) s → input_is (d, ts ++ [p], rcv) (on_delivery cfg tx_key 0 p s).2.
Proof using Type.
  intros Hs. pose proof (input_steady (d, ts, rcv)). pose proof (input_steady (d, ts ++ [p], rcv)).
  unfold on_delivery. cbn [Z.eqb]. unfold mbind at 1, M_bind at 1.
  assert (Ht : keeps (input_is (d, ts, rcv)) read_clock) by auto with pt.
  specialize (Ht s Hs). destruct (read_clock s) as [[t|e] s1] eqn:Hc; simpl in Ht.
  2:{ unfold read_clock, ask in Hc. by destruct (clock_ns _). }
  unfold mbind at 1, M_bind at 1, modify at 1.
  match goal with |- input_is ?i ((inject p ≫= ?k) ?s2).2 => assert (Hk : ∀ n, keeps (input_is i) (k n)) by (intros n; walk) end.
  unfold inject, mbind, M_bind, modify, ask. destruct (write_packet _ _) as [n w]. apply Hk.
  unfold input_is, incoming in *. simpl. by injection Ht as -> -> ->.
Qed.

(** The callback, run against the plain list of deliveries. *)
Lemma delivery_mirror d rcv f n p ds s :
  input_is (d, packets ds, rcv) s →
  input_is (d, packets (ds ++ [mkDelivery f n p]), rcv) (callback (on_delivery cfg tx_key) f n p s).1.
Proof using CL.
  intros Hs. assert (Hcb : (callback (on_delivery cfg tx_key) f n p s).1 = (on_delivery cfg tx_key f p s).2).
  { unfold callback. by destruct (on_delivery _ _ _ _ _) as [[]]. }
  rewrite Hcb, packets_app. unfold packets at 2. rewrite filter_cons. simpl.
  destruct (decide (f = 0)) as [->|Hf]; [by apply heard_packet|].
  rewrite app_nil_r. by apply input_delivery.
Qed.

(** [feed], from a state where only the message is new. *)
Lemma hears_feed b s rcv :
  (∃ ds, decode (fresh rx_key) rcv [] = Some (link_dec s, ds, Accepted) ∧ injected (trace s) = packets ds) →
  fed (trace s) = rcv ++ [b] →
  ends (λ _, decoded rx_key) (decoded_end rx_key) (feed_message cfg tx_key b s).
Proof using CL.
  intros (ds & Hd & Ht) Hr.
  assert (Happ : decode (fresh rx_key) (rcv ++ [b]) [] =
                 feed_with (aead_step PTT5) collect limit_exceeded (link_dec s) b ds).
  { rewrite feed_all_app, Hd. simpl. by destruct (feed_with _ _ _ _ _ _) as [[[? ?] []]|]. }
  assert (Hin : input_is (link_dec s, packets ds, rcv ++ [b]) s) by (unfold input_is, incoming; by rewrite Ht, Hr).
  unfold feed_message, feed_v5. unfold mbind at 1, M_bind at 1, get, gets. cbn [id].
  unfold feed_with in Happ |- *. destruct (_ <? _).
  { exists (link_dec s), ds, (Rejected limit_exceeded). split; [|by rewrite <- Ht].
    rewrite <- Happ, <- Hr. done. }
  destruct (feed_loop (aead_step PTT5) (callback _) _ _ _) as [[[d' s'] r]|] eqn:Hl.
  - apply (loop_mirror (aead_step PTT5) (callback (on_delivery cfg tx_key))
             (λ ds s0, input_is (link_dec s, packets ds, rcv ++ [b]) s0)) with (ds := ds) in Hl; [|..|done|simpl; lia].
    + destruct Hl as (dc & xs & rc & Hl & Hend). rewrite <- Happ in Hl.
      destruct r as [|e|e]; [destruct Hend as (-> & -> & Hi)|destruct Hend as (ys & Hp%packets_prefix & Hi)..];
        unfold input_is, incoming in Hi; injection Hi as Hi1 Hi2 Hi3.
      * unfold mbind at 1, M_bind at 1, modify at 1. unfold mbind at 1, M_bind at 1, modify at 1.
        match goal with |- ends _ _ (_ ?s2) => assert (Hs2 : decoded rx_key s2) end.
        { exists xs. simpl. by rewrite Hi3, Hi2. }
        destruct (_ =? _); [done|]. apply (hears_steady (flush_carrier cfg)); [|done].
        intros i. apply sends_flush; [apply input_steady|]. apply message_sent; [apply input_same|apply input_gather].
      * exists dc, xs, rc. simpl. by rewrite Hi3, Hi2.
      * exists dc, xs, rc. simpl. by rewrite Hi3, Hi2.
    + intros. by apply delivery_mirror.
  - destruct (loop_terminates (aead_step PTT5) (callback (on_delivery cfg tx_key))
                (S (length (buffer_ (with_buffer (buffer_ (link_dec s) ++ b) (link_dec s)))))
                (with_buffer (buffer_ (link_dec s) ++ b) (link_dec s)) s ltac:(lia)). congruence.
Qed.

Lemma hears_message b : going (handle_message cfg tx_key b).
Proof using CL. intros s (ds & Hd & Ht). by apply (hears_feed b _ (fed (trace s))); [exists ds|]. Qed.

Lemma hears_each {A} (f : A → M Link unit) l : (∀ x, going (f x)) → going (each f l).
Proof using Type.
  intros Hf. induction l as [|x l IH]; simpl; [apply upholds_ret|]. by apply upholds_bind; [apply Hf|].
Qed.

Lemma hears_receive : going (receive_messages cfg tx_key).
Proof using CL.
  pose proof input_same as Hsame. pose proof heard_ends as Hend.
  assert (Hcall : ∀ i A (m : M carrier A), keeps (input_is i) (on_carrier m)).
  { intros i A m. apply quiet_carrier, Hsame. }
  assert (Hq : ∀ A (m : M Link A), (∀ i, keeps (input_is i) m) → going m) by apply @hears_steady.
  unfold receive_messages.
  do 8 (apply upholds_bind; [apply Hq; intros i; pose proof (input_steady i); walk|intros ?]).
  apply hears_each. intros b. apply hears_message.
Qed.

Lemma hears_run n : going (carrier_tunnel_loop cfg tx_key tick n).
Proof using CL.
  apply (turns_run input_is).
  - apply input_steady.
  - apply heard_ends.
  - apply input_submit.
  - intros i. apply message_sent; [apply input_same|apply input_gather].
  - apply input_pop.
  - apply @hears_steady.
  - apply hears_receive.
Qed.
End Decoded.
End CarrierProps.

Section Theorems.
Context {C : Crypto} {CL : CryptoLaws C} {K : LoopOs} {Pt : Patience K} {R : Carrier}.

Lemma new_link_ok cfg key rx st ev w c g : link_ok cfg key (new_link cfg rx st ev w c g).
Proof using Type. split; [done|done|]. exists [], [], []. split_and!; auto using Forall2_nil_2. Qed.

Lemma new_link_box cfg rx st ev w c g : limits_valid cfg → link_box_ok cfg (new_link cfg rx st ev w c g).
Proof using Type. intros [? ?]. split; simpl; unfold zlen; simpl; lia. Qed.

(** The carrier tunnel from end to end. Whatever the two devices, the carriers
    and the clocks do: when the messages one loop has received are the first ones
    the other gave to its carrier, the packets it has given to its TUN device are
    a subsequence of the packets the other has encoded: in order, unaltered, none
    twice. The sender's configuration has passed the validation, and its batches
    fit the receiver's record buffer. *)
Lemma carrier_tunnel_end_to_end cfg1 cfg2 key key' rx tick1 tick2 st1 st2 ev1 ev2 w1 w2 c1 c2 g1 g2 n1 n2 :
  let a := trace (carrier_tunnel_loop cfg1 key tick1 n1 (new_link cfg1 rx st1 ev1 w1 c1 g1)).2 in
  let b := trace (carrier_tunnel_loop cfg2 key' tick2 n2 (new_link cfg2 key st2 ev2 w2 c2 g2)).2 in
  sizes_typed cfg1 → validate_config cfg1 = Ok tt → batch_bytes cfg1 <= max_record_buffer_bytes cfg2 →
  zlen (encoded a) < 2 ^ 64 - 1 → fed b `prefix_of` messages_sent a →
  injected b `sublist_of` packets (encoded a).
Proof using CL.
  intros a b T V%validated_bounds; [|done]. intros Hbuf Hlen [k Hk]. destruct V.
  pose proof (link_run cfg1 key tick1 ltac:(lia) n1 _ (new_link_ok cfg1 key rx st1 ev1 w1 c1 g1)) as Ha.
  fold a in Ha. destruct Ha as [_ Hnum (xs & rss & ys & Hm & Hfit & Hx & _ & Hsub)]. fold a in Hnum, Hm, Hsub.
  assert (Hb : decoded_end cfg2 key (carrier_tunnel_loop cfg2 key' tick2 n2 (new_link cfg2 key st2 ev2 w2 c2 g2)).2).
  { pose proof (hears_run cfg2 key' tick2 key n2 (new_link cfg2 key st2 ev2 w2 c2 g2)) as H.
    destruct (carrier_tunnel_loop cfg2 key' tick2 n2 _) as [[]];
      [apply heard_ends|]; apply H; by exists []. }
  destruct Hb as (d & ds & r & Hd & Hto). fold b in Hd, Hto.
  assert (Hxs : xs `sublist_of` encoded a) by (etrans; [|exact Hsub]; by apply sublist_inserts_r).
  destruct (fresh_aligned (aead_step PTT5) key (encodes key) (encodes_step key) limit_exceeded
              (max_record_buffer_bytes cfg2) xs rss) as [d' Hall]; auto.
  - eapply sorted_sublist; [by apply sublist_map|]. by apply numbered_sorted.
  - eapply Forall_sublist; [exact Hxs|]. apply Forall_forall. intros x. by apply numbered_seq.
  - eapply Forall_impl; [exact Hfit|]. simpl. lia.
  - rewrite <- Hm, Hk, feed_all_app in Hall. unfold fresh in Hd. rewrite Hd in Hall.
    assert (ds `prefix_of` xs).
    { destruct r; [by apply (feed_all_extends (aead_step PTT5)) in Hall|by injection Hall as _ -> _..]. }
    etrans; [apply prefix_sublist; etrans; [exact Hto|by apply packets_prefix]|].
    unfold packets. apply sublist_map, filter_sublists, Hxs.
Qed.


Lemma padded_fits cfg (control : bool) n :
  bounds cfg → batch_fits cfg → 0 <= n <= (if control then 8 else mtu cfg) →
  padded_size cfg control n <= batch_bytes cfg.
Proof using Type.
  intros [] [Hd He] Hn. unfold padded_size. destruct (Z.eqb_spec (websocket_control_padding_bytes cfg) 0) as [|Hc].
  - destruct control; simpl; [lia|]. destruct (_ =? _); lia.
  - specialize (He Hc). destruct control; lia.
Qed.

(** C23: no record blocks the queue. Under a validated configuration of a
    WebSocket tunnel, a packet of at most [mtu] bytes or a control record,
    however much padding the budgets grant it, becomes a record that
    [flush_carrier] can take from the front: the message it gathers is not
    empty, whatever the batch limit. *)
Theorem carrier_record_fits_batch cfg key payload flags s r s' :
  sizes_typed cfg → validate_config cfg = Ok tt → Config.transport cfg = str "websocket" →
  known_flags flags → zlen payload <= (if flags =? 0 then mtu cfg else 8) →
  encode cfg key payload flags s = (Ok r, s') →
  ∀ limit t packet rest o, (gather cfg limit 0 [] (mkQueued r t packet :: rest) o).1 ≠ [].
Proof using CL.
  intros T V W Hf Hn He limit t packet rest o.
  pose proof (validated_bounds cfg T V) as B. pose proof (validated_batch cfg T V W) as F.
  pose proof (encode_ends cfg key payload flags s Hf) as H. rewrite He in H. destruct H as (Henc & Hsize & _).
  pose proof (zlen_nonneg payload). apply encodes_length in Henc. simpl in Henc.
  specialize (Hsize ltac:(destruct B; split; lia)).
  pose proof (padded_fits cfg (negb (flags =? 0)) (zlen payload) B F) as Hfit.
  specialize (Hfit ltac:(by destruct (flags =? 0))).
  assert (Hr : 0 < zlen r <= batch_bytes cfg) by lia. simpl. destruct B.
  rewrite (proj2 (Z.ltb_lt 0 _)) by lia. unfold u64, q_size. simpl q_data.
  rewrite (proj2 (Z.leb_le _ _)) by (rewrite Z.mod_small; unfold zlen in *; simpl; lia). simpl.
  assert (Hgrow : ∀ q count (m : bytes) o1, m ≠ [] → (gather cfg limit count m q o1).1 ≠ []).
  { induction q as [|x q IH]; intros count m o1 Hm; simpl; [done|]. destruct (_ && _); [|done].
    apply IH. by destruct m. }
  apply Hgrow. intros ->. unfold zlen in Hr. simpl in Hr. lia.
Qed.
End Theorems.

(** *** Two ends in a concrete world *)
Module CarrierDemo.
Import Toy World ConfigDemo.

(** A carrier that takes every message at once and brings the given ones, one per
    call of [read_messages]. *)
Record Mailbox := mkMailbox { sent : list bytes; inbox : list bytes }.

#[export] Instance mailbox : Carrier := {|
  carrier := Mailbox;
  carrier_send p := λ c, (Ok tt, mkMailbox (sent c ++ [p]) (inbox c));
  carrier_read _ := λ c, (Ok (firstn 1 (inbox c)), mkMailbox (sent c) (skipn 1 (inbox c)));
  carrier_flush _ := mret 0%nat;
  carrier_tx_pending _ := false;
  carrier_tx_poll_events _ := None;
  carrier_rx_poll_events _ := POLLIN;
  carrier_tx_pending_bytes _ := 0;
  carrier_tx_stalled _ := mret false;
  carrier_send_ping _ := mret tt;
  carrier_take_pongs := mret [];
  carrier_counters c := mkCounters 0 0 0 (zlen (sent c)) (zlen (concat (sent c))) 0 0;
|}.

Definition cfg : Config := ConfigDemo.client_config.
Definition key : bytes := repeat 7 32.
Definition key' : bytes := repeat 9 32.
Definition tick : M Ticking unit := mret tt.
Definition wa : lworld := mkWorld [packet 30 69; packet 100 96; packet 25 70] [] 0 2.
Definition empty : carrier := mkMailbox [] [].
Definition seed : rng := 3.
Definition a : Link := (carrier_tunnel_loop cfg key tick 5 (new_link cfg key' new_stats [] wa empty seed)).2.

(** The other end has received all but the last message. *)
Definition wb : lworld := mkWorld [packet 20 1] [] 0 0.
Definition arrived : carrier := mkMailbox [] (removelast (messages_sent (trace a))).
Definition b : Link := (carrier_tunnel_loop cfg key' tick 4 (new_link cfg key new_stats [] wb arrived seed)).2.

Example carrier_packets_arrive : injected (trace b) = [packet 30 69; packet 100 96].
Proof. by vm_compute. Qed.

Lemma carrier_cfg_typed : sizes_typed cfg.
Proof. split; vm_compute; intuition discriminate. Qed.

(** A packet, encoded with padding. *)
Definition padded : Config :=
  match load_config [] (Some (ConfigDemo.lines (ConfigDemo.client ++
    ["websocket_padding_max_bytes=64"; "websocket_control_padding_bytes=40"]%string))) with
  | Ok c => c
  | Err _ => cfg
  end.
Definition start : Link := new_link padded key' new_stats [] wa empty seed.
Definition one : res bytes * Link := encode padded key (packet 900 69) 0 start.
End CarrierDemo.
Import Toy World CarrierDemo.


Lemma carrier_record_fits_batch_witness :
  ∃ r s', CarrierDemo.one = (Ok r, s')
    ∧ (gather CarrierDemo.padded 1 0 [] [mkQueued r 0 true] (link_box s')).1 ≠ [].
Proof.
  assert (Hok : match CarrierDemo.one.1 with Ok _ => true | Err _ => false end = true) by (vm_compute; reflexivity).
  destruct CarrierDemo.one as [[r|e] s'] eqn:He; [|discriminate Hok].
  exists r, s'. split; [done|].
  apply (carrier_record_fits_batch CarrierDemo.padded CarrierDemo.key (World.packet 900 69) 0 CarrierDemo.start r s').
  - split; vm_compute; intuition discriminate.
  - by vm_compute.
  - by vm_compute.
  - by left.
  - by vm_compute.
  - exact He.
Defined.
