(* ===== verification/CarrierStream.v ===== *)
(** * The tunnel over the bytes of a WebSocket connection

    [CarrierContract] states what a carrier promises to [carrier_tunnel_loop]: the
    messages it was given, and those it will still return, whatever other calls
    come between. [WebSocketCarrier] keeps that promise over any two reliable byte
    streams ([websocket_carrier]); the loop is proved against the promise alone.
    Together they give delivery from TUN device to TUN device with nothing between
    but the bytes on the wire. *)

From S2P Require Import Prelude.
From S2P Require Import Text Crypto Keys RecordLoop Record Config ConfigBounds Tun LoopOs Outbox.
From S2P Require Import FlowScheduler FlowQueue Traffic Telemetry Budget Carrier CarrierLoop Sequence CarrierProps.
From S2P Require Import Transport WsFrame WebSocket WsReceive.

(** [gave ms c]: the messages taken so far are [ms]. [owes ms c]: reading returns
    [ms], in this order, as long as it does not throw. *)
Class CarrierContract (R : Carrier) := {
  gave : list bytes → carrier → Prop;
  owes : list bytes → carrier → Prop;
  gave_send p ms c r c' : gave ms c → carrier_send p c = (r, c') → gave (if is_ok r then ms ++ [p] else ms) c';
  gave_plain ms A (m : M carrier A) : plain_call m → keeps (gave ms) m;
  gave_read ms t : keeps (gave ms) (carrier_read t);
  owes_send ms p : keeps (owes ms) (carrier_send p);
  owes_plain ms A (m : M carrier A) : plain_call m → keeps (owes ms) m;
  owes_read t ms c out c' : owes ms c → carrier_read t c = (Ok out, c') → ∃ ms', ms = out ++ ms' ∧ owes ms' c';
}.

(** ** A WebSocket session keeps the promise *)

Section WebSocketContract.
Context {C : Crypto} {T : Transport} {CL : CryptoLaws C} {TL : TransportLaws T} {WR : Wire T}.

(** [before] was on its way when the session began, [never] will not arrive;
    [side] tells the client. *)
Context (side : bool) (before never : bytes).

Definition ws_gave (ms : list bytes) (c : Conn) : Prop :=
  conn_ok c ∧ client (conf (ws c)) = side ∧ ∃ fs, emits before fs c ∧ data_of fs = ms.
Definition ws_owes (ms : list bytes) (c : Conn) : Prop :=
  calm c ∧ ∃ fs, expects never fs c ∧ ms = prefetched_messages (rxs (ws c)) ++ data_of fs.

Lemma ws_gave_send p ms c r c' :
  ws_gave ms c → websocket_send_binary p c = (r, c') → ws_gave (if is_ok r then ms ++ [p] else ms) c'.
Proof.
  intros (Hc & Hside & fs & Hs & <-) H. split.
  { pose proof (keeps_queue_frame 2 p c Hc) as Hk. unfold websocket_send_binary in H. by rewrite H in Hk. }
  apply (queue_emits before 2 p c r c' fs ltac:(by left) Hc Hs) in H as (Hcf & _ & _ & He).
  split; [by rewrite Hcf|]. eexists. split; [exact He|].
  - destruct r; cbn [is_ok]; [|done]. by rewrite data_of_app.
Qed.

Lemma ws_owes_queue ms op p : op ∈ [2; 8; 9; 10] → keeps (ws_owes ms) (queue_frame op p).
Proof.
  intros Hop c ([Hc Hf] & fs & Hs & ->). destruct (queue_frame op p c) as [r c'] eqn:H.
  pose proof (calm_queue op p c (conj Hc Hf)) as Hc'. rewrite H in Hc'. split; [done|]. exists fs.
  apply queue_frame_spec in H as (_ & [_ Hi] & Hr); [|done].
  assert (Hsame : conf (ws c') = conf (ws c) ∧ rxs (ws c') = rxs (ws c)).
  { destruct r; [destruct Hr as (?&?&?&_&_&_&_&->&_)|rewrite Hr]; done. }
  destruct Hsame as [E1 E2]. unfold expects, cap_of in *. simpl. by rewrite E1, E2, Hi.
Qed.

(** A call that changes neither the session nor the streams. *)
Lemma stalled_same t c : ∃ r c', websocket_tx_stalled t c = (r, c') ∧ ws c' = ws c ∧ same_wire c c'.
Proof.
  unfold websocket_tx_stalled, mbind, M_bind, session, gets, mono_ms, os, mret, M_ret.
  destruct (_ || _); [by eexists _, _|].
  pose proof (wire_now (net c)) as [Ho Hi]. destruct (now_ms (net c)) as [ms n]. by eexists _, _.
Qed.

Lemma ws_gave_plain ms A (m : M Conn A) : plain_call (R := WebSocketCarrier) m → keeps (ws_gave ms) m.
Proof.
  intros [n|t|p|] c (Hc & Hside & fs & Hs & <-); simpl.
  - destruct (flush_emits before n c fs Hc Hs) as (Hcf & _ & _ & He).
    split; [by apply flush_ok|]. split; [by rewrite Hcf|]. by exists fs.
  - destruct (stalled_same t c) as (r & c' & -> & Hw & [Ho _]). unfold ws_gave, emits, conn_ok in *. simpl.
    rewrite Hw, Ho. eauto.
  - destruct (queue_frame 9 p c) as [r c'] eqn:H. unfold websocket_send_ping. rewrite H.
    pose proof (keeps_queue_frame 9 p c Hc) as Hk. rewrite H in Hk.
    apply (queue_emits before 9 p c r c' fs ltac:(set_solver) Hc Hs) in H as (Hcf & _ & _ & He).
    split; [done|]. split; [simpl; by rewrite Hcf|]. eexists. split; [exact He|].
    destruct r; cbn [is_ok]; [|done]. by rewrite data_of_app, app_nil_r.
  - split; [by apply take_pongs_ok|]. split; [done|]. by exists fs.
Qed.

Lemma ws_owes_plain ms A (m : M Conn A) : plain_call (R := WebSocketCarrier) m → keeps (ws_owes ms) m.
Proof.
  intros [n|t|p|] c ([Hc Hf] & fs & Hs & ->); simpl.
  - pose proof (flush_ok n c Hc) as Hk. unfold websocket_flush in *. destruct (n =? 0)%nat; [by split; [|exists fs]|].
    unfold mbind, M_bind, session, gets in *. destruct (flush_loop _ n 0 c) as [r c'] eqn:H.
    apply flush_loop_spec in H as (_ & Hrx & Hcf & _ & _ & _ & _ & _ & _ & Hi); [|done|lia].
    unfold ws_owes, calm, expects, cap_of in *. simpl in *. rewrite Hcf, Hrx, Hi. eauto.
  - destruct (stalled_same t c) as (r & c' & -> & Hw & [_ Hi]).
    unfold ws_owes, calm, expects, conn_ok in *. simpl. rewrite Hw, Hi. eauto.
  - apply (ws_owes_queue _ 9 p ltac:(set_solver)). split; [done|]. by exists fs.
  - pose proof (take_pongs_ok c Hc) as Hk. split; [by split|]. by exists fs.
Qed.

(** Replies to pings and to a close are frames of their own among the messages. *)
Lemma replies_fit mask o ms :
  grows_by_control mask (λ u, ∃ fs s, o ++ u = before ++ s ∧ framed mask kMaxWsMessageBytes s fs ∧ data_of fs = ms).
Proof.
  intros u op p mk (fs & s & Hs & Hf & <-) Hop Hp Hmk. exists (fs ++ [(op, p)]), (s ++ frame_bytes mask op p mk).
  split; [by rewrite !app_assoc, Hs|]. split.
  - apply framed_snoc; auto; [by right|unfold kMaxWsMessageBytes; lia].
  - rewrite data_of_app. unfold data_of at 2. rewrite filter_cons_False; [by rewrite app_nil_r|].
    simpl. intros ->. set_unfold in Hop. by destruct Hop as [|[|[|[]]]].
Qed.

Lemma ws_gave_read ms t : keeps (ws_gave ms) (websocket_read_messages t).
Proof.
  intros c Hg. split; [by apply read_messages_ok, Hg|]. destruct Hg as (Hc & Hside & fs & Hs & <-).
  assert (Hsame : ∀ c', txs (ws c') = txs (ws c) → conf (ws c') = conf (ws c) →
    outgoing (net c') = outgoing (net c) →
    client (conf (ws c')) = side ∧ ∃ gs, emits before gs c' ∧ data_of gs = data_of fs).
  { intros c' E1 E2 E3. split; [by rewrite E2|]. exists fs. split; [|done]. unfold emits. by rewrite E1, E2, E3. }
  unfold websocket_read_messages. generalize (Z.to_nat kReadBudget). intros fuel.
  unfold mbind, M_bind, session, gets, check, throw, mret, M_ret.
  destruct (negb _); [by apply Hsame|]. destruct (close_received _); [by apply Hsame|].
  destruct (_ && _); [by apply Hsame|]. destruct (input_ready (ws c) t c) as [q c1] eqn:Hi.
  apply input_ready_spec in Hi as (Hw1 & [Ho1 _] & ready & ->).
  destruct ready; cbn [negb]; [|apply Hsame; simpl; by rewrite ?Hw1].
  destruct (read_loop _ 0 c1) as [q c2] eqn:Hl.
  apply read_loop_spec in Hl as ((E1 & E2 & E3 & E4) & Hok2 & Ho2 & _ & _); [|rewrite Hw1; apply Hc].
  rewrite Hw1 in *. destruct q as [[]|e]; [|apply Hsame; simpl; congruence].
  assert (Hc2 : conn_ok c2) by (split; [rewrite E4; apply Hc|done]).
  destruct (take_messages c2) as [r c'] eqn:H.
  apply (take_messages_ok (λ u, ∃ gs s, outgoing (net c2) ++ u = before ++ s
           ∧ framed (client (conf (ws c2))) kMaxWsMessageBytes s gs ∧ data_of gs = data_of fs)) in H; [|done| |].
  - destruct H as [_ _ Hcf _ Ho _ _ (gs & s & Hu & Hf & Hgs)].
    split; [simpl; by rewrite Hcf, E1|]. exists gs. split; [|done]. exists s. simpl. by rewrite Hcf, Ho.
  - apply replies_fit.
  - destruct Hs as (s & Hu & Hf). exists fs, s. rewrite E4, E1, Ho2, Ho1. done.
Qed.

Lemma ws_owes_read t ms c out c' :
  ws_owes ms c → websocket_read_messages t c = (Ok out, c') → ∃ ms', ms = out ++ ms' ∧ ws_owes ms' c'.
Proof.
  intros (Hc & fs & Hs & ->) H. destruct (decide (prefetched_messages (rxs (ws c)) = [])) as [Hpre|Hpre].
  - apply (read_messages_framed never _ _ _ _ _ Hc Hpre Hs) in H as [Hout _].
    destruct (Hout out eq_refl) as (Hc' & Hpre' & _ & fs1 & fs2 & -> & -> & Hs').
    exists (data_of fs2). rewrite Hpre, data_of_app. split; [done|]. split; [done|]. exists fs2. by rewrite Hpre'.
  - unfold websocket_read_messages in H. revert H. generalize (Z.to_nat kReadBudget). intros fuel H.
    unfold mbind, M_bind, session, gets in H.
    destruct (prefetched_messages (rxs (ws c))) as [|m l] eqn:Hl; [done|].
    injection H as <- <-. exists (data_of fs). split; [done|]. destruct Hc as [[Ht Hr] Hf].
    split; [split; [|done]; split; [done|by apply prefetched_ok]|].
    by exists fs.
Qed.

(** A WebSocket session as a carrier with its promise. *)
Definition websocket_carrier : CarrierContract WebSocketCarrier := {|
  gave := ws_gave : list bytes → @carrier WebSocketCarrier → Prop;
  owes := ws_owes : list bytes → @carrier WebSocketCarrier → Prop;
  gave_send := ws_gave_send;
  gave_plain := ws_gave_plain;
  gave_read := ws_gave_read;
  owes_send ms p := ws_owes_queue ms 2 p ltac:(by left);
  owes_plain := ws_owes_plain;
  owes_read := ws_owes_read;
|}.
End WebSocketContract.

(** ** The loop over such a carrier *)

Section Relay.
Context {C : Crypto} {CL : CryptoLaws C} {K : LoopOs} {Pt : Patience K} {R : Carrier} {RC : CarrierContract R}.
Context (cfg : Config) (tx_key : bytes) (tick : M Ticking unit).
Abbreviation sent_by s := (messages_sent (trace s)).

(** A property [Q] of the messages sent, the messages received and the carrier is
    kept by whatever neither receives nor breaks it in a call of the carrier. *)
Section View.
Context (Q : list bytes → list bytes → carrier → Prop).
Context (Q_plain : ∀ ms fd A (m : M carrier A), plain_call m → keeps (Q ms fd) m).
Context (Q_send : ∀ ms fd p c r c', Q ms fd c → carrier_send p c = (r, c') → Q (if is_ok r then ms ++ [p] else ms) fd c').

Definition viewed (s : Link) : Prop := Q (sent_by s) (fed (trace s)) (link_carrier s).

Lemma viewed_same s s' :
  CarrierProps.outgoing s' = CarrierProps.outgoing s → fed (trace s') = fed (trace s) →
  link_carrier s' = link_carrier s → viewed s → viewed s'.
Proof using Type.
  unfold CarrierProps.outgoing, viewed. intros Ho Hf Hc H. injection Ho as _ _ Hm _ _. by rewrite Hm, Hf, Hc.
Qed.

Lemma viewed_call A (m : M carrier A) : plain_call m → keeps viewed (on_carrier m).
Proof using Q_plain.
  intros Hm s Hs. unfold on_carrier, viewed in *. specialize (Q_plain _ _ A m Hm _ Hs).
  by destruct (m (link_carrier s)) as [r c].
Qed.

Lemma viewed_steady : steady viewed.
Proof using Q_plain. apply feeding_steady; [apply viewed_same|apply viewed_call]. Qed.

Lemma viewed_keep f :
  (∀ s, sent_by (f s) = sent_by s ∧ fed (trace (f s)) = fed (trace s) ∧ link_carrier (f s) = link_carrier s) →
  keeps viewed (modify f).
Proof using Type.
  intros H. apply keeps_modify. intros s Hs. destruct (H s) as (E1 & E2 & E3).
  unfold viewed. by rewrite E1, E2, E3.
Qed.
#[local] Hint Extern 3 (keeps _ (modify _)) => apply viewed_keep; done : pt.

Lemma viewed_submit payload flags packet : keeps viewed (submit cfg tx_key payload flags packet).
Proof using Q_plain.
  pose proof viewed_steady as St. unfold submit, encode.
  assert (keeps viewed (take_sequence payload flags)) by by intros s.
  pose proof (steady_us _ St). pose proof (steady_padding cfg _ St).
  assert (keeps viewed read_clock) by (by apply quiet_ask).
  assert (∀ A (f : rng → res (A * rng)), keeps viewed (with_rng f)) by (intros; by apply quiet_rng).
  assert (keeps viewed get) by apply keeps_gets.
  keep.
Qed.

Lemma viewed_gather s limit message o :
  viewed s → gather cfg limit 0 [] (queue (link_box s)) (link_box s) = (message, o) →
  viewed (set_box o s) ∧ (message ≠ [] → viewed (send_message message (set_box o s)).2).
Proof using Q_send.
  intros Hs _. split; [done|]. intros _.
  unfold send_message, on_carrier, mbind, M_bind. cbn [set_box set_queues link_carrier].
  destruct (carrier_send message (link_carrier s)) as [r c] eqn:Hc.
  apply (Q_send _ _ _ _ _ _ Hs) in Hc. by destruct r.
Qed.

Lemma viewed_feed msg : keeps viewed (feed_message cfg tx_key msg).
Proof using Q_plain Q_send.
  apply feeding_message; [apply viewed_same|apply viewed_call|by intros; apply viewed_submit|apply viewed_gather].
Qed.
End View.

(** *** Sending: the messages the loop has sent are those its carrier took. *)

Definition sending : Link → Prop := viewed (λ ms _ c, gave ms c).

Lemma sending_receive : keeps sending (receive_messages cfg tx_key).
Proof using CL.
  assert (St : steady sending) by (apply viewed_steady; intros ms _; apply gave_plain).
  assert (keeps sending get) by apply keeps_gets.
  assert (keeps sending read_clock) by by apply quiet_ask.
  assert (keeps sending (on_carrier (carrier_read 0))).
  { intros s Hs. pose proof (gave_read _ 0 _ Hs). unfold on_carrier. by destruct (carrier_read 0 (link_carrier s)). }
  assert (keeps sending (on_carrier carrier_take_pongs)) by apply (steady_call _ St), call_pongs.
  assert (Hmod : ∀ f, (∀ s, sent_by (f s) = sent_by s ∧ link_carrier (f s) = link_carrier s) → keeps sending (modify f)).
  { intros f Hf. apply keeps_modify. intros s Hs. destruct (Hf s) as [E1 E2].
    unfold sending, viewed in *. by rewrite E1, E2. }
  assert (∀ msg, keeps sending (feed_message cfg tx_key msg)).
  { intros msg. apply viewed_feed; [intros ms _; apply gave_plain|intros ms _ p c r c'; apply gave_send]. }
  unfold receive_messages, handle_message. keep; try (by apply Hmod).
  - apply steady_each. intros p. by apply steady_pong.
  - apply steady_each. intros m. keep; by apply Hmod.
Qed.

Lemma sending_run n : keeps sending (carrier_tunnel_loop cfg tx_key tick n).
Proof using CL.
  apply upholds_keeps, (turns_run cfg tx_key tick (λ _ : unit, sending)); try done.
  - intros _. apply viewed_steady. intros ms _. apply gave_plain.
  - intros _ payload flags packet _. apply viewed_submit. intros ms _. apply gave_plain.
  - intros _. apply viewed_gather. intros ms _ p c r c'. apply gave_send.
  - intros A m Hm. apply upholds_keeps, (Hm tt).
  - apply upholds_keeps, sending_receive.
Qed.

(** *** Receiving: [x] are the messages received and those still to come. *)

Definition relays (x : list bytes * list bytes) : Link → Prop := viewed (λ _ fd c, fd = x.1 ∧ owes x.2 c).

Lemma relays_plain x (ms fd : list bytes) A (m : M carrier A) :
  plain_call m → keeps (λ c, fd = x.1 ∧ owes x.2 c) m.
Proof using Type. intros Hm c [Hf Ho]. split; [done|]. by apply owes_plain. Qed.

Lemma relays_send x (ms fd : list bytes) p c r c' :
  fd = x.1 ∧ owes x.2 c → carrier_send p c = (r, c') → fd = x.1 ∧ owes x.2 c'.
Proof using Type. intros [Hf Ho] Hc. split; [done|]. pose proof (owes_send _ p _ Ho) as H. by rewrite Hc in H. Qed.

Lemma relays_steady x : steady (relays x).
Proof using Type. apply viewed_steady. intros. by apply relays_plain. Qed.

(** The messages received and those to come are [total]. *)
Definition relaying (total : list bytes) (s : Link) : Prop :=
  ∃ ahead, relays (fed (trace s), ahead) s ∧ total = fed (trace s) ++ ahead.
Definition relayed (total : list bytes) (s : Link) : Prop := fed (trace s) `prefix_of` total.

Lemma relaying_end total s : relaying total s → relayed total s.
Proof using Type. intros (ahead & _ & ->). by exists ahead. Qed.

(** The messages of one read, handled one after the other. *)
Lemma relays_messages total ms : ∀ rest s,
  relays (fed (trace s), rest) s → total = fed (trace s) ++ ms ++ rest →
  ends (λ _, relaying total) (relayed total) (each (handle_message cfg tx_key) ms s).
Proof using CL.
  induction ms as [|m ms IH]; intros rest s Hs Ht; [by exists rest|]. cbn [each].
  assert (Hk : ends (λ _ s', relays (fed (trace s) ++ [m], rest) s') (λ s', relays (fed (trace s) ++ [m], rest) s')
                 (handle_message cfg tx_key m s)).
  { unfold handle_message. eapply (ends_bind (λ _ s', relays (fed (trace s), rest) s' ∧ fed (trace s') = fed (trace s)));
      [by split|]. intros [] s1 [[_ Ho] Hf1].
    eapply (ends_bind (λ _ s', relays (fed (trace s) ++ [m], rest) s')); [by split; [simpl; rewrite Hf1|]|].
    intros [] s2 Hs2. apply (upholds_keeps (relays _)); [|done].
    apply viewed_feed; [intros; by apply relays_plain|intros; by eapply relays_send]. }
  eapply ends_bind; [eapply ends_weaken; [exact Hk|done|]|].
  - intros s' [Hf _]. simpl in Hf. unfold relayed. rewrite Hf, Ht. exists (ms ++ rest). by rewrite <- app_assoc.
  - intros [] s' Hs'. pose proof Hs' as [Hf _]. simpl in Hf. apply (IH rest); [by rewrite Hf|].
    by rewrite Hf, Ht, <- app_assoc.
Qed.

Lemma relaying_family total A (m : M Link A) :
  (∀ x, keeps (relays x) m) → upholds (relaying total) (relayed total) m.
Proof using Type.
  intros Hm s (ahead & Hs & Ht). specialize (Hm _ s Hs).
  assert (Hw : relaying total (m s).2).
  { exists ahead. destruct Hm as [Hf Ho]. simpl in *. rewrite Hf. by split. }
  destruct (m s) as [[a|e] s']; [done|]. by apply relaying_end.
Qed.

Lemma relays_receive total : upholds (relaying total) (relayed total) (receive_messages cfg tx_key).
Proof using CL.
  intros s (ahead & Hs & Ht). unfold receive_messages.
  eapply (ends_bind (λ _ s', relays (fed (trace s), ahead) s')); [done|]. intros s0 s1 Hs1.
  eapply (ends_bind (λ ms s', ∃ rest, relays (fed (trace s), rest) s' ∧ total = fed (trace s) ++ ms ++ rest)).
  { destruct Hs1 as [Hf Ho]. unfold on_carrier.
    destruct (carrier_read 0 (link_carrier s1)) as [[out|e] c] eqn:Hr; simpl in *.
    - apply (owes_read _ _ _ _ _ Ho) in Hr as (rest & -> & Ho'). by exists rest.
    - unfold relayed. simpl. rewrite Hf, Ht. by exists ahead. }
  intros ms s2 (rest & Hs2 & Ht2).
  assert (Hq : ∀ A B (m : M Link A) (f : A → M Link B) s3,
    keeps (relays (fed (trace s), rest)) m → relays (fed (trace s), rest) s3 →
    (∀ a s4, relays (fed (trace s), rest) s4 → ends (λ _, relaying total) (relayed total) (f a s4)) →
    ends (λ _, relaying total) (relayed total) ((m ≫= f) s3)).
  { intros A B m f s3 Hm Hs3 Hf. eapply (ends_bind (λ _, relays (fed (trace s), rest))); [|done].
    specialize (Hm s3 Hs3). destruct (m s3) as [[a|e] s4]; [done|]. destruct Hm as [Hf4 _].
    simpl in Hf4 |- *. unfold relayed. rewrite Hf4, Ht2. by eexists. }
  pose proof (relays_steady (fed (trace s), rest)) as St.
  assert (keeps (relays (fed (trace s), rest)) get) by apply keeps_gets.
  assert (keeps (relays (fed (trace s), rest)) read_clock) by by apply quiet_ask.
  assert (keeps (relays (fed (trace s), rest)) (on_carrier carrier_take_pongs)) by apply (steady_call _ St), call_pongs.
  revert s2 Hs2.
  do 6 (intros ? ?; apply Hq; [try solve [auto with pt|destruct (_ =? _); keep]|done|intros ?]).
  - apply steady_each. intros p. by apply steady_pong.
  - intros s8 Hs8. apply (relays_messages _ _ rest); pose proof Hs8 as [Hf _]; simpl in Hf; by rewrite Hf.
Qed.

Lemma relays_run total n s :
  fed (trace s) = [] → owes total (link_carrier s) → relayed total (carrier_tunnel_loop cfg tx_key tick n s).2.
Proof using CL.
  intros Hf Ho. assert (Hs : relaying total s) by (exists total; rewrite Hf; by split).
  assert (H : upholds (relaying total) (relayed total) (carrier_tunnel_loop cfg tx_key tick n)).
  { apply (turns_run cfg tx_key tick relays).
    - apply relays_steady.
    - apply relaying_end.
    - intros x payload flags packet _. apply viewed_submit. intros. by apply relays_plain.
    - intros x. apply viewed_gather. intros. by eapply relays_send.
    - done.
    - apply relaying_family.
    - apply relays_receive. }
  specialize (H s Hs). destruct (carrier_tunnel_loop cfg tx_key tick n s) as [[[]|e] s']; [by apply relaying_end|done].
Qed.
End Relay.

(** ** Both ends over a connection *)

Section EndToEnd.
Context {C : Crypto} {CL : CryptoLaws C} {K : LoopOs} {Pt : Patience K}.
Context {T : Transport} {TL : TransportLaws T} {WR : Wire T}.

#[local] Existing Instance WebSocketCarrier.

(** [c2] is at the other end of [c1], with nothing half received. *)
Record opposite (c1 c2 : Conn) : Prop := {
  opposite_ok : conn_ok c1;
  opposite_ok' : conn_ok c2;
  opposite_quiet : quiet (ws c2);
  opposite_role : client (conf (ws c2)) = negb (client (conf (ws c1)));
  opposite_checked : authenticated (conf (ws c2)) = true;
}.

(** What [c2] has in its buffer and will read is a beginning of what the session
    [c1] writes until its loop has come to [a]. *)
Definition arrives (c1 : Conn) (a : Link) (c2 : Conn) : Prop :=
  (outgoing (net c1) ++ unsent (txs (ws c1))) ++ rx (rxs (ws c2)) ++ incoming (net c2)
    `prefix_of` outgoing (net (link_carrier a)).

(** The sender's configuration has passed the validation, its batches fit the
    receiver's record buffer, and its sequence numbers last. *)
Record sends_within (cfg1 cfg2 : Config) (a : Link) : Prop := {
  within_typed : sizes_typed cfg1;
  within_valid : validate_config cfg1 = Ok tt;
  within_buffer : batch_bytes cfg1 <= max_record_buffer_bytes cfg2;
  within_numbers : zlen (encoded (trace a)) < 2 ^ 64 - 1;
}.

(** The whole tunnel, from one TUN device to the other, over nothing but the
    bytes of a WebSocket connection. Whatever the two devices, the clocks, the
    cutting into reads and writes and the bytes of the other direction are: the
    packets the receiving loop gives to its TUN device are a subsequence of the
    packets the sending loop has encoded: in order, unaltered, none twice. *)
Lemma websocket_delivers cfg1 cfg2 key key' rx_key tick1 tick2 st1 st2 ev1 ev2 w1 w2 (c1 c2 : Conn)
    g1 g2 n1 n2 :
  let a := (carrier_tunnel_loop cfg1 key tick1 n1 (new_link cfg1 rx_key st1 ev1 w1 c1 g1)).2 in
  let b := (carrier_tunnel_loop cfg2 key' tick2 n2 (new_link cfg2 key st2 ev2 w2 c2 g2)).2 in
  sends_within cfg1 cfg2 a → opposite c1 c2 → arrives c1 a c2 →
  injected (trace b) `sublist_of` packets (encoded (trace a)).
Proof.
  intros a b [Ht Hv Hbuf Hlen] [Hc1 Hc2 Hq Hrole Hauth] [k Hk].
  set (before := outgoing (net c1) ++ unsent (txs (ws c1))) in *.
  set (side := client (conf (ws c1))) in *.
  assert (Hsent : ws_gave side before (messages_sent (trace a)) (link_carrier a)).
  { apply (sending_run (RC := websocket_carrier side before []) cfg1 key tick1 n1).
    split; [done|]. split; [done|]. exists []. split; [|done]. exists []. split; [by rewrite app_nil_r|constructor]. }
  destruct Hsent as (_ & Hside & fs & (s & Hout & Hf) & Hdata). rewrite Hk, <- !app_assoc in Hout.
  apply app_inv_head in Hout. set (never := k ++ unsent (txs (ws (link_carrier a)))) in *.
  apply (carrier_tunnel_end_to_end (R := WebSocketCarrier) cfg1 cfg2 key key' rx_key tick1 tick2 st1 st2 ev1 ev2
           w1 w2 c1 c2 g1 g2 n1 n2 Ht Hv Hbuf Hlen).
  apply (relays_run (RC := websocket_carrier side before never) cfg2 key' tick2 (messages_sent (trace a)) n2); [done|].
  destruct Hq as (Hfrag & Hpre & _). split; [done|]. exists fs. split; [|simpl; by rewrite Hpre].
  unfold expects, cap_of. simpl. rewrite Hauth, Hrole, negb_involutive. fold side. rewrite Hside in Hf. by rewrite Hout.
Qed.
End EndToEnd.

(** ** Two ends in a concrete world *)

Module WireDemo.
Import Toy Loop World CarrierDemo.

Definition c1 : Conn (C := crypto) (T := transport) := WsDemo.client0.
Definition a := (carrier_tunnel_loop cfg key tick 5 (new_link (R := WebSocketCarrier) cfg key' new_stats [] wa c1 seed)).2.

(** The other end has received all but the last bytes, in pieces. *)
Definition wire : bytes := Loop.sent (net (link_carrier a)).
Definition c2 : Conn (C := crypto) (T := transport) :=
  mkConn (C := crypto) (T := transport)
    (set_conf (mkConf false true false 30000 true true) (new_session false))
    (mkNet [] [take 50 wire; take 150 (drop 50 wire); drop 200 (take (length wire - 5) wire)] 0) 0.
Definition b := (carrier_tunnel_loop cfg key' tick 4 (new_link (R := WebSocketCarrier) cfg key new_stats [] wb c2 seed)).2.

Example packets_over_the_wire : injected (trace b) = [packet 30 69; packet 100 96].
Proof. by vm_compute. Qed.
End WireDemo.
