(* ===== verification/EndToEnd.v ===== *)
(** * From the handshake to the TUN devices

    The pieces together, as [run] puts them together: the keys of the
    authenticated handshake ([Agreement]) key the two loops, whose sessions
    exchange nothing but bytes ([CarrierStream]). *)

From S2P Require Import Prelude.
From S2P Require Import Text Crypto Keys RecordLoop Record Config ConfigBounds Tun LoopOs Outbox.
From S2P Require Import FlowScheduler FlowQueue Traffic Telemetry Budget Carrier CarrierLoop Sequence CarrierProps.
From S2P Require Import Transport WsFrame WebSocket WsReceive CarrierStream HttpUpgrade Handshake Agreement.

Section EndToEnd.
Context {H : HttpLib} {C : Crypto} {CL : CryptoLaws C} {HL : HandshakeLaws C} {K : LoopOs} {Pt : Patience K}.
Context {T : Transport} {TL : TransportLaws T} {WR : Wire T}.
#[local] Existing Instance WebSocketCarrier.

(** C1: the authenticated tunnel from end to end, in both directions. A client
    and a server return from the handshake, their hellos having arrived unaltered,
    and each runs [carrier_tunnel_loop] under the keys of its result over a
    WebSocket session; what a session reads is a beginning of what the other
    writes, however either is cut. Both configurations have passed the validation,
    the messages of each side fit the record buffer of the other, and fewer than
    2^64 - 1 records were encoded on either side. Then what each side gives to its TUN device is a
    subsequence of the packets the other side has encoded (in order, unaltered,
    none twice), unless two different inputs of HMAC had the same tag in the
    handshake. *)
Theorem authenticated_tunnel_end_to_end host path psk max trial pool host' path' psks pool' pc ps rc rs pc' ps'
    cfg1 cfg2 tick1 tick2 st1 st2 ev1 ev2 w1 w2 (c1 c2 : Conn) g1 g2 n1 n2 :
  websocket_client_upgrade host path psk max trial pool pc = (Ok rc, pc') →
  websocket_server_upgrade host' path' psks pool' ps = (Ok rs, ps') →
  fresh pc → fresh ps → head (got ps') = head (Handshake.sent pc') → head (got pc') = head (Handshake.sent ps') →
  10 ∉ host → 10 ∉ host' →
  let a := (carrier_tunnel_loop cfg1 (client_tx (keys rc)) tick1 n1
              (new_link cfg1 (server_tx (keys rc)) st1 ev1 w1 c1 g1)).2 in
  let b := (carrier_tunnel_loop cfg2 (server_tx (keys rs)) tick2 n2
              (new_link cfg2 (client_tx (keys rs)) st2 ev2 w2 c2 g2)).2 in
  sends_within cfg1 cfg2 a → sends_within cfg2 cfg1 b → opposite c1 c2 → opposite c2 c1 →
  arrives c1 a c2 → arrives c2 b c1 →
  (injected (trace b) `sublist_of` packets (encoded (trace a))
   ∧ injected (trace a) `sublist_of` packets (encoded (trace b)))
  ∨ ∃ used cpub, psks !! psk_index rs = Some used
      ∧ same_tag psk (token_input host path (client_nonce rc) (cpub ++ pool_binding pool))
          used (token_input host' path' (client_nonce rc) (cpub ++ pool_binding pool')).
Proof.
  intros Hc Hs Fc Fs Hcs Hsc Hn Hn' a b Wa Wb O12 O21 Aa Ab.
  destruct (hellos_bind _ _ _ _ _ _ _ _ _ _ _ _ _ _ _ _ Hc Hs Fc Fs Hcs Hsc Hn Hn')
    as (used & cpub & Hused & (o & Ho & Ho') & Hsame).
  destruct (decide ((psk, token_input host path (client_nonce rc) (cpub ++ pool_binding pool))
    = (used, token_input host' path' (client_nonce rc) (cpub ++ pool_binding pool')))) as [E|E].
  - left. destruct (Hsame E) as (_ & _ & _ & _ & _ & _ & Hk). unfold b in *. rewrite Hk in *. fold b.
    split; by eapply websocket_delivers.
  - right. exists used, cpub. split; [done|]. split; [done|]. eauto.
Qed.
End EndToEnd.

(** ** Two ends in a concrete world *)

Module TunnelDemo.
Import Toy World.
Abbreviation session := (Conn (C := crypto) (T := Loop.transport)).

Definition end_of (is_client : bool) (inbox : list bytes) : session :=
  mkConn (C := crypto) (T := Loop.transport)
    (set_conf (mkConf false true is_client 30000 true true) (new_session is_client)) (Loop.mkNet [] inbox 0) 5.
Definition wb : lworld := mkWorld [packet 40 69; packet 20 96] [] 0 2.
Definition client_loop (inbox : list bytes) :=
  (carrier_tunnel_loop CarrierDemo.cfg (client_tx (keys HandshakeDemo.rc)) CarrierDemo.tick 5
     (new_link (R := WebSocketCarrier) CarrierDemo.cfg (server_tx (keys HandshakeDemo.rc)) new_stats [] CarrierDemo.wa
        (end_of true inbox) CarrierDemo.seed)).2.
Definition server_loop (inbox : list bytes) :=
  (carrier_tunnel_loop CarrierDemo.cfg (server_tx (keys HandshakeDemo.rs)) CarrierDemo.tick 5
     (new_link (R := WebSocketCarrier) CarrierDemo.cfg (client_tx (keys HandshakeDemo.rs)) new_stats [] wb
        (end_of false inbox) CarrierDemo.seed)).2.
Definition wire (s : Link (R := WebSocketCarrier (T := Loop.transport))) : bytes := Loop.sent (net (link_carrier s)).

(** Each end has received some of what the other writes, in pieces; what an end
    writes does not depend on how much of it has arrived. *)
Definition cut (n : nat) (l : bytes) : list bytes := [take 50 (take n l); drop 50 (take n l)].
Definition to_server : list bytes := Eval vm_compute in cut 230 (wire (client_loop [])).
Definition to_client : list bytes := Eval vm_compute in cut 100 (wire (server_loop to_server)).
Definition a := client_loop to_client.
Definition b := server_loop to_server.

Example packets_both_ways :
  injected (trace b) = [packet 30 69; packet 100 96] ∧ injected (trace a) = [packet 40 69].
Proof. split; by vm_compute. Qed.
End TunnelDemo.

Lemma authenticated_tunnel_end_to_end_witness :
  injected (trace TunnelDemo.b) `sublist_of` packets (encoded (trace TunnelDemo.a))
  ∧ injected (trace TunnelDemo.a) `sublist_of` packets (encoded (trace TunnelDemo.b)).
Proof.
  unfold TunnelDemo.b, TunnelDemo.a, TunnelDemo.client_loop, TunnelDemo.server_loop.
  destruct (authenticated_tunnel_end_to_end (C := Toy.crypto) (H := HandshakeDemo.http) (CL := Toy.crypto_laws)
    (HL := HandshakeDemo.laws) (Pt := World.loop_patience) (T := Loop.transport) (TL := Loop.transport_laws) (WR := Loop.wire)
    HandshakeDemo.host HandshakeDemo.path HandshakeDemo.psk 1000 true 2 HandshakeDemo.host HandshakeDemo.path
    [repeat 8 32; HandshakeDemo.psk] 2 HandshakeDemo.client_party HandshakeDemo.server_party HandshakeDemo.rc
    HandshakeDemo.rs HandshakeDemo.client_run.2 HandshakeDemo.server_run.2
    CarrierDemo.cfg CarrierDemo.cfg CarrierDemo.tick CarrierDemo.tick new_stats new_stats [] [] CarrierDemo.wa
    TunnelDemo.wb (TunnelDemo.end_of true TunnelDemo.to_client) (TunnelDemo.end_of false TunnelDemo.to_server)
    CarrierDemo.seed CarrierDemo.seed 5 5 HandshakeDemo.client_returns HandshakeDemo.server_returns) as [Hd|Hd].
  - repeat split.
  - repeat split.
  - apply HandshakeDemo.hellos_arrive.
  - apply HandshakeDemo.hellos_arrive.
  - exact HandshakeDemo.host_is_a_line.
  - exact HandshakeDemo.host_is_a_line.
  - split; [exact CarrierDemo.carrier_cfg_typed|by vm_compute..].
  - split; [exact CarrierDemo.carrier_cfg_typed|by vm_compute..].
  - split; [exact (new_session_ok true)|exact (new_session_ok false)|by vm_compute..].
  - split; [exact (new_session_ok false)|exact (new_session_ok true)|by vm_compute..].
  - exists (drop 230 (TunnelDemo.wire TunnelDemo.a)). by vm_compute.
  - exists (drop 100 (TunnelDemo.wire TunnelDemo.b)). by vm_compute.
  - exact Hd.
  - exfalso. destruct Hd as (used & cpub & Hused & Hd). rewrite HandshakeDemo.server_key in Hused.
    injection Hused as <-. destruct Hd as [Hd _]. by apply Hd.
Defined.
