(* ===== verification/PoolLane.v ===== *)
(** * One lane of the connection pool (cdn/src/runtime.cpp, [PoolLane] and the loop over the lanes)

    A lane is an authenticated WebSocket connection with its own decoder, record
    numbers, packet queue, probes and shaper. Every turn of [pool_tunnel_loop]
    visits each lane once: it sends what waits, decodes what arrived, and looks
    after probes, pings and deadlines. An exception of a visit ends the lane.
    The lines written to [std::cerr] and [last_report], which times them, are
    left out, and so are [g_state] and [g_phase].

    [lane_trace] is not in the code: the messages queued on the connection,
    everything handed to the encoder, the packets given to the TUN device and
    the arguments of [feed]; no operation reads it. *)

From S2P Require Import Prelude.
From S2P Require Import Text Crypto Keys RecordLoop Record Config Tun LoopOs Outbox.
From S2P Require Import FlowScheduler FlowQueue Traffic Telemetry Budget Handshake CarrierLoop Transport WebSocket.

(** ** State *)

(** The time points of a lane; 0 is [Clock::time_point{}].
    [PoolLane] src/cdn/src/runtime.cpp:1071-1074 *)
Record LaneTimes := mkTimes {
  connected : Z; lane_rx : Z; lane_probe_at : Z; lane_tx : Z; drain_until : Z; last_data : Z; last_ws_ping : Z }.

(** Round trips of a lane.
    [PoolLane] src/cdn/src/runtime.cpp:1069-1077 *)
Record LaneProbe := mkLaneProbe {
  probe_token : Z; probe_outstanding : bool; lane_rtt_us : Z; rtt_sample : Z; renewal : LatencyRenewal }.

Section PoolLane.
Context {C : Crypto} {K : LoopOs} {T : Transport} (cfg : Config).
(** [server != nullptr] *)
Context (server : bool).

(** [PoolLane] src/cdn/src/runtime.cpp:1062-1086 *)
Record PoolLane := mkLane {
  conn : Conn; handshake : WsHandshakeResult; lane_dec : Decoder; waiting : FlowQueue; lane_shaper : BurstShaper;
  lane_id : Z; lane_seq : Z; lane_probe : LaneProbe; times : LaneTimes; draining : bool;
  ws_ping_pending : bool; ws_ping_payload : bytes; lane_trace : Trace }.

(** The locals of [pool_tunnel_loop] that all lanes share.
    [pool_tunnel_loop] src/cdn/src/runtime.cpp:1099-1100 *)
Record Shared := mkShared {
  sh_stats : Stats; sh_rtt : RttHistory; sh_shape : ShapeBudget; sh_padding : PaddingBudget;
  sh_events : list bytes; sh_os : lworld }.

Record Visit := mkVisit { lane_of : PoolLane; shared_of : Shared }.

Definition set_conn (c : Conn) (l : PoolLane) : PoolLane :=
  mkLane c (handshake l) (lane_dec l) (waiting l) (lane_shaper l) (lane_id l) (lane_seq l) (lane_probe l)
    (times l) (draining l) (ws_ping_pending l) (ws_ping_payload l) (lane_trace l).
Definition set_lane_coder (d : Decoder) (n : Z) (t : Trace) (l : PoolLane) : PoolLane :=
  mkLane (conn l) (handshake l) d (waiting l) (lane_shaper l) (lane_id l) n (lane_probe l)
    (times l) (draining l) (ws_ping_pending l) (ws_ping_payload l) t.
Definition set_waiting (q : FlowQueue.FlowQueue) (l : PoolLane) : PoolLane :=
  mkLane (conn l) (handshake l) (lane_dec l) q (lane_shaper l) (lane_id l) (lane_seq l) (lane_probe l)
    (times l) (draining l) (ws_ping_pending l) (ws_ping_payload l) (lane_trace l).
Definition set_lane_shaper (x : BurstShaper) (l : PoolLane) : PoolLane :=
  mkLane (conn l) (handshake l) (lane_dec l) (waiting l) x (lane_id l) (lane_seq l) (lane_probe l)
    (times l) (draining l) (ws_ping_pending l) (ws_ping_payload l) (lane_trace l).
Definition set_probe (p : LaneProbe) (l : PoolLane) : PoolLane :=
  mkLane (conn l) (handshake l) (lane_dec l) (waiting l) (lane_shaper l) (lane_id l) (lane_seq l) p
    (times l) (draining l) (ws_ping_pending l) (ws_ping_payload l) (lane_trace l).
Definition set_times (t : LaneTimes) (l : PoolLane) : PoolLane :=
  mkLane (conn l) (handshake l) (lane_dec l) (waiting l) (lane_shaper l) (lane_id l) (lane_seq l) (lane_probe l)
    t (draining l) (ws_ping_pending l) (ws_ping_payload l) (lane_trace l).
Definition set_draining (until : Z) (l : PoolLane) : PoolLane :=
  let t := times l in
  mkLane (conn l) (handshake l) (lane_dec l) (waiting l) (lane_shaper l) (lane_id l) (lane_seq l) (lane_probe l)
    (mkTimes (connected t) (lane_rx t) (lane_probe_at t) (lane_tx t) until (last_data t) (last_ws_ping t))
    true (ws_ping_pending l) (ws_ping_payload l) (lane_trace l).
Definition set_ws_ping (pending : bool) (payload : bytes) (l : PoolLane) : PoolLane :=
  mkLane (conn l) (handshake l) (lane_dec l) (waiting l) (lane_shaper l) (lane_id l) (lane_seq l) (lane_probe l)
    (times l) (draining l) pending payload (lane_trace l).
Definition set_lane_trace (t : Trace) (l : PoolLane) : PoolLane := set_lane_coder (lane_dec l) (lane_seq l) t l.

Definition mark_lane_rx (z : Z) (l : PoolLane) : PoolLane :=
  let t := times l in
  set_times (mkTimes (connected t) z (lane_probe_at t) (lane_tx t) (drain_until t) (last_data t) (last_ws_ping t)) l.
Definition mark_lane_tx (z : Z) (l : PoolLane) : PoolLane :=
  let t := times l in
  set_times (mkTimes (connected t) (lane_rx t) (lane_probe_at t) z (drain_until t) (last_data t) (last_ws_ping t)) l.
Definition mark_lane_data (z : Z) (l : PoolLane) : PoolLane :=
  let t := times l in
  set_times (mkTimes (connected t) (lane_rx t) (lane_probe_at t) (lane_tx t) (drain_until t) z (last_ws_ping t)) l.
Definition mark_lane_probe (z : Z) (l : PoolLane) : PoolLane :=
  let t := times l in
  set_times (mkTimes (connected t) (lane_rx t) z (lane_tx t) (drain_until t) (last_data t) (last_ws_ping t)) l.
Definition mark_ws_ping (z : Z) (l : PoolLane) : PoolLane :=
  let t := times l in
  set_times (mkTimes (connected t) (lane_rx t) (lane_probe_at t) (lane_tx t) (drain_until t) (last_data t) z) l.

Definition set_stats (st : Stats) (h : Shared) : Shared :=
  mkShared st (sh_rtt h) (sh_shape h) (sh_padding h) (sh_events h) (sh_os h).
Definition set_history (r : RttHistory) (h : Shared) : Shared :=
  mkShared (sh_stats h) r (sh_shape h) (sh_padding h) (sh_events h) (sh_os h).
Definition set_budgets (b : ShapeBudget) (p : PaddingBudget) (h : Shared) : Shared :=
  mkShared (sh_stats h) (sh_rtt h) b p (sh_events h) (sh_os h).
Definition set_shared_events (l : list bytes) (h : Shared) : Shared :=
  mkShared (sh_stats h) (sh_rtt h) (sh_shape h) (sh_padding h) l (sh_os h).
Definition set_os (w : lworld) (h : Shared) : Shared :=
  mkShared (sh_stats h) (sh_rtt h) (sh_shape h) (sh_padding h) (sh_events h) w.
Definition count_shared (f : Stats → Stats) (h : Shared) : Shared := set_stats (f (sh_stats h)) h.
Definition note_event (text : bytes) (h : Shared) : Shared := set_shared_events (push_event text (sh_events h)) h.

Abbreviation V := (M Visit).

Definition on_lane (f : PoolLane → PoolLane) : V unit := modify (λ v, mkVisit (f (lane_of v)) (shared_of v)).
Definition on_shared (f : Shared → Shared) : V unit := modify (λ v, mkVisit (lane_of v) (f (shared_of v))).
Definition lane : V PoolLane := gets lane_of.
Definition add (f : Stats → Stats) : V unit := on_shared (count_shared f).
Definition ask_os {A} (f : lworld → A * lworld) : V A := λ v,
  let (a, w) := f (sh_os (shared_of v)) in (Ok a, mkVisit (lane_of v) (set_os w (shared_of v))).
(** A call on the connection. *)
Definition on_conn {A} (m : M Conn A) : V A := λ v,
  let (r, c) := m (conn (lane_of v)) in (r, mkVisit (set_conn c (lane_of v)) (shared_of v)).
Definition with_entropy {A} (f : rng → res (A * rng)) : V A := on_conn (λ c,
  match f (entropy c) with
  | Ok (a, g) => (Ok a, mkConn (ws c) (net c) g)
  | Err e => (Err e, c)
  end).
Definition clock : V Z := ask_os clock_ns.
Definition clock_micros : V Z := t ← clock ; mret (u64 (micros t)).

Definition session_of (l : PoolLane) : WsSession := ws (conn l).
Definition lane_stats (l : PoolLane) : WsStats := WebSocket.stats (session_of l).
Definition tx_bytes (l : PoolLane) : Z := tx_queued_bytes (txs (session_of l)).

(** ** Encoding *)

(** [PoolLane::tx_key] src/cdn/src/runtime.cpp:1085-1085 *)
Definition lane_tx_key (l : PoolLane) : bytes :=
  let k := Handshake.keys (handshake l) in if text_is (mode cfg) "server" then server_tx k else client_tx k.

(** [lane.sequence++] and what the model notes of it. *)
Definition take_number (payload : bytes) (flags : Z) : V Z :=
  l ← lane ;
  let t := lane_trace l in
  on_lane (λ l, set_lane_coder (lane_dec l) (u64 (lane_seq l + 1))
    (mkTrace (messages_sent t) (encoded t ++ [mkDelivery flags (lane_seq l) payload]) (injected t) (fed t)) l) ;;
  mret (lane_seq l).

(** [encode_record_v5(lane.tx_key(cfg), lane.sequence++, payload, flags)] *)
Definition encode_plain (payload : bytes) (flags : Z) : V bytes :=
  l ← lane ; seq ← take_number payload flags ; Tun.pure_call (encode_record_v5 (lane_tx_key l) seq payload flags).

(** What a record of this kind may be padded with.
    [pool_tunnel_loop] src/cdn/src/runtime.cpp:1107-1108 *)
Definition lane_allowance (control : bool) (size maximum : Z) : V Z :=
  v ← gets shared_of ;
  requested ← (if control then
                 t ← clock_micros ;
                 let (a, d) := control_allowance maximum t (sh_padding v) in
                 on_shared (λ h, set_budgets (sh_shape h) d h) ;; mret a
               else
                 let (a, d) := data_allowance size maximum (sh_padding v) in
                 on_shared (λ h, set_budgets (sh_shape h) d h) ;; mret a) ;
  t ← clock_micros ;
  v ← gets shared_of ;
  let (a, b) := shape_allowance requested t (sh_shape v) in
  on_shared (λ h, set_budgets b (sh_padding h) h) ;; mret a.

(** A padded record is charged to the budgets.
    [pool_tunnel_loop] src/cdn/src/runtime.cpp:1111-1114 *)
Definition charge (control : bool) (extra : Z) : V unit :=
  on_shared (λ h, set_budgets (spend_shape extra (sh_shape h)) (sh_padding h) h) ;;
  if control then
    on_shared (λ h, set_budgets (sh_shape h) (spend_control extra (sh_padding h)) h) ;;
    add (bump padding_control_extra_tx extra)
  else
    on_shared (λ h, set_budgets (sh_shape h) (spend_data extra (sh_padding h)) h) ;;
    add (bump padding_extra_tx extra).

(** [encode] src/cdn/src/runtime.cpp:1101-1119 *)
Definition lane_encode (payload : bytes) (flags : Z) : V bytes :=
  if flags =? RECORD_DRAIN then encode_plain payload flags
  else
    let control := negb (flags =? 0) in
    (if control then mret tt
     else t ← clock_micros ; on_lane (λ l, set_lane_shaper (observe_bytes (zlen payload) t (lane_shaper l)) l)) ;;
    maximum ← (let m := if control then websocket_control_padding_bytes cfg else websocket_padding_max_bytes cfg in
               if traffic_shaping cfg && negb control then
                 t ← clock_micros ; l ← lane ; mret (maximum m (shaping_startup_ms cfg) t (lane_shaper l))
               else mret m) ;
    if 0 <? maximum then
      allowance ← lane_allowance control (zlen payload) maximum ;
      if 3 <=? allowance then
        l ← lane ;
        seq ← take_number payload flags ;
        record ← with_entropy (encode_envelope_record_v5 (lane_tx_key l) seq payload flags (allowance - 3)) ;
        charge control (u64 (zlen record - zlen payload - 32)) ;;
        mret record
      else encode_plain payload flags
    else encode_plain payload flags.

(** [websocket_send_binary(w, message)] *)
Definition send_note (message : bytes) : V unit :=
  on_conn (websocket_send_binary message) ;;
  on_lane (λ l, let t := lane_trace l in
    set_lane_trace (mkTrace (messages_sent t ++ [message]) (encoded t) (injected t) (fed t)) l).

(** [encode] and [websocket_send_binary] of a single record. *)
Definition send_control (payload : bytes) (flags : Z) : V unit :=
  record ← lane_encode payload flags ; send_note record.

(** ** Sending what waits *)

(** The number of packets one visit may take.
    [pool_tunnel_loop] src/cdn/src/runtime.cpp:1285-1291 *)
Definition lane_batch : V Z :=
  if adaptive_batching cfg then
    l ← lane ;
    t ← clock_micros ;
    let n := Z.max (u64 (adaptive_batch_min_packets cfg))
               (Z.min (packets_ (waiting l)) (u64 (adaptive_batch_max_packets cfg))) in
    mret (if u64 (queue_target_delay_ms cfg) * 1000 <? oldest_age_us t (waiting l)
          then adaptive_batch_max_packets cfg else n)
  else mret (batch_packets cfg).

(** [for (int sent = 0; sent < std::max(1, batch) && !lane.waiting.empty(); ++sent)]:
    the message that is left over.
    [pool_tunnel_loop] src/cdn/src/runtime.cpp:1292-1301 *)
Fixpoint fill_messages (turns : nat) (message : bytes) : V bytes :=
  match turns with
  | O => mret message
  | S turns' =>
      l ← lane ;
      if queue_empty (waiting l) then mret message
      else
        let (item, q) := pop (waiting l) in
        on_lane (set_waiting q) ;;
        if (length (fp_bytes item) =? 0)%nat then mret message
        else
          let full := (batch_bytes cfg <? u64 (zlen message + zlen (fp_bytes item) + 64))
                      && negb (length message =? 0)%nat in
          (if full then send_note message else mret tt) ;;
          record ← lane_encode (fp_bytes item) 0 ;
          add (bump payload_tx (zlen (fp_bytes item))) ;;
          fill_messages turns' ((if full then [] else message) ++ record)
  end.

(** [pool_tunnel_loop] src/cdn/src/runtime.cpp:1283-1283 *)
Definition lane_may_send : V bool :=
  l ← lane ;
  if (tx_bytes l <? batch_bytes cfg * 2) && negb (queue_empty (waiting l)) then
    if traffic_shaping cfg then
      t1 ← clock_micros ;
      t2 ← clock_micros ;
      draw ← ask_os (uniform 0 (shaping_delay_ms cfg * 1000)) ;
      l ← lane ;
      let (go, x) := shaper_ready (packets_ (waiting l)) (oldest_age_us t1 (waiting l)) (shaping_delay_ms cfg)
                       t2 draw (lane_shaper l) in
      on_lane (set_lane_shaper x) ;; mret go
    else mret true
  else mret false.

(** [pool_tunnel_loop] src/cdn/src/runtime.cpp:1283-1304 *)
Definition send_waiting : V unit :=
  go ← lane_may_send ;
  if (go : bool) then
    batch ← lane_batch ;
    message ← fill_messages (Z.to_nat (Z.max 1 batch)) [] ;
    (if (length message =? 0)%nat then mret tt else send_note message) ;;
    t ← clock ; on_lane (mark_lane_tx t)
  else mret tt.

(** ** Receiving *)

(** [pool_tunnel_loop] src/cdn/src/runtime.cpp:1311-1318 *)
Definition lane_pong (pong : bytes) : V unit :=
  l ← lane ;
  if ws_ping_pending l && bool_decide (pong = ws_ping_payload l) then
    instant ← clock_micros ;
    let token := decode_u64 pong in
    (if token <=? instant then add (put ws_rtt_us (instant - token)) else mret tt) ;;
    on_lane (λ l, set_ws_ping false (ws_ping_payload l) l)
  else mret tt.

(** [tun.write_packet(payload)]; what is written is noted.
    [pool_tunnel_loop] src/cdn/src/runtime.cpp:1331-1331 *)
Definition lane_inject (payload : bytes) : V Z :=
  on_lane (λ l, let t := lane_trace l in
    set_lane_trace (mkTrace (messages_sent t) (encoded t) (injected t ++ [payload]) (fed t)) l) ;;
  ask_os (write_packet payload).

(** A packet of the peer.
    [pool_tunnel_loop] src/cdn/src/runtime.cpp:1326-1334 *)
Definition lane_packet (payload : bytes) : V unit :=
  t ← clock ;
  on_lane (mark_lane_data t) ;;
  if (zlen payload =? 0) || (mtu cfg + 256 <? zlen payload) then add (bump drop_malformed 1)
  else
    n ← lane_inject payload ;
    if n =? zlen payload then
      add (λ st, bump payload_rx (zlen payload) (bump tun_out_bytes (zlen payload) (bump tun_out_pkts 1 st)))
    else add (bump drop_malformed 1).

(** An authenticated reply to a probe.
    [pool_tunnel_loop] src/cdn/src/runtime.cpp:1338-1347 *)
Definition lane_reply (payload : bytes) : V unit :=
  add (bump pong_rx 1) ;;
  l ← lane ;
  let p := lane_probe l in
  if (zlen payload =? 8) && probe_outstanding p && (decode_u64 payload =? probe_token p) then
    us ← clock_micros ;
    (if probe_token p <=? us then
       let rtt := us - probe_token p in
       add (λ st, bump rtt_sample_seq 1 (put rtt_sample_us us (put rtt_us rtt st))) ;;
       on_shared (λ h, set_history (record rtt true (sh_rtt h)) h) ;;
       on_lane (λ l, set_probe (mkLaneProbe (probe_token p) (probe_outstanding p) rtt us (renewal p)) l)
     else mret tt) ;;
    on_lane (λ l, let p := lane_probe l in
      set_probe (mkLaneProbe (probe_token p) false (lane_rtt_us p) (rtt_sample p) (renewal p)) l)
  else mret tt.

(** The callback of [lane.decoder.feed].
    [pool_tunnel_loop] src/cdn/src/runtime.cpp:1322-1349 *)
Definition lane_delivery (flags : Z) (payload : bytes) : V unit :=
  if flags =? RECORD_DRAIN then
    check (negb server) (str "unexpected server drain command") ;;
    l ← lane ;
    if draining l then mret tt
    else t ← clock ; on_lane (set_draining (t + (pool_drain_sec cfg + 5) * 10 ^ 9))
  else if flags =? 0 then lane_packet payload
  else if negb (Z.land flags RECORD_PING =? 0) then
    add (bump ping_rx 1) ;;
    send_control payload RECORD_PONG ;;
    add (λ st, bump ws_control_tx 1 (bump pong_tx 1 st))
  else if negb (Z.land flags RECORD_PONG =? 0) then lane_reply payload
  else if negb (Z.land flags RECORD_KEEPALIVE =? 0) then add (bump keepalive_rx 1)
  else mret tt.

(** What the failure of [feed] is counted as.
    [pool_tunnel_loop] src/cdn/src/runtime.cpp:1350-1352 *)
Definition lane_error (e : bytes) (d d' : Decoder) (st : Stats) : Stats :=
  let st := bump replay_drop (u64 (replay_drops_ d' - replay_drops_ d)) st in
  if contains (str "authentication") e then bump auth_fail 1 st else bump drop_malformed 1 st.

(** [lane.decoder.feed(msg, ...)] and what follows it.
    [pool_tunnel_loop] src/cdn/src/runtime.cpp:1321-1355 *)
Definition lane_feed (msg : bytes) : V unit :=
  v ← gets id ;
  let d := lane_dec (lane_of v) in
  match feed_v5 (callback lane_delivery) d msg v with
  | None => mret tt
  | Some (d', v', Accepted) =>
      modify (λ _, mkVisit (set_lane_coder d' (lane_seq (lane_of v')) (lane_trace (lane_of v')) (lane_of v')) (shared_of v')) ;;
      add (bump sequence_gap (u64 (sequence_gaps_ d' - sequence_gaps_ d)))
  | Some (d', v', Rejected e) =>
      modify (λ _, mkVisit (set_lane_coder d' (lane_seq (lane_of v')) (lane_trace (lane_of v')) (lane_of v')) (shared_of v')) ;;
      add (lane_error e d d') ;;
      throw (str "PTT8 invalid authenticated record")
  | Some (d', v', Raised e) =>
      modify (λ _, mkVisit (set_lane_coder d' (lane_seq (lane_of v')) (lane_trace (lane_of v')) (lane_of v')) (shared_of v')) ;;
      throw e
  end.

(** [pool_tunnel_loop] src/cdn/src/runtime.cpp:1319-1356 *)
Definition lane_message (msg : bytes) : V unit :=
  add (λ st, bump wire_rx (zlen msg) (bump ws_messages_rx 1 st)) ;;
  on_lane (λ l, let t := lane_trace l in
    set_lane_trace (mkTrace (messages_sent t) (encoded t) (injected t) (fed t ++ [msg])) l) ;;
  lane_feed msg.

Fixpoint every {A} (f : A → V unit) (l : list A) : V unit :=
  match l with [] => mret tt | x :: l' => f x ;; every f l' end.

(** [pool_tunnel_loop] src/cdn/src/runtime.cpp:1306-1356 *)
Definition lane_receive (before : WsStats) : V unit :=
  l ← lane ;
  let frames := rx_frames (lane_stats l) in
  messages ← on_conn (websocket_read_messages 0) ;
  l ← lane ;
  let after := lane_stats l in
  (if rx_frames after =? frames then mret tt else t ← clock ; on_lane (mark_lane_rx t)) ;;
  let pings := u64 (rx_ping_frames after - rx_ping_frames before) in
  let pongs := u64 (rx_pong_frames after - rx_pong_frames before) in
  add (λ st, bump ws_control_rx (u64 (pings + pongs)) (bump ws_pong_rx pongs (bump ws_ping_rx pings st))) ;;
  pongs ← on_conn websocket_take_pongs ;
  every lane_pong pongs ;;
  every lane_message messages.

(** ** Timers *)

(** The authenticated probe and its deadline.
    [pool_tunnel_loop] src/cdn/src/runtime.cpp:1358-1368 *)
Definition lane_probe_timer (t : Z) : V unit :=
  l ← lane ;
  (if probe_outstanding (lane_probe l) && (reply_timeout_sec cfg * 10 ^ 9 <=? t - lane_probe_at (times l)) then
     add (bump reply_timeouts 1) ;; throw (str "pool authenticated reply timeout")
   else mret tt) ;;
  l ← lane ;
  let active := negb (last_data (times l) =? 0) && (t - last_data (times l) <? 60 * 10 ^ 9) in
  let interval := if active then clamp (rtt_probe_sec cfg) 5 20 else clamp (idle_probe_sec cfg) 5 120 in
  if negb (probe_outstanding (lane_probe l)) && (interval * 10 ^ 9 <=? t - lane_probe_at (times l)) then
    token ← clock_micros ;
    on_lane (λ l, let p := lane_probe l in
      mark_lane_probe t (set_probe (mkLaneProbe token true (lane_rtt_us p) (rtt_sample p) (renewal p)) l)) ;;
    send_control (encode_u64 token) RECORD_PING ;;
    add (λ st, bump ws_control_tx 1 (bump ping_tx 1 st))
  else mret tt.

(** The ping of the WebSocket and its deadline.
    [pool_tunnel_loop] src/cdn/src/runtime.cpp:1369-1380 *)
Definition lane_ping_timer (t : Z) : V unit :=
  l ← lane ;
  let age := t - last_ws_ping (times l) in
  (if ws_ping_pending l && (0 <? websocket_pong_timeout_sec cfg) && (websocket_pong_timeout_sec cfg * 10 ^ 9 <=? age) then
     add (bump ws_missed_pongs 1) ;; throw (str "pool WebSocket PONG timeout")
   else mret tt) ;;
  (if ws_ping_pending l && (websocket_pong_timeout_sec cfg =? 0) && (0 <? websocket_ping_sec cfg)
      && (websocket_ping_sec cfg * 10 ^ 9 <=? age)
   then on_lane (λ l, set_ws_ping false (ws_ping_payload l) l) else mret tt) ;;
  l ← lane ;
  if (0 <? websocket_ping_sec cfg) && negb (ws_ping_pending l) && (websocket_ping_sec cfg * 10 ^ 9 <=? age) then
    token ← clock_micros ;
    on_lane (λ l, set_ws_ping (ws_ping_pending l) (encode_u64 token) l) ;;
    on_conn (websocket_send_ping (encode_u64 token)) ;;
    on_lane (λ l, mark_ws_ping t (set_ws_ping true (ws_ping_payload l) l))
  else mret tt.

(** [pool_tunnel_loop] src/cdn/src/runtime.cpp:1381-1384 *)
Definition lane_keepalive (t : Z) : V unit :=
  l ← lane ;
  if (0 <? keepalive_sec cfg) && (keepalive_sec cfg * 10 ^ 9 <=? t - lane_tx (times l))
     && negb (websocket_tx_pending (session_of l)) then
    send_control [] RECORD_KEEPALIVE ;;
    on_lane (mark_lane_tx t) ;;
    add (bump keepalive_tx 1)
  else mret tt.

(** What was written since the visit began.
    [pool_tunnel_loop] src/cdn/src/runtime.cpp:1386-1389 *)
Definition count_written (before : WsStats) : V unit :=
  l ← lane ;
  let after := lane_stats l in
  (if tx_binary_payload_bytes before <? tx_binary_payload_bytes after
   then add (bump wire_tx (tx_binary_payload_bytes after - tx_binary_payload_bytes before)) else mret tt) ;;
  (if tx_binary_frames before <? tx_binary_frames after
   then add (bump ws_messages_tx (tx_binary_frames after - tx_binary_frames before)) else mret tt) ;;
  let pings := u64 (tx_ping_frames after - tx_ping_frames before) in
  let pongs := u64 (tx_pong_frames after - tx_pong_frames before) in
  add (λ st, bump ws_control_tx (u64 (pings + pongs)) (bump ws_pong_tx pongs (bump ws_ping_tx pings st))).

(** ** One visit

    [bad]: [polls[i].revents] has one of [POLLERR], [POLLHUP], [POLLNVAL].
    [pool_tunnel_loop] src/cdn/src/runtime.cpp:1272-1397 *)
Definition visit_lane (bad : bool) : V unit :=
  force ← (if server then ask_os take_disconnect else mret false) ;
  check force (str "operator requested reconnect") ;;
  l ← lane ;
  (if draining l then
     t ← clock ; check (drain_until (times l) <=? t) (str "planned drain complete")
   else mret tt) ;;
  stalled ← on_conn (websocket_tx_stalled (websocket_io_timeout_sec cfg * 1000)) ;
  (if (stalled : bool) then add (bump tx_stalls 1) ;; throw (str "pool WebSocket write stalled") else mret tt) ;;
  l ← lane ;
  let before := lane_stats l in
  on_conn (websocket_flush kFlushBudget) ;;
  send_waiting ;;
  on_conn (websocket_flush kFlushBudget) ;;
  lane_receive before ;;
  t ← clock ;
  lane_probe_timer t ;;
  lane_ping_timer t ;;
  lane_keepalive t ;;
  on_conn (websocket_flush kFlushBudget) ;;
  count_written before ;;
  l ← lane ;
  check (idle_timeout_sec cfg * 10 ^ 9 <=? t - lane_rx (times l)) (str "pool lane idle timeout") ;;
  check bad (str "pool socket closed").

(** The key of the peer's records: [decoder(...)] in the constructor.
    [PoolLane::PoolLane] src/cdn/src/runtime.cpp:1083-1083 *)
Definition lane_rx_key (hs : WsHandshakeResult) : bytes :=
  let k := Handshake.keys hs in if text_is (mode cfg) "server" then client_tx k else server_tx k.

(** The constructor: seven looks at the clock.
    [PoolLane::PoolLane] src/cdn/src/runtime.cpp:1082-1084 *)
Definition new_lane (c : Conn) (hs : WsHandshakeResult) (serial : Z) (w : lworld) : PoolLane * lworld :=
  let (shaper_at, w) := clock_ns w in
  let (born, w) := clock_ns w in
  let (rx, w) := clock_ns w in
  let (probe, w) := clock_ns w in
  let (tx, w) := clock_ns w in
  let (report, w) := clock_ns w in
  let (ping, w) := clock_ns w in
  (mkLane c hs (new_decoder (lane_rx_key hs) (max_record_buffer_bytes cfg))
     clear (new_shaper (u64 (micros shaper_at))) serial 1
     (mkLaneProbe 0 false (-1) 0 (mkRenewal 0 0 0 false)) (mkTimes born rx probe tx 0 0 ping)
     false false (repeat 0 8) (mkTrace [] [] [] []), w).
End PoolLane.
