(* ===== verification/PoolLaneProps.v ===== *)
(** * Properties of a lane

    Everything a visit does keeps the accounts of a lane: its records leave once,
    in the order of their numbers, in messages of bounded size; its queue only
    shrinks; and what it gives to the TUN device are packets its decoder
    delivered. *)

From S2P Require Import Prelude.
From S2P Require Import Text Crypto Keys RecordLoop Record Config ConfigBounds Tun LoopOs Outbox Sequence.
From S2P Require Import FlowScheduler FlowQueue Traffic Telemetry Budget Handshake CarrierLoop Transport WebSocket PoolLane.

Section LaneProps.
Context {C : Crypto} {K : LoopOs} {T : Transport} (cfg : Config) (server : bool).

(** ** What the operations leave alone *)

Definition core (l : PoolLane) : Z * Trace * Decoder * FlowQueue.FlowQueue * Z * WsHandshakeResult :=
  (lane_seq l, lane_trace l, lane_dec l, waiting l, lane_id l, handshake l).
Definition same_core (v v' : Visit) : Prop := core (lane_of v') = core (lane_of v).

Ltac walk :=
  repeat first [ progress keep | match goal with |- keeps _ (match ?x with _ => _ end) => destruct x end ].

Section Quiet.
Context (P : Visit → Prop) (P_same : ∀ v v', same_core v v' → P v → P v').

Lemma core_lane f : (∀ l, core (f l) = core l) → keeps P (on_lane f).
Proof using P_same. intros H. apply keeps_modify. intros v. apply P_same. unfold same_core. simpl. apply H. Qed.
Lemma core_shared f : keeps P (on_shared f).
Proof using P_same. apply keeps_modify. intros v. by apply P_same. Qed.
Lemma core_ask {A} (f : lworld → A * lworld) : keeps P (ask_os f).
Proof using P_same. intros v. unfold ask_os. destruct (f _). by apply P_same. Qed.
Lemma core_conn {A} (m : M Conn A) : keeps P (on_conn m).
Proof using P_same. intros v. unfold on_conn. destruct (m _). by apply P_same. Qed.
End Quiet.

#[local] Hint Resolve core_ask core_conn core_shared : pt.
#[local] Hint Extern 1 (keeps _ lane) => apply keeps_gets : pt.
#[local] Hint Extern 1 (keeps _ clock) => apply core_ask; assumption : pt.
#[local] Hint Extern 1 (keeps _ (add _)) => apply core_shared; assumption : pt.
#[local] Hint Extern 1 (keeps _ (with_entropy _)) => apply core_conn; assumption : pt.
#[local] Hint Extern 2 (keeps _ (on_lane _)) => apply core_lane; [assumption|done] : pt.

Section Steady.
Context (P : Visit → Prop) (P_same : ∀ v v', same_core v v' → P v → P v').

Lemma core_us : keeps P clock_micros.
Proof using P_same. unfold clock_micros. keep. Qed.
#[local] Hint Resolve core_us : pt.

Lemma core_allowance c n m : keeps P (lane_allowance c n m).
Proof using P_same. unfold lane_allowance. walk. Qed.

Lemma core_charge c n : keeps P (charge c n).
Proof using P_same. unfold charge. walk. Qed.

Lemma core_batch : keeps P (lane_batch cfg).
Proof using P_same. unfold lane_batch. walk. Qed.

Lemma core_may_send : keeps P (lane_may_send cfg).
Proof using P_same. unfold lane_may_send. walk. Qed.

Lemma core_pong p : keeps P (lane_pong p).
Proof using P_same. unfold lane_pong. walk. Qed.

Lemma core_reply p : keeps P (lane_reply p).
Proof using P_same. unfold lane_reply. walk. Qed.

Lemma core_ping_timer t : keeps P (lane_ping_timer cfg t).
Proof using P_same. unfold lane_ping_timer. walk. Qed.

Lemma core_written b : keeps P (count_written b).
Proof using P_same. unfold count_written. walk. Qed.
End Steady.

#[local] Hint Resolve core_us core_allowance core_charge core_batch core_may_send core_pong core_reply : pt.
#[local] Hint Resolve core_ping_timer core_written : pt.

(** ** What is sent *)

Abbreviation enc l := (encodes (lane_tx_key cfg l)).

(** The most bytes of one message. *)
Definition message_limit : Z := Z.max 65567 (batch_bytes cfg + 1024).

(** The records are numbered; those of the messages, and then [rs], which are not
    in a message yet, were encoded in this order. *)
Record sending (rs : list bytes) (l : PoolLane) : Prop := {
  sd_seq : lane_seq l = u64 (zlen (encoded (lane_trace l)) + 1);
  sd_numbered : numbered (encoded (lane_trace l));
  sd_records : ∃ xs rss zs,
    messages_sent (lane_trace l) = map (λ rs, concat rs) rss
    ∧ Forall (λ rs, zlen (concat rs) <= message_limit) rss
    ∧ Forall2 (enc l) xs (concat rss) ∧ Forall2 (enc l) zs rs
    ∧ (xs ++ zs) `sublist_of` encoded (lane_trace l) }.

(** The lane [l0], later: the same connection, and no more in its queue. *)
Record later (l0 l : PoolLane) : Prop := {
  lt_id : lane_id l = lane_id l0;
  lt_handshake : handshake l = handshake l0;
  lt_queue : queue_ok (waiting l);
  lt_packets : packets_ (waiting l) <= packets_ (waiting l0);
  lt_bytes : FlowQueue.bytes_ (waiting l) <= FlowQueue.bytes_ (waiting l0) }.

Definition sends (l0 : PoolLane) (rs : list bytes) (v : Visit) : Prop :=
  sending rs (lane_of v) ∧ later l0 (lane_of v).

Lemma sends_same l0 rs v v' : same_core v v' → sends l0 rs v → sends l0 rs v'.
Proof using Type.
  intros H. unfold same_core, core in H. injection H as H1 H2 H3 H4 H5 H6.
  intros [[A B D] [E F G I J]].
  assert (Hk : lane_tx_key cfg (lane_of v') = lane_tx_key cfg (lane_of v)) by (unfold lane_tx_key; by rewrite H6).
  split; split; rewrite ?H1, ?H2, ?H4, ?H5, ?H6, ?Hk; done.
Qed.

Lemma sends_none l0 rs v : sends l0 rs v → sends l0 [] v.
Proof using Type.
  intros [[A B (xs & rss & zs & D & E & F & G & H)] L]. split; [|done]. split; [done|done|].
  exists xs, rss, []. split_and!; auto. rewrite app_nil_r. etrans; [|exact H]. by apply sublist_inserts_r.
Qed.

Definition lane_flags (f : Z) : Prop := f ≠ RECORD_PADDED ∧ f ≠ RECORD_ENVELOPE.

Lemma numbers_taken l0 rs x v :
  sends l0 rs v → d_seq x = lane_seq (lane_of v) →
  let l := lane_of v in let t := lane_trace l in
  sends l0 rs (mkVisit (set_lane_coder (lane_dec l) (u64 (lane_seq l + 1))
    (mkTrace (messages_sent t) (encoded t ++ [x]) (injected t) (fed t)) l) (shared_of v)).
Proof using Type.
  intros [[A B (xs & rss & zs & D & E & F & G & H)] [I J Q N O]] Hx. split; [|by split]. split; simpl.
  - by rewrite zlen_app, A, u64_add_l.
  - apply numbered_snoc; [done|by rewrite Hx].
  - exists xs, rss, zs. split_and!; auto using sublist_inserts_r.
Qed.

Lemma bind_number {B} payload flags (f : Z → M Visit B) v :
  let l := lane_of v in let t := lane_trace l in
  (take_number payload flags ≫= f) v = f (lane_seq l) (mkVisit (set_lane_coder (lane_dec l) (u64 (lane_seq l + 1))
    (mkTrace (messages_sent t) (encoded t ++ [mkDelivery flags (lane_seq l) payload]) (injected t) (fed t)) l) (shared_of v)).
Proof using Type. done. Qed.

Section Sending.
Context {CL : CryptoLaws C} (l0 : PoolLane).

(** An encoded record joins those that are not in a message yet; when the encoder
    throws, only a number is gone. *)
Definition joined (rs : list bytes) (payload : bytes) : bytes → Visit → Prop :=
  λ r v', sends l0 (rs ++ [r]) v' ∧ zlen r <= zlen payload + 32 + 3 + 1024 ∧ zlen r <= 65567 ∧ zlen payload < 65536.

Lemma record_joins rs x r v :
  encodes (lane_tx_key cfg (lane_of v)) x r → d_seq x = lane_seq (lane_of v) → sends l0 rs v →
  let l := lane_of v in let t := lane_trace l in
  joined rs (d_payload x) r (mkVisit (set_lane_coder (lane_dec l) (u64 (lane_seq l + 1))
    (mkTrace (messages_sent t) (encoded t ++ [x]) (injected t) (fed t)) l) (shared_of v)).
Proof using CL.
  intros He Hx Hs. pose proof (encodes_length _ _ _ He). pose proof (encodes_small _ _ _ He).
  split_and!; [|lia|lia|lia].
  destruct (numbers_taken l0 rs x v Hs Hx) as [[A B _] L]. destruct Hs as [[_ _ (xs & rss & zs & D & E & F & G & H1)] _].
  split; [|exact L]. split; [exact A|exact B|]. simpl.
  exists xs, rss, (zs ++ [x]). split_and!; auto.
  - apply Forall2_app; [done|]. constructor; [exact He|constructor].
  - rewrite app_assoc. by apply sublist_app.
Qed.

Lemma sends_trans rs v : ∀ v', same_core v v' → sends l0 rs v → sends l0 rs v'.
Proof using Type. intros v'. apply sends_same. Qed.

(** Quiet steps before and after. *)
Lemma quietly {A B} rs (m : M Visit A) (f : A → M Visit B) (Q : B → Visit → Prop) v :
  (∀ P : Visit → Prop, (∀ v v', same_core v v' → P v → P v') → keeps P m) → sends l0 rs v →
  (∀ a v', sends l0 rs v' → ends Q (sends l0 rs) (f a v')) → ends Q (sends l0 rs) ((m ≫= f) v).
Proof using Type.
  intros Hm Hv Hf. specialize (Hm (sends l0 rs) (sends_same l0 rs) v Hv).
  unfold mbind, M_bind. destruct (m v) as [[a|e] v']; [by apply Hf|done].
Qed.

Lemma joined_quietly {A} rs p (m : M Visit A) r v :
  (∀ P : Visit → Prop, (∀ v v', same_core v v' → P v → P v') → keeps P m) → joined rs p r v →
  ends (joined rs p) (sends l0 rs) ((m ;; mret r) v).
Proof using CL.
  intros Hm Hj. specialize (Hm (joined rs p r)).
  assert (Hs : ∀ v v', same_core v v' → joined rs p r v → joined rs p r v').
  { intros v1 v2 H [H1 H2]. split; [by eapply sends_same|done]. }
  specialize (Hm Hs v Hj). unfold mbind, M_bind. destruct (m v) as [[a|e] v']; [done|].
  destruct Hm as [[[D E (xs & rss & zs & F & G & H & I & J)] L] _]. split; [|done]. split; [done|done|].
  apply Forall2_app_inv_r in I as (zs1 & zs2 & I & _ & ->). exists xs, rss, zs1. split_and!; auto.
  etrans; [|exact J]. rewrite app_assoc. by apply sublist_inserts_r.
Qed.

Lemma plain_ends rs payload flags v :
  lane_flags flags → sends l0 rs v → ends (joined rs payload) (sends l0 rs) (encode_plain cfg payload flags v).
Proof using CL.
  intros [Hf1 Hf2] Hs. unfold encode_plain, lane. unfold mbind at 1, M_bind at 1, gets. rewrite bind_number.
  unfold Tun.pure_call. destruct (encode_record_v5 _ _ _ _) as [r|e] eqn:He.
  - apply (record_joins rs (mkDelivery flags (lane_seq (lane_of v)) payload)); [by apply encodes_plain|done..].
  - by apply (numbers_taken l0 rs (mkDelivery flags (lane_seq (lane_of v)) payload)).
Qed.

Lemma lane_encode_ends rs payload flags v :
  lane_flags flags → sends l0 rs v → ends (joined rs payload) (sends l0 rs) (lane_encode cfg payload flags v).
Proof using CL.
  intros Hf Hs. unfold lane_encode. destruct (flags =? RECORD_DRAIN); [by apply plain_ends|].
  apply quietly; [intros P HP; walk|done|]. intros _ v1 H1.
  apply quietly; [intros P HP; walk|done|]. intros m v2 H2.
  destruct (0 <? m); [|by apply plain_ends]. apply quietly; [intros P HP; walk|done|]. intros a v3 H3.
  destruct (3 <=? a); [|by apply plain_ends].
  unfold lane. unfold mbind at 1, M_bind at 1, gets. rewrite bind_number.
  unfold with_entropy, on_conn, mbind at 1, M_bind at 1. cbn [lane_of shared_of].
  destruct (encode_envelope_record_v5 _ _ _ _ _ _) as [[r g]|e] eqn:He.
  - pose proof (record_joins rs (mkDelivery flags (lane_seq (lane_of v3)) payload) r v3
                  ltac:(by eapply encodes_envelope) eq_refl H3) as Hj.
    apply joined_quietly; [intros P HP; walk|].
    destruct Hj as [Hj ?]. split; [|done]. eapply sends_same; [|exact Hj]. done.
  - eapply sends_same; [|by apply (numbers_taken l0 rs (mkDelivery flags (lane_seq (lane_of v3)) payload) v3)]. done.
Qed.

(** The records that waited for a message are in one, or given up. *)
Lemma send_note_ends rs v :
  sends l0 rs v → zlen (concat rs) <= message_limit →
  ends (λ _, sends l0 []) (sends l0 []) (send_note (concat rs) v).
Proof using Type.
  intros Hs Hl. unfold send_note, on_conn, mbind, M_bind. destruct (websocket_send_binary _ _) as [[[]|e] c]; simpl.
  - destruct Hs as [[A B (xs & rss & zs & D & E & F & G & H)] [I J Q N O]]. split; [|by split]. split; [done|done|]. simpl.
    exists (xs ++ zs), (rss ++ [rs]), []. split_and!.
    + by rewrite map_app, D.
    + apply Forall_app. split; [done|by apply Forall_singleton].
    + rewrite concat_app. simpl. rewrite app_nil_r. by apply Forall2_app.
    + done.
    + by rewrite app_nil_r.
  - eapply sends_same; [|by apply (sends_none l0 rs)]. done.
Qed.

Lemma send_control_ends payload flags v :
  lane_flags flags → sends l0 [] v → ends (λ _, sends l0 []) (sends l0 []) (send_control cfg payload flags v).
Proof using CL.
  intros Hf Hs. unfold send_control. eapply ends_bind; [by apply lane_encode_ends|].
  intros r v' (Hj & _ & Hr & _). simpl in Hj.
  assert (Hc : r = concat [r]) by (simpl; by rewrite app_nil_r). rewrite Hc at 1.
  apply send_note_ends; [done|]. rewrite <- Hc. unfold message_limit. lia.
Qed.
(** The queue after [pop]. *)
Lemma popped_sends rs v : sends l0 rs v →
  sends l0 rs (mkVisit (set_waiting (pop (waiting (lane_of v))).2 (lane_of v)) (shared_of v)).
Proof using Type.
  intros [[A B D] [I J Q N O]]. split; [by split|]. destruct (pop (waiting (lane_of v))) as [p q] eqn:Hp.
  pose proof (pop_spec _ _ _ Q Hp) as [Hq Hs]. split; simpl; [done..|exact Hq| |];
    destruct Hs as [(_ & _ & ->)|(_ & H1 & H2 & _)]; try pose proof (zlen_nonneg (fp_bytes p)); lia.
Qed.

Definition filled (m : bytes) (v : Visit) : Prop :=
  ∃ rs, m = concat rs ∧ zlen m <= message_limit ∧ sends l0 rs v.

Lemma fill_ends (batch_ok : 0 <= batch_bytes cfg < 2 ^ 62) turns m v :
  filled m v → ends filled (sends l0 []) (fill_messages cfg turns m v).
Proof using CL.
  revert m v. induction turns as [|turns IH]; intros m v (rs & -> & Hm & Hs); simpl; [by exists rs|].
  unfold lane. unfold mbind at 1, M_bind at 1, gets. destruct (queue_empty _); [by exists rs|].
  pose proof (popped_sends rs v Hs) as H1. destruct (pop _) as [item q]. simpl in H1.
  unfold on_lane at 1. unfold mbind at 1, M_bind at 1, modify at 1.
  generalize dependent (mkVisit (set_waiting q (lane_of v)) (shared_of v)). clear v Hs. intros v Hs.
  destruct (_ =? 0)%nat; [by exists rs|].
  set (full := (_ <? _) && _).
  eapply (ends_bind (λ _, sends l0 (if full then [] else rs))).
  { destruct full; [by apply send_note_ends|done]. }
  intros _ v1 H1. eapply ends_bind; [eapply ends_weaken; [by apply lane_encode_ends; [split|]| |]|].
  { intros r v2 H. exact H. } { intros v2. apply sends_none. }
  intros r v2 (H2 & Hr1 & Hr2 & Hp).
  assert (Hl : zlen ((if full then [] else concat rs) ++ r) <= message_limit).
  { unfold message_limit in *. destruct full eqn:Hfull; simpl; [lia|]. subst full. rewrite zlen_app.
    apply andb_false_iff in Hfull as [Hfull|Hfull].
    - apply Z.ltb_ge in Hfull. pose proof (zlen_nonneg (concat rs)). pose proof (zlen_nonneg (fp_bytes item)).
      unfold u64 in Hfull. rewrite Z.mod_small in Hfull by lia. lia.
    - apply negb_false_iff, Nat.eqb_eq in Hfull. unfold zlen in *. lia. }
  unfold add, on_shared. unfold mbind at 1, M_bind at 1, modify at 1. apply IH.
  exists ((if full then [] else rs) ++ [r]). rewrite concat_app. simpl. rewrite app_nil_r. split_and!.
  - by destruct full.
  - by destruct full.
  - by eapply sends_same.
Qed.

Lemma send_waiting_ends (batch_ok : 0 <= batch_bytes cfg < 2 ^ 62) v :
  sends l0 [] v → ends (λ _, sends l0 []) (sends l0 []) (send_waiting cfg v).
Proof using CL.
  intros Hs. unfold send_waiting. apply quietly; [intros P HP; walk|done|]. intros go v1 H1.
  destruct go; [|done]. apply quietly; [intros P HP; walk|done|]. intros batch v2 H2.
  eapply ends_bind; [apply fill_ends; [done|]|].
  { exists []. split_and!; [done|unfold message_limit, zlen; simpl; lia|done]. }
  intros m v3 (rs & -> & Hm & H3). eapply (ends_bind (λ _, sends l0 [])).
  { destruct (_ =? 0)%nat; [by apply (sends_none l0 rs)|by apply send_note_ends]. }
  intros _ v4 H4. apply quietly; [intros P HP; walk|done|]. intros t v5 H5.
  apply (upholds_modify (sends l0 []) (sends l0 [])); [|done]. intros v6. by apply sends_same.
Qed.
(** *** A whole visit *)

Definition outgoing_core (l : PoolLane) : Z * list bytes * list Delivery * FlowQueue.FlowQueue * Z * WsHandshakeResult :=
  (lane_seq l, messages_sent (lane_trace l), encoded (lane_trace l), waiting l, lane_id l, handshake l).

Lemma sends_out rs v v' : outgoing_core (lane_of v') = outgoing_core (lane_of v) → sends l0 rs v → sends l0 rs v'.
Proof using Type.
  intros H. unfold outgoing_core in H. injection H as H1 H2 H3 H4 H5 H6. intros [[A B D] [E F G I J]].
  assert (Hk : lane_tx_key cfg (lane_of v') = lane_tx_key cfg (lane_of v)) by (unfold lane_tx_key; by rewrite H6).
  split; split; rewrite ?H1, ?H2, ?H3, ?H4, ?H5, ?H6, ?Hk; done.
Qed.

Lemma sends_lane f : (∀ l, outgoing_core (f l) = outgoing_core l) → keeps (sends l0 []) (on_lane f).
Proof using Type. intros H. apply keeps_modify. intros v. apply sends_out, H. Qed.
#[local] Hint Extern 3 (keeps (sends _ _) (on_lane _)) => apply sends_lane; done : pt.

Lemma ends_keeps {A} (P : Visit → Prop) (m : M Visit A) : (∀ v, P v → ends (λ _, P) P (m v)) → keeps P m.
Proof using Type. intros H v Hv. specialize (H v Hv). by destruct (m v) as [[] ?]. Qed.

Lemma sends_lane_control payload flags : lane_flags flags → keeps (sends l0 []) (send_control cfg payload flags).
Proof using CL. intros Hf. apply ends_keeps. intros v. by apply send_control_ends. Qed.
#[local] Hint Extern 1 (keeps (sends _ _) (send_control _ _ _)) => apply sends_lane_control; split; done : pt.

Lemma sends_delivery flags payload : keeps (sends l0 []) (lane_delivery cfg server flags payload).
Proof using CL. pose proof (sends_same l0 []). unfold lane_delivery, lane_packet, lane_inject. walk. Qed.

Lemma sends_feed msg : keeps (sends l0 []) (lane_feed cfg server msg).
Proof using CL.
  pose proof (sends_same l0 []) as Hq. unfold lane_feed. apply keeps_read. intros v Hv.
  destruct (feed_v5 _ _ _ _) as [[[d' v'] r]|] eqn:Hf; [|done].
  assert (Hv' : sends l0 [] v').
  { revert Hf. unfold feed_v5, feed_with. cbn [id]. destruct (_ <? _); [by intros [= <- <- <-]|].
    apply (loop_inv (aead_step PTT5) (callback (lane_delivery cfg server))
             (λ _ v, sends l0 [] v) (λ _ v _, sends l0 [] v)); auto.
    intros d0 v0 f n p t d1 HP _. pose proof (sends_delivery f p v0 HP).
    unfold callback. by destruct (lane_delivery _ _ _ _ _) as [[] ?]. }
  destruct r; apply (keeps_set (sends l0 [])); try (by eapply sends_out; [|exact Hv']); walk.
Qed.

Lemma keeps_every {A} (P : Visit → Prop) (f : A → M Visit unit) l : (∀ x, keeps P (f x)) → keeps P (every f l).
Proof using Type. intros Hf. induction l; simpl; keep. Qed.

Lemma sends_receive before : keeps (sends l0 []) (lane_receive cfg server before).
Proof using CL.
  pose proof (sends_same l0 []). pose proof sends_feed.
  unfold lane_receive, lane_message. walk; apply keeps_every; intros; walk.
Qed.

Lemma sends_probe_timer t : keeps (sends l0 []) (lane_probe_timer cfg t).
Proof using CL. pose proof (sends_same l0 []). unfold lane_probe_timer. walk. Qed.

Lemma sends_keepalive_timer t : keeps (sends l0 []) (lane_keepalive cfg t).
Proof using CL. pose proof (sends_same l0 []). unfold lane_keepalive. walk. Qed.

Lemma sends_visit (batch_ok : 0 <= batch_bytes cfg < 2 ^ 62) bad : keeps (sends l0 []) (visit_lane cfg server bad).
Proof using CL.
  pose proof (sends_same l0 []). pose proof sends_receive. pose proof sends_probe_timer. pose proof sends_keepalive_timer.
  assert (keeps (sends l0 []) (send_waiting cfg)) by (apply ends_keeps, send_waiting_ends, batch_ok).
  unfold visit_lane. walk.
Qed.
End Sending.

(** ** What is received *)

Definition incoming_core (l : PoolLane) : Decoder * list bytes * list bytes * WsHandshakeResult :=
  (lane_dec l, injected (lane_trace l), fed (lane_trace l), handshake l).
Definition incoming_is (i : Decoder * list bytes * list bytes * WsHandshakeResult) (v : Visit) : Prop :=
  incoming_core (lane_of v) = i.

Section Untouched.
Context (i : Decoder * list bytes * list bytes * WsHandshakeResult).

Lemma in_same v v' : same_core v v' → incoming_is i v → incoming_is i v'.
Proof using Type.
  unfold same_core, core, incoming_is, incoming_core. intros H <-. injection H as H1 H2 H3 H4 H5 H6. by rewrite H2, H3, H6.
Qed.

Lemma in_lane f : (∀ l, incoming_core (f l) = incoming_core l) → keeps (incoming_is i) (on_lane f).
Proof using Type. intros H. apply keeps_modify. intros v Hv. unfold incoming_is in *. simpl. by rewrite H. Qed.
#[local] Hint Extern 3 (keeps (incoming_is _) (on_lane _)) => apply in_lane; done : pt.

Lemma in_number payload flags : keeps (incoming_is i) (take_number payload flags).
Proof using Type. by intros v Hv. Qed.
#[local] Hint Resolve in_number : pt.

Lemma in_plain payload flags : keeps (incoming_is i) (encode_plain cfg payload flags).
Proof using Type.
  pose proof in_same. unfold encode_plain. apply keeps_bind; [auto with pt|intros l].
  apply keeps_bind; [auto with pt|intros seq]. unfold Tun.pure_call. by destruct (encode_record_v5 _ _ _ _); intros v.
Qed.
#[local] Hint Resolve in_plain : pt.

Lemma in_encode payload flags : keeps (incoming_is i) (lane_encode cfg payload flags).
Proof using Type. pose proof in_same. unfold lane_encode. walk. Qed.
#[local] Hint Resolve in_encode : pt.

Lemma in_note message : keeps (incoming_is i) (send_note message).
Proof using Type. pose proof in_same. unfold send_note. walk. Qed.
#[local] Hint Resolve in_note : pt.

Lemma in_control payload flags : keeps (incoming_is i) (send_control cfg payload flags).
Proof using Type. unfold send_control. walk. Qed.
#[local] Hint Resolve in_control : pt.

Lemma in_fill turns m : keeps (incoming_is i) (fill_messages cfg turns m).
Proof using Type.
  pose proof in_same. revert m. induction turns as [|turns IH]; intros m; simpl; [keep|].
  apply keeps_bind; [auto with pt|intros l]. apply keeps_if; [keep|].
  destruct (pop _) as [item q]. walk.
Qed.
#[local] Hint Resolve in_fill : pt.

Lemma in_waiting : keeps (incoming_is i) (send_waiting cfg).
Proof using Type. pose proof in_same. unfold send_waiting. walk. Qed.

Lemma in_probe_timer t : keeps (incoming_is i) (lane_probe_timer cfg t).
Proof using Type. pose proof in_same. unfold lane_probe_timer. walk. Qed.

Lemma in_keepalive t : keeps (incoming_is i) (lane_keepalive cfg t).
Proof using Type. pose proof in_same. unfold lane_keepalive. walk. Qed.

(** A delivery that is not a packet, or is one of a size no packet has. *)
Lemma in_delivery flags payload : flags ≠ 0 → keeps (incoming_is i) (lane_delivery cfg server flags payload).
Proof using Type. intros Hf. pose proof in_same. unfold lane_delivery. rewrite (proj2 (Z.eqb_neq _ _) Hf). walk. Qed.
End Untouched.

Abbreviation decode d chunks ds := (feed_all (aead_step PTT5) collect limit_exceeded d chunks ds).
Definition fresh_decoder (l : PoolLane) : Decoder :=
  new_decoder (lane_rx_key cfg (handshake l)) (max_record_buffer_bytes cfg).

(** What a packet must be to reach the device. *)
Definition acceptable (p : bytes) : Prop := 0 < zlen p <= mtu cfg + 256.
#[local] Instance acceptable_dec p : Decision (acceptable p).
Proof. unfold acceptable. apply _. Defined.

Definition arrivals (ds : list Delivery) : list bytes := filter acceptable (packets ds).

(** The decoder is the one a plain run on the messages gives, and the packets of
    that run that have a possible size went to the device. *)
Definition heard (l : PoolLane) : Prop :=
  ∃ ds, decode (fresh_decoder l) (fed (lane_trace l)) [] = Some (lane_dec l, ds, Accepted)
        ∧ injected (lane_trace l) = arrivals ds.

Lemma bind_lane {A} f (m : M Visit A) v : (on_lane f ;; m) v = m (mkVisit (f (lane_of v)) (shared_of v)).
Proof using Type. done. Qed.

(** A visit has ended with an exception: only the first of these packets went to
    the device. *)
Definition heard_end (l : PoolLane) : Prop :=
  ∃ d ds r, decode (fresh_decoder l) (fed (lane_trace l)) [] = Some (d, ds, r)
            ∧ injected (lane_trace l) `prefix_of` arrivals ds.

Section Hearing.
Context {CL : CryptoLaws C}.
Abbreviation going := (upholds (λ v, heard (lane_of v)) (λ v, heard_end (lane_of v))).

Lemma lane_heard_ends l : heard l → heard_end l.
Proof using Type. intros (ds & H & Ht). exists (lane_dec l), ds, Accepted. by rewrite Ht. Qed.

Lemma arrivals_prefix ds ds' : ds `prefix_of` ds' → arrivals ds `prefix_of` arrivals ds'.
Proof using Type. intros [k ->]. unfold arrivals. rewrite packets_app, filter_app. by apply prefix_app_r. Qed.

Lemma hears_quietly {A} (m : M Visit A) : (∀ i, keeps (incoming_is i) m) → going m.
Proof using Type.
  intros Hm v (ds & Hd & Ht). pose proof (Hm (incoming_core (lane_of v)) v eq_refl) as Hi.
  unfold incoming_is, incoming_core in Hi.
  destruct (m v) as [[a|e] v']; injection Hi as H1 H2 H3 H4; [|apply lane_heard_ends];
    exists ds; unfold fresh_decoder; by rewrite H1, H2, H3, H4.
Qed.

Lemma arrives d ts rcv hs p v :
  incoming_is (d, ts, rcv, hs) v →
  incoming_is (d, ts ++ filter acceptable [p], rcv, hs) (lane_delivery cfg server 0 p v).2.
Proof using Type.
  intros Hv. pose proof (in_same (d, ts, rcv, hs)). pose proof (in_same (d, ts ++ [p], rcv, hs)).
  unfold lane_delivery. cbn [Z.eqb RECORD_DRAIN]. rewrite filter_cons.
  assert (Hif : (zlen p =? 0) || (mtu cfg + 256 <? zlen p) = negb (bool_decide (acceptable p))).
  { pose proof (zlen_nonneg p). unfold acceptable. destruct (bool_decide_reflect (0 < zlen p <= mtu cfg + 256)); simpl.
    - apply orb_false_iff. split; [apply Z.eqb_neq|apply Z.ltb_ge]; lia.
    - apply orb_true_iff. rewrite Z.eqb_eq, Z.ltb_lt. lia. }
  unfold lane_packet. rewrite Hif. unfold mbind at 1, M_bind at 1.
  assert (Ht : keeps (incoming_is (d, ts, rcv, hs)) clock) by auto with pt.
  specialize (Ht v Hv). destruct (clock v) as [[t|e] v1] eqn:Hc; simpl in Ht.
  2:{ unfold clock, ask_os in Hc. by destruct (clock_ns _). }
  rewrite bind_lane.
  destruct (decide (acceptable p)) as [Ha|Ha].
  - rewrite bool_decide_true by done. cbn [negb].
    match goal with |- incoming_is ?i ((lane_inject p ≫= ?k) ?v2).2 => assert (Hk : ∀ n, keeps (incoming_is i) (k n)) by (intros n; walk) end.
    unfold lane_inject, on_lane, ask_os, mbind, M_bind, modify. destruct (write_packet _ _) as [n w]. apply Hk.
    unfold incoming_is, incoming_core in *. simpl.
    by injection Ht as -> -> -> ->.
  - rewrite bool_decide_false by done. cbn [negb]. rewrite filter_nil, app_nil_r.
    apply (keeps_at (incoming_is (d, ts, rcv, hs))); [walk|done].
Qed.

(** The callback, run against the plain list of deliveries. *)
Lemma lane_delivery_mirror d rcv hs f n p ds v :
  incoming_is (d, arrivals ds, rcv, hs) v →
  incoming_is (d, arrivals (ds ++ [mkDelivery f n p]), rcv, hs) (callback (lane_delivery cfg server) f n p v).1.
Proof using Type.
  intros Hs. assert (Hcb : (callback (lane_delivery cfg server) f n p v).1 = (lane_delivery cfg server f p v).2).
  { unfold callback. by destruct (lane_delivery _ _ _ _ _) as [[]]. }
  rewrite Hcb. unfold arrivals. rewrite packets_app, filter_app. unfold packets at 2. rewrite filter_cons. simpl.
  destruct (decide (f = 0)) as [->|Hf]; [by apply arrives|]. simpl.
  rewrite app_nil_r. by apply in_delivery.
Qed.

(** [feed], from a state where only the message is new. *)
Lemma hears_lane_feed b rcv v :
  (∃ ds, decode (fresh_decoder (lane_of v)) rcv [] = Some (lane_dec (lane_of v), ds, Accepted)
         ∧ injected (lane_trace (lane_of v)) = arrivals ds) →
  fed (lane_trace (lane_of v)) = rcv ++ [b] →
  ends (λ _ v', heard (lane_of v')) (λ v', heard_end (lane_of v')) (lane_feed cfg server b v).
Proof using CL.
  intros (ds & Hd & Ht) Hr. set (d0 := lane_dec (lane_of v)) in *. set (hs := handshake (lane_of v)).
  assert (Happ : decode (fresh_decoder (lane_of v)) (rcv ++ [b]) [] =
                 feed_with (aead_step PTT5) collect limit_exceeded d0 b ds).
  { rewrite feed_all_app, Hd. simpl. by destruct (feed_with _ _ _ _ _ _) as [[[? ?] []]|]. }
  assert (Hin : incoming_is (d0, arrivals ds, rcv ++ [b], hs) v).
  { unfold incoming_is, incoming_core. by rewrite Ht, Hr. }
  unfold lane_feed, feed_v5. unfold mbind at 1, M_bind at 1, gets. cbn [id]. fold d0.
  unfold feed_with in Happ |- *. destruct (_ <? _).
  { exists d0, ds, (Rejected limit_exceeded). unfold fresh_decoder in *. simpl. rewrite Hr. split; [exact Happ|by rewrite <- Ht]. }
  destruct (feed_loop (aead_step PTT5) (callback _) _ _ _) as [[[d' v'] r]|] eqn:Hl.
  - apply (loop_mirror (aead_step PTT5) (callback (lane_delivery cfg server))
             (λ ds, incoming_is (d0, arrivals ds, rcv ++ [b], hs))) with (ds := ds) in Hl; [|..|done|simpl; lia].
    + destruct Hl as (dc & xs & rc & Hl & Hend). rewrite <- Happ in Hl.
      destruct r as [|e|e]; [destruct Hend as (-> & -> & Hi)|destruct Hend as (ys & Hp%arrivals_prefix & Hi)..];
        unfold incoming_is, incoming_core in Hi; injection Hi as Hi1 Hi2 Hi3 Hi4.
      * exists xs. unfold fresh_decoder in *. simpl. by rewrite Hi2, Hi3, Hi4.
      * exists dc, xs, rc. unfold fresh_decoder in *. simpl. by rewrite Hi2, Hi3, Hi4.
      * exists dc, xs, rc. unfold fresh_decoder in *. simpl. by rewrite Hi2, Hi3, Hi4.
    + intros. by apply lane_delivery_mirror.
  - destruct (loop_terminates (aead_step PTT5) (callback (lane_delivery cfg server))
                (S (length (buffer_ (with_buffer (buffer_ d0 ++ b) d0))))
                (with_buffer (buffer_ d0 ++ b) d0) v ltac:(lia)). congruence.
Qed.

Lemma hears_lane_message b : going (lane_message cfg server b).
Proof using CL. intros v (ds & Hd & Ht). by apply (hears_lane_feed b (fed (lane_trace (lane_of v)))); [exists ds|]. Qed.

Lemma hears_every {A} (f : A → M Visit unit) l : (∀ x, going (f x)) → going (every f l).
Proof using Type.
  intros Hf. induction l as [|x l IH]; simpl; [apply upholds_ret|]. by apply upholds_bind; [apply Hf|].
Qed.

Lemma hears_lane_receive before : going (lane_receive cfg server before).
Proof using CL.
  pose proof in_same as Hsame.
  pose proof lane_heard_ends as Hend. unfold lane_receive.
  do 7 (apply upholds_bind; [apply hears_quietly; intros i; pose proof (Hsame i); walk; apply keeps_every; intros; walk|intros ?]).
  apply hears_every. intros b. apply hears_lane_message.
Qed.

Lemma hears_visit bad : going (visit_lane cfg server bad).
Proof using CL.
  pose proof in_same as Hsame. pose proof (λ i, in_waiting i). pose proof (λ i, in_probe_timer i). pose proof (λ i, in_keepalive i).
  unfold visit_lane.
  do 10 (apply upholds_bind; [apply hears_quietly; intros i; pose proof (Hsame i); walk|intros ?]).
  apply upholds_bind; [apply hears_lane_receive|intros ?].
  apply hears_quietly; intros i; pose proof (Hsame i). walk.
Qed.
End Hearing.
End LaneProps.
