(* ===== verification/PoolLoop.v ===== *)
(** * The connection pool (cdn/src/runtime.cpp, [pool_tunnel_loop])

    Up to [max_connections] lanes, and one more while a lane is replaced. The
    server takes authenticated connections from the admission server; the client
    dials in the background, one connection at a time, also to replace a lane
    that is old, slow or silent, and retires the old lane only when the new one
    is online. A packet of the TUN device goes to the lane of its flow, or to the
    best lane for a new flow; a lane that fails is removed.

    [departed] is not in the code: the lanes that were removed, as they were then.
    Dialling, admission and [poll] are the class [PoolOs]. [g_state], [g_phase],
    socket options and the lines written to [std::cerr] are left out. *)

From S2P Require Import Prelude.
From S2P Require Import Text Crypto Keys RecordLoop Record Config Tun LoopOs Outbox Logging Pool.
From S2P Require Import FlowScheduler FlowQueue Traffic Telemetry Budget Handshake CarrierLoop Transport WebSocket PoolLane.

Inductive PoolReady := PoolPollBroken | PoolPollInterrupted | PoolPolled (bad : list bool) (tun : bool).

(** What the loop needs besides [LoopOs]: [poll] on all lanes and the TUN device,
    [AdmissionServer::has_ready] and [take(0)], the start of a background dial
    ([std::async], an error when no thread can be started) and its outcome once it
    is there, [set_nonblock] (true when it fails), and
    [g_phase]. *)
Class PoolOs {C : Crypto} {T : Transport} (K : LoopOs) := {
  poll_pool : list Events → bool → Z → lworld → PoolReady * lworld;
  server_ready : lworld → bool * lworld;
  server_take : lworld → option (Conn * WsHandshakeResult) * lworld;
  begin_dial : lworld → res unit * lworld;
  dial_outcome : lworld → option (res (Conn * WsHandshakeResult)) * lworld;
  nonblock_fails : lworld → bool * lworld;
  current_phase : lworld → Z * lworld;
  (** how often [take] can still be called before [has_ready] is false *)
  ready_bound : lworld → nat;
}.

(** Each [take] uses up a connection, so the admission loop comes to its end. *)
Class PoolPatience {C : Crypto} {T : Transport} {K : LoopOs} (PO : PoolOs K) : Prop := {
  ready_clock w : (ready_bound (clock_ns w).2 <= ready_bound w)%nat;
  ready_nonblock w : (ready_bound (nonblock_fails w).2 <= ready_bound w)%nat;
  ready_asked w : (ready_bound (server_ready w).2 <= ready_bound w)%nat;
  ready_taken w : (server_ready w).1 = true → (ready_bound (server_take (server_ready w).2).2 < ready_bound w)%nat;
}.

(** The time points and numbers of the client's dialling.
    [pool_tunnel_loop] src/cdn/src/runtime.cpp:1092-1097 *)
Record Dialer := mkDialer {
  dialing : bool; next_dial : Z; backoff : Z; replacing : Z; reference_rtt : Z; next_replacement : Z }.

Section PoolLoop.
Context {C : Crypto} {K : LoopOs} {T : Transport} {PO : PoolOs K} {IO : IterationOrder}.
Context (cfg : Config) (server : bool).

(** [pool_tunnel_loop] src/cdn/src/runtime.cpp:1089-1100 *)
Record PoolState := mkPool {
  lanes : list PoolLane; affinity : Affinity; next_id : Z; dialer : Dialer; last_prune : Z; shared : Shared;
  departed : list PoolLane }.

Definition set_lanes (ls : list PoolLane) (s : PoolState) : PoolState :=
  mkPool ls (affinity s) (next_id s) (dialer s) (last_prune s) (shared s) (departed s).
Definition set_affinity (m : Affinity) (s : PoolState) : PoolState :=
  mkPool (lanes s) m (next_id s) (dialer s) (last_prune s) (shared s) (departed s).
Definition set_dialer (d : Dialer) (s : PoolState) : PoolState :=
  mkPool (lanes s) (affinity s) (next_id s) d (last_prune s) (shared s) (departed s).
Definition set_prune (t : Z) (s : PoolState) : PoolState :=
  mkPool (lanes s) (affinity s) (next_id s) (dialer s) t (shared s) (departed s).
Definition set_shared (h : Shared) (s : PoolState) : PoolState :=
  mkPool (lanes s) (affinity s) (next_id s) (dialer s) (last_prune s) h (departed s).
Definition note_departed (l : PoolLane) (s : PoolState) : PoolState :=
  mkPool (lanes s) (affinity s) (next_id s) (dialer s) (last_prune s) (shared s) (departed s ++ [l]).

Abbreviation Po := (M PoolState).

Definition pool : Po PoolState := gets id.
Definition query {A} (f : lworld → A * lworld) : Po A := λ s,
  let (a, w) := f (sh_os (shared s)) in (Ok a, set_shared (set_os w (shared s)) s).
Definition record_stats (f : Stats → Stats) : Po unit := modify (λ s, set_shared (count_shared f (shared s)) s).
Definition record_event (text : bytes) : Po unit := modify (λ s, set_shared (note_event text (shared s)) s).
Definition read_ns : Po Z := query clock_ns.
Definition read_us : Po Z := t ← read_ns ; mret (u64 (micros t)).
Definition on_dialer (f : Dialer → Dialer) : Po unit := modify (λ s, set_dialer (f (dialer s)) s).

(** [try { m } catch (const std::exception& e) { h }] *)
Definition rescue (m : Po unit) (h : bytes → Po unit) : Po unit := λ s,
  match m s with (Ok a, s') => (Ok a, s') | (Err e, s') => h e s' end.

Definition count_lanes (s : PoolState) : Z := zlen (lanes s).
Definition show_active (s : PoolState) : PoolState :=
  set_shared (count_shared (put pool_active (count_lanes s)) (shared s)) s.

(** ** Lanes come and go *)

(** [attach] src/cdn/src/runtime.cpp:1122-1134 *)
Definition attach (c : Conn) (hs : WsHandshakeResult) : Po unit :=
  check (negb (pool_connections hs =? max_connections cfg) || negb (confirmed hs) || negb (peer_trial hs))
    (str "PTT8 authentication or pool agreement missing") ;;
  fails ← query nonblock_fails ;
  check fails (str "set nonblocking failed") ;;
  let k := conf (ws c) in
  let c := mkConn (set_conf (mkConf (ssl k) (open k) (client k) (websocket_io_timeout_sec cfg * 1000)
                                    (upgraded k) (authenticated k)) (ws c)) (net c) (entropy c) in
  s ← pool ;
  modify (λ s, let (l, w) := new_lane cfg c hs (next_id s) (sh_os (shared s)) in
    mkPool (lanes s ++ [l]) (affinity s) (u64 (next_id s + 1)) (dialer s) (last_prune s) (set_os w (shared s)) (departed s)) ;;
  modify show_active ;;
  record_stats (bump ptt5_sessions 1) ;;
  s ← pool ;
  record_event (str "pool lane=added active=" ++ to_string (count_lanes s)) ;;
  on_dialer (λ d, mkDialer (dialing d) (next_dial d) (reconnect_initial_ms cfg) (replacing d) (reference_rtt d) (next_replacement d)).

(** [detach] src/cdn/src/runtime.cpp:1135-1146 *)
Definition detach (i : nat) (reason : bytes) : Po unit :=
  s ← pool ;
  match lanes s !! i with
  | None => mret tt
  | Some l =>
      record_stats (bump drop_queue (packets_ (waiting l))) ;;
      (if bool_decide (reason = str "planned drain complete") then mret tt
       else record_stats (λ st, bump reconnects 1 (bump pool_failures 1 st))) ;;
      record_event (str "pool lane=removed id=" ++ to_string (lane_id l) ++ str " reason=" ++ reason) ;;
      modify (λ s, note_departed l (set_lanes (delete i (lanes s)) s)) ;;
      modify show_active ;;
      modify (λ s, if (length (lanes s) =? 0)%nat then set_shared (count_shared (put rtt_us (-1)) (shared s)) s else s)
  end.

(** [while (lanes.size() < max_connections + 1 && server->has_ready())], at most
    [fuel] turns.
    [pool_tunnel_loop] src/cdn/src/runtime.cpp:1149-1153 *)
Fixpoint admit_ready (fuel : nat) : Po unit :=
  match fuel with
  | O => mret tt
  | S fuel' =>
      s ← pool ;
      if count_lanes s <? max_connections cfg + 1 then
        ready ← query server_ready ;
        if (ready : bool) then
          got ← query server_take ;
          match got with
          | None => mret tt
          | Some (c, hs) => rescue (attach c hs) (λ _, record_stats (bump pool_failures 1))
          end ;;
          admit_ready fuel'
        else mret tt
      else mret tt
  end.

(** ** Dialling *)

(** The [catch] of a dial.
    [pool_tunnel_loop] src/cdn/src/runtime.cpp:1174-1182 *)
Definition dial_failed (e : bytes) : Po unit :=
  record_stats (bump pool_dial_failures 1) ;;
  phase ← query current_phase ;
  record_event (str "pool dial_failed code=" ++ failure_code phase e) ;;
  t ← read_ns ;
  s ← pool ;
  wait ← query (jittered (backoff (dialer s)) (reconnect_jitter_pct cfg)) ;
  let due := t + wait * 10 ^ 6 in
  on_dialer (λ d, mkDialer (dialing d) due (Z.min (backoff d * 2) (reconnect_max_ms cfg)) 0 (reference_rtt d)
                    (if replacing d =? 0 then next_replacement d else due)).

(** The old lane: the drain order is sent, or its time is over.
    [pool_tunnel_loop] src/cdn/src/runtime.cpp:1164-1166 *)
Definition retire (old : PoolLane) (h : Shared) : PoolLane * Shared :=
  let (t, w) := clock_ns (sh_os h) in
  match send_control cfg [] RECORD_DRAIN (mkVisit (set_draining (t + pool_drain_sec cfg * 10 ^ 9) old) (set_os w h)) with
  | (Ok _, v) => (lane_of v, shared_of v)
  | (Err _, v) =>
      let (t, w) := clock_ns (sh_os (shared_of v)) in
      (set_draining t (lane_of v), set_os w (shared_of v))
  end.

(** [pool_tunnel_loop] src/cdn/src/runtime.cpp:1162-1170 *)
Fixpoint retire_lanes (id : Z) (ls : list PoolLane) (h : Shared) : list PoolLane * Shared :=
  match ls with
  | [] => ([], h)
  | l :: rest =>
      let (l, h) :=
        if lane_id l =? id then
          let (l, h) := retire l h in
          (l, note_event (str "pool replacement=verified retiring_lane=" ++ to_string id) (count_shared (bump session_renewals 1) h))
        else (l, h) in
      let (rest, h) := retire_lanes id rest h in
      (l :: rest, h)
  end.

(** The body of the [try]: a new connection that is good enough goes online and
    the lane it replaces retires.
    [pool_tunnel_loop] src/cdn/src/runtime.cpp:1157-1172 *)
Definition dial_succeeded (c : Conn) (hs : WsHandshakeResult) : Po unit :=
  s ← pool ;
  let d := dialer s in
  check (negb (replacing d =? 0) && (0 <? reference_rtt d) && (Z.quot (reference_rtt d * 8) 10 <=? trial_max_rtt_us hs))
    (str "replacement trial did not improve authenticated RTT by 20 percent") ;;
  attach c hs ;;
  (if replacing d =? 0 then mret tt
   else modify (λ s, let (ls, h) := retire_lanes (replacing d) (lanes s) (shared s) in set_shared h (set_lanes ls s))) ;;
  on_dialer (λ d, mkDialer (dialing d) (next_dial d) (backoff d) 0 (reference_rtt d) (next_replacement d)) ;;
  t ← read_ns ;
  on_dialer (λ d, mkDialer (dialing d) (next_dial d) (backoff d) (replacing d) (reference_rtt d)
                    (t + latency_renew_cooldown_sec cfg * 10 ^ 9)).

(** [pool_tunnel_loop] src/cdn/src/runtime.cpp:1155-1183 *)
Definition finish_dial : Po unit :=
  s ← pool ;
  if dialing (dialer s) then
    r ← query dial_outcome ;
    match r with
    | None => mret tt
    | Some r =>
        on_dialer (λ d, mkDialer false (next_dial d) (backoff d) (replacing d) (reference_rtt d) (next_replacement d)) ;;
        match r with
        | Err e => dial_failed e
        | Ok (c, hs) => rescue (dial_succeeded c hs) dial_failed
        end
    end
  else mret tt.

(** The first lane that should be replaced, if any; a look at a lane may change
    its latency record.
    [pool_tunnel_loop] src/cdn/src/runtime.cpp:1188-1201 *)
Fixpoint pick_lane (forced : bool) (ls : list PoolLane) (h : Shared) : option (PoolLane * Z * bool * bool) * list PoolLane * Shared :=
  match ls with
  | [] => (None, [], h)
  | l :: rest =>
      let (instant, w) := clock_ns (sh_os h) in
      let p := lane_probe l in
      let missing := probe_outstanding p && (reply_renew_sec cfg * 10 ^ 9 <=? instant - lane_probe_at (times l)) in
      let aged := (0 <? session_max_age_sec cfg) && (session_max_age_sec cfg * 10 ^ 9 <=? instant - connected (times l)) in
      let active := negb (last_data (times l) =? 0) && (instant - last_data (times l) <? 60 * 10 ^ 9) in
      let (t, w) := clock_ns w in
      let (slow, r) := observe_latency (mkProbe (rtt_sample p) (lane_rtt_us p) (u64 (micros t)) active (latency_renew_ms cfg)
                                          (latency_renew_samples cfg) (latency_renew_cooldown_sec cfg)) (renewal p) in
      let l := set_probe (mkLaneProbe (probe_token p) (probe_outstanding p) (lane_rtt_us p) (rtt_sample p) r) l in
      let h := set_os w h in
      if forced || missing || aged || slow then (Some (l, instant, missing, slow), l :: rest, h)
      else let '(found, rest, h) := pick_lane forced rest h in (found, l :: rest, h)
  end.

(** [pool_tunnel_loop] src/cdn/src/runtime.cpp:1184-1202 *)
Definition choose_replacement : Po unit :=
  s ← pool ;
  if negb (dialing (dialer s)) && (count_lanes s =? max_connections cfg) then
    t1 ← read_ns ;
    if t1 <? next_replacement (dialer s) then mret tt
    else
      t2 ← read_ns ;
      if (t2 <? next_dial (dialer s)) || existsb draining (lanes s) then mret tt
      else
        forced ← query take_disconnect ;
        s ← pool ;
        let '(found, ls, h) := pick_lane forced (lanes s) (shared s) in
        modify (λ s, set_shared h (set_lanes ls s)) ;;
        match found with
        | None => mret tt
        | Some (l, instant, missing, slow) =>
            on_dialer (λ d, mkDialer (dialing d) (next_dial d) (backoff d) (lane_id l) (if slow then lane_rtt_us (lane_probe l) else -1)
                              (instant + latency_renew_cooldown_sec cfg * 10 ^ 9)) ;;
            (if slow then record_stats (bump latency_renewals 1) else mret tt) ;;
            (if missing then record_stats (bump reply_renewals 1) else mret tt) ;;
            record_event (str "pool replacement=started lane=" ++ to_string (lane_id l))
        end
  else mret tt.

(** [dial] stays invalid when [std::async] throws, which nothing here catches.
    [pool_tunnel_loop] src/cdn/src/runtime.cpp:1203-1207 *)
Definition start_dial : Po unit :=
  s ← pool ;
  let d := dialer s in
  if ((count_lanes s <? max_connections cfg) || negb (replacing d =? 0)) && negb (dialing d) then
    t ← read_ns ;
    if t <? next_dial d then mret tt
    else
      record_stats (bump pool_dials 1) ;;
      begun ← query begin_dial ;
      match begun with
      | Ok _ => on_dialer (λ d, mkDialer true (next_dial d) (backoff d) (replacing d) (reference_rtt d) (next_replacement d))
      | Err e => throw e
      end
  else mret tt.

(** ** Packets *)

(** The two sums of the queues of all lanes. *)
Definition sum_packets (ls : list PoolLane) : Z := foldr (λ l n, u64 (packets_ (waiting l) + n)) 0 ls.
Definition sum_bytes (ls : list PoolLane) : Z := foldr (λ l n, u64 (FlowQueue.bytes_ (waiting l) + n)) 0 ls.
Definition sum_pending (ls : list PoolLane) : Z := foldr (λ l n, u64 (tx_bytes l + n)) 0 ls.

(** [pool_tunnel_loop] src/cdn/src/runtime.cpp:1215-1220 *)
Fixpoint expire_lanes (ls : list PoolLane) (h : Shared) : list PoolLane * Shared :=
  match ls with
  | [] => ([], h)
  | l :: rest =>
      let (t, w) := clock_ns (sh_os h) in
      let (n, q) := drop_expired (u64 (micros t)) (u64 (queue_delay_ms cfg) * 1000) (waiting l) in
      let (rest, h) := expire_lanes rest (count_shared (bump drop_delay n) (set_os w h)) in
      (set_waiting q l :: rest, h)
  end.

(** Drops what waited too long and publishes the sums.
    [pool_tunnel_loop] src/cdn/src/runtime.cpp:1214-1223 *)
Definition expire_waiting : Po unit :=
  modify (λ s, let (ls, h) := expire_lanes (lanes s) (shared s) in set_shared h (set_lanes ls s)) ;;
  s ← pool ;
  let pkts := sum_packets (lanes s) in
  let size := sum_bytes (lanes s) in
  record_stats (λ st, put_max queue_peak_bytes size (put_max queue_peak_pkts pkts
    (put ws_tx_pending_bytes (sum_pending (lanes s)) (put queue_bytes_now size (put queue_pkts pkts st))))).

(** How good a lane is for a new flow; a [long double] holds these integers
    exactly. [age_ms]: how long the probe has been out.
    [pool_tunnel_loop] src/cdn/src/runtime.cpp:1253-1256 *)
Definition score (l : PoolLane) (instant age_ms : Z) : Z :=
  (if lane_rtt_us (lane_probe l) <? 0 then 100000 else lane_rtt_us (lane_probe l))
  + oldest_age_us instant (waiting l)
  + u64 (FlowQueue.bytes_ (waiting l) + tx_bytes l) * 8
  + (if reply_degraded_sec cfg * 1000 <=? age_ms then 10 ^ 12 else 0).

(** The first of the lanes with the least score; [best] is absent at first.
    [pool_tunnel_loop] src/cdn/src/runtime.cpp:1248-1258 *)
Fixpoint preferred_lane (instant : Z) (ls : list PoolLane) (best : option Z) (preferred : Z) (w : lworld) : Z * lworld :=
  match ls with
  | [] => (preferred, w)
  | l :: rest =>
      if draining l then preferred_lane instant rest best preferred w
      else
        let (age, w) :=
          if probe_outstanding (lane_probe l) then
            let (t, w) := clock_ns w in (millis (t - lane_probe_at (times l)), w)
          else (0, w) in
        let v := score l instant age in
        let better := match best with None => true | Some b => v <? b end in
        preferred_lane instant rest (if better then Some v else best) (if better then lane_id l else preferred) w
  end.

(** One packet of the TUN device, with the sums [pkts] and [size] so far; the new
    sums.
    [pool_tunnel_loop] src/cdn/src/runtime.cpp:1245-1269 *)
Definition route_packet (p : bytes) (live : list Z) (pkts size : Z) : Po (Z * Z) :=
  record_stats (λ st, bump tun_in_bytes (zlen p) (bump tun_in_pkts 1 st)) ;;
  instant ← read_us ;
  s ← pool ;
  preferred ← query (preferred_lane instant (lanes s) None 0) ;
  let (chosen, m) := choose p live instant preferred (affinity s) in
  modify (set_affinity m) ;;
  match list_find (λ l, lane_id l = chosen) (lanes s) with
  | None => record_stats (bump drop_queue 1) ;; mret (pkts, size)
  | Some (i, l) =>
      if (queue_packets cfg <=? pkts) || (queue_bytes cfg <? u64 (size + zlen p + 64)) then
        record_stats (bump drop_queue 1) ;; mret (pkts, size)
      else
        t ← read_us ;
        let (ok, q) := push p t (queue_packets cfg) (queue_bytes cfg) (waiting l) in
        modify (λ s, set_lanes (<[i := set_waiting q l]> (lanes s)) s) ;;
        if (ok : bool) then
          now ← read_ns ;
          modify (λ s, set_lanes (<[i := mark_lane_data now (set_waiting q l)]> (lanes s)) s) ;;
          mret (u64 (pkts + 1), u64 (size + zlen p + 64))
        else record_stats (bump drop_queue 1) ;; mret (pkts, size)
  end.

(** [for (int read_count = 0; read_count < std::max(1, cfg.batch_packets); ++read_count)]
    [pool_tunnel_loop] src/cdn/src/runtime.cpp:1240-1270 *)
Fixpoint route_packets (turns : nat) (live : list Z) (pkts size : Z) : Po unit :=
  match turns with
  | O => mret tt
  | S turns' =>
      r ← query (read_packet (mtu cfg + 256)) ;
      match r with
      | TunPacket p => sums ← route_packet p live pkts size ; route_packets turns' live sums.1 sums.2
      | TunInterrupted => route_packets turns' live pkts size
      | TunAgain => mret tt
      | _ => throw (str "PTT8 TUN read failed")
      end
  end.

(** ** The lanes in turn *)

(** [for (std::size_t i = 0; i < lanes.size();)]: after a lane is removed the
    rest waits for the next turn.
    [pool_tunnel_loop] src/cdn/src/runtime.cpp:1271-1403 *)
Fixpoint visit_lanes (fuel i : nat) (bad : list bool) : Po unit :=
  match fuel with
  | O => mret tt
  | S fuel' => λ s,
      match lanes s !! i with
      | None => (Ok tt, s)
      | Some l =>
          match visit_lane cfg server (default false (bad !! i)) (mkVisit l (shared s)) with
          | (r, v) =>
              let s' := set_shared (shared_of v) (set_lanes (<[i := lane_of v]> (lanes s)) s) in
              match r with
              | Ok _ => visit_lanes fuel' (S i) bad s'
              | Err e => detach i (clean_log_detail e) s'
              end
          end
      end
  end.

(** The greatest silence, in milliseconds. *)
Fixpoint longest_silence (ls : list PoolLane) (w : lworld) : Z * lworld :=
  match ls with
  | [] => (0, w)
  | l :: rest =>
      let (t, w) := clock_ns w in
      let (m, w) := longest_silence rest w in
      (Z.max (u64 (millis (t - lane_rx (times l)))) m, w)
  end.

(** [pool_tunnel_loop] src/cdn/src/runtime.cpp:1404-1411 *)
Definition publish_health : Po unit :=
  s ← pool ;
  if (length (lanes s) =? 0)%nat then
    record_stats (λ st, put degraded 1 (put last_rx_age_ms (u64 (idle_timeout_sec cfg) * 1000) st))
  else
    age ← query (longest_silence (lanes s)) ;
    record_stats (λ st, put degraded (if count_lanes s <? max_connections cfg then 1 else 0) (put last_rx_age_ms age st)).

(** ** One turn *)

Definition wants_of (e : PollEvent) (w : WsSession) : bool :=
  bool_decide (e = websocket_rx_poll_events w) || bool_decide (Some e = websocket_tx_poll_events w).

Definition events_of (l : PoolLane) : Events := mkEvents (wants_of POLLIN (session_of l)) (wants_of POLLOUT (session_of l)).

(** [cfg.queue_packets] and [cfg.queue_bytes] leave room.
    [pool_tunnel_loop] src/cdn/src/runtime.cpp:1229-1229 *)
Definition can_read (s : PoolState) : bool :=
  negb (length (lanes s) =? 0)%nat && (sum_packets (lanes s) <? queue_packets cfg) && (sum_bytes (lanes s) <? queue_bytes cfg).

(** What the loop waits for, and how long.
    [pool_tunnel_loop] src/cdn/src/runtime.cpp:1226-1236 *)
Definition pool_wait : Po PoolReady :=
  s ← pool ;
  let buffered := existsb (λ l, ssl (conf (session_of l)) && (0 <? ssl_pending (net (conn l)))) (lanes s) in
  let send_ready := existsb (λ l, negb (queue_empty (waiting l)) && (tx_bytes l <? u64 (batch_bytes cfg * 2))) (lanes s) in
  query (poll_pool (map events_of (lanes s)) (can_read s)
           (if buffered then 0 else if send_ready then (if traffic_shaping cfg then 1 else 0) else pool_idle_poll_ms cfg)).

(** The body of [while (!g_stop)].
    [pool_tunnel_loop] src/cdn/src/runtime.cpp:1148-1411 *)
Definition pool_turn : Po unit :=
  (if server then s ← pool ; admit_ready (S (ready_bound (sh_os (shared s))))
   else finish_dial ;; choose_replacement ;; start_dial) ;;
  modify show_active ;;
  t ← read_ns ;
  s ← pool ;
  (if 10 * 10 ^ 9 <? t - last_prune s then
     us ← read_us ; modify (λ s, set_prune t (set_affinity (prune us (affinity s)) s))
   else mret tt) ;;
  expire_waiting ;;
  s ← pool ;
  ready ← pool_wait ;
  match ready with
  | PoolPollInterrupted => mret tt
  | PoolPollBroken => throw (str "PTT8 poll failed")
  | PoolPolled bad tun =>
      (if can_read s && tun then
         route_packets (Z.to_nat (Z.max 1 (batch_packets cfg))) (map lane_id (lanes s))
           (sum_packets (lanes s)) (sum_bytes (lanes s))
       else mret tt) ;;
      s ← pool ;
      visit_lanes (length (lanes s)) 0 bad ;;
      publish_health
  end.

(** [n] turns, or fewer.
    [pool_tunnel_loop] src/cdn/src/runtime.cpp:1147-1412 *)
Fixpoint pool_turns (n : nat) : Po unit :=
  match n with
  | O => mret tt
  | S n' => stop ← query stop_flag ; if (stop : bool) then mret tt else pool_turn ;; pool_turns n'
  end.

(** The locals with their initialisers: five looks at the clock.
    [pool_tunnel_loop] src/cdn/src/runtime.cpp:1089-1100 *)
Definition new_pool (st : Stats) (r : RttHistory) (ev : list bytes) (w : lworld) : PoolState :=
  let (dial_at, w) := clock_ns w in
  let (prune_at, w) := clock_ns w in
  let (replacement_at, w) := clock_ns w in
  let (shape_at, w) := clock_ns w in
  let (padding_at, w) := clock_ns w in
  mkPool [] ∅ 1 (mkDialer false dial_at (reconnect_initial_ms cfg) 0 (-1) replacement_at) prune_at
    (mkShared st r (new_shape (traffic_shaping cfg) (shaping_rate_bytes cfg) (shaping_burst_bytes cfg) (u64 (micros shape_at)))
       (new_padding (padding_budget_pct cfg) (u64 (micros padding_at))) ev w) [].

(** The loop and what follows it; the outcome of a dial that is still running is
    thrown away.
    [pool_tunnel_loop] src/cdn/src/runtime.cpp:1087-1417 *)
Definition pool_tunnel_loop (n : nat) : Po unit := pool_turns n ;; record_stats (put pool_active 0).
End PoolLoop.
