(* ===== verification/PoolProps.v ===== *)
(** * Properties of the connection pool

    Over any number of turns: every lane keeps its accounts, so packets sent on a
    lane arrive in order, unaltered and at most once, also when the lane has
    failed; there are never more lanes than allowed, and each is with a peer that
    agreed on the pool; all queues together stay within the limits; and a lane
    that fails never ends the loop. *)

From S2P Require Import Prelude.
From S2P Require Import Text Crypto Keys RecordLoop Record Config ConfigBounds Tun LoopOs Outbox Sequence Logging Pool.
From S2P Require Import FlowScheduler FlowQueue Traffic Telemetry Budget Handshake CarrierLoop Transport WebSocket.
From S2P Require Import PoolLane PoolLaneProps PoolLoop.

Section PoolProps.
Context {C : Crypto} {CL : CryptoLaws C} {K : LoopOs} {KL : LoopLaws K} {T : Transport} {PO : PoolOs K} {IO : IterationOrder}.
Context (cfg : Config) (server : bool) (B : bounds cfg).

(** ** The invariant *)

Definition agreed (l : PoolLane) : Prop :=
  pool_connections (handshake l) = max_connections cfg ∧ confirmed (handshake l) = true ∧ peer_trial (handshake l) = true.

(** A lane between its visits. *)
Record alive (l : PoolLane) : Prop := {
  al_sending : sending cfg [] l; al_heard : heard cfg l; al_queue : queue_ok (waiting l); al_agreed : agreed l }.

(** A lane that was removed. *)
Record gone (l : PoolLane) : Prop := { go_sending : sending cfg [] l; go_heard : heard_end cfg l; go_agreed : agreed l }.

Definition total_packets (ls : list PoolLane) : Z := foldr (λ l n, packets_ (waiting l) + n) 0 ls.
Definition total_bytes (ls : list PoolLane) : Z := foldr (λ l n, FlowQueue.bytes_ (waiting l) + n) 0 ls.

Record lanes_ok (ls : list PoolLane) : Prop := {
  ln_alive : Forall alive ls;
  ln_packets : total_packets ls <= queue_packets cfg;
  ln_bytes : total_bytes ls <= queue_bytes cfg }.

(** What the invariant looks at. *)
Definition frame (s : PoolState) : list PoolLane * list PoolLane * bool * Z :=
  (lanes s, departed s, dialing (dialer s), replacing (dialer s)).

Definition base (s : PoolState) : Prop := lanes_ok (lanes s) ∧ Forall gone (departed s).
Definition busy (s : PoolState) : Prop := dialing (dialer s) = true ∨ replacing (dialer s) ≠ 0.

(** At most [n] lanes. *)
Definition upto (n : Z) (s : PoolState) : Prop := base s ∧ count_lanes s <= n.

Record pool_ok (s : PoolState) : Prop := {
  po_base : upto (max_connections cfg + 1) s;
  po_busy : busy s → count_lanes s <= max_connections cfg ∧ server = false }.

Lemma upto_frame n s s' : frame s' = frame s → upto n s → upto n s'.
Proof using Type. unfold frame, upto, base, count_lanes. intros H. injection H as -> -> _ _. done. Qed.

Lemma ok_frame s s' : frame s' = frame s → pool_ok s → pool_ok s'.
Proof using Type.
  intros H [P Q]. split; [by apply (upto_frame _ s)|].
  unfold frame, busy, count_lanes in *. injection H as -> _ -> ->. done.
Qed.

(** ** Lists of lanes *)

(** What may become of a lane: it stays alive, and its queue does not grow. *)
Definition becomes (l0 l : PoolLane) : Prop :=
  alive l0 → alive l ∧ packets_ (waiting l) <= packets_ (waiting l0)
             ∧ FlowQueue.bytes_ (waiting l) <= FlowQueue.bytes_ (waiting l0).

Lemma becomes_same l0 l : core l = core l0 → becomes l0 l.
Proof using Type.
  unfold core. intros H [[A D E] F G I]. injection H as H1 H2 H3 H4 H5 H6. rewrite H4. split; [|lia].
  split; [split| |by rewrite H4|unfold agreed; by rewrite H6].
  - by rewrite H1, H2.
  - by rewrite H2.
  - unfold lane_tx_key. by rewrite H2, H6.
  - unfold heard, fresh_decoder. by rewrite H2, H3, H6.
Qed.

Lemma becomes_refl l : becomes l l.
Proof using Type. by apply becomes_same. Qed.

Lemma becomes_ok ls ls' : Forall2 becomes ls ls' → lanes_ok ls → lanes_ok ls' ∧ zlen ls' = zlen ls.
Proof using Type.
  intros H [A D E].
  cut (Forall alive ls' ∧ total_packets ls' <= total_packets ls ∧ total_bytes ls' <= total_bytes ls ∧ zlen ls' = zlen ls).
  { intros (?&?&?&?). by split; [split; [|lia..]|]. }
  clear D E. induction H as [|l l' ls ls' Hl H IH]; [done|]. apply Forall_cons in A as [Al A].
  destruct (Hl Al) as (?&?&?). destruct (IH A) as (?&?&?&?). rewrite !zlen_cons. simpl. split_and!; [by constructor|lia..].
Qed.

Lemma queue_nonneg l : alive l → 0 <= packets_ (waiting l) ∧ 0 <= FlowQueue.bytes_ (waiting l).
Proof using Type.
  intros [_ _ [[_ _ Hp Hb _ _] _] _]. rewrite Hp, Hb. split; [apply zlen_nonneg|apply size_of_nonneg].
Qed.

Lemma totals_nonneg ls : Forall alive ls → 0 <= total_packets ls ∧ 0 <= total_bytes ls.
Proof using Type.
  induction 1 as [|l ls H _ IH]; simpl; [lia|]. apply queue_nonneg in H. lia.
Qed.

(** The totals with one lane replaced. *)
Lemma total_insert (f : PoolLane → Z) ls i l0 l :
  ls !! i = Some l0 →
  foldr (λ l n, f l + n) 0 (<[i := l]> ls) = foldr (λ l n, f l + n) 0 ls - f l0 + f l.
Proof using Type.
  revert i. induction ls as [|x ls IH]; intros [|i] H; simpl in *; [done..|injection H as ->; lia|].
  specialize (IH i H). lia.
Qed.

Lemma lanes_delete ls i : lanes_ok ls → lanes_ok (delete i ls) ∧ zlen (delete i ls) <= zlen ls.
Proof using Type.
  intros [A D E].
  cut (Forall alive (delete i ls) ∧ total_packets (delete i ls) <= total_packets ls
       ∧ total_bytes (delete i ls) <= total_bytes ls ∧ zlen (delete i ls) <= zlen ls).
  { intros (?&?&?&?). by split; [split; [|lia..]|]. }
  clear D E. revert i. induction A as [|l ls Hl A IH]; intros [|i]; simpl; [by split_and!..| |].
  - apply queue_nonneg in Hl. rewrite zlen_cons. split_and!; [done|lia..].
  - specialize (IH i). rewrite !zlen_cons. simpl.
    destruct IH as (?&?&?&?). split_and!; [by constructor|lia..].
Qed.
(** ** Quiet steps *)

Ltac walk :=
  repeat first [ progress keep | match goal with |- keeps _ (match ?x with _ => _ end) => destruct x end ].

Section Quiet.
Context (P : PoolState → Prop) (P_frame : ∀ s s', frame s' = frame s → P s → P s').

Lemma idle_modify f : (∀ s, frame (f s) = frame s) → keeps P (modify f).
Proof using P_frame. intros H. apply keeps_modify. intros s. apply P_frame, H. Qed.
Lemma calm_query {A} (f : lworld → A * lworld) : keeps P (query f).
Proof using P_frame. intros s. unfold query. destruct (f _). by apply P_frame. Qed.
Lemma calm_stats f : keeps P (record_stats f).
Proof using P_frame. by apply idle_modify. Qed.
Lemma calm_event e : keeps P (record_event e).
Proof using P_frame. by apply idle_modify. Qed.
Lemma calm_dialer f :
  (∀ d, dialing (f d) = dialing d ∧ replacing (f d) = replacing d) → keeps P (on_dialer f).
Proof using P_frame. intros H. apply idle_modify. intros s. unfold frame. simpl. by destruct (H (dialer s)) as [-> ->]. Qed.
End Quiet.

#[local] Hint Resolve calm_query calm_stats calm_event : pt.
#[local] Hint Extern 1 (keeps _ pool) => apply keeps_gets : pt.
#[local] Hint Extern 1 (keeps _ read_ns) => apply calm_query; assumption : pt.
#[local] Hint Extern 2 (keeps _ (on_dialer _)) => apply calm_dialer; [assumption|done] : pt.
#[local] Hint Extern 2 (keeps _ (modify _)) => apply idle_modify; [assumption|done] : pt.

(** Operations that throw nothing. *)
Definition never {S A} (m : M S A) : Prop := ∀ s, ∃ a s', m s = (Ok a, s').

Lemma never_ret {S A} (a : A) : never (mret a : M S A).
Proof using Type. intros s. by eexists _, _. Qed.
Lemma never_gets {S A} (f : S → A) : never (gets f).
Proof using Type. intros s. by eexists _, _. Qed.
Lemma never_modify {S} (f : S → S) : never (modify f).
Proof using Type. intros s. by eexists _, _. Qed.
Lemma never_bind {S A X} (m : M S A) (f : A → M S X) : never m → (∀ a, never (f a)) → never (m ≫= f).
Proof using Type.
  intros Hm Hf s. destruct (Hm s) as (a & s' & H). unfold mbind, M_bind. rewrite H. apply Hf.
Qed.
Lemma never_query {A} (f : lworld → A * lworld) : never (query f).
Proof using Type. intros s. unfold query. destruct (f _). by eexists _, _. Qed.
Lemma never_rescue m h : (∀ e, never (h e)) → never (rescue m h).
Proof using Type. intros Hh s. unfold rescue. destruct (m s) as [[a|e] s']; [by eexists _, _|apply Hh]. Qed.

#[local] Hint Resolve never_ret never_gets never_modify never_query : pt.
#[local] Hint Extern 1 (never (record_stats _)) => apply never_modify : pt.
#[local] Hint Extern 1 (never (record_event _)) => apply never_modify : pt.
#[local] Hint Extern 1 (never (on_dialer _)) => apply never_modify : pt.
#[local] Hint Extern 1 (never read_ns) => apply never_query : pt.
#[local] Hint Extern 1 (never pool) => apply never_gets : pt.

(** Walk through an operation that throws nothing. *)
Ltac never_walk :=
  repeat first [ solve [auto with pt] | apply never_bind; [|intros ?] | apply never_rescue; intros ?
               | match goal with |- never (match ?x with _ => _ end) => destruct x end ].

Lemma never_us : never read_us.
Proof using Type. unfold read_us. never_walk. Qed.
#[local] Hint Resolve never_us : pt.

Section Calm.
Context (P : PoolState → Prop) (P_frame : ∀ s s', frame s' = frame s → P s → P s').

Lemma calm_us : keeps P read_us.
Proof using P_frame. unfold read_us. walk. Qed.
#[local] Hint Resolve calm_us : pt.

Lemma calm_health : keeps P (publish_health cfg).
Proof using P_frame. unfold publish_health. walk. Qed.

Lemma calm_wait : keeps P (pool_wait cfg).
Proof using P_frame. unfold pool_wait. walk. Qed.
End Calm.
#[local] Hint Resolve calm_us calm_health calm_wait : pt.

(** A step that keeps a set of states, whatever follows it. *)
Lemma calmly {A X} (P : PoolState → Prop) (Q : X → PoolState → Prop) E (m : M PoolState A) (f : A → M PoolState X) s :
  keeps P m → P s → (∀ s', P s' → E s') → (∀ a s', P s' → ends Q E (f a s')) → ends Q E ((m ≫= f) s).
Proof using Type.
  intros Hm Hs HE Hf. specialize (Hm s Hs). unfold mbind, M_bind. destruct (m s) as [[a|e] s']; [by apply Hf|by apply HE].
Qed.

(** Such a step may lead to any state of the set when it throws nothing. *)
Lemma calm_never {A X} (P : PoolState → Prop) (Q : X → PoolState → Prop) E (m : M PoolState A) (f : A → M PoolState X) s :
  keeps P m → never m → P s → (∀ a s', P s' → ends Q E (f a s')) → ends Q E ((m ≫= f) s).
Proof using Type.
  intros Hm Hn Hs Hf. specialize (Hm s Hs). destruct (Hn s) as (a & s' & H).
  unfold mbind, M_bind. rewrite H in *. by apply Hf.
Qed.

Lemma rescue_ends {P : PoolState → Prop} (Q : unit → PoolState → Prop) (E E' : PoolState → Prop) m h s :
  ends Q E' (m s) → (∀ e s', E' s' → ends Q E (h e s')) → ends Q E (rescue m h s).
Proof using Type. unfold rescue. intros Hm Hh. destruct (m s) as [[a|e] s']; [done|by apply Hh]. Qed.

Lemma bind_pool {A} (f : PoolState → M PoolState A) s : (pool ≫= f) s = f s s.
Proof using Type. done. Qed.
Lemma bind_modify {A} f (m : M PoolState A) s : (modify f ;; m) s = m (f s).
Proof using Type. done. Qed.
Lemma bind_dialer {A} f (m : M PoolState A) s : (on_dialer f ;; m) s = m (set_dialer (f (dialer s)) s).
Proof using Type. done. Qed.

(** ** Lanes come and go *)

Lemma new_lane_alive c hs id w :
  pool_connections hs = max_connections cfg → confirmed hs = true → peer_trial hs = true →
  let l := (new_lane cfg c hs id w).1 in
  alive l ∧ packets_ (waiting l) = 0 ∧ FlowQueue.bytes_ (waiting l) = 0.
Proof using Type.
  intros H1 H2 H3 l.
  assert (Hl : handshake l = hs ∧ lane_seq l = 1 ∧ lane_trace l = mkTrace [] [] [] []
               ∧ lane_dec l = fresh_decoder cfg l ∧ waiting l = clear).
  { subst l. unfold new_lane. repeat destruct (clock_ns _). done. }
  destruct Hl as (E1 & E2 & E3 & E4 & E5). rewrite E5. split; [|done]. split.
  - split; rewrite E3; [by rewrite E2|done|]. exists [], [], []. split_and!; auto using Forall2_nil_2.
  - exists []. by rewrite E3, E4.
  - rewrite E5. apply clear_ok.
  - unfold agreed. by rewrite E1.
Qed.

Definition dials (d : bool * Z) (s : PoolState) : Prop := (dialing (dialer s), replacing (dialer s)) = d.

Lemma both_frame n d s s' : frame s' = frame s → upto n s ∧ dials d s → upto n s' ∧ dials d s'.
Proof using Type.
  intros H [Hu Hd]. split; [by apply (upto_frame n s)|]. unfold frame, dials in *. by injection H as _ _ -> ->.
Qed.

(** At most one more lane, whether [attach] returns or throws. *)
Lemma attach_adds n d c hs s :
  upto n s ∧ dials d s → let s' := (attach cfg c hs s).2 in upto (n + 1) s' ∧ dials d s'.
Proof using Type.
  intros H0 s'.
  assert (Hmore : ∀ s, upto n s ∧ dials d s → upto (n + 1) s ∧ dials d s).
  { intros s0 [[? ?] ?]. split; [split; [done|lia]|done]. }
  cut (ends (λ _ s', upto (n + 1) s' ∧ dials d s') (λ s', upto (n + 1) s' ∧ dials d s') (attach cfg c hs s)).
  { subst s'. by destruct (attach _ _ _ _) as [[] ?]. }
  unfold attach, check at 1.
  destruct (negb (pool_connections hs =? max_connections cfg) || negb (confirmed hs) || negb (peer_trial hs)) eqn:Hc; [by apply Hmore|].
  bool_to_prop. pose proof (both_frame n d) as Hq. pose proof (both_frame (n + 1) d) as Hq'.
  apply (calmly (λ s, upto n s ∧ dials d s)); [walk|done|done|]. intros u1 s1 Hs1.
  apply (calmly (λ s, upto n s ∧ dials d s)); [walk|done|done|]. intros fails s2 Hs2.
  apply (calmly (λ s, upto n s ∧ dials d s)); [walk|done|done|]. intros u3 s3 Hs3.
  cbn zeta. rewrite bind_pool. set (conn := mkConn _ _ _). rewrite bind_modify.
  match goal with |- ends _ _ (?m ?s4) =>
    assert (Hs4 : upto (n + 1) s4 ∧ dials d s4);
      [|assert (Hm : keeps (λ s, upto (n + 1) s ∧ dials d s) m) by walk; specialize (Hm s4 Hs4); by destruct (m s4) as [[] ?]]
  end.
  destruct Hs3 as [[[[A P Q] G] Hn] Hd3].
  pose proof (new_lane_alive conn hs (next_id s3) (sh_os (shared s3)) ltac:(done) ltac:(done) ltac:(done)) as Hl.
  destruct (new_lane _ _ _ _ _) as [l w]. simpl in Hl. destruct Hl as (Hl & Hp & Hb).
  split; [|done]. split; [split; [split|done]|]; simpl.
  - apply Forall_app. split; [done|by apply Forall_singleton].
  - unfold total_packets. rewrite foldr_app. simpl. by rewrite Hp.
  - unfold total_bytes. rewrite foldr_app. simpl. by rewrite Hb.
  - unfold count_lanes in *. simpl. rewrite zlen_app. change (zlen [l]) with 1. lia.
Qed.

Lemma admit_adds fuel d : keeps (λ s, upto (max_connections cfg + 1) s ∧ dials d s) (admit_ready cfg fuel).
Proof using Type.
  set (P := λ s, upto (max_connections cfg + 1) s ∧ dials d s).
  assert (Hq : ∀ s s', frame s' = frame s → P s → P s') by apply both_frame.
  induction fuel as [|fuel IH]; simpl; [walk|]. intros s Hs. rewrite bind_pool.
  destruct (Z.ltb_spec (count_lanes s) (max_connections cfg + 1)) as [Hlt|]; [|done].
  set (P0 := λ s, upto (max_connections cfg) s ∧ dials d s).
  assert (Hq0 : ∀ s s', frame s' = frame s → P0 s → P0 s') by apply both_frame.
  assert (Hs0 : P0 s) by (destruct Hs as [[? ?] ?]; split; [split; [done|lia]|done]).
  assert (H0 : ∀ s, P0 s → P s) by (intros s0 [[? ?] ?]; split; [split; [done|lia]|done]).
  match goal with |- P (?m s).2 => assert (H : ends (λ _, P) P (m s)); [|by destruct (m s) as [[] ?]] end.
  apply (calmly P0); [walk|done|done|]. intros ready s1 H1. destruct ready; [|by apply H0].
  apply (calmly P0); [walk|done|done|]. intros got s2 H2.
  eapply (ends_bind (λ _, P)).
  - destruct got as [[c hs]|]; [|by apply H0].
    apply (rescue_ends (P := P) _ _ P).
    + pose proof (attach_adds _ _ c hs _ H2) as H. by destruct (attach _ _ _ _) as [[] ?].
    + intros e s3 H3. apply (keeps_at P (record_stats (bump pool_failures 1)) s3) in H3; [exact H3|walk].
  - intros _ s3 H3. specialize (IH s3 H3). by destruct (admit_ready _ _ _) as [[] ?].
Qed.

Lemma idle_dials s : pool_ok s → server = true → dials (false, 0) s.
Proof using Type.
  intros [_ Hb] Hs. unfold dials, busy in *. destruct (dialing _) eqn:Hd; [by destruct Hb; [left|congruence]|].
  destruct (Z.eq_dec (replacing (dialer s)) 0) as [->|]; [done|]. destruct Hb; [by right|congruence].
Qed.

Lemma admit_ok fuel s : server = true → pool_ok s → pool_ok (admit_ready cfg fuel s).2.
Proof using Type.
  intros Hsrv Hs. destruct (admit_adds fuel (false, 0) s) as [Hu Hd]; [split; [apply Hs|by apply idle_dials]|].
  split; [done|]. unfold dials, busy in *. injection Hd as -> ->. by intros [|].
Qed.

(** ** Replacing a lane *)

Lemma alive_sends l h : alive l → sends cfg l [] (mkVisit l h) ∧ heard cfg l.
Proof using Type. intros [Hs Hh Hq _]. split; [|done]. split; [done|]. by split. Qed.

Lemma sends_alive l0 v : alive l0 → sends cfg l0 [] v → heard cfg (lane_of v) → becomes l0 (lane_of v).
Proof using Type.
  intros A [S [I H Q N O]] Hh _. split; [|done]. split; [done..|]. unfold agreed. rewrite H. apply A.
Qed.

Lemma retire_becomes l h : becomes l (retire cfg l h).1.
Proof using CL.
  intros A. unfold retire. destruct (clock_ns _) as [t w].
  set (v := mkVisit (set_draining (t + pool_drain_sec cfg * 10 ^ 9) l) (set_os w h)).
  assert (Hv : sends cfg l [] v).
  { apply (sends_same cfg l [] (mkVisit l h)); [done|]. by apply alive_sends. }
  pose proof (sends_lane_control cfg l [] RECORD_DRAIN ltac:(split; done) v Hv) as H.
  pose proof (in_control cfg (incoming_core l) [] RECORD_DRAIN v eq_refl) as Hi.
  assert (Hb : becomes l (lane_of (send_control cfg [] RECORD_DRAIN v).2)).
  { apply sends_alive; [done|done|]. destruct A as [_ (ds & Hd & Ht) _ _].
    unfold incoming_is, incoming_core in Hi. injection Hi as H1 H2 H3 H4. exists ds.
    unfold fresh_decoder in *. by rewrite H1, H2, H3, H4. }
  destruct (send_control _ _ _ _) as [[[]|e] v']; simpl in *; [by apply Hb|].
  destruct (clock_ns _) as [t' w']. simpl. destruct (Hb A) as (Hb1 & ? & ?).
  by destruct (becomes_same (lane_of v') (set_draining t' (lane_of v')) eq_refl Hb1).
Qed.

Lemma retire_lanes_become id ls h : Forall2 becomes ls (retire_lanes cfg id ls h).1.
Proof using CL.
  revert h. induction ls as [|l ls IH]; intros h; simpl; [constructor|].
  destruct (lane_id l =? id).
  - pose proof (retire_becomes l h) as H. destruct (retire cfg l h) as [l' h']. simpl in H.
    specialize (IH (note_event (str "pool replacement=verified retiring_lane=" ++ to_string id) (count_shared (bump session_renewals 1) h'))).
    destruct (retire_lanes _ _ _ _) as [rest h'']. by constructor.
  - specialize (IH h). destruct (retire_lanes _ _ _ _) as [rest h'']. constructor; [apply becomes_refl|done].
Qed.

Lemma pick_lane_becomes forced ls h : Forall2 becomes ls (pick_lane cfg forced ls h).1.2.
Proof using Type.
  revert h. induction ls as [|l ls IH]; intros h; simpl; [constructor|].
  destruct (clock_ns _) as [t w]. destruct (clock_ns _) as [t' w']. destruct (observe_latency _ _) as [slow r].
  destruct (_ || slow).
  - constructor; [by apply becomes_same|]. simpl. clear. induction ls; constructor; [apply becomes_refl|done].
  - specialize (IH (set_os w' h)). destruct (pick_lane _ _ _ _) as [[found rest] h']. simpl in *.
    constructor; [by apply becomes_same|done].
Qed.

(** The lanes replaced, one by one. *)
Lemma upto_becomes n d ls h s :
  Forall2 becomes (lanes s) ls → upto n s ∧ dials d s → upto n (set_shared h (set_lanes ls s)) ∧ dials d (set_shared h (set_lanes ls s)).
Proof using Type.
  intros Hf [[[Hl G] Hn] Hd]. destruct (becomes_ok _ _ Hf Hl) as [Hl' Hz]. split; [|done]. split; [by split|].
  unfold count_lanes in *. simpl. by rewrite Hz.
Qed.

(** ** Dialling *)

Lemma idle_ok n s : n <= max_connections cfg + 1 → upto n s → dials (false, 0) s → pool_ok s.
Proof using Type.
  intros Hn [Hb Hc] Hd. split; [split; [done|lia]|]. unfold dials, busy in *. injection Hd as -> ->. by intros [|].
Qed.

Definition one_more (s : PoolState) : Prop := upto (max_connections cfg + 1) s ∧ dialing (dialer s) = false.

Lemma one_more_frame s s' : frame s' = frame s → one_more s → one_more s'.
Proof using Type.
  intros H [Hu Hd]. split; [by apply (upto_frame _ s)|]. unfold frame in H. injection H as _ _ -> _. done.
Qed.

Lemma dial_failed_ok e s : one_more s → ends (λ _, pool_ok) pool_ok (dial_failed cfg e s).
Proof using Type.
  intros Hs. pose proof one_more_frame as Hq. unfold dial_failed.
  do 4 (apply (calm_never one_more); [walk|never_walk|done|]; clear s Hs; intros ? s Hs).
  rewrite bind_pool. apply (calm_never one_more); [walk|never_walk|done|]. clear s Hs. intros wait s [Hu Hd].
  apply (idle_ok (max_connections cfg + 1)); [lia|done|]. unfold dials. simpl. by rewrite Hd.
Qed.

Lemma dial_succeeded_ok c hs s :
  upto (max_connections cfg) s → dialing (dialer s) = false → ends (λ _, pool_ok) one_more (dial_succeeded cfg c hs s).
Proof using CL.
  intros Hu Hd. unfold dial_succeeded. rewrite bind_pool. cbn zeta. set (r := replacing (dialer s)).
  set (P0 := λ s, upto (max_connections cfg) s ∧ dials (false, r) s).
  set (P1 := λ s, upto (max_connections cfg + 1) s ∧ dials (false, r) s).
  assert (H0 : P0 s) by (split; [done|]; unfold dials; by rewrite Hd).
  assert (Hq0 : ∀ s s', frame s' = frame s → P0 s → P0 s') by apply both_frame.
  assert (Hq1 : ∀ s s', frame s' = frame s → P1 s → P1 s') by apply both_frame.
  assert (E1 : ∀ s, P1 s → one_more s).
  { intros s0 [? Hr]. split; [done|]. unfold dials in Hr. by injection Hr as -> _. }
  assert (E0 : ∀ s, P0 s → one_more s).
  { intros s0 [[? ?] Hr]. apply E1. split; [split; [done|lia]|done]. }
  set (d := dialer s) in *. clearbody d r. clear Hu Hd.
  apply (calmly P0); [walk|done|exact E0|]. intros u1 s1 H1.
  eapply (ends_bind (λ _, P1)).
  { pose proof (attach_adds _ _ c hs _ H1) as H. destruct (attach _ _ _ _) as [[] ?]; [exact H|by apply E1]. }
  intros _ s2 H2. eapply (ends_bind (λ _, P1)).
  { destruct (r =? 0); [exact H2|]. unfold modify. simpl.
    pose proof (retire_lanes_become (r) (lanes s2) (shared s2)) as Hr.
    destruct (retire_lanes _ _ _ _) as [ls h]. by apply upto_becomes. }
  intros _ s3 [Hu3 Hd3]. rewrite bind_dialer.
  set (P2 := λ s, upto (max_connections cfg + 1) s ∧ dials (false, 0) s).
  assert (Hq2 : ∀ s s', frame s' = frame s → P2 s → P2 s') by apply both_frame.
  match goal with |- ends _ _ (_ ?s4) => assert (H4 : P2 s4) end.
  { split; [done|]. unfold dials in *. simpl. by injection Hd3 as -> _. }
  apply (calm_never P2); [walk|never_walk|done|]. intros t s5 [Hu5 Hd5].
  apply (idle_ok (max_connections cfg + 1)); [lia|done|]. exact Hd5.
Qed.

Lemma finish_dial_ok : keeps pool_ok (finish_dial cfg).
Proof using CL.
  intros s Hs. unfold finish_dial. rewrite bind_pool. destruct (dialing (dialer s)) eqn:Hd; [|done].
  match goal with |- pool_ok (?m s).2 => assert (H : ends (λ _, pool_ok) pool_ok (m s)); [|by destruct (m s) as [[] ?]] end.
  set (r := replacing (dialer s)). set (P := λ s, pool_ok s ∧ dials (true, r) s).
  assert (Hq : ∀ s s', frame s' = frame s → P s → P s').
  { intros s0 s1 Hf [Ho Hr]. split; [by apply (ok_frame s0)|].
    unfold frame, dials in *. by injection Hf as _ _ -> ->. }
  apply (calmly P); [walk|split; [done|unfold dials; by rewrite Hd]|by intros ? []|].
  intros out s1 [Ho1 Hr1]. destruct out as [out|]; [|exact Ho1]. rewrite bind_dialer.
  destruct Ho1 as [[Hb _] Hbusy]. unfold dials in Hr1. injection Hr1 as Hd1 _.
  destruct Hbusy as [Hc _]; [by left|].
  match goal with |- ends _ _ (_ ?s2) => assert (H2 : upto (max_connections cfg) s2) by done; assert (H3 : dialing (dialer s2) = false) by done; generalize dependent s2 end.
  clear s1 Hb Hc Hd1. intros s1 H2 H3. destruct out as [[c hs]|e].
  - apply (rescue_ends (P := pool_ok) _ _ one_more); [by apply dial_succeeded_ok|]. intros e s2. apply dial_failed_ok.
  - apply dial_failed_ok. split; [|done]. destruct H2. split; [done|lia].
Qed.

Lemma choose_replacement_ok s : server = false → pool_ok s → pool_ok (choose_replacement cfg s).2.
Proof using Type.
  intros Hsrv Hs. unfold choose_replacement. rewrite bind_pool.
  destruct (negb (dialing (dialer s)) && (count_lanes s =? max_connections cfg)) eqn:Hc; [|done].
  bool_to_prop. set (P := upto (max_connections cfg)).
  assert (Hq : ∀ s s', frame s' = frame s → P s → P s') by (intros s0 s1; apply upto_frame).
  assert (HP : ∀ s, P s → pool_ok s).
  { intros s0 [Hb Hn]. split; [split; [done|lia]|]. by intros _. }
  assert (Hs0 : P s) by (split; [apply Hs|lia]).
  match goal with |- pool_ok (?m s).2 => assert (He : ends (λ _, P) P (m s)); [|destruct (m s) as [[] ?]; by apply HP] end.
  apply (calmly P); [walk|done|done|]. intros t1 s1 H1. destruct (t1 <? _); [done|].
  apply (calmly P); [walk|done|done|]. intros t2 s2 H2. destruct (_ || _); [done|].
  apply (calmly P); [walk|done|done|]. intros forced s3 H3. rewrite bind_pool.
  pose proof (pick_lane_becomes forced (lanes s3) (shared s3)) as Hf.
  destruct (pick_lane _ _ _ _) as [[found ls] h]. simpl in Hf. rewrite bind_modify.
  assert (H4 : P (set_shared h (set_lanes ls s3))).
  { apply (upto_becomes _ (dialing (dialer s3), replacing (dialer s3)) ls h s3 Hf). by split. }
  generalize dependent (set_shared h (set_lanes ls s3)). intros s4 H4.
  destruct found as [[[[l instant] missing] slow]|]; [|exact H4]. rewrite bind_dialer.
  match goal with |- ends _ _ (?m ?s5) =>
    assert (H5 : P s5) by done; assert (Hm : keeps P m) by walk; specialize (Hm s5 H5); by destruct (m s5) as [[] ?] end.
Qed.

Lemma start_dial_ok s : server = false → pool_ok s → pool_ok (start_dial cfg s).2.
Proof using Type.
  intros Hsrv Hs. unfold start_dial. rewrite bind_pool. cbn zeta.
  destruct (_ && negb (dialing (dialer s))) eqn:Hc; [|done]. apply andb_true_iff in Hc as [Hc _].
  assert (Hn : count_lanes s <= max_connections cfg).
  { apply orb_true_iff in Hc as [Hc|Hc]; [lia|]. apply negb_true_iff, Z.eqb_neq in Hc. apply Hs. by right. }
  set (P := upto (max_connections cfg)).
  assert (Hq : ∀ s s', frame s' = frame s → P s → P s') by (intros s0 s1; apply upto_frame).
  assert (HP : ∀ s, P s → pool_ok s).
  { intros s0 [Hb Hn0]. split; [split; [done|lia]|]. by intros _. }
  assert (Hs0 : P s) by (split; [apply Hs|done]).
  match goal with |- pool_ok (?m s).2 => assert (He : ends (λ _, P) P (m s)); [|destruct (m s) as [[] ?]; by apply HP] end.
  apply (calmly P); [walk|done|done|]. intros t s1 H1. destruct (t <? _); [done|].
  apply (calmly P); [walk|done|done|]. intros [] s2 H2.
  apply (calmly P); [walk|done|done|]. intros begun s3 H3. by destruct begun.
Qed.

(** ** Packets *)

Lemma alive_waiting q l : queue_ok q → alive l → alive (set_waiting q l).
Proof using Type. by intros Hq [[A D E] F G I]. Qed.

Lemma expire_lanes_become ls h : Forall2 becomes ls (expire_lanes cfg ls h).1.
Proof using Type.
  revert h. induction ls as [|l ls IH]; intros h; simpl; [constructor|].
  destruct (clock_ns _) as [t w]. destruct (drop_expired _ _ _) as [n q] eqn:Hd.
  specialize (IH (count_shared (bump drop_delay n) (set_os w h))). destruct (expire_lanes _ _ _) as [rest h'].
  constructor; [|done]. intros A. pose proof (al_queue l A) as Hq.
  apply drop_spec in Hd as (Hq' & _ & g & _ & _ & Hp & Hb & _); [|done].
  pose proof (zlen_nonneg g). pose proof (size_of_nonneg g).
  split; [by apply alive_waiting|]. simpl. lia.
Qed.

Lemma pool_becomes ls h s : Forall2 becomes (lanes s) ls → pool_ok s → pool_ok (set_shared h (set_lanes ls s)).
Proof using Type.
  intros Hf [[[Hl G] Hn] Hb]. destruct (becomes_ok _ _ Hf Hl) as [Hl' Hz].
  split; [split; [by split|]|]; unfold busy, count_lanes in *; simpl; by rewrite Hz.
Qed.

Lemma expire_waiting_ok : keeps pool_ok (expire_waiting cfg).
Proof using Type.
  intros s Hs. unfold expire_waiting. rewrite bind_modify.
  pose proof (expire_lanes_become (lanes s) (shared s)) as Hf. destruct (expire_lanes _ _ _) as [ls h]. by apply pool_becomes.
Qed.

(** One lane replaced by another of which the sums are known. *)
Lemma put_lane i l0 l s :
  pool_ok s → lanes s !! i = Some l0 → alive l →
  total_packets (lanes s) - packets_ (waiting l0) + packets_ (waiting l) <= queue_packets cfg →
  total_bytes (lanes s) - FlowQueue.bytes_ (waiting l0) + FlowQueue.bytes_ (waiting l) <= queue_bytes cfg →
  pool_ok (set_lanes (<[i := l]> (lanes s)) s).
Proof using Type.
  intros [[[[A D E] G] Hn] Hb] Hi Hl Hp Hs.
  split; [split; [split; [split|done]|]|]; unfold busy, count_lanes, zlen in *; simpl; try rewrite length_insert; try done.
  - by apply Forall_insert.
  - unfold total_packets. by rewrite (total_insert (λ l, packets_ (waiting l)) _ _ l0).
  - unfold total_bytes. by rewrite (total_insert (λ l, FlowQueue.bytes_ (waiting l)) _ _ l0).
Qed.

(** The sums the loop keeps while it reads the device cover the queues. *)
Record summed (pkts size : Z) (s : PoolState) : Prop := {
  sm_ok : pool_ok s;
  sm_packets : total_packets (lanes s) <= pkts <= queue_packets cfg;
  sm_bytes : total_bytes (lanes s) <= size <= queue_bytes cfg }.

Lemma summed_frame pkts size s s' : frame s' = frame s → summed pkts size s → summed pkts size s'.
Proof using Type.
  intros H [H1 H2 H3]. assert (Hl : lanes s' = lanes s) by (by injection H).
  split; rewrite ?Hl; [by apply (ok_frame s)|done..].
Qed.

Lemma bind_query {A X} (f : lworld → A * lworld) (k : A → M PoolState X) s :
  (query f ≫= k) s = let (a, w) := f (sh_os (shared s)) in k a (set_shared (set_os w (shared s)) s).
Proof using Type. unfold query, mbind, M_bind. by destruct (f _). Qed.

Lemma set_lanes_twice l l' i s :
  set_lanes (<[i := l']> (lanes (set_lanes (<[i := l]> (lanes s)) s))) (set_lanes (<[i := l]> (lanes s)) s)
  = set_lanes (<[i := l']> (lanes s)) s.
Proof using Type. unfold set_lanes. simpl. by rewrite list_insert_insert_eq. Qed.

Lemma route_packet_ok p live pkts size s :
  zlen p <= mtu cfg + 256 → summed pkts size s →
  ends (λ sums s', summed sums.1 sums.2 s') (λ _, False) (route_packet cfg p live pkts size s).
Proof using B.
  intros Hp Hs. unfold route_packet. pose proof (summed_frame pkts size) as Hq.
  apply (calm_never (summed pkts size)); [walk|never_walk|done|]. clear s Hs. intros _ s Hs.
  apply (calm_never (summed pkts size)); [walk|never_walk|done|]. clear s Hs. intros instant s0 Hs0.
  rewrite bind_pool. set (ls := lanes s0).
  set (P := λ s, summed pkts size s ∧ lanes s = ls).
  assert (HqP : ∀ s s', frame s' = frame s → P s → P s').
  { intros s s' H [H1 H2]. split; [by apply (Hq s)|]. by injection H as -> _ _ _. }
  assert (Hdrop : ∀ s, P s → ends (λ sums s', summed sums.1 sums.2 s') (λ _, False)
                               ((record_stats (bump drop_queue 1) ;; mret (pkts, size)) s)).
  { intros s Hs. apply (calm_never P); [walk|never_walk|done|]. by intros _ s' [? _]. }
  apply (calm_never P); [walk|never_walk|by split|]. clear Hs0. intros preferred s Hs.
  destruct (choose _ _ _ _ _) as [chosen m].
  apply (calm_never P); [walk|never_walk|done|]. clear s Hs. intros _ s Hs.
  destruct (list_find _ ls) as [[i l]|] eqn:Hf; [|by apply Hdrop].
  apply list_find_Some in Hf as (Hi & _ & _).
  destruct ((queue_packets cfg <=? pkts) || _) eqn:Hfull; [by apply Hdrop|]. apply orb_false_iff in Hfull as [H1 H2].
  apply Z.leb_gt in H1. apply Z.ltb_ge in H2.
  apply (calm_never P); [walk|never_walk|done|]. clear s Hs. intros t s [[Hs Hpk Hsz] Hl].
  destruct (push _ _ _ _ _) as [ok q] eqn:Hpush.
  assert (Hal : alive l).
  { destruct Hs as [[[[A _ _] _] _] _]. rewrite Forall_forall in A. apply A. rewrite Hl. by eapply list_elem_of_lookup_2. }
  apply push_spec in Hpush as [Hok Hpush]; [|apply Hal|destruct B; lia|destruct B; unfold u64_ok; lia].
  rewrite <- Hl in Hi. rewrite bind_modify. pose proof (zlen_nonneg p).
  assert (Hu : u64 (size + zlen p + 64) = size + zlen p + 64).
  { apply Z.mod_small. pose proof (totals_nonneg (lanes s)) as Ht. destruct Hs as [[[[A _ _] _] _] _].
    specialize (Ht A). destruct B. lia. }
  rewrite Hu in *.
  destruct ok.
  - destruct Hpush as (_ & Hpp & _ & Hbb & _).
    unfold read_ns. rewrite bind_query. destruct (clock_ns _) as [now w]. rewrite bind_modify.
    set (s1 := set_shared _ _).
    assert (Hmark : alive (mark_lane_data now (set_waiting q l))).
    { apply (becomes_same (set_waiting q l)); [done|]. by apply alive_waiting. }
    assert (Hs1 : summed (pkts + 1) (size + zlen p + 64) (set_lanes (<[i := mark_lane_data now (set_waiting q l)]> (lanes s)) s)).
    { split; [apply (put_lane i l); [done..| |]| |]; simpl; unfold total_packets, total_bytes in *;
        try rewrite (total_insert (λ l, packets_ (waiting l)) _ _ l _ Hi);
        try rewrite (total_insert (λ l, FlowQueue.bytes_ (waiting l)) _ _ l _ Hi); simpl; lia. }
    assert (Hpu : u64 (pkts + 1) = pkts + 1).
    { apply Z.mod_small. destruct (totals_nonneg (lanes s)); [apply Hs|]. destruct B. lia. }
    rewrite Hpu. eapply summed_frame; [|exact Hs1].
    unfold frame. subst s1. simpl. by rewrite list_insert_insert_eq.
  - destruct Hpush as [-> _].
    assert (Hself : set_waiting (waiting l) l = l) by (by destruct l). rewrite Hself.
    apply Hdrop. split; [|simpl; rewrite Hl; by apply list_insert_id; rewrite <- Hl].
    eapply summed_frame; [|by split]. unfold frame. simpl. by rewrite list_insert_id.
Qed.

Lemma route_packets_ok turns live pkts size s :
  summed pkts size s → pool_ok (route_packets cfg turns live pkts size s).2.
Proof using B KL.
  revert pkts size s. induction turns as [|turns IH]; intros pkts size s Hs; simpl; [apply Hs|].
  rewrite bind_query. destruct (read_packet _ _) as [r w] eqn:Hr.
  assert (Hs' : summed pkts size (set_shared (set_os w (shared s)) s)) by (by eapply summed_frame; [|exact Hs]).
  destruct r as [p| | | |]; [|by apply IH|apply Hs'..].
  apply read_packet_ip in Hr as [_ Hp].
  pose proof (route_packet_ok p live pkts size _ ltac:(lia) Hs') as H.
  unfold mbind, M_bind. destruct (route_packet _ _ _ _ _ _) as [[sums|e] s']; [by apply IH|done].
Qed.
(** ** The lanes in turn *)

Lemma batch_small : 0 <= batch_bytes cfg < 2 ^ 62.
Proof using B. destruct B. lia. Qed.

(** A visit leaves a live lane, or one that can be removed. *)
Lemma visit_ends bad l h :
  alive l →
  ends (λ _ v, becomes l (lane_of v) ∧ lane_id (lane_of v) = lane_id l)
    (λ v, gone (lane_of v) ∧ lane_id (lane_of v) = lane_id l) (visit_lane cfg server bad (mkVisit l h)).
Proof using B CL.
  intros A. destruct (alive_sends l h A) as [Hs Hh].
  pose proof (sends_visit cfg server l batch_small bad _ Hs) as H1.
  pose proof (hears_visit cfg server bad (mkVisit l h) Hh) as H2.
  destruct (visit_lane _ _ _ _) as [[u|e] v]; simpl in *.
  - split; [by apply sends_alive|apply H1].
  - destruct H1 as [S [I H Q N O]]. split; [split; [done..|]|done]. unfold agreed. rewrite H. apply A.
Qed.

(** The exception of a visit: the lane is removed, the others are as they were. *)
Lemma detach_frame i reason l s :
  lanes s !! i = Some l →
  ∃ s', detach i reason s = (Ok tt, s') ∧
        frame s' = (delete i (lanes s), departed s ++ [l], dialing (dialer s), replacing (dialer s)).
Proof using Type.
  intros Hi. unfold detach. rewrite bind_pool, Hi.
  assert (H : ∀ f s0 s1 (m : M PoolState unit) (Q : PoolState → Prop), frame s0 = frame s1 →
    (∀ s2, frame s2 = frame s1 → ∃ s', m s2 = (Ok tt, s') ∧ Q s') → ∃ s', (record_stats f ;; m) s0 = (Ok tt, s') ∧ Q s').
  { intros f s0 s1 m Q Hf Hm. by apply Hm. }
  apply (H _ s s); [done|]. intros s1 H1.
  assert (H2 : ∃ s2, (if bool_decide (reason = str "planned drain complete") then mret tt
                      else record_stats (λ st, bump reconnects 1 (bump pool_failures 1 st))) s1 = (Ok tt, s2) ∧ frame s2 = frame s).
  { destruct (bool_decide _); by eexists. }
  destruct H2 as (s2 & Hm & H2). unfold mbind at 1, M_bind at 1. rewrite Hm. unfold record_event. rewrite !bind_modify.
  eexists. split; [done|]. unfold frame in H2. injection H2 as E1 E2 E3 E4.
  unfold frame. simpl. destruct (_ =? 0)%nat; simpl; by rewrite E1, E2, E3, E4.
Qed.

Lemma delete_put {A} (i : nat) (x : A) (l : list A) : delete i (<[i := x]> l) = delete i l.
Proof using Type. revert i. induction l as [|y l IH]; intros [|i]; simpl; [done..|]. by rewrite IH. Qed.

Definition ids (s : PoolState) : list Z := map lane_id (lanes s).

Lemma ids_put i l l' s :
  lanes s !! i = Some l → lane_id l' = lane_id l → ids (set_lanes (<[i := l']> (lanes s)) s) = ids s.
Proof using Type.
  intros Hi Hl. unfold ids. simpl. rewrite list_fmap_insert, Hl. apply list_insert_id. by rewrite list_lookup_fmap, Hi.
Qed.

(** The lane that is looked at, after its visit. *)
Lemma visit_one i l bad s :
  pool_ok s → lanes s !! i = Some l →
  match visit_lane cfg server bad (mkVisit l (shared s)) with
  | (r, v) =>
      let s1 := set_shared (shared_of v) (set_lanes (<[i := lane_of v]> (lanes s)) s) in
      match r with
      | Ok _ => pool_ok s1 ∧ ids s1 = ids s ∧ departed s1 = departed s
      | Err e => ∃ s2, detach i (clean_log_detail e) s1 = (Ok tt, s2) ∧ pool_ok s2
                       ∧ ids s2 = delete i (ids s) ∧ departed s2 = departed s ++ [lane_of v] ∧ lane_id (lane_of v) = lane_id l
      end
  end.
Proof using B CL.
  intros Hs Hi.
  assert (Hal : alive l).
  { destruct Hs as [[[[A _ _] _] _] _]. rewrite Forall_forall in A. apply A. by eapply list_elem_of_lookup_2. }
  pose proof (visit_ends bad l (shared s) Hal) as Hv.
  destruct (visit_lane _ _ _ _) as [[u|e] v]; simpl in Hv; destruct Hv as [Hv Hid]; cbn zeta.
  - destruct (Hv Hal) as (Ha & Hp & Hb). split_and!; [|by apply (ids_put i l)|done].
    eapply ok_frame; [|apply (put_lane i l (lane_of v) s); try done]; [done|..];
      destruct Hs as [[[[_ ? ?] _] _] _]; lia.
  - set (s1 := set_shared _ _).
    assert (Hlt : (i < length (lanes s))%nat) by (by eapply lookup_lt_Some).
    destruct (detach_frame i (clean_log_detail e) (lane_of v) s1) as (s' & Hd & Hf).
    { subst s1. simpl. by rewrite list_lookup_insert_eq. }
    exists s'. split; [done|].
    subst s1. unfold frame in Hf. simpl in *. injection Hf as E1 E2 E3 E4. rewrite delete_put in E1.
    destruct Hs as [[[Hl G] Hn] Hb]. destruct (lanes_delete _ i Hl) as [Hl' Hz].
    split_and!; [|unfold ids; rewrite E1; apply list_fmap_delete|done|done].
    split; [split; [split|]|]; unfold busy, count_lanes in *; rewrite ?E1, ?E2, ?E3, ?E4; [done| |lia|].
    + apply Forall_app. split; [done|by apply Forall_singleton].
    + intros Hbz. destruct (Hb Hbz). split; [lia|done].
Qed.

(** In one turn at most one lane is removed, and the others stay. *)
Lemma visits_leave fuel i bad s :
  pool_ok s →
  let s' := (visit_lanes cfg server fuel i bad s).2 in
  pool_ok s' ∧
  (ids s' = ids s ∧ departed s' = departed s
   ∨ ∃ j l, ids s !! j = Some (lane_id l) ∧ ids s' = delete j (ids s) ∧ departed s' = departed s ++ [l]).
Proof using B CL.
  revert i s. induction fuel as [|fuel IH]; intros i s Hs; simpl; [by split; [|left]|].
  destruct (lanes s !! i) as [l|] eqn:Hi; [|by split; [|left]].
  pose proof (visit_one i l (default false (bad !! i)) s Hs Hi) as Hv.
  destruct (visit_lane _ _ _ _) as [[u|e] v]; cbn zeta in Hv.
  - destruct Hv as (H1 & H2 & H3). specialize (IH (S i) _ H1). by rewrite H2, H3 in IH.
  - destruct Hv as (s2 & -> & Hok & Hids & Hd & Hl). split; [done|]. right. exists i, (lane_of v).
    split_and!; [|done..]. unfold ids. by rewrite list_lookup_fmap, Hi, Hl.
Qed.

Lemma visit_lanes_ok fuel i bad : keeps pool_ok (visit_lanes cfg server fuel i bad).
Proof using B CL. intros s Hs. by apply visits_leave. Qed.

(** ** A whole run *)

Lemma sum_totals ls :
  lanes_ok ls → sum_packets ls = total_packets ls ∧ sum_bytes ls = total_bytes ls.
Proof using B.
  intros [A D E]. destruct B. revert D E.
  induction A as [|l ls Hl A IH]; intros D E; [done|]. simpl in *.
  pose proof (queue_nonneg l Hl). destruct (totals_nonneg ls A).
  destruct IH as [-> ->]; [lia..|]. unfold u64. rewrite !Z.mod_small by lia. done.
Qed.

Lemma pool_turn_ok : keeps pool_ok (pool_turn cfg server).
Proof using B CL KL.
  unfold pool_turn. pose proof ok_frame as Hq. apply keeps_bind.
  { destruct server eqn:Hsrv.
    - intros s Hs. rewrite bind_pool. by apply admit_ok.
    - apply keeps_bind; [exact finish_dial_ok|intros _]. apply keeps_bind; [|intros _].
      + intros s. by apply choose_replacement_ok.
      + intros s. by apply start_dial_ok. }
  intros _. apply keeps_bind; [walk|intros _]. apply keeps_bind; [walk|intros t].
  apply keeps_bind; [walk|intros s0]. apply keeps_bind; [walk|intros _].
  apply keeps_bind; [exact expire_waiting_ok|intros _].
  unfold pool. apply keeps_read. intros s Hs.
  set (P := λ s', pool_ok s' ∧ lanes s' = lanes s).
  assert (HqP : ∀ s s', frame s' = frame s → P s → P s').
  { intros s1 s2 H [H1 H2]. split; [by apply (Hq s1)|]. by injection H as -> _ _ _. }
  match goal with |- pool_ok (?m s).2 => assert (He : ends (λ _, pool_ok) pool_ok (m s)); [|by destruct (m s) as [[] ?]] end.
  apply (calmly P); [walk|by split|by intros ? []|]. intros ready s1 [H1 Hl].
  destruct ready as [| |bad tun]; [done..|].
  match goal with |- ends _ _ (?m s1) => assert (Hm : pool_ok (m s1).2); [|by destruct (m s1) as [[] ?]] end.
  match goal with |- pool_ok ((?m ≫= ?k) s1).2 => assert (Hm : pool_ok (m s1).2); [|assert (Hk : keeps pool_ok (k tt))] end.
  - destruct (can_read cfg s && tun) eqn:Hr; [|done]. apply route_packets_ok.
    apply andb_true_iff in Hr as [Hr _]. unfold can_read in Hr. bool_to_prop.
    destruct (sum_totals (lanes s)) as [E1 E2]; [apply Hs|].
    split; [done|rewrite Hl; lia..].
  - apply keeps_read. intros s2 Hs2.
    match goal with |- pool_ok (?m s2).2 => assert (H : keeps pool_ok m); [|by apply H] end.
    apply keeps_bind; [apply visit_lanes_ok|intros _]. walk.
  - unfold mbind at 1, M_bind at 1. destruct (_ s1) as [[[]|e] s2]; [by apply Hk|done].
Qed.

Lemma pool_turns_ok n : keeps pool_ok (pool_turns cfg server n).
Proof using B CL KL.
  pose proof ok_frame. pose proof pool_turn_ok. induction n as [|n IH]; simpl; walk.
Qed.

Lemma pool_loop_ok n : keeps pool_ok (pool_tunnel_loop cfg server n).
Proof using B CL KL. pose proof ok_frame. pose proof (pool_turns_ok n). unfold pool_tunnel_loop. walk. Qed.

Lemma new_pool_ok st r ev w : pool_ok (new_pool cfg st r ev w).
Proof using B.
  unfold new_pool. repeat destruct (clock_ns _). destruct B. split; [split; [split; [split|]|]|]; simpl; try done; try lia.
  - unfold count_lanes, zlen. simpl. lia.
  - unfold busy. simpl. by intros [|].
Qed.
(** ** What ends the loop *)

Definition pool_errors : list bytes := [str "PTT8 poll failed"; str "PTT8 TUN read failed"].

(** An exception that leaves the loop is one of these, or the client could not
    start the thread of a dial; then it is not dialling. *)
Definition left_by (e : bytes) (s : PoolState) : Prop :=
  e ∈ pool_errors
  ∨ server = false ∧ dialing (dialer s) = false ∧ ∃ w, begin_dial w = (Err e, sh_os (shared s)).

(** No exception but these leaves the operation. *)
Definition fails_only {A} (m : M PoolState A) : Prop :=
  ∀ s, match m s with (Ok _, _) => True | (Err e, s') => left_by e s' end.

Lemma never_fails {A} (m : M PoolState A) : never m → fails_only m.
Proof using Type. intros H s. by destruct (H s) as (a & s' & ->). Qed.

Lemma fails_bind {A X} (m : M PoolState A) (f : A → M PoolState X) :
  fails_only m → (∀ a, fails_only (f a)) → fails_only (m ≫= f).
Proof using Type.
  intros Hm Hf s. specialize (Hm s). unfold mbind, M_bind. destruct (m s) as [[a|e] s']; [apply Hf|done].
Qed.

Lemma never_admit fuel : never (admit_ready cfg fuel).
Proof using Type. induction fuel; simpl; never_walk. Qed.

Lemma never_dial_failed e : never (dial_failed cfg e).
Proof using Type. unfold dial_failed. never_walk. Qed.
#[local] Hint Resolve never_dial_failed : pt.

Lemma never_finish_dial : never (finish_dial cfg).
Proof using Type. unfold finish_dial. never_walk. Qed.

Lemma never_choose_replacement : never (choose_replacement cfg).
Proof using Type. unfold choose_replacement. never_walk. Qed.

Lemma fails_start_dial : server = false → fails_only (start_dial cfg).
Proof using Type.
  intros Hsrv s. unfold start_dial. rewrite bind_pool. cbn zeta.
  destruct (_ && negb (dialing (dialer s))) eqn:Hd; [|done]. apply andb_true_iff in Hd as [_ Hd%negb_true_iff].
  unfold read_ns. rewrite bind_query. destruct (clock_ns _) as [t w]. destruct (t <? _); [done|].
  unfold record_stats. rewrite bind_modify, bind_query. cbn [sh_os set_os shared set_shared].
  match goal with |- context [begin_dial ?w0] => destruct (begin_dial w0) as [[[]|e] w'] eqn:Hb end; [done|].
  right. split; [done|]. split; [done|]. by eexists.
Qed.

Lemma never_expire : never (expire_waiting cfg).
Proof using Type. unfold expire_waiting. never_walk. Qed.

Lemma never_health : never (publish_health cfg).
Proof using Type. unfold publish_health. never_walk. Qed.

Lemma never_wait : never (pool_wait cfg).
Proof using Type. unfold pool_wait. never_walk. Qed.

Lemma never_route_packet p live pkts size : never (route_packet cfg p live pkts size).
Proof using Type. unfold route_packet. never_walk. Qed.

Lemma never_visits fuel i bad : never (visit_lanes cfg server fuel i bad).
Proof using Type.
  revert i. induction fuel as [|fuel IH]; intros i; simpl; [never_walk|]. intros s.
  destruct (lanes s !! i) as [l|]; [|by eexists _, _].
  destruct (visit_lane _ _ _ _) as [[u|e] v]; [apply IH|].
  unfold detach. apply never_bind; [auto with pt|intros s1].
  destruct (lanes s1 !! i); never_walk.
Qed.

Lemma fails_route turns live pkts size : fails_only (route_packets cfg turns live pkts size).
Proof using Type.
  revert pkts size. induction turns as [|turns IH]; intros pkts size; simpl; [by apply never_fails, never_ret|].
  apply fails_bind; [apply never_fails, never_query|]. intros r.
  assert (Hthrow : fails_only (throw (str "PTT8 TUN read failed") : M PoolState unit)) by (intros s; left; right; by left).
  destruct r; [|apply IH|by apply never_fails, never_ret|done..].
  apply fails_bind; [apply never_fails, never_route_packet|auto].
Qed.

Lemma fails_turn : fails_only (pool_turn cfg server).
Proof using Type.
  unfold pool_turn.
  apply fails_bind.
  { destruct server eqn:Hsrv; [apply never_fails; never_walk; apply never_admit|].
    apply fails_bind; [apply never_fails, never_finish_dial|intros _].
    apply fails_bind; [apply never_fails, never_choose_replacement|intros _]. by apply fails_start_dial. }
  intros _. do 3 (apply fails_bind; [apply never_fails; never_walk|intros ?]).
  apply fails_bind; [apply never_fails; never_walk|intros _].
  apply fails_bind; [apply never_fails, never_expire|intros _].
  apply fails_bind; [apply never_fails; never_walk|intros s0].
  apply fails_bind; [apply never_fails, never_wait|intros ready].
  destruct ready as [| |bad tun]; [intros s; left; by left|by apply never_fails, never_ret|].
  apply fails_bind; [destruct (_ && _); [apply fails_route|by apply never_fails, never_ret]|intros _].
  apply never_fails. pose proof never_health. never_walk. apply never_visits.
Qed.

Lemma fails_loop n : fails_only (pool_tunnel_loop cfg server n).
Proof using Type.
  unfold pool_tunnel_loop. apply fails_bind; [|intros _; apply never_fails; never_walk].
  induction n as [|n IH]; simpl; [by apply never_fails, never_ret|].
  apply fails_bind; [apply never_fails; never_walk|intros stop].
  destruct (stop : bool); [by apply never_fails, never_ret|]. apply fails_bind; [apply fails_turn|done].
Qed.
(** ** The fuel of the inner loops *)

Section Fuel.
Context {PP : PoolPatience PO}.

Definition patient (n : nat) (s : PoolState) : Prop := (ready_bound (sh_os (shared s)) <= n)%nat.

Lemma patient_query {A} n (f : lworld → A * lworld) :
  (∀ w, (ready_bound (f w).2 <= ready_bound w)%nat) → keeps (patient n) (query f).
Proof using Type.
  intros Hf s Hs. unfold query. specialize (Hf (sh_os (shared s))). destruct (f _) as [a w]. unfold patient in *. simpl in *. lia.
Qed.

Lemma patient_attach n c hs : keeps (patient n) (attach cfg c hs).
Proof using PP.
  assert (Hf : ∀ f, (∀ s, sh_os (shared (f s)) = sh_os (shared s)) → keeps (patient n) (modify f)).
  { intros f H. apply keeps_modify. intros s. unfold patient. by rewrite H. }
  unfold attach. apply keeps_bind; [auto with pt|intros _].
  apply keeps_bind; [apply patient_query, ready_nonblock|intros fails]. apply keeps_bind; [auto with pt|intros _].
  cbn zeta. apply keeps_bind; [auto with pt|intros s0]. apply keeps_bind.
  - apply keeps_modify. intros s Hs.
    assert (Hl : ∀ c w, (ready_bound (new_lane cfg c hs (next_id s) w).2 <= ready_bound w)%nat).
    { clear s0. intros c' w. unfold new_lane.
      do 7 (match goal with |- context [clock_ns ?w] => pose proof (ready_clock w); destruct (clock_ns w) as [? ?] end; simpl in *).
      lia. }
    specialize (Hl (mkConn (set_conf (mkConf (ssl (conf (ws c))) (open (conf (ws c))) (client (conf (ws c)))
      (websocket_io_timeout_sec cfg * 1000) (upgraded (conf (ws c))) (authenticated (conf (ws c)))) (ws c)) (net c) (entropy c)) (sh_os (shared s))).
    destruct (new_lane _ _ _ _ _) as [l w]. unfold patient in *. simpl in *. lia.
  - intros _. do 4 (apply keeps_bind; [first [by apply Hf|apply keeps_gets]|intros ?]). by apply Hf.
Qed.

(** More turns than [ready_bound] + 1 change nothing. *)
Lemma admit_enough n m s :
  (ready_bound (sh_os (shared s)) < n)%nat → (ready_bound (sh_os (shared s)) < m)%nat → admit_ready cfg n s = admit_ready cfg m s.
Proof using PP.
  revert m s. induction n as [|n IH]; intros [|m] s Hn Hm; [lia..|]. simpl. rewrite !bind_pool.
  destruct (_ <? _); [|done]. rewrite !bind_query.
  pose proof (ready_taken (sh_os (shared s))) as Htake. destruct (server_ready _) as [ready w]. simpl in Htake.
  destruct ready; [|done]. specialize (Htake eq_refl). rewrite !bind_query. cbn [sh_os set_os shared set_shared].
  destruct (server_take w) as [got w']. simpl in Htake.
  set (s' := set_shared _ _). assert (Hs' : patient (Nat.pred (ready_bound (sh_os (shared s)))) s').
  { unfold patient. subst s'. simpl. lia. }
  apply bind_same. intros u s1 H1.
  assert (Hk : patient (Nat.pred (ready_bound (sh_os (shared s)))) s1).
  { assert (Hm1 : keeps (patient (Nat.pred (ready_bound (sh_os (shared s)))))
      (match got with None => mret tt | Some (c, hs) => rescue (attach cfg c hs) (λ _, record_stats (bump pool_failures 1)) end)).
    { destruct got as [[c hs]|]; [|apply keeps_ret]. intros s2 H2. unfold rescue.
      pose proof (patient_attach _ c hs s2 H2). by destruct (attach _ _ _ _) as [[] ?]. }
    specialize (Hm1 s' Hs'). by rewrite H1 in Hm1. }
  unfold patient in Hk. apply IH; lia.
Qed.
End Fuel.

Lemma visits_enough k i bad s :
  (i <= length (lanes s))%nat →
  visit_lanes cfg server (length (lanes s) - i + k) i bad s = visit_lanes cfg server (length (lanes s) - i) i bad s.
Proof using Type.
  remember (length (lanes s) - i)%nat as n eqn:Hn. revert i s Hn.
  induction n as [|n IH]; intros i s Hn Hi; simpl.
  - destruct k; [done|]. simpl. by rewrite (lookup_ge_None_2 (lanes s) i) by lia.
  - destruct (lanes s !! i) as [l|]; [|done]. destruct (visit_lane _ _ _ _) as [[u|e] v]; [|done].
    apply IH; simpl; rewrite length_insert; lia.
Qed.
End PoolProps.
