(* ===== verification/PoolTheorems.v ===== *)
(** * What the connection pool guarantees

    The theorems about any number of turns of [pool_tunnel_loop], and two pools
    that talk to each other in a concrete world. *)

From S2P Require Import Prelude.
From S2P Require Import Text Crypto Keys RecordLoop Record Config ConfigBounds Tun LoopOs Outbox Sequence Logging Pool.
From S2P Require Import FlowScheduler FlowQueue Traffic Telemetry Budget Handshake CarrierLoop Transport WebSocket.
From S2P Require Import PoolLane PoolLaneProps PoolLoop PoolProps.

Section Theorems.
Context {C : Crypto} {CL : CryptoLaws C} {K : LoopOs} {KL : LoopLaws K} {T : Transport} {PO : PoolOs K} {IO : IterationOrder}.

(** The pool after at most [n] turns, however the loop ended. *)
Definition pool_after (cfg : Config) (server : bool) (n : nat) (st : Stats) (r : RttHistory) (ev : list bytes) (w : lworld) : PoolState :=
  (pool_tunnel_loop cfg server n (new_pool cfg st r ev w)).2.

(** Every lane there ever was. *)
Definition every_lane (s : PoolState) : list PoolLane := lanes s ++ departed s.

Lemma pool_after_ok cfg server n st r ev w : bounds cfg → pool_ok cfg server (pool_after cfg server n st r ev w).
Proof using CL KL. intros B. apply pool_loop_ok; [done|]. by apply new_pool_ok. Qed.

Lemma every_lane_accounts cfg server s l :
  pool_ok cfg server s → l ∈ every_lane s → sending cfg [] l ∧ heard_end cfg l.
Proof using Type.
  intros [[[[A _ _] G] _] _] [Hl|Hl]%elem_of_app; rewrite Forall_forall in A, G.
  - destruct (A l Hl). split; [done|by apply lane_heard_ends].
  - by destruct (G l Hl).
Qed.

Lemma arrivals_sublist cfg ds : arrivals cfg ds `sublist_of` packets ds.
Proof using Type.
  unfold arrivals. induction (packets ds) as [|p l IH]; [done|]. rewrite filter_cons. case_decide; by constructor.
Qed.

(** C3: packets over the pool, from end to end. Take any lane of one pool and any
    lane of another, also ones that have failed since, whose handshakes gave both
    the same keys, the pools being client and server, with validated configurations
    of which the second has a record buffer for the longest message of the first,
    and fewer than 2^64 - 1 records encoded by the first lane. Whatever the devices, the
    connections, the dials and the clocks do: when the messages the second lane
    has received are the first ones the first lane sent, the packets it gave to
    the TUN device are a subsequence of the packets the first one encoded: in
    order, unaltered, none twice. *)
Theorem pool_tunnel_end_to_end cfg1 cfg2 srv1 srv2 n1 n2 st1 st2 r1 r2 ev1 ev2 w1 w2 la lb :
  sizes_typed cfg1 → validate_config cfg1 = Ok tt → sizes_typed cfg2 → validate_config cfg2 = Ok tt →
  text_is (mode cfg1) "server" = negb (text_is (mode cfg2) "server") →
  message_limit cfg1 <= max_record_buffer_bytes cfg2 →
  la ∈ every_lane (pool_after cfg1 srv1 n1 st1 r1 ev1 w1) → lb ∈ every_lane (pool_after cfg2 srv2 n2 st2 r2 ev2 w2) →
  Handshake.keys (handshake lb) = Handshake.keys (handshake la) →
  zlen (encoded (lane_trace la)) < 2 ^ 64 - 1 → fed (lane_trace lb) `prefix_of` messages_sent (lane_trace la) →
  injected (lane_trace lb) `sublist_of` packets (encoded (lane_trace la)).
Proof using CL KL.
  intros T1 V1%validated_bounds T2 V2%validated_bounds Hmode Hbuf Ha Hb Hkeys Hlen [k Hk]; [|done..].
  apply (every_lane_accounts cfg1 srv1) in Ha as [[_ Hnum (xs & rss & zs & Hm & Hfit & Hx & _ & Hsub)] _]; [|by apply pool_after_ok].
  apply (every_lane_accounts cfg2 srv2) in Hb as [_ (d & ds & r & Hd & Hto)]; [|by apply pool_after_ok].
  assert (Hkey : lane_rx_key cfg2 (handshake lb) = lane_tx_key cfg1 la).
  { unfold lane_rx_key, lane_tx_key. rewrite Hkeys, Hmode. by destruct (text_is (mode cfg2) "server"). }
  set (key := lane_tx_key cfg1 la) in *. unfold fresh_decoder in Hd. rewrite Hkey in Hd.
  assert (Hxs : xs `sublist_of` encoded (lane_trace la)) by (etrans; [|exact Hsub]; by apply sublist_inserts_r).
  destruct (fresh_aligned (aead_step PTT5) key (encodes key) (encodes_step key) limit_exceeded
              (max_record_buffer_bytes cfg2) xs rss) as [d' Hall]; auto.
  - eapply sorted_sublist; [by apply sublist_map|]. by apply numbered_sorted.
  - eapply Forall_sublist; [exact Hxs|]. apply Forall_forall. intros x. by apply numbered_seq.
  - eapply Forall_impl; [exact Hfit|]. simpl. lia.
  - rewrite <- Hm, Hk, feed_all_app, Hd in Hall.
    assert (ds `prefix_of` xs).
    { destruct r; [by apply (feed_all_extends (aead_step PTT5)) in Hall|by injection Hall as _ -> _..]. }
    etrans; [by apply prefix_sublist|]. etrans; [apply arrivals_sublist|].
    etrans; [by apply prefix_sublist, packets_prefix|]. unfold packets. apply sublist_map, filter_sublists, Hxs.
Qed.

(** C18: the size of the pool. At the end of any run there are at most
    [max_connections] lanes and one more for a replacement, no more than
    [max_connections] while a dial or a replacement is under way, and every lane
    is with a peer that has proved its key, offers trials and was configured for
    a pool of the same size. *)
Theorem pool_connections_bounded cfg server n st r ev w :
  sizes_typed cfg → validate_config cfg = Ok tt →
  let s := pool_after cfg server n st r ev w in
  zlen (lanes s) <= max_connections cfg + 1
  ∧ (dialing (dialer s) = true ∨ replacing (dialer s) ≠ 0 → zlen (lanes s) <= max_connections cfg)
  ∧ Forall (λ l, pool_connections (handshake l) = max_connections cfg ∧ confirmed (handshake l) = true
                 ∧ peer_trial (handshake l) = true) (lanes s).
Proof using CL KL.
  intros Ty V%validated_bounds s; [|done].
  destruct (pool_after_ok cfg server n st r ev w V) as [[[[A _ _] _] Hn] Hb]. fold s in A, Hn, Hb.
  split_and!; [done|by intros [? _]%Hb|]. eapply Forall_impl; [exact A|]. by intros l [].
Qed.

(** C17: the queues of all lanes together, whatever is dialled, dropped, replaced
    or routed, hold at most [queue_packets] packets and [queue_bytes] bytes; and
    each lane counts its own exactly. *)
Theorem pool_queues_bounded cfg server n st r ev w :
  sizes_typed cfg → validate_config cfg = Ok tt →
  let s := pool_after cfg server n st r ev w in
  total_packets (lanes s) <= queue_packets cfg ∧ total_bytes (lanes s) <= queue_bytes cfg
  ∧ Forall (λ l, packets_ (waiting l) = zlen (items (flows_ (waiting l)))
                 ∧ FlowQueue.bytes_ (waiting l) = size_of (items (flows_ (waiting l)))) (lanes s).
Proof using CL KL.
  intros Ty V%validated_bounds s; [|done].
  destruct (pool_after_ok cfg server n st r ev w V) as [[[[A Hp Hs] _] _] _]. fold s in A, Hp, Hs.
  split_and!; [done..|]. eapply Forall_impl; [exact A|]. by intros l [_ _ [[] _] _].
Qed.

(** What a lane sends. Every message of every lane there ever was consists of
    whole records for different, increasing sequence numbers that this lane took,
    and is no longer than one record of any size, or a batch and one record's
    overhead. *)
Theorem pool_messages_are_whole_records cfg server n st r ev w l :
  sizes_typed cfg → validate_config cfg = Ok tt → l ∈ every_lane (pool_after cfg server n st r ev w) →
  ∃ xs rss, messages_sent (lane_trace l) = map (λ rs, concat rs) rss
    ∧ Forall (λ rs, zlen (concat rs) <= Z.max 65567 (batch_bytes cfg + 1024)) rss
    ∧ Forall2 (encodes (lane_tx_key cfg l)) xs (concat rss) ∧ xs `sublist_of` encoded (lane_trace l).
Proof using CL KL.
  intros Ty V%validated_bounds Hl; [|done].
  apply (every_lane_accounts cfg server) in Hl as [[_ _ (xs & rss & zs & Hm & Hfit & Hx & _ & Hsub)] _]; [|by apply pool_after_ok].
  exists xs, rss. split_and!; auto. etrans; [|exact Hsub]. by apply sublist_inserts_r.
Qed.

(** C20: no lane ends the loop. Once the generators of the loop are seeded,
    admission, the outcome of a dial, replacement and the visits of the lanes throw
    nothing out of it: only a failed [poll], a failed read of the TUN device, and
    on the client a dial whose thread cannot be started do. That last exception
    comes from [std::async] right before, and the client is not dialling then. *)
Theorem pool_survives_its_lanes cfg server n s :
  match pool_tunnel_loop cfg server n s with
  | (Ok _, _) => True
  | (Err e, s') =>
      e = str "PTT8 poll failed" ∨ e = str "PTT8 TUN read failed"
      ∨ server = false ∧ dialing (dialer s') = false ∧ ∃ w, begin_dial w = (Err e, sh_os (shared s'))
  end.
Proof using Type.
  pose proof (fails_loop cfg server n s) as H. destruct (pool_tunnel_loop _ _ _ _) as [[u|e] s']; [done|].
  destruct H as [H|H]; [|by right; right].
  unfold pool_errors in H. apply elem_of_cons in H as [->|H%list_elem_of_singleton]; auto.
Qed.

(** C19: a lane that fails takes no other with it. The visits of one turn leave
    all lanes in place, or remove exactly one, and a removed lane has kept its
    accounts. *)
Theorem failed_lane_leaves_alone cfg server n st r ev w bad :
  sizes_typed cfg → validate_config cfg = Ok tt →
  let s := pool_after cfg server n st r ev w in
  let s' := (visit_lanes cfg server (length (lanes s)) 0 bad s).2 in
  (map lane_id (lanes s') = map lane_id (lanes s) ∧ departed s' = departed s)
  ∨ ∃ j l, map lane_id (lanes s) !! j = Some (lane_id l) ∧ map lane_id (lanes s') = delete j (map lane_id (lanes s))
           ∧ departed s' = departed s ++ [l] ∧ heard_end cfg l.
Proof using CL KL.
  intros Ty V%validated_bounds s s'; [|done].
  destruct (visits_leave cfg server V (length (lanes s)) 0 bad s (pool_after_ok cfg server n st r ev w V)) as [Hok [H|(j & l & H1 & H2 & H3)]];
    fold s' in Hok; [by left|]. right. exists j, l. split_and!; [done..|].
  apply (every_lane_accounts cfg server s'); [done|]. apply elem_of_app. right. subst s'. rewrite H3.
  apply elem_of_app. right. by left.
Qed.

(** The inner loops of a turn end by their own conditions: more fuel than the
    model gives them changes nothing. *)
Theorem pool_inner_loops_finish {PP : PoolPatience PO} cfg server k bad s :
  admit_ready cfg (S (ready_bound (sh_os (shared s))) + k) s = admit_ready cfg (S (ready_bound (sh_os (shared s)))) s
  ∧ visit_lanes cfg server (length (lanes s) + k) 0 bad s = visit_lanes cfg server (length (lanes s)) 0 bad s.
Proof using Type.
  split; [apply admit_enough; [exact PP|lia..]|].
  pose proof (visits_enough cfg server k 0 bad s ltac:(lia)) as H. by rewrite Nat.sub_0_r in H.
Qed.
End Theorems.

(** *** Two pools in a concrete world

    The client dials once; the server finds one waiting connection, on which the
    bytes the client's connection has sent arrive. *)
Module TwoPools.
Import Toy World ConfigDemo PoolDemo.

Definition session_keys : SessionKeys := {| client_tx := repeat 7 32; server_tx := repeat 8 32; auth := repeat 9 32 |}.
Definition agreed_result : WsHandshakeResult := mkResult session_keys true true true true 1000 0 1 [] [].

Definition connection (is_client : bool) (arriving : list bytes) : Conn (C := crypto) (T := Loop.transport) :=
  mkConn (C := crypto) (T := Loop.transport)
    (set_conf (mkConf false true is_client 30000 true true) (new_session is_client)) (Loop.mkNet [] arriving 0) 3.

#[export] Instance pool_os : PoolOs (C := crypto) (T := Loop.transport) loop_os := {|
  poll_pool es _ _ w := (PoolPolled (map (λ _, false) es) (negb (length (tun_packets w) =? 0)%nat), w);
  server_ready w := (negb (length (pieces w) =? 0)%nat, w);
  server_take w :=
    match pieces w with
    | [] => (None, w)
    | p :: rest => (Some (connection false [p], agreed_result), mkWorld (tun_packets w) rest (ticks w) (World.turns w))
    end;
  begin_dial w := (Ok tt, w);
  dial_outcome w := (Some (Ok (connection true [], agreed_result)), w);
  nonblock_fails w := (false, w);
  current_phase w := (0, w);
  ready_bound w := length (pieces w);
|}.

#[export] Instance pool_patience : PoolPatience pool_os.
Proof. split; simpl; intros; try lia. destruct (pieces w); simpl in *; [done|lia]. Qed.

Definition client_cfg : Config := client_config.
Definition server_cfg : Config :=
  match load_config [] (Some (lines
    ["mode=server"; "transport=websocket"; "listen=0.0.0.0:443"; "server_name=cdn.example";
     "cidr=10.0.0.1/30"; "peer_cidr=10.0.0.2/30"; "tls_cert=/etc/ssl/cert.pem"; "tls_key=/etc/ssl/key.pem";
     "psk_file=/etc/pacetun/psk"; "control_socket=/run/pacetun.sock"]%string)) with
  | Ok c => c
  | Err _ => client_config
  end.
Definition w1 : lworld := mkWorld [packet 30 69; packet 100 96; packet 25 70] [] 0 2.
Definition a : PoolState := pool_after client_cfg false 7 new_stats Telemetry.reset [] w1.

Definition first_lane (s : PoolState) : PoolLane :=
  match lanes s with l :: _ => l | [] => (new_lane client_cfg (connection true []) agreed_result 1 w1).1 end.
Definition la : PoolLane := first_lane a.

Definition w2 : lworld := mkWorld [packet 20 69] [Loop.sent (net (T := Loop.transport) (conn la))] 0 0.
Definition b : PoolState := pool_after server_cfg true 4 new_stats Telemetry.reset [] w2.
Definition lb : PoolLane := first_lane b.

Example pool_packets_arrive : injected (lane_trace lb) = [packet 30 69; packet 100 96; packet 25 70].
Proof. by vm_compute. Qed.

(** The same world where no thread can be started: the first dial, already counted, ends the loop. *)
Definition no_threads : PoolOs (C := crypto) (T := Loop.transport) loop_os := {|
  poll_pool := poll_pool (PoolOs := pool_os);
  server_ready := server_ready (PoolOs := pool_os);
  server_take := server_take (PoolOs := pool_os);
  begin_dial w := (Err (str "Resource temporarily unavailable"), w);
  dial_outcome := dial_outcome (PoolOs := pool_os);
  nonblock_fails := nonblock_fails (PoolOs := pool_os);
  current_phase := current_phase (PoolOs := pool_os);
  ready_bound := ready_bound (PoolOs := pool_os);
|}.

Example dial_without_thread :
  let r := pool_tunnel_loop (PO := no_threads) client_cfg false 3 (new_pool client_cfg new_stats Telemetry.reset [] w1) in
  r.1 = Err (str "Resource temporarily unavailable") ∧ sh_stats (shared r.2) pool_dials = 1 ∧ sh_stats (shared r.2) pool_dial_failures = 0.
Proof. by vm_compute. Qed.

Lemma client_cfg_ok : sizes_typed client_cfg ∧ validate_config client_cfg = Ok tt.
Proof. split; [split; vm_compute; intuition discriminate|by vm_compute]. Qed.
Lemma server_cfg_ok : sizes_typed server_cfg ∧ validate_config server_cfg = Ok tt.
Proof. split; [split; vm_compute; intuition discriminate|by vm_compute]. Qed.
Lemma is_there s : length (lanes s) = 1%nat → first_lane s ∈ every_lane s.
Proof.
  intros H. apply elem_of_app. left. unfold first_lane. destruct (lanes s) as [|l ls]; [done|]. by left.
Qed.
Lemma la_there : la ∈ every_lane a.
Proof. apply is_there. vm_compute. reflexivity. Qed.
Lemma lb_there : lb ∈ every_lane b.
Proof. apply is_there. vm_compute. reflexivity. Qed.
End TwoPools.
Import Toy World ConfigDemo PoolDemo TwoPools.

Lemma pool_tunnel_end_to_end_witness :
  injected (lane_trace TwoPools.lb) `sublist_of` packets (encoded (lane_trace TwoPools.la)).
Proof.
  apply (pool_tunnel_end_to_end client_cfg server_cfg false true 7 4 new_stats new_stats Telemetry.reset Telemetry.reset
           [] [] TwoPools.w1 TwoPools.w2 TwoPools.la TwoPools.lb).
  - apply client_cfg_ok.
  - apply client_cfg_ok.
  - apply server_cfg_ok.
  - apply server_cfg_ok.
  - by vm_compute.
  - vm_compute. discriminate.
  - exact la_there.
  - exact lb_there.
  - by vm_compute.
  - by vm_compute.
  - exists []. vm_compute. reflexivity.
Defined.

Lemma pool_connections_bounded_witness :
  zlen (lanes TwoPools.a) <= max_connections client_cfg + 1
  ∧ (dialing (dialer TwoPools.a) = true ∨ replacing (dialer TwoPools.a) ≠ 0 → zlen (lanes TwoPools.a) <= max_connections client_cfg)
  ∧ Forall (λ l, pool_connections (handshake l) = max_connections client_cfg ∧ confirmed (handshake l) = true
                 ∧ peer_trial (handshake l) = true) (lanes TwoPools.a).
Proof.
  exact (pool_connections_bounded client_cfg false 7 new_stats Telemetry.reset [] TwoPools.w1 (proj1 client_cfg_ok) (proj2 client_cfg_ok)).
Defined.

Lemma pool_queues_bounded_witness :
  total_packets (lanes TwoPools.a) <= queue_packets client_cfg ∧ total_bytes (lanes TwoPools.a) <= queue_bytes client_cfg
  ∧ Forall (λ l, packets_ (waiting l) = zlen (items (flows_ (waiting l)))
                 ∧ FlowQueue.bytes_ (waiting l) = size_of (items (flows_ (waiting l)))) (lanes TwoPools.a).
Proof.
  exact (pool_queues_bounded client_cfg false 7 new_stats Telemetry.reset [] TwoPools.w1 (proj1 client_cfg_ok) (proj2 client_cfg_ok)).
Defined.

Lemma pool_messages_are_whole_records_witness :
  ∃ xs rss, messages_sent (lane_trace TwoPools.la) = map (λ rs, concat rs) rss
    ∧ Forall (λ rs, zlen (concat rs) <= Z.max 65567 (batch_bytes client_cfg + 1024)) rss
    ∧ Forall2 (encodes (lane_tx_key client_cfg TwoPools.la)) xs (concat rss) ∧ xs `sublist_of` encoded (lane_trace TwoPools.la).
Proof.
  apply (pool_messages_are_whole_records client_cfg false 7 new_stats Telemetry.reset [] TwoPools.w1 TwoPools.la);
    [apply client_cfg_ok|apply client_cfg_ok|exact la_there].
Defined.

Lemma failed_lane_leaves_alone_witness :
  let s' := (visit_lanes client_cfg false (length (lanes TwoPools.a)) 0 [true] TwoPools.a).2 in
  length (departed s') = 1%nat
  ∧ ((map lane_id (lanes s') = map lane_id (lanes TwoPools.a) ∧ departed s' = departed TwoPools.a)
     ∨ ∃ j l, map lane_id (lanes TwoPools.a) !! j = Some (lane_id l)
              ∧ map lane_id (lanes s') = delete j (map lane_id (lanes TwoPools.a))
              ∧ departed s' = departed TwoPools.a ++ [l] ∧ heard_end client_cfg l).
Proof.
  split; [by vm_compute|].
  exact (failed_lane_leaves_alone client_cfg false 7 new_stats Telemetry.reset [] TwoPools.w1 [true] (proj1 client_cfg_ok) (proj2 client_cfg_ok)).
Defined.

Lemma pool_inner_loops_finish_witness :
  let fuel := S (ready_bound (PoolOs := pool_os) (sh_os (shared TwoPools.b))) in
  admit_ready (PO := pool_os) server_cfg (fuel + 4) TwoPools.b = admit_ready (PO := pool_os) server_cfg fuel TwoPools.b
  ∧ visit_lanes server_cfg true (length (lanes TwoPools.b) + 4) 0 [] TwoPools.b
    = visit_lanes server_cfg true (length (lanes TwoPools.b)) 0 [] TwoPools.b.
Proof. exact (pool_inner_loops_finish (PO := pool_os) server_cfg true 4 [] TwoPools.b). Defined.
