(* ===== verification/RunLoop.v ===== *)
(** * Sessions one after the other (cdn/src/runtime.cpp, [run] for [max_connections] 1)

    The client connects, runs a carrier session, and connects again after a
    failure, with a delay that doubles up to a limit. While a session runs, its
    [tick] may start a trial: another connection is dialled in the background
    when authenticated replies are late or slow, and takes over when it is
    authenticated and fast enough. The server takes one admitted connection after
    the other and leaves it as soon as the next is ready.

    [tick] is a closure over the locals of [run]; the model carries these locals
    through the session beside the world: [carrying]. The carrier is the one of
    Carrier.v ([WebSocketCarrier] in the source). Dialling, the admission server
    and the sleep are the class [RunOs]. [g_state] and the lines written to
    [std::cerr] are left out. [waits], [trials] and [unstarted], the waits before a
    new attempt, the times at which trials were attempted and the number of those
    whose thread could not be started, are not in the code. *)

From S2P Require Import Prelude.
From S2P Require Import Text Crypto Keys RecordLoop Record Config Tun LoopOs Logging Outbox.
From S2P Require Import FlowScheduler FlowQueue Traffic Telemetry Budget Handshake Transport Carrier CarrierLoop.

(** The world of a loop, with more beside it that the loop does not look at. *)
Definition carrying (X : Type) (K : LoopOs) : LoopOs :=
  let lift {A} (f : lworld → A * lworld) (p : X * lworld) : A * (X * lworld) :=
    let (a, w) := f p.2 in (a, (p.1, w)) in
  {| lworld := X * lworld;
     clock_ns := lift clock_ns; stop_flag := lift stop_flag; take_disconnect := lift take_disconnect;
     poll_both e t := lift (poll_both e t); read_packet n := lift (read_packet n); write_packet b := lift (write_packet b);
     uniform lo hi := lift (uniform lo hi); tls_write b := lift (tls_write b); tls_read n := lift (tls_read n);
     tls_pending := lift tls_pending; ssl_error := lift ssl_error |}.

#[export] Instance carrying_patience X K (P : Patience K) : Patience (carrying X K).
Proof.
  refine {| patience (p : lworld (LoopOs := carrying X K)) := patience p.2 |}; intros; simpl.
  - pose proof (patience_clock w.2). by destruct (clock_ns _).
  - pose proof (patience_stop w.2). by destruct (stop_flag _).
  - pose proof (patience_write b w.2). by destruct (write_packet _ _).
  - pose proof (patience_packet n w.2). by destruct (read_packet _ _).
  - pose proof (patience_read n w.2). by destruct (tls_read _ _).
Defined.

(** [phase_name] src/cdn/src/runtime.cpp:56-56 *)
Definition phase_name (p : Z) : bytes :=
  str (if p =? 1 then "TUN_READY" else if p =? 2 then "LISTENING" else if p =? 3 then "TCP_CONNECTING"
       else if p =? 4 then "TLS_HANDSHAKE" else if p =? 5 then "CARRIER_UPGRADE" else if p =? 6 then "AUTHENTICATED"
       else if p =? 7 then "ONLINE" else if p =? 8 then "RECONNECTING" else if p =? 9 then "STOPPING"
       else if p =? 10 then "LEGACY" else "STARTING").

(** [WarmSwitch] src/cdn/src/runtime.cpp:998-998 *)
Definition warm_switch : bytes := str "authenticated WebSocket replacement ready".

(** What [run] needs besides [LoopOs]: [dial_next(false)], the start of
    [dial_next(true, limit)] in the background ([std::async], an error when no
    thread can be started), whether its future is ready, its
    [get], [g_phase], [sleep_for], and the admission server. *)
Class RunOs {C : Crypto} {R : Carrier} (K : LoopOs) := {
  dial_now : lworld → res (carrier * WsHandshakeResult) * lworld;
  begin_trial : Z → lworld → res unit * lworld;
  trial_ready : lworld → bool * lworld;
  trial_outcome : lworld → res (carrier * WsHandshakeResult) * lworld;
  read_phase : lworld → Z * lworld;
  set_phase : Z → lworld → lworld;
  sleep_ms : Z → lworld → lworld;
  take_admitted : lworld → option (carrier * WsHandshakeResult) * lworld;
  next_admitted : lworld → bool * lworld;
}.

Section RunLoop.
Context {C : Crypto} {K : LoopOs} {Pt : Patience K} {R : Carrier} {RO : RunOs K} (cfg : Config).

Definition Admitted_ : Type := carrier * WsHandshakeResult.

(** The locals of the client's branch.
    [run] src/cdn/src/runtime.cpp:1469-1474 *)
Record Locals := mkLocals {
  connection : option Admitted_; warm : bool; policy : LatencyRenewal; recovery : RecoveryBackoff;
  payload_seen : Z; last_active : Z; delay : Z; waits : list Z; trials : list Z; unstarted : Z }.

Definition set_connection (c : option Admitted_) (l : Locals) : Locals :=
  mkLocals c (warm l) (policy l) (recovery l) (payload_seen l) (last_active l) (delay l) (waits l) (trials l) (unstarted l).
Definition set_warm (b : bool) (r : RecoveryBackoff) (l : Locals) : Locals :=
  mkLocals (connection l) b (policy l) r (payload_seen l) (last_active l) (delay l) (waits l) (trials l) (unstarted l).
Definition set_policy (p : LatencyRenewal) (l : Locals) : Locals :=
  mkLocals (connection l) (warm l) p (recovery l) (payload_seen l) (last_active l) (delay l) (waits l) (trials l) (unstarted l).
Definition set_active (seen at_ : Z) (l : Locals) : Locals :=
  mkLocals (connection l) (warm l) (policy l) (recovery l) seen at_ (delay l) (waits l) (trials l) (unstarted l).
Definition set_delay (d : Z) (l : Locals) : Locals :=
  mkLocals (connection l) (warm l) (policy l) (recovery l) (payload_seen l) (last_active l) d (waits l) (trials l) (unstarted l).
Definition note_wait (w : Z) (l : Locals) : Locals :=
  mkLocals (connection l) (warm l) (policy l) (recovery l) (payload_seen l) (last_active l) (delay l) (waits l ++ [w]) (trials l) (unstarted l).
Definition note_trial (t : Z) (l : Locals) : Locals :=
  mkLocals (connection l) (warm l) (policy l) (recovery l) (payload_seen l) (last_active l) (delay l) (waits l) (trials l ++ [t]) (unstarted l).
Definition note_unstarted (l : Locals) : Locals :=
  mkLocals (connection l) (warm l) (policy l) (recovery l) (payload_seen l) (last_active l) (delay l) (waits l) (trials l) (unstarted l + 1).

(** ** The tick of a client session *)

Abbreviation KL := (carrying Locals K).
Abbreviation Tk := (M (Ticking (K := KL))).

(** The two parts of the world of a session. *)
Definition carried (q : lworld (LoopOs := KL)) : Locals := fst (q : Locals * lworld (LoopOs := K)).
Definition outside (q : lworld (LoopOs := KL)) : lworld (LoopOs := K) := snd (q : Locals * lworld (LoopOs := K)).

Definition tick_set (st : Stats) (ev : list bytes) (l : Locals) (w : lworld (LoopOs := K)) (p : Ticking (K := KL)) : Ticking (K := KL) :=
  mkTicking KL st (tick_history p) ev (l, w).
Definition tick_look {A} (f : lworld (LoopOs := K) → A * lworld (LoopOs := K)) : Tk A := λ p,
  let (a, w) := f (outside (tick_os p)) in (Ok a, tick_set (tick_stats p) (tick_events p) (carried (tick_os p)) w p).
Definition tick_count (f : Stats → Stats) : Tk unit :=
  modify (λ p, tick_set (f (tick_stats p)) (tick_events p) (carried (tick_os p)) (outside (tick_os p)) p).
Definition tick_note (text : bytes) : Tk unit :=
  modify (λ p, tick_set (tick_stats p) (push_event text (tick_events p)) (carried (tick_os p)) (outside (tick_os p)) p).
Definition tick_locals (f : Locals → Locals) : Tk unit :=
  modify (λ p, tick_set (tick_stats p) (tick_events p) (f (carried (tick_os p))) (outside (tick_os p)) p).
Definition tick_state : Tk (Stats * RttHistory * Locals) := gets (λ p, (tick_stats p, tick_history p, (carried (tick_os p)))).
Definition tick_us : Tk Z := t ← tick_look clock_ns ; mret (u64 (micros t)).

(** The trial is over: the new connection takes over, or is given up.
    [run] src/cdn/src/runtime.cpp:1487-1490 *)
Definition end_trial : Tk unit :=
  r ← tick_look trial_outcome ;
  tick_locals (λ l, set_warm false (recovery l) l) ;;
  t ← tick_us ;
  match r with
  | Ok replacement =>
      tick_locals (λ l, set_connection (Some replacement) (set_warm false (succeeded t (recovery l)) l)) ;;
      tick_count (λ st, bump reconnects 1 (bump candidate_successes 1 st)) ;;
      tick_note (str "recovery code=HANDOVER_COMMITTED") ;;
      throw warm_switch
  | Err _ =>
      tick_locals (λ l, set_warm false (failed t (recovery l)) l) ;;
      tick_count (bump candidate_failures 1) ;;
      tick_note (str "recovery code=CANDIDATE_REJECTED")
  end.

(** The round trip above which the latency policy renews a session; the median is
    a [double] of milliseconds there, whose product with 3 has this integer part.
    [run] src/cdn/src/runtime.cpp:1496-1499 *)
Definition renewal_threshold (h : RttHistory) : Z :=
  match snapshot 1 h with
  | Some p => if (8 <=? count p)%nat then Z.max (latency_renew_ms cfg) (Z.quot (p50_us p * 3) 1000) else latency_renew_ms cfg
  | None => latency_renew_ms cfg
  end.

(** The greatest round trip a trial may have, in milliseconds.
    [run] src/cdn/src/runtime.cpp:1501-1502 *)
Definition trial_limit (missing : bool) (st : Stats) : Z :=
  if negb missing && (0 <? st rtt_us) then
    Z.min (candidate_max_rtt_ms cfg) (Z.max 100 (Z.quot (Z.quot (st rtt_us) 1000 * 8) 10))
  else candidate_max_rtt_ms cfg.

(** When [std::async] throws, [warm] stays invalid and the exception ends the session.
    [run] src/cdn/src/runtime.cpp:1501-1507 *)
Definition start_trial (missing : bool) (now : Z) : Tk unit :=
  v ← tick_state ;
  let limit := trial_limit missing v.1.1 in
  tick_locals (λ l, note_trial now (set_warm (warm l) (started now (recovery l)) l)) ;;
  tick_count (bump candidate_attempts 1) ;;
  tick_count (bump (if missing then reply_renewals else latency_renewals) 1) ;;
  tick_note (if missing then str "recovery reason=missing_authenticated_reply" else str "recovery reason=sustained_latency") ;;
  begun ← tick_look (begin_trial limit) ;
  match begun with
  | Ok _ => tick_locals (λ l, set_warm true (recovery l) l)
  | Err e => tick_locals note_unstarted ;; throw e
  end.

(** The activity of the session, and what two minutes of it do to the delay.
    [run] src/cdn/src/runtime.cpp:1492-1494 *)
Definition note_activity (started_at now : Z) : Tk unit :=
  v ← tick_state ;
  let payload := u64 (v.1.1 payload_tx + v.1.1 payload_rx) in
  (if payload =? payload_seen v.2 then mret tt else tick_locals (set_active payload now)) ;;
  t ← tick_look clock_ns ;
  if 120 * 10 ^ 9 <? t - started_at then tick_locals (set_delay (reconnect_initial_ms cfg)) else mret tt.

(** Whether the latency policy asks for a renewal. *)
Definition latency_calls (now : Z) : Tk bool :=
  v ← tick_state ;
  let '(st, h, l) := v in
  let (slow, q) := observe_latency
    (mkProbe (st rtt_sample_us) (st rtt_us) now
       (negb (last_active l =? 0) && (u64 (now - last_active l) <=? 60000000))
       (renewal_threshold h) (latency_renew_samples cfg) (latency_renew_cooldown_sec cfg)) (policy l) in
  tick_locals (set_policy q) ;; mret slow.

(** [run] src/cdn/src/runtime.cpp:1495-1508 *)
Definition consider_trial (hs : WsHandshakeResult) (now : Z) : Tk unit :=
  v ← tick_state ;
  let missing := u64 (reply_renew_sec cfg) * 1000 <=? v.1.1 probe_pending_age_ms in
  if negb (warm v.2) && peer_trial hs && backoff_ready now (recovery v.2) then
    go ← (if missing then mret true else latency_calls now) ;
    if (go : bool) then start_trial missing now else mret tt
  else mret tt.

(** [tick]; [started_at] is [connection_started], [hs] the handshake of the session.
    [run] src/cdn/src/runtime.cpp:1486-1509 *)
Definition client_tick (started_at : Z) (hs : WsHandshakeResult) : Tk unit :=
  v ← tick_state ;
  ready ← (if warm v.2 then tick_look trial_ready else mret false) ;
  if (ready : bool) then end_trial
  else now ← tick_us ; note_activity started_at now ;; consider_trial hs now.

(** ** The client *)

(** [run] src/cdn/src/runtime.cpp:1427-1430 *)
Record RunState := mkRun {
  locals : Locals; run_stats : Stats; kinds : Reconnects; run_events : list bytes; run_os : lworld (LoopOs := K); run_rng : rng }.

Abbreviation Rn := (M RunState).

Definition put_locals (l : Locals) (s : RunState) : RunState := mkRun l (run_stats s) (kinds s) (run_events s) (run_os s) (run_rng s).
Definition put_stats (st : Stats) (k : Reconnects) (s : RunState) : RunState := mkRun (locals s) st k (run_events s) (run_os s) (run_rng s).
Definition put_outer (ev : list bytes) (w : lworld (LoopOs := K)) (g : rng) (s : RunState) : RunState :=
  mkRun (locals s) (run_stats s) (kinds s) ev w g.

Definition look {A} (f : lworld (LoopOs := K) → A * lworld (LoopOs := K)) : Rn A := λ s,
  let (a, w) := f (run_os s) in (Ok a, put_outer (run_events s) w (run_rng s) s).
Definition tell (f : lworld (LoopOs := K) → lworld (LoopOs := K)) : Rn unit := look (λ w, (tt, f w)).
Definition run_count (f : Stats → Stats) : Rn unit := modify (λ s, put_stats (f (run_stats s)) (kinds s) s).
Definition run_note (text : bytes) : Rn unit := modify (λ s, put_outer (push_event text (run_events s)) (run_os s) (run_rng s) s).
Definition on_locals (f : Locals → Locals) : Rn unit := modify (λ s, put_locals (f (locals s)) s).
Definition run_us : Rn Z := t ← look clock_ns ; mret (u64 (micros t)).

(** [classify_reconnect(e.what(), st)]; [tx_stalls] is one of the other counters. *)
Definition count_kind (reason : bytes) : Rn unit := modify (λ s,
  let k := kinds s in
  let k := classify_reconnect reason (reconnect_counts (run_stats s tx_stalls) (reconnect_pong_timeout k) (reconnect_tx_timeout k)
             (reconnect_idle k) (reconnect_session k) (reconnect_network k) (reconnect_manual k)) in
  put_stats (put tx_stalls (Logging.tx_stalls k) (run_stats s)) k s).

(** [carrier_tunnel_loop] with its tick, at most [turns] turns of it. *)
Definition run_session (turns : nat) (started_at : Z) (c : carrier) (hs : WsHandshakeResult) : Rn unit := λ s,
  let k := Handshake.keys hs in
  let (r, link) := carrier_tunnel_loop (K := KL) cfg (client_tx k) (client_tick started_at hs) turns
                     (new_link (K := KL) cfg (server_tx k) (run_stats s) (run_events s) (locals s, run_os s) c (run_rng s)) in
  (r, mkRun (carried (link_os link)) (counters (link_box link)) (kinds s) (link_events link) (outside (link_os link)) (link_rng link)).

(** [for(int left=wait;left>0&&!g_stop;left-=100)] *)
Fixpoint sleep_slices (fuel : nat) (left : Z) : Rn unit :=
  match fuel with
  | O => mret tt
  | S fuel' =>
      if 0 <? left then
        stop ← look stop_flag ;
        if (stop : bool) then mret tt else tell (sleep_ms (Z.min left 100)) ;; sleep_slices fuel' (left - 100)
      else mret tt
  end.
Definition sleep_until_stop (wait : Z) : Rn unit := sleep_slices (Z.to_nat wait) wait.

(** The body of the [try].
    [run] src/cdn/src/runtime.cpp:1479-1510 *)
Definition client_session (turns : nat) : Rn unit :=
  dialled_at ← look clock_ns ;
  s ← gets id ;
  (match connection (locals s) with
   | Some _ => mret tt
   | None =>
       r ← look dial_now ;
       match r with Ok c => on_locals (set_connection (Some c)) | Err e => throw e end
   end) ;;
  started_at ← look clock_ns ;
  s ← gets id ;
  match connection (locals s) with
  | None => mret tt
  | Some (c, hs) =>
      run_count (bump ptt5_sessions 1) ;;
      tell (set_phase 7) ;;
      on_locals (λ l, set_policy (reset_samples (policy l)) l) ;;
      run_session turns started_at c hs
  end.

(** The trial that was under way is waited for and takes over. [true] is [continue].
    [run] src/cdn/src/runtime.cpp:1525-1526 *)
Definition settle_trial (r : res Admitted_) : Rn bool :=
  on_locals (λ l, set_warm false (recovery l) l) ;;
  t ← run_us ;
  match r with
  | Ok c =>
      on_locals (λ l, set_connection (Some c) (set_warm false (succeeded t (recovery l)) l)) ;;
      run_count (bump candidate_successes 1) ;;
      stop ← look stop_flag ;
      if (stop : bool) then mret false else run_count (bump reconnects 1) ;; mret true
  | Err _ =>
      on_locals (λ l, set_warm false (failed t (recovery l)) l) ;;
      run_count (bump candidate_failures 1) ;; mret false
  end.

Definition settle : Rn bool :=
  s ← gets id ;
  if warm (locals s) then r ← look trial_outcome ; settle_trial r else mret false.

(** The reason is counted, the wait is slept through and the delay doubles.
    [run] src/cdn/src/runtime.cpp:1529-1534 *)
Definition back_off (failed_phase : Z) (e : bytes) : Rn unit :=
  run_note (str "failure stage=" ++ phase_name failed_phase ++ str " code=" ++ failure_code failed_phase e) ;;
  tell (set_phase 8) ;;
  run_count (bump reconnects 1) ;;
  count_kind e ;;
  s ← gets id ;
  wait ← look (jittered (delay (locals s)) (reconnect_jitter_pct cfg)) ;
  on_locals (note_wait wait) ;;
  sleep_until_stop wait ;;
  on_locals (λ l, set_delay (Z.min (delay l * 2) (reconnect_max_ms cfg)) l).

(** The [catch] of a failed session.
    [run] src/cdn/src/runtime.cpp:1512-1536 *)
Definition after_failure (e : bytes) : Rn unit :=
  failed_phase ← look read_phase ;
  tell (set_phase 8) ;;
  run_count (λ st, put rtt_sample_us 0 (put rtt_us (-1) st)) ;;
  on_locals (set_connection None) ;;
  switched ← settle ;
  if (switched : bool) then mret tt
  else
    stop ← look stop_flag ;
    if (stop : bool) then mret tt else back_off failed_phase e.

(** [try { m } catch (const WarmSwitch&) { } catch (const std::exception& e) { h }];
    [true] when something was thrown. *)
Definition guarded (m : Rn unit) (h : bytes → Rn unit) : Rn bool := λ s,
  match m s with
  | (Ok _, s') => (Ok false, s')
  | (Err e, s') => ((if bool_decide (e = warm_switch) then mret tt else h e) ;; mret true) s'
  end.

(** [while(cfg.max_connections==1 && !g_stop)]: the sessions of the list, of at
    most that many turns each; a session that has returned saw [g_stop], or was
    cut off by the model.
    [run] src/cdn/src/runtime.cpp:1478-1537 *)
Fixpoint client_loop (sessions : list nat) : Rn unit :=
  match sessions with
  | [] => mret tt
  | turns :: sessions' =>
      stop ← look stop_flag ;
      if (stop : bool) then mret tt
      else
        again ← guarded (client_session turns) after_failure ;
        if (again : bool) then client_loop sessions' else mret tt
  end.

(** The locals with their initialisers.
    [run] src/cdn/src/runtime.cpp:1469-1474 *)
Definition first_locals (st : Stats) : Locals :=
  mkLocals None false (mkRenewal 0 0 0 false) (mkBackoff 0 0) (u64 (st payload_tx + st payload_rx)) 0
    (reconnect_initial_ms cfg) [] [] 0.

Definition first_run (ev : list bytes) (w : lworld (LoopOs := K)) (g : rng) : RunState :=
  mkRun (first_locals new_stats) new_stats (reconnect_counts 0 0 0 0 0 0 0) ev w g.

(** ** The server *)

(** [tick] of the server: the next connection is ready.
    [run] src/cdn/src/runtime.cpp:1456-1456 *)
Definition server_tick : M (Ticking (K := K)) unit := λ p,
  let (ready, w) := next_admitted (tick_os p) in
  (if (ready : bool) then Err warm_switch else Ok tt, mkTicking K (tick_stats p) (tick_history p) (tick_events p) w).

(** [carrier_tunnel_loop] of the server. *)
Definition run_server_session (turns : nat) (c : carrier) (hs : WsHandshakeResult) : Rn unit := λ s,
  let k := Handshake.keys hs in
  let (r, link) := carrier_tunnel_loop cfg (server_tx k) server_tick turns
                     (new_link cfg (client_tx k) (run_stats s) (run_events s) (run_os s) c (run_rng s)) in
  (r, mkRun (locals s) (counters (link_box link)) (kinds s) (link_events link) (link_os link) (link_rng link)).

(** The session of one admitted connection.
    [run] src/cdn/src/runtime.cpp:1452-1456 *)
Definition server_session (turns : nat) (c : carrier) (hs : WsHandshakeResult) : Rn unit :=
  check (negb (websocket_padding_max_bytes cfg =? 0) && negb (peer_padding hs))
    (str "peer lacks padding-v1; upgrade both peers or disable padding") ;;
  check (negb (websocket_control_padding_bytes cfg =? 0) && negb (peer_envelope hs))
    (str "peer lacks envelope-v2; upgrade both peers or disable control padding") ;;
  run_count (bump ptt5_sessions 1) ;;
  tell (set_phase 7) ;;
  run_note (str "online role=server transport=websocket") ;;
  run_server_session turns c hs.

(** Its [catch]es.
    [run] src/cdn/src/runtime.cpp:1457-1457 *)
Definition server_visit (turns : nat) (c : carrier) (hs : WsHandshakeResult) : Rn unit := λ s,
  match server_session turns c hs s with
  | (Ok _, s') => (Ok tt, s')
  | (Err e, s') =>
      (if bool_decide (e = warm_switch) then run_count (bump reconnects 1)
       else stop ← look stop_flag ;
            if (stop : bool) then mret tt
            else count_kind e ;; run_count (bump reconnects 1) ;; run_note (str "disconnected error=" ++ e)) s'
  end.

(** [while(cfg.max_connections==1 && !g_stop)] of the server.
    [run] src/cdn/src/runtime.cpp:1446-1464 *)
Fixpoint server_loop (sessions : list nat) : Rn unit :=
  match sessions with
  | [] => mret tt
  | turns :: sessions' =>
      stop ← look stop_flag ;
      if (stop : bool) then mret tt
      else
        got ← look take_admitted ;
        match got with
        | None => server_loop sessions'
        | Some (c, hs) =>
            server_visit turns c hs ;;
            stop ← look stop_flag ;
            (if (stop : bool) then mret tt else tell (set_phase 2)) ;;
            server_loop sessions'
        end
  end.
End RunLoop.
