(* ===== verification/RunProps.v ===== *)
(** * Properties of the sessions of [run]

    Whatever a session runs into, the client connects again, and waits for it
    within its bounds; a replacement is tried as often as its outcome is counted;
    trials are at least half a minute apart. The first section shows what a carrier session leaves
    alone: anything that holds of its world and of the counters only [tick] moves. *)

From S2P Require Import Prelude.
From S2P Require Import Text Crypto Keys RecordLoop Record Config ConfigBounds Tun LoopOs Pacing Logging Outbox.
From S2P Require Import FlowScheduler FlowQueue Traffic Telemetry Budget Handshake Transport Carrier CarrierLoop CarrierProps RunLoop.

(** The counters of [tick] and of its caller. *)
Definition trial_counters : list Counter := [candidate_attempts; candidate_successes; candidate_failures].

(** ** What a carrier session leaves alone *)

Section Aside.
Context {C : Crypto} {K : LoopOs} {Pt : Patience K} {R : Carrier} (cfg : Config) (tx_key : bytes).
Context (tick : M Ticking unit).
Context (W : Stats → lworld → Prop).
Hypothesis W_put : ∀ c v st w, c ∉ trial_counters → W st w → W (put c v st) w.
Hypothesis W_clock : ∀ st w, W st w → W st (clock_ns w).2.
Hypothesis W_stop : ∀ st w, W st w → W st (stop_flag w).2.
Hypothesis W_disconnect : ∀ st w, W st w → W st (take_disconnect w).2.
Hypothesis W_poll : ∀ e t st w, W st w → W st (poll_both e t w).2.
Hypothesis W_read : ∀ n st w, W st w → W st (read_packet n w).2.
Hypothesis W_write : ∀ b st w, W st w → W st (write_packet b w).2.
Hypothesis W_uniform : ∀ lo hi st w, W st w → W st (uniform lo hi w).2.
Hypothesis W_tick : keeps (λ p, W (tick_stats p) (tick_os p)) tick.

Let P (s : Link) : Prop := W (counters (link_box s)) (link_os s).

Lemma W_bump c v st w : c ∉ trial_counters → W st w → W (bump c v st) w.
Proof using W_put. apply W_put. Qed.
Lemma W_max c v st w : c ∉ trial_counters → W st w → W (put_max c v st) w.
Proof using W_put. apply W_put. Qed.

Ltac other := apply (bool_decide_unpack _); vm_compute; exact I.
Ltac counted :=
  repeat first [ assumption | apply W_bump; [other|] | apply W_max; [other|] | apply W_put; [other|]
               | match goal with |- W (if ?b then _ else _) _ => destruct b end ].

Lemma aside_modify f : (∀ s, W (counters (link_box s)) (link_os s) → W (counters (link_box (f s))) (link_os (f s))) →
  keeps P (modify f).
Proof using Type. intros H. by apply keeps_modify. Qed.
Lemma aside_ask {A} (f : lworld → A * lworld) :
  (∀ st w, W st w → W st (f w).2) → keeps P (ask f).
Proof using Type. intros H s Hs. unfold ask. specialize (H _ _ Hs). by destruct (f _). Qed.
Lemma aside_carrier {A} (m : M carrier A) : keeps P (on_carrier m).
Proof using Type. intros s. unfold on_carrier. by destruct (m _). Qed.
Lemma aside_rng {A} (f : rng → res (A * rng)) : keeps P (with_rng f).
Proof using Type. intros s. unfold with_rng. by destruct (f _) as [[]|]. Qed.

#[local] Hint Resolve aside_carrier aside_rng : pt.
#[local] Hint Extern 1 (keeps _ get) => apply keeps_gets : pt.
#[local] Hint Extern 1 (keeps _ (ask _)) => apply aside_ask; auto : pt.
#[local] Hint Extern 2 (keeps _ (modify _)) => apply aside_modify; intros; simpl; solve [counted] : pt.

Ltac walk := repeat first [ progress keep | match goal with |- keeps _ (match ?x with _ => _ end) => destruct x end ].

Lemma aside_clock : keeps P read_clock.
Proof using W_clock. unfold read_clock. keep. Qed.
#[local] Hint Resolve aside_clock : pt.
Lemma aside_us : keeps P clock_us.
Proof using W_clock. unfold clock_us. keep. Qed.
#[local] Hint Resolve aside_us : pt.
Lemma aside_interval n : keeps P (next_interval cfg n).
Proof using W_uniform. unfold next_interval. keep. Qed.
Lemma aside_padding c n : keeps P (padding_for cfg c n).
Proof using W_clock. unfold padding_for. walk. Qed.
#[local] Hint Resolve aside_interval aside_padding : pt.

Lemma aside_space x p q : ∀ o st w, counters o = st → W st w → W (counters (make_space cfg p x q o).2) w.
Proof using W_put.
  induction q as [|y q IH]; intros o st w <- Hw; cbn [make_space]; [done|].
  destruct (_ || _); [|done]. destruct p; simpl; [counted|]. eapply IH; [done|]. simpl. counted.
Qed.
Lemma aside_enqueue x p o w : W (counters o) w → W (counters (enqueue_record x cfg p o)) w.
Proof using W_put.
  intros Hw. unfold enqueue_record. destruct (_ <? _); [simpl; counted|].
  pose proof (aside_space x p (queue o) o _ w eq_refl Hw) as Hs.
  destruct (make_space _ _ _ _ _) as [[] o']; simpl in *; [counted|done].
Qed.

Lemma aside_submit payload flags packet : keeps P (submit cfg tx_key payload flags packet).
Proof using W_put W_clock.
  unfold submit, encode, take_sequence. walk. apply aside_modify. intros s Hs. simpl. by apply aside_enqueue.
Qed.
#[local] Hint Resolve aside_submit : pt.

Lemma aside_sync : keeps P sync_carrier_tx.
Proof using W_put W_clock. unfold sync_carrier_tx. walk. Qed.
#[local] Hint Resolve aside_sync : pt.
Lemma aside_transport : keeps P (flush_transport cfg).
Proof using W_put W_clock. unfold flush_transport. walk. Qed.
#[local] Hint Resolve aside_transport : pt.
Lemma aside_shaper : keeps P (shaper_allows cfg).
Proof using W_clock W_uniform. unfold shaper_allows. walk. Qed.
Lemma aside_limit t : keeps P (batch_limit cfg t).
Proof using W_put. unfold batch_limit. keep. Qed.
#[local] Hint Resolve aside_shaper aside_limit : pt.

Lemma gather_counters limit count message q o : counters (gather cfg limit count message q o).2 = counters o.
Proof using Type.
  revert count message o. induction q as [|x q IH]; intros; cbn [gather]; [done|].
  destruct (_ && _); [|done]. by rewrite IH.
Qed.

Lemma aside_flush : keeps P (flush_carrier cfg).
Proof using W_put W_clock W_uniform.
  unfold flush_carrier, send_message. do 5 (apply keeps_bind; [auto with pt|intros ?]; try (apply keeps_if; [keep|])).
  apply keeps_read. intros s Hs. pose proof (gather_counters a3 0 [] (queue (link_box s)) (link_box s)) as Hg.
  cbn [id]. destruct (gather _ _ _ _ _ _) as [message o]. simpl in Hg.
  apply (keeps_set P (set_box o s) _ s); [by unfold P; simpl; rewrite Hg|walk].
Qed.
#[local] Hint Resolve aside_flush : pt.

Lemma aside_drain_packets n : keeps P (drain_packets cfg tx_key n).
Proof using W_put W_clock. induction n as [|n IH]; simpl; walk. Qed.
#[local] Hint Resolve aside_drain_packets : pt.
Lemma aside_drain : keeps P (drain_pending cfg tx_key).
Proof using W_put W_clock. unfold drain_pending, publish_both. walk. Qed.
#[local] Hint Resolve aside_drain : pt.

Lemma aside_burst fuel budget i burst : keeps P (read_burst cfg fuel budget i burst).
Proof using W_put W_clock W_stop W_read.
  revert i burst. induction fuel as [|fuel IH]; intros i burst; cbn [read_burst]; walk.
Qed.
Lemma aside_admit p : keeps P (admit_packet cfg p).
Proof using W_put W_clock. unfold admit_packet. walk. Qed.
Lemma aside_each {A} (f : A → M Link unit) l : (∀ x, keeps P (f x)) → keeps P (each f l).
Proof using Type. intros Hf. induction l; simpl; keep. Qed.
#[local] Hint Resolve aside_burst aside_admit aside_each : pt.
Lemma aside_packets : keeps P (take_packets cfg tx_key).
Proof using W_put W_clock W_stop W_read W_uniform. unfold take_packets. walk. Qed.
#[local] Hint Resolve aside_packets : pt.

Lemma aside_pong p : keeps P (handle_pong p).
Proof using W_put W_clock. unfold handle_pong. walk. Qed.
#[local] Hint Resolve aside_pong : pt.

Lemma aside_delivery flags payload : keeps P (on_delivery cfg tx_key flags payload).
Proof using W_put W_clock W_write. unfold on_delivery, inject. walk. Qed.

Lemma aside_feed msg : keeps P (feed_message cfg tx_key msg).
Proof using W_put W_clock W_write W_uniform.
  unfold feed_message. apply keeps_read. intros s Hs.
  destruct (feed_v5 _ _ _ _) as [[[d' s'] r]|] eqn:Hf; [|done].
  assert (Hs' : P s').
  { revert Hf. unfold feed_v5, feed_with. cbn [id]. destruct (_ <? _); [by intros [= <- <- <-]|].
    apply (loop_inv (aead_step PTT5) (callback (on_delivery cfg tx_key)) (λ _ s, P s) (λ _ s _, P s)); auto.
    intros d0 s0 f n p t d1 HP _. pose proof (aside_delivery f p s0 HP).
    unfold callback. by destruct (on_delivery _ _ _ _ _) as [[] ?]. }
  destruct r; (apply (keeps_set P); [exact Hs'|]); unfold feed_error, decoder_counts; walk.
Qed.
#[local] Hint Resolve aside_feed : pt.

Lemma aside_message m : keeps P (handle_message cfg tx_key m).
Proof using W_put W_clock W_write W_uniform. unfold handle_message. walk. Qed.
#[local] Hint Resolve aside_message : pt.
Lemma aside_receive : keeps P (receive_messages cfg tx_key).
Proof using W_put W_clock W_write W_uniform. unfold receive_messages. walk. Qed.

Lemma aside_probe t : keeps P (probe_timer cfg tx_key t).
Proof using W_put W_clock W_uniform. unfold probe_timer. walk. Qed.
Lemma aside_ping t : keeps P (ping_timer cfg t).
Proof using W_put W_clock. unfold ping_timer. walk. Qed.
Lemma aside_keepalive t : keeps P (keepalive_timer cfg tx_key t).
Proof using W_put W_clock W_uniform. unfold keepalive_timer. walk. Qed.
Lemma aside_limits t bad : keeps P (session_limits cfg t bad).
Proof using W_put.
  unfold session_limits. apply keeps_bind; [|intros _; walk].
  apply aside_modify. intros s Hs. by destruct (_ <=? _).
Qed.
#[local] Hint Resolve aside_receive aside_probe aside_ping aside_keepalive aside_limits : pt.

Lemma aside_tick : keeps P (run_tick tick).
Proof using W_tick.
  intros s Hs. unfold run_tick. pose proof (W_tick (mkTicking _ (counters (link_box s)) (rtt_history (pacing s)) (link_events s) (link_os s)) Hs).
  by destruct (tick _) as [r p].
Qed.
#[local] Hint Resolve aside_tick : pt.
Lemma aside_watch : keeps P (watch_replies cfg tick).
Proof using W_put W_clock W_disconnect W_tick. unfold watch_replies. walk. Qed.

Lemma aside_late q t : keeps P (drop_late cfg q t).
Proof using W_put. induction q as [|x rest IH]; cbn [drop_late]; walk. Qed.
#[local] Hint Resolve aside_watch aside_late : pt.
Lemma aside_old t : keeps P (drop_old cfg t).
Proof using W_put W_clock. unfold drop_old, publish_both. walk. Qed.
Lemma aside_wait : keeps P (wait_for_events cfg).
Proof using W_poll. unfold wait_for_events. walk. Qed.
#[local] Hint Resolve aside_old aside_wait : pt.

Lemma aside_turn : keeps P (carrier_turn cfg tx_key tick).
Proof using All. unfold carrier_turn. walk. Qed.
#[local] Hint Resolve aside_turn : pt.

Lemma aside_run n : keeps P (carrier_tunnel_loop cfg tx_key tick n).
Proof using All.
  unfold carrier_tunnel_loop, begin_session. apply keeps_bind; [walk|intros _].
  induction n as [|n IH]; cbn [carrier_loop]; walk.
Qed.
End Aside.

(** ** The client *)

(** The steady clock does not go back: [steady] is what it has shown, and no
    operation takes it back. *)
Class SteadyClock {C : Crypto} {R : Carrier} (K : LoopOs) {RO : RunOs K} := {
  steady : lworld → Z;
  steady_clock w : steady w <= (clock_ns w).1 <= steady (clock_ns w).2 ∧ 0 <= (clock_ns w).1 < 2 ^ 63;
  steady_stop w : steady w <= steady (stop_flag w).2;
  steady_disconnect w : steady w <= steady (take_disconnect w).2;
  steady_poll e t w : steady w <= steady (poll_both e t w).2;
  steady_packet n w : steady w <= steady (read_packet n w).2;
  steady_write b w : steady w <= steady (write_packet b w).2;
  steady_uniform lo hi w : steady w <= steady (uniform lo hi w).2;
  steady_dial w : steady w <= steady (dial_now w).2;
  steady_begin n w : steady w <= steady (begin_trial n w).2;
  steady_ready w : steady w <= steady (trial_ready w).2;
  steady_outcome w : steady w <= steady (trial_outcome w).2;
  steady_phase w : steady w <= steady (read_phase w).2;
  steady_set n w : steady w <= steady (set_phase n w);
  steady_sleep n w : steady w <= steady (sleep_ms n w);
}.

(** Half a minute, in microseconds. *)
Definition kTrialGap : Z := 30 * 1000000.

Section Client.
Context {C : Crypto} {K : LoopOs} {Pt : Patience K} {R : Carrier} {RO : RunOs K} {SC : SteadyClock K}.
Context (cfg : Config).

(** Every trial gets its thread. *)
Definition threads_start : Prop := ∀ n w, is_ok (begin_trial n w).1 = true.

(** [owed] trials are neither under way nor counted yet; [now] is what the clock
    has shown. *)
Record client_ok (owed : Z) (st : Stats) (l : Locals) (now : Z) : Prop := {
  ok_delay : reconnect_initial_ms cfg <= delay l <= reconnect_max_ms cfg;
  ok_waits : Forall (wait_ok cfg) (waits l);
  ok_accounts : u64 (st candidate_attempts)
    = u64 (st candidate_successes + st candidate_failures + (if warm l then 1 else 0) + unstarted l + owed);
  ok_threads : 0 <= unstarted l ∧ (threads_start → unstarted l = 0);
  ok_failures : 0 <= failures_ (recovery l) <= 5;
  ok_apart : StronglySorted (λ t t', t + kTrialGap <= t') (trials l);
  ok_rest : Forall (λ t, t + kTrialGap <= next_ (recovery l) ∧ t <= Z.quot now 1000) (trials l);
}.

Lemma ok_put owed c v st l n : c ∉ trial_counters → client_ok owed st l n → client_ok owed (put c v st) l n.
Proof using Type.
  intros Hc []. assert (Ho : ∀ k, k ∈ trial_counters → put c v st k = st k).
  { intros k Hk. apply put_other. by intros ->. }
  split; try done. by rewrite !Ho by (unfold trial_counters; clear; set_solver).
Qed.

Lemma ok_later owed st l n n' : n <= n' → client_ok owed st l n → client_ok owed st l n'.
Proof using Type.
  intros Hn []. split; try done. eapply Forall_impl; [done|]. intros t [? ?]. split; [done|].
  etrans; [done|]. apply Z.quot_le_mono; lia.
Qed.

(** Changes of the locals that no clause looks at. *)
Lemma ok_locals owed st l l' n :
  delay l' = delay l → waits l' = waits l → warm l' = warm l → recovery l' = recovery l → trials l' = trials l →
  unstarted l' = unstarted l → client_ok owed st l n → client_ok owed st l' n.
Proof using Type. intros Hd Hw Hwa Hr Ht Hu [? ? ? ? ? ? ?]. by split; rewrite ?Hd, ?Hw, ?Hwa, ?Hr, ?Ht, ?Hu. Qed.

Lemma ok_set_delay owed st l n d :
  reconnect_initial_ms cfg <= d <= reconnect_max_ms cfg → client_ok owed st l n → client_ok owed st (set_delay d l) n.
Proof using Type. by intros Hd []. Qed.

Lemma ok_note_wait owed st l n w : wait_ok cfg w → client_ok owed st l n → client_ok owed st (note_wait w l) n.
Proof using Type. intros Hw []. split; try done. simpl. by apply Forall_app_2; [|constructor]. Qed.

(** The trial is over. *)
Lemma ok_over st l n : warm l = true → client_ok 0 st l n → client_ok 1 st (set_warm false (recovery l) l) n.
Proof using Type. intros Hw []. rewrite Hw in *. split; try done. simpl. rewrite ok_accounts0. f_equal. lia. Qed.

(** What the clock shows, in microseconds. *)
Lemma clock_micros w :
  let t := u64 (micros (clock_ns w).1) in
  clock_ok t ∧ Z.quot (steady w) 1000 <= t <= Z.quot (steady (clock_ns w).2) 1000.
Proof using SC.
  destruct (steady_clock w) as [[H1 H2] H3]. set (c := (clock_ns w).1) in *. simpl.
  assert (Hm : 0 <= micros c < 2 ^ 63) by (unfold micros; split; [apply Z.quot_pos|apply Z.quot_lt_upper_bound]; lia).
  unfold u64. rewrite Z.mod_small by lia. split; [done|]. split; apply Z.quot_le_mono; lia.
Qed.

Lemma ok_ended owed st l w r :
  client_ok owed st l (steady w) → warm l = false → 0 <= failures_ r <= 5 →
  u64 (micros (clock_ns w).1) + kTrialGap <= next_ r →
  client_ok owed st (set_warm false r l) (steady (clock_ns w).2).
Proof using SC.
  intros [Hd Hws Ha Hu Hf Hs Hr] Hw Hr' Hn. rewrite Hw in Ha. split; simpl; try done.
  destruct (clock_micros w) as [_ Hc]. eapply Forall_impl; [exact Hr|]. intros t [H1 H2]. lia.
Qed.

Lemma ok_succeeded owed st l w :
  client_ok owed st l (steady w) → warm l = false →
  client_ok owed st (set_warm false (succeeded (u64 (micros (clock_ns w).1)) (recovery l)) l) (steady (clock_ns w).2).
Proof using SC.
  intros Hok Hw. apply ok_ended; [done|done|simpl; lia|]. destruct (clock_micros w) as [Hc _].
  unfold clock_ok, kTrialGap in *. simpl. unfold u64 at 2. rewrite Z.mod_small; lia.
Qed.

Lemma ok_failed owed st l w :
  client_ok owed st l (steady w) → warm l = false →
  client_ok owed st (set_warm false (failed (u64 (micros (clock_ns w).1)) (recovery l)) l) (steady (clock_ns w).2).
Proof using SC.
  intros Hok Hw. pose proof (ok_failures _ _ _ _ Hok) as Hf. destruct (clock_micros w) as [Hc _].
  rewrite failed_spec by done. apply ok_ended; simpl; [done|done|lia|].
  assert (1 <= 2 ^ Z.min 4 (failures_ (recovery l))) by (apply (Z.pow_le_mono_r 2 0); lia). unfold kTrialGap. lia.
Qed.

(** Its outcome is counted. *)
Lemma ok_count c st l n : c ∈ [candidate_successes; candidate_failures] →
  client_ok 1 st l n → client_ok 0 (bump c 1 st) l n.
Proof using Type.
  intros Hc [? ? Ha ? ? ? ?]. split; try done. unfold bump. rewrite put_other by (clear -Hc; intros <-; set_solver).
  rewrite Ha, Z.add_0_r. generalize (unstarted l). intros k. destruct (warm l), (decide (c = candidate_successes)) as [->|Hs];
    [|assert (c = candidate_failures) as -> by (clear -Hc Hs; set_solver)..| |assert (c = candidate_failures) as -> by (clear -Hc Hs; set_solver)];
    rewrite put_same, put_other by done; unfold u64; rewrite ?Zplus_mod_idemp_l, ?Zplus_mod_idemp_r;
    clear; Z.div_mod_to_equations; lia.
Qed.

(** A trial is due. *)
Lemma ok_trial st l n now :
  clock_ok now → now <= Z.quot n 1000 → backoff_ready now (recovery l) = true → client_ok 0 st l n →
  client_ok 1 (bump candidate_attempts 1 st) (note_trial now (set_warm (warm l) (started now (recovery l)) l)) n.
Proof using Type.
  intros Hc Hn Hr [Hd Hws Ha Hu Hf Hs Hr']. unfold backoff_ready, clock_ok, kTrialGap in *. apply Z.leb_le in Hr.
  assert (Hg : u64 (now + 30000000) = now + 30 * 1000000) by (unfold u64; apply Z.mod_small; lia).
  split; simpl; try done.
  - unfold bump. rewrite put_same, !put_other by done. unfold u64 in *.
    revert Ha. clear. generalize (st candidate_attempts) (st candidate_successes + st candidate_failures + (if warm l then 1 else 0) + unstarted l).
    intros. Z.div_mod_to_equations. lia.
  - apply StronglySorted_app_2; [|done|by repeat constructor].
    intros t t' Ht ->%list_elem_of_singleton. rewrite Forall_forall in Hr'. destruct (Hr' t Ht). unfold kTrialGap. lia.
  - rewrite Hg. apply Forall_app_2; [|by repeat constructor; unfold kTrialGap; lia].
    eapply Forall_impl; [exact Hr'|]. intros t [H1 H2]. unfold kTrialGap in *. lia.
Qed.

(** Its thread runs, or could not be started. *)
Lemma ok_begun st l n : warm l = false → client_ok 1 st l n → client_ok 0 st (set_warm true (recovery l) l) n.
Proof using Type. intros Hw []. rewrite Hw in *. split; try done. simpl. rewrite ok_accounts0. f_equal. lia. Qed.

Lemma ok_unstarted st l n : ¬ threads_start → client_ok 1 st l n → client_ok 0 st (note_unstarted l) n.
Proof using Type. intros Ht []. split; try done; simpl; [rewrite ok_accounts0; f_equal; lia|]. split; [lia|done]. Qed.

(** *** The tick *)

Abbreviation KL := (carrying Locals K).
Abbreviation Tk := (M (Ticking (K := KL))).

Definition tick_ok (owed : Z) (p : Ticking (K := KL)) : Prop :=
  client_ok owed (tick_stats p) (carried (tick_os p)) (steady (outside (tick_os p))).

Lemma tick_count_ok c v owed : c ∉ trial_counters → keeps (tick_ok owed) (tick_count (bump c v)).
Proof using Type. intros Hc. apply keeps_modify. intros p Hp. by apply ok_put. Qed.

Lemma tick_note_ok owed text : keeps (tick_ok owed) (tick_note text).
Proof using Type. by apply keeps_modify. Qed.

Lemma tick_locals_ok owed f :
  (∀ l, delay (f l) = delay l ∧ waits (f l) = waits l ∧ warm (f l) = warm l ∧ recovery (f l) = recovery l
        ∧ trials (f l) = trials l ∧ unstarted (f l) = unstarted l) → keeps (tick_ok owed) (tick_locals f).
Proof using Type. intros H. apply keeps_modify. intros p Hp. destruct (H (carried (tick_os p))) as (?&?&?&?&?&?). by eapply ok_locals. Qed.

Lemma tick_look_ok {A} owed (f : lworld (LoopOs := K) → A * lworld (LoopOs := K)) :
  (∀ w, steady w <= steady (f w).2) → keeps (tick_ok owed) (tick_look f).
Proof using Type.
  intros H p Hp. unfold tick_look. specialize (H (outside (tick_os p))). destruct (f _) as [a w]. simpl in *.
  by eapply ok_later.
Qed.

Lemma clock_step w c w' : clock_ns w = (c, w') → steady w <= steady w'.
Proof using SC. intros H. pose proof (steady_clock w) as Hs. rewrite H in Hs. simpl in Hs. lia. Qed.

Ltac run_tick_ops :=
  unfold tick_us, tick_look, tick_locals, tick_count, tick_note, tick_state, gets, modify, throw, mbind, M_bind, mret, M_ret, id; simpl.

Lemma ok_handover owed st l n c : client_ok owed st l n → client_ok owed st (set_connection c l) n.
Proof using Type. by apply ok_locals. Qed.

Lemma end_trial_ok p : tick_ok 0 p → warm (carried (tick_os p)) = true → tick_ok 0 (end_trial p).2.
Proof using SC.
  intros Hp Hw. unfold tick_ok in *. unfold end_trial. run_tick_ops.
  pose proof (steady_outcome (outside (tick_os p))) as Ho. destruct (trial_outcome _) as [r w1]. simpl in *.
  apply (ok_over _ _ _ Hw) in Hp. apply (ok_later _ _ _ _ _ Ho) in Hp.
  pose proof (ok_succeeded _ _ _ _ Hp eq_refl) as Hs. pose proof (ok_failed _ _ _ _ Hp eq_refl) as Hf.
  destruct (clock_ns w1) as [c w2], r; simpl in *.
  - apply ok_put; [by apply (bool_decide_unpack _)|]. apply ok_count; [left|]. by apply ok_handover.
  - apply ok_count; [right; left|done].
Qed.

Lemma start_trial_ok missing now p :
  tick_ok 0 p → clock_ok now → now <= Z.quot (steady (outside (tick_os p))) 1000 →
  backoff_ready now (recovery (carried (tick_os p))) = true → warm (carried (tick_os p)) = false →
  tick_ok 0 (start_trial cfg missing now p).2.
Proof using SC.
  intros Hp Hc Hn Hr Hw. unfold tick_ok in *. unfold start_trial. run_tick_ops.
  set (l := carried (tick_os p)) in *.
  pose proof (ok_trial (tick_stats p) l (steady (outside (tick_os p))) now Hc Hn Hr Hp) as Hdue.
  apply (ok_put 1 (if missing then reply_renewals else latency_renewals)
           (u64 (bump candidate_attempts 1 (tick_stats p) (if missing then reply_renewals else latency_renewals) + 1))) in Hdue;
    [|by destruct missing; apply (bool_decide_unpack _)].
  match goal with |- context [begin_trial ?n ?w] => pose proof (steady_begin n w) as Hle; destruct (begin_trial n w) as [[u|e] w'] eqn:Hb end;
    simpl in Hle; eapply ok_later; [exact Hle| |exact Hle|].
  - by apply ok_begun.
  - apply ok_unstarted; [|exact Hdue]. intros H.
    match type of Hb with begin_trial ?n ?w = _ => specialize (H n w); by rewrite Hb in H end.
Qed.

(** The rest of a tick reads the clock and moves what no clause looks at. *)
Definition between (now : Z) (p : Ticking (K := KL)) : Prop :=
  tick_ok 0 p ∧ clock_ok now ∧ now <= Z.quot (steady (outside (tick_os p))) 1000.

Lemma between_locals now f :
  (∀ l, delay (f l) = delay l ∧ waits (f l) = waits l ∧ warm (f l) = warm l ∧ recovery (f l) = recovery l
        ∧ trials (f l) = trials l ∧ unstarted (f l) = unstarted l) → keeps (between now) (tick_locals f).
Proof using Type. intros H p (Hp & Hc & Hn). split_and!; [by eapply tick_locals_ok|done|done]. Qed.

Lemma between_look {A} now (f : lworld (LoopOs := K) → A * lworld (LoopOs := K)) :
  (∀ w, steady w <= steady (f w).2) → keeps (between now) (tick_look f).
Proof using Type.
  intros H p (Hp & Hc & Hn). split_and!; [by apply tick_look_ok|done|].
  unfold tick_look. specialize (H (outside (tick_os p))). destruct (f _) as [a w]. simpl in *.
  etrans; [done|]. apply Z.quot_le_mono; lia.
Qed.

Lemma between_delay now d : reconnect_initial_ms cfg <= d <= reconnect_max_ms cfg →
  keeps (between now) (tick_locals (set_delay d)).
Proof using Type. intros Hd p (Hp & Hc & Hn). split_and!; [by apply ok_set_delay|done|done]. Qed.

(** An operation, and the rest under what it kept. *)
Lemma keeps_then {S A B} (P Q : S → Prop) (m : M S A) (f : A → M S B) s :
  keeps P m → (∀ s, P s → Q s) → (∀ a s, P s → Q (f a s).2) → P s → Q ((m ≫= f) s).2.
Proof using Type.
  intros Hm HPQ Hf Hs. specialize (Hm s Hs). unfold mbind, M_bind. destruct (m s) as [[a|e] s']; [by apply Hf|by apply HPQ].
Qed.

Lemma read_us p : tick_ok 0 p → ∃ now p', (tick_us p = (Ok now, p')) ∧ between now p' ∧ carried (tick_os p') = carried (tick_os p).
Proof using SC.
  intros Hp. unfold tick_us. run_tick_ops. pose proof (clock_micros (outside (tick_os p))) as [H1 H2].
  destruct (clock_ns _) as [c w'] eqn:Hc. simpl in *. eexists _, _. split; [done|]. split; [|done].
  split_and!; [|done|simpl; lia]. eapply ok_later; [|exact Hp]. by eapply clock_step.
Qed.

Lemma between_activity started_at now : bounds cfg → keeps (between now) (note_activity cfg started_at now).
Proof using SC.
  intros HB. pose proof (b_reconnect_max _ HB). unfold note_activity.
  apply keeps_bind; [apply keeps_gets|intros v]. apply keeps_bind.
  { destruct (_ =? _); [apply keeps_ret|by apply between_locals]. }
  intros _. apply keeps_bind; [|intros t; destruct (_ <? _); [apply between_delay; lia|apply keeps_ret]].
  apply between_look. intros w. pose proof (steady_clock w). lia.
Qed.

(** [warm] and [recovery] are not moved by the policy. *)
Lemma latency_calls_ok now p : between now p → ∃ go p', (latency_calls cfg now p = (Ok go, p')) ∧ between now p'
  ∧ warm (carried (tick_os p')) = warm (carried (tick_os p)) ∧ recovery (carried (tick_os p')) = recovery (carried (tick_os p)).
Proof using Type.
  intros Hp. unfold latency_calls, tick_state, gets, mbind, M_bind. cbn [fst snd].
  destruct (observe_latency _ _) as [slow q]. eexists _, _. split; [done|]. split; [|done].
  by apply (between_locals now (set_policy q)).
Qed.

Lemma consider_ok hs now p : between now p → tick_ok 0 (consider_trial cfg hs now p).2.
Proof using SC.
  intros Hb. unfold consider_trial, tick_state, gets, mbind at 1, M_bind at 1. cbn [fst snd].
  destruct (negb _ && _ && _) eqn:Hg; [|by apply Hb]. bool_to_prop. set (missing := _ <=? _).
  assert (Hs : ∀ p', between now p' → warm (carried (tick_os p')) = warm (carried (tick_os p)) →
    recovery (carried (tick_os p')) = recovery (carried (tick_os p)) → tick_ok 0 (start_trial cfg missing now p').2).
  { intros p' (?&?&?) Hw Hr. apply start_trial_ok; congruence. }
  destruct (latency_calls_ok now p Hb) as (go & p' & Hgo & Hb' & Hw & Hr).
  unfold mbind, M_bind. destruct missing eqn:Hm; [by apply Hs|]. rewrite Hgo. destruct go; [by apply Hs|by apply Hb'].
Qed.

Lemma client_tick_ok started_at hs : bounds cfg → keeps (tick_ok 0) (client_tick cfg started_at hs).
Proof using SC.
  intros HB p Hp. unfold client_tick, tick_state, gets, mbind at 1, M_bind at 1. cbn [fst snd].
  assert (Hrest : ∀ p', tick_ok 0 p' → tick_ok 0 ((now ← tick_us ; note_activity cfg started_at now ;; consider_trial cfg hs now) p').2).
  { intros p' Hp'. destruct (read_us p' Hp') as (now & p2 & Hnow & Hb & _). unfold mbind at 1, M_bind at 1. rewrite Hnow.
    apply (keeps_then (between now)); [by apply between_activity|by intros ? []|intros _; by apply consider_ok|done]. }
  unfold mbind at 1, M_bind at 1. destruct (warm (carried (tick_os p))) eqn:Hw; [|by apply Hrest].
  pose proof (steady_ready (outside (tick_os p))) as Hr. unfold tick_look at 1.
  destruct (trial_ready _) as [[] w]; simpl in Hr; [apply end_trial_ok|apply Hrest]; try done; by eapply ok_later.
Qed.

(** *** The loop *)

Definition run_ok (owed : Z) (s : RunState) : Prop := client_ok owed (run_stats s) (locals s) (steady (run_os s)).

Lemma session_ok turns started_at c hs : bounds cfg → keeps (run_ok 0) (run_session cfg turns started_at c hs).
Proof using SC.
  intros HB s Hs. unfold run_session.
  pose (W := λ st (q : lworld (LoopOs := KL)), client_ok 0 st (carried q) (steady (outside q))).
  assert (Hlater : ∀ st l w w', steady w <= steady w' → W st (l, w) → W st (l, w')).
  { intros st l w w' Hw. by apply ok_later. }
  pose proof (aside_run (K := KL) cfg (client_tx (Handshake.keys hs)) (client_tick cfg started_at hs) W) as Hrun.
  specialize (λ H1 H2 H3 H4 H5 H6 H7 H8 H9, Hrun H1 H2 H3 H4 H5 H6 H7 H8 H9 turns
    (new_link (K := KL) cfg (server_tx (Handshake.keys hs)) (run_stats s) (run_events s) (locals s, run_os s) c (run_rng s))).
  destruct (carrier_tunnel_loop _ _ _ _ _) as [r link]. apply Hrun; clear Hrun.
  - intros k v st w. apply ok_put.
  - intros st [l w]. simpl. pose proof (steady_clock w). destruct (clock_ns w). apply Hlater. simpl in *. lia.
  - intros st [l w]. simpl. pose proof (steady_stop w). destruct (stop_flag w). by apply Hlater.
  - intros st [l w]. simpl. pose proof (steady_disconnect w). destruct (take_disconnect w). by apply Hlater.
  - intros e t st [l w]. simpl. pose proof (steady_poll e t w). destruct (poll_both e t w). by apply Hlater.
  - intros n st [l w]. simpl. pose proof (steady_packet n w). destruct (read_packet n w). by apply Hlater.
  - intros b st [l w]. simpl. pose proof (steady_write b w). destruct (write_packet b w). by apply Hlater.
  - intros lo hi st [l w]. simpl. pose proof (steady_uniform lo hi w). destruct (uniform lo hi w). by apply Hlater.
  - by apply client_tick_ok.
  - done.
Qed.

Lemma look_ok {A} owed (f : lworld → A * lworld) : (∀ w, steady w <= steady (f w).2) → keeps (run_ok owed) (look f).
Proof using Type.
  intros H s Hs. unfold look. specialize (H (run_os s)). destruct (f _) as [a w]. by eapply ok_later.
Qed.
Lemma tell_ok owed f : (∀ w, steady w <= steady (f w)) → keeps (run_ok owed) (tell f).
Proof using Type. intros H. by apply look_ok. Qed.
Lemma count_ok owed c v : c ∉ trial_counters → keeps (run_ok owed) (run_count (bump c v)).
Proof using Type. intros Hc. apply keeps_modify. intros s Hs. by apply ok_put. Qed.
Lemma note_ok owed text : keeps (run_ok owed) (run_note text).
Proof using Type. by apply keeps_modify. Qed.
Lemma kind_ok owed e : keeps (run_ok owed) (count_kind e).
Proof using Type. apply keeps_modify. intros s Hs. by apply ok_put; [apply (bool_decide_unpack _)|]. Qed.
Lemma locals_ok owed f :
  (∀ l, delay (f l) = delay l ∧ waits (f l) = waits l ∧ warm (f l) = warm l ∧ recovery (f l) = recovery l
        ∧ trials (f l) = trials l ∧ unstarted (f l) = unstarted l) → keeps (run_ok owed) (on_locals f).
Proof using Type. intros H. apply keeps_modify. intros s Hs. destruct (H (locals s)) as (?&?&?&?&?&?). by eapply ok_locals. Qed.

Lemma stop_ok owed : keeps (run_ok owed) (look stop_flag).
Proof using Type. apply look_ok, steady_stop. Qed.
Lemma clock_ok' owed : keeps (run_ok owed) (look clock_ns).
Proof using Type. apply look_ok. intros w. pose proof (steady_clock w). lia. Qed.
Lemma phase_ok owed n : keeps (run_ok owed) (tell (set_phase n)).
Proof using Type. apply tell_ok, steady_set. Qed.
#[local] Hint Resolve stop_ok clock_ok' phase_ok note_ok kind_ok : pt.
#[local] Hint Extern 1 (keeps _ (run_count (bump _ _))) => apply count_ok, (bool_decide_unpack _); vm_compute; exact I : pt.
#[local] Hint Extern 1 (keeps _ (on_locals _)) => by apply locals_ok : pt.

Lemma client_session_ok turns : bounds cfg → keeps (run_ok 0) (client_session cfg turns).
Proof using SC.
  intros HB. unfold client_session. keep.
  - destruct (connection _); [keep|]. apply keeps_bind; [apply look_ok, steady_dial|intros []; keep].
  - destruct (connection _) as [[c hs]|]; keep. by apply session_ok.
Qed.

Lemma sleep_ok owed fuel left : keeps (run_ok owed) (sleep_slices fuel left).
Proof using Type.
  revert left. induction fuel as [|fuel IH]; intros left; cbn [sleep_slices]; keep.
  apply tell_ok, steady_sleep.
Qed.

Lemma steady_jittered d pct w : steady w <= steady (jittered d pct w).2.
Proof using Type.
  unfold jittered. destruct (_ =? _); [done|]. pose proof (steady_uniform (- Z.quot (d * pct) 100) (Z.quot (d * pct) 100) w).
  by destruct (uniform _ _ w).
Qed.

(** The outcome of a trial is counted, and the rest. *)
Lemma counted_then {A} c (m : M RunState A) s :
  c ∈ [candidate_successes; candidate_failures] → keeps (run_ok 0) m → run_ok 1 s →
  run_ok 0 ((run_count (bump c 1) ;; m) s).2.
Proof using Type. intros Hc Hm Hs. apply Hm. by apply ok_count. Qed.

Lemma settle_ok r s : run_ok 0 s → warm (locals s) = true → run_ok 0 (settle_trial r s).2.
Proof using SC.
  intros Hs Hw. unfold settle_trial. apply (ok_over _ _ _ Hw) in Hs.
  unfold mbind at 1, M_bind at 1, on_locals at 1, modify at 1.
  unfold run_us, mbind at 1, M_bind at 1, look at 1. unfold mbind at 1, M_bind at 1. simpl.
  pose proof (ok_succeeded _ _ _ _ Hs eq_refl) as Hok. pose proof (ok_failed _ _ _ _ Hs eq_refl) as Hno.
  destruct (clock_ns _) as [c w2], r; simpl in *.
  - unfold mbind at 1, M_bind at 1, on_locals at 1, modify at 1.
    apply counted_then; [left|keep|by apply ok_handover].
  - unfold run_ok; simpl. apply ok_count; [right; left|done].
Qed.

Lemma settle_any : keeps (run_ok 0) settle.
Proof using SC.
  unfold settle. apply keeps_read. intros s Hs. cbn [id]. destruct (warm (locals s)) eqn:Hw; [|done].
  unfold mbind, M_bind, look. pose proof (steady_outcome (run_os s)) as Ho. destruct (trial_outcome _) as [r w].
  apply settle_ok; [by eapply ok_later|done].
Qed.

Context {LL : LoopLaws K} (HB : bounds cfg).

(** What is noted as a wait comes from the delay as it was. *)
Lemma back_off_ok ph e : keeps (run_ok 0) (back_off cfg ph e).
Proof using SC LL HB.
  pose proof (b_reconnect_max _ HB). pose proof (b_reconnect_initial _ HB).
  unfold back_off. do 4 (apply keeps_bind; [auto with pt|intros _]).
  apply keeps_read. intros s Hs. cbn [id]. unfold mbind at 1, M_bind at 1, look at 1.
  pose proof (jittered_range cfg (delay (locals s)) (run_os s) HB (ok_delay _ _ _ _ Hs)) as Hw.
  pose proof (steady_jittered (delay (locals s)) (reconnect_jitter_pct cfg) (run_os s)) as Hl.
  destruct (jittered _ _ _) as [wait w]. unfold mbind at 1, M_bind at 1, on_locals at 1, modify at 1.
  apply (keeps_at (run_ok 0)); [|apply ok_note_wait; [done|by eapply ok_later]].
  apply keeps_bind; [apply sleep_ok|intros _]. apply keeps_modify. intros s' Hs'. apply ok_set_delay; [|done].
  pose proof (ok_delay _ _ _ _ Hs'). simpl. lia.
Qed.

Lemma after_failure_ok e : keeps (run_ok 0) (after_failure cfg e).
Proof using SC LL HB.
  unfold after_failure. apply keeps_bind; [apply look_ok, steady_phase|intros ph].
  apply keeps_bind; [keep|intros _]. apply keeps_bind.
  { apply keeps_modify. intros s Hs. do 2 (apply ok_put; [apply (bool_decide_unpack _); vm_compute; exact I|]). done. }
  intros _. apply keeps_bind; [keep|intros _]. apply keeps_bind; [apply settle_any|intros []; [keep|]].
  apply keeps_bind; [keep|intros []; [keep|apply back_off_ok]].
Qed.

Lemma client_loop_ok sessions : keeps (run_ok 0) (client_loop cfg sessions).
Proof using SC LL HB.
  induction sessions as [|turns sessions IH]; cbn [client_loop]; [keep|].
  apply keeps_bind; [keep|intros []; [keep|]]. apply keeps_bind; [|intros []; keep].
  intros s Hs. unfold guarded. pose proof (client_session_ok turns HB s Hs) as Hc.
  destruct (client_session _ _ _) as [[|e] s']; [done|]. apply (keeps_at (run_ok 0)); [|done].
  destruct (bool_decide _); [keep|]. apply keeps_bind; [apply after_failure_ok|keep].
Qed.

Lemma first_run_ok ev w g : run_ok 0 (first_run cfg ev w g).
Proof using HB.
  pose proof (b_reconnect_max _ HB). split; simpl; try constructor; lia.
Qed.

(** *** What never throws *)

Abbreviation returns m := (upholds (λ _, True) (λ _, False) m).

Lemma returns_modify {S} (f : S → S) : returns (modify f).
Proof using Type. by apply upholds_modify. Qed.
Lemma returns_look {A} (f : lworld → A * lworld) : returns (look f).
Proof using Type. intros s _. unfold look. by destruct (f _). Qed.
Lemma returns_tick_look {A} (f : lworld (LoopOs := K) → A * lworld (LoopOs := K)) : returns (tick_look f).
Proof using Type. intros s _. unfold tick_look. by destruct (f _). Qed.

Ltac returning :=
  repeat first
    [ apply upholds_ret | apply upholds_gets | apply returns_modify | apply returns_look | apply returns_tick_look
    | assumption | progress auto | apply upholds_bind; [|intros ?] | apply upholds_if
    | match goal with |- upholds _ _ (match ?x with _ => _ end) => destruct x end ].

Lemma activity_returns started_at now : returns (note_activity cfg started_at now).
Proof using Type. unfold note_activity, tick_state, tick_locals. returning. Qed.
(** A tick that starts no thread ends normally. *)
Lemma consider_throws hs now p e p' :
  consider_trial cfg hs now p = (Err e, p') → ∃ n w w', begin_trial n w = (Err e, w').
Proof using Type.
  assert (Hs : ∀ missing q, start_trial cfg missing now q = (Err e, p') → ∃ n w w', begin_trial n w = (Err e, w')).
  { intros missing q. unfold start_trial. run_tick_ops.
    match goal with |- context [begin_trial ?n ?w] => destruct (begin_trial n w) as [[u|e0] w'] eqn:Hb end; [done|].
    intros [= -> _]. by eexists _, _, _. }
  unfold consider_trial, latency_calls, tick_state, gets, tick_locals, modify, mbind, M_bind, mret, M_ret. cbn [fst snd].
  destruct (_ && _ && _); [|done]. destruct (_ <=? _); [by apply Hs|].
  destruct (observe_latency _ _) as [[] q]; [by apply Hs|done].
Qed.

Lemma sleep_returns fuel left : returns (sleep_slices fuel left).
Proof using Type. revert left. induction fuel; intros; cbn [sleep_slices]; unfold tell; returning. Qed.
Lemma after_failure_returns e : returns (after_failure cfg e).
Proof using Type.
  pose proof sleep_returns.
  unfold after_failure, settle, settle_trial, back_off, sleep_until_stop, run_us, on_locals, run_count, run_note, count_kind, tell.
  returning.
Qed.

Lemma client_loop_returns sessions : returns (client_loop cfg sessions).
Proof using Type.
  induction sessions as [|turns sessions IH]; cbn [client_loop]; returning.
  intros s _. unfold guarded. destruct (client_session _ _ _) as [[|e] s']; [done|].
  pose proof (after_failure_returns e).
  cut (returns ((if bool_decide (e = warm_switch) then mret tt else after_failure cfg e) ;; mret true));
    [by intros H'; apply H'|returning].
Qed.

(** A tick that ends its session: a replacement is in hand. *)
Lemma end_trial_throws p e p' : end_trial p = (Err e, p') →
  e = warm_switch ∧ ∃ c w, trial_outcome (outside (tick_os p)) = (Ok c, w)
    ∧ connection (carried (tick_os p')) = Some c ∧ warm (carried (tick_os p')) = false.
Proof using Type.
  unfold end_trial. run_tick_ops. destruct (trial_outcome _) as [[c|e0] w]; simpl; destruct (clock_ns w) as [t w2]; [|done].
  intros [= <- <-]. split; [done|]. by exists c, w.
Qed.

Lemma client_tick_throws started_at hs p e p' : client_tick cfg started_at hs p = (Err e, p') →
  (∃ q, carried (tick_os q) = carried (tick_os p) ∧ warm (carried (tick_os p)) = true ∧ end_trial q = (Err e, p'))
  ∨ ∃ n w w', begin_trial n w = (Err e, w').
Proof using Type.
  unfold client_tick, tick_state, gets, mbind at 1, M_bind at 1. cbn [fst snd].
  assert (Hrest : ∀ q, (now ← tick_us ; note_activity cfg started_at now ;; consider_trial cfg hs now) q = (Err e, p') →
    ∃ n w w', begin_trial n w = (Err e, w')).
  { intros q. assert (Hus : returns tick_us) by (unfold tick_us; returning). specialize (Hus q I).
    unfold mbind at 1, M_bind at 1. destruct (tick_us q) as [[now|] q1]; [|done].
    pose proof (activity_returns started_at now q1 I) as Ha.
    unfold mbind, M_bind. destruct (note_activity cfg started_at now q1) as [[[]|] q2]; [apply consider_throws|done]. }
  unfold mbind at 1, M_bind at 1. destruct (warm _) eqn:Hw; intros H; [|by right; apply Hrest in H].
  revert H. unfold tick_look at 1. destruct (trial_ready _) as [[] w]; intros H; [|by right; apply Hrest in H].
  left. by eexists (tick_set _ _ _ _ _).
Qed.
End Client.

(** ** Theorems *)

Section Theorems.
Context {C : Crypto} {K : LoopOs} {Pt : Patience K} {R : Carrier} {RO : RunOs K}.

(** C25: a client with checked bounds is never left without a connection for long:
    whatever its sessions, dials and trials run into, the loop itself never ends by an
    exception; every wait before a new attempt is a delay between the two
    configured limits, give or take the configured percentage, so at least 50
    milliseconds and at most 15 minutes; and the next delay is within the limits. *)
Theorem client_always_reconnects {LL : LoopLaws K} {SC : SteadyClock K} cfg sessions ev w g :
  bounds cfg →
  let '(r, s) := client_loop cfg sessions (first_run cfg ev w g) in
  r = Ok tt
  ∧ Forall (λ t, ∃ d, reconnect_initial_ms cfg <= d <= reconnect_max_ms cfg
      ∧ d - d * reconnect_jitter_pct cfg / 100 <= t <= d + d * reconnect_jitter_pct cfg / 100
      ∧ 50 <= t <= 900000) (waits (locals s))
  ∧ reconnect_initial_ms cfg <= delay (locals s) <= reconnect_max_ms cfg.
Proof.
  intros HB. pose proof (client_loop_returns cfg sessions (first_run cfg ev w g) I) as Hr.
  pose proof (client_loop_ok cfg HB sessions _ (first_run_ok cfg HB ev w g)) as Hok.
  destruct (client_loop _ _ _) as [[[]|e] s]; [|done]. split; [done|]. split; [|by eapply ok_delay].
  eapply Forall_impl; [by eapply ok_waits|]. intros t (d & Hd & Ht). exists d. split_and!; try done; try lia.
  all: pose proof (b_jitter _ HB); pose proof (b_reconnect_initial _ HB); pose proof (b_reconnect_max _ HB).
  - assert (d * reconnect_jitter_pct cfg / 100 <= d / 2) by
      (apply Z.div_le_lower_bound; [lia|]; Z.div_mod_to_equations; nia). Z.div_mod_to_equations. lia.
  - assert (d * reconnect_jitter_pct cfg / 100 <= d / 2) by
      (apply Z.div_le_lower_bound; [lia|]; Z.div_mod_to_equations; nia). Z.div_mod_to_equations. lia.
Qed.

(** C26: over any number of sessions, replacement trials are attempted at least half
    a minute apart, and the three counters account for every attempt: it has
    succeeded or failed, is still under way, or its thread could not be started
    ([std::async] threw), modulo 2^64. If every thread starts, the attempts are the
    successes, the failures and the trial under way. *)
Theorem trials_spaced_and_counted {LL : LoopLaws K} {SC : SteadyClock K} cfg sessions ev w g :
  bounds cfg →
  let s := (client_loop cfg sessions (first_run cfg ev w g)).2 in
  let resolved := run_stats s candidate_successes + run_stats s candidate_failures + (if warm (locals s) then 1 else 0) in
  StronglySorted (λ t t', t + 30 * 1000000 <= t') (trials (locals s))
  ∧ 0 <= unstarted (locals s) ∧ u64 (run_stats s candidate_attempts) = u64 (resolved + unstarted (locals s))
  ∧ (threads_start → u64 (run_stats s candidate_attempts) = u64 resolved).
Proof.
  intros HB. pose proof (client_loop_ok cfg HB sessions _ (first_run_ok cfg HB ev w g)) as [_ _ Ha [Hu Ht] _ Hs _].
  rewrite Z.add_0_r in Ha. split; [done|]. split; [done|]. split; [done|].
  intros Hstart. cbv zeta. by rewrite Ha, (Ht Hstart), Z.add_0_r.
Qed.

(** A tick of the client ends its session only because the thread of a trial could
    not be started, or for a replacement that is in hand: the trial was under way,
    has ended with this connection, which is the one the next session runs over,
    without dialling. *)
Theorem session_left_for_a_replacement cfg started_at hs (p : Ticking (K := carrying Locals K)) e p' :
  client_tick cfg started_at hs p = (Err e, p') →
  (∃ n w w', begin_trial n w = (Err e, w'))
  ∨ e = warm_switch ∧ warm (carried (tick_os p)) = true
  ∧ ∃ c hs' w w', trial_outcome w = (Ok (c, hs'), w') ∧ connection (carried (tick_os p')) = Some (c, hs')
    ∧ ∀ turns s, connection (locals s) = Some (c, hs') →
        ∃ t s', client_session cfg turns s = run_session cfg turns t c hs' s' ∧ run_os s' = set_phase 7 (clock_ns (clock_ns (run_os s)).2).2.
Proof.
  intros [(q & Hq & Hw & He)|?]%client_tick_throws; [right|by left].
  apply end_trial_throws in He as (-> & [c hs'] & w & Ho & Hc & Hw').
  split; [done|]. split; [done|]. exists c, hs', (outside (tick_os q)), w. split; [done|]. split; [done|].
  intros turns s Hs. unfold client_session, look, tell, run_count, on_locals, gets, modify, mbind, M_bind, mret, M_ret.
  destruct (clock_ns (run_os s)) as [t1 w1]. cbn [id put_outer locals run_os]. rewrite Hs. cbn [id].
  destruct (clock_ns w1) as [t2 w2] eqn:H2. simpl. rewrite H2. simpl. rewrite Hs. unfold run_count, look, modify. simpl.
  eexists _, _. split; [done|]. done.
Qed.
End Theorems.

(** *** A client in a concrete world *)
Module RunDemo.
Import Toy World ConfigDemo.
#[local] Existing Instance CarrierDemo.mailbox.

(** The world of LoopOs.v with a faster clock that stops before it overflows. *)
Definition shown (w : World) : Z := Z.max 0 (Z.min (ticks w) (2 ^ 63 - 1)).
Definition later (ms : Z) (w : World) : World := mkWorld (tun_packets w) (pieces w) (ticks w + Z.max 0 ms * 1000000) (turns w).

Definition os : LoopOs := {|
  lworld := World;
  clock_ns w := (shown w, later 100 w);
  stop_flag := stop_flag (LoopOs := loop_os);
  take_disconnect := take_disconnect (LoopOs := loop_os);
  poll_both := poll_both (LoopOs := loop_os);
  read_packet := next_packet;
  write_packet := write_packet (LoopOs := loop_os);
  uniform := uniform (LoopOs := loop_os);
  tls_write := tls_write (LoopOs := loop_os);
  tls_read := next_piece;
  tls_pending := tls_pending (LoopOs := loop_os);
  ssl_error := ssl_error (LoopOs := loop_os);
|}.

#[export] Instance os_laws : LoopLaws os.
Proof. split; [exact (read_packet_ip (K := loop_os))|exact (tls_write_fits (K := loop_os))
  |exact (tls_read_fits (K := loop_os))|exact (uniform_range (K := loop_os))]. Qed.

#[export] Instance os_patience : Patience os.
Proof.
  refine {| patience (w : lworld (LoopOs := os)) := patience (K := loop_os) w |}.
  - done.
  - done.
  - done.
  - exact (patience_packet (K := loop_os)).
  - exact (patience_read (K := loop_os)).
Defined.

Definition peer : WsHandshakeResult :=
  mkResult {| client_tx := CarrierDemo.key; server_tx := CarrierDemo.key'; auth := [] |} true true true true 0 0 1 [] [].

(** Dialling succeeds for ninety seconds; trials fail for sixty, and then succeed. *)
#[export] Instance run_os : RunOs (R := CarrierDemo.mailbox) os := {|
  dial_now (w : lworld (LoopOs := os)) :=
    (if ticks w <? 90000000000 then Ok (CarrierDemo.empty, peer) else Err (str "connect failed"), w);
  begin_trial _ w := (Ok tt, w);
  trial_ready w := (true, w);
  trial_outcome (w : lworld (LoopOs := os)) :=
    (if ticks w <? 60000000000 then Err (str "connect failed") else Ok (CarrierDemo.empty, peer), w);
  read_phase w := (7, w);
  set_phase _ w := w;
  sleep_ms := later;
  take_admitted w := (None, w);
  next_admitted w := (false, w);
|}.

#[export] Instance os_steady : SteadyClock (R := CarrierDemo.mailbox) os.
Proof.
  assert (Hl : ∀ n w, shown w <= shown (later n w)) by (intros n w; unfold shown, later; simpl; lia).
  refine {| steady (w : lworld (LoopOs := os)) := shown w |}; intros; simpl; try done; try apply Hl.
  - pose proof (Hl 100 w). unfold shown in *. lia.
  - unfold next_packet. destruct (tun_packets w), (World.turns w); simpl; try done; destruct (fits _ _); done.
Qed.

Definition cfg : Config := ConfigDemo.client_config.
Definition world : World := mkWorld [packet 30 69; packet 100 96] [] 0 0.
Definition run (sessions : list nat) : res unit * RunState (K := os) := client_loop (K := os) cfg sessions (first_run (K := os) cfg [] world CarrierDemo.seed).

Definition sessions : list nat := [300; 300; 300; 300]%nat.
Definition ended : res unit * RunState (K := os) := run sessions.

(** A failed trial and a lost session, then a handover, and another. *)
Example run_ends : (waits (locals ended.2), trials (locals ended.2)) = ([400], [35700000; 101800000; 137800000; 173800000]).
Proof. by vm_compute. Qed.

(** The same where no thread can be started: every trial is counted as an attempt
    and as nothing else, and ends its session. *)
Definition no_threads : RunOs (R := CarrierDemo.mailbox) os := {|
  dial_now := dial_now (RunOs := run_os);
  begin_trial _ w := (Err (str "Resource temporarily unavailable"), w);
  trial_ready := trial_ready (RunOs := run_os);
  trial_outcome := trial_outcome (RunOs := run_os);
  read_phase := read_phase (RunOs := run_os);
  set_phase := set_phase (RunOs := run_os);
  sleep_ms := sleep_ms (RunOs := run_os);
  take_admitted := take_admitted (RunOs := run_os);
  next_admitted := next_admitted (RunOs := run_os);
|}.

Example trials_without_threads :
  let s := (client_loop (K := os) (RO := no_threads) cfg sessions (first_run (K := os) cfg [] world CarrierDemo.seed)).2 in
  (run_stats s candidate_attempts, run_stats s candidate_successes, run_stats s candidate_failures, warm (locals s), unstarted (locals s))
  = (3, 0, 0, false, 3).
Proof. by vm_compute. Qed.

Lemma cfg_bounds : bounds cfg.
Proof. apply validated_bounds; [exact CarrierDemo.carrier_cfg_typed|by vm_compute]. Qed.

(** A tick in the middle of a trial. *)
Definition trying : Ticking (K := carrying (Locals (R := CarrierDemo.mailbox)) os) :=
  mkTicking (carrying Locals os) new_stats reset [] (set_warm true (mkBackoff 0 0) (first_locals cfg new_stats), later 70000 world).
Definition ticked := client_tick (K := os) cfg 0 peer trying.
End RunDemo.
Import Toy World RunDemo.
#[local] Existing Instance CarrierDemo.mailbox.

Lemma client_always_reconnects_witness :
  let '(r, s) := RunDemo.ended in
  r = Ok tt
  ∧ Forall (λ t, ∃ d, reconnect_initial_ms RunDemo.cfg <= d <= reconnect_max_ms RunDemo.cfg
      ∧ d - d * reconnect_jitter_pct RunDemo.cfg / 100 <= t <= d + d * reconnect_jitter_pct RunDemo.cfg / 100
      ∧ 50 <= t <= 900000) (waits (locals s))
  ∧ reconnect_initial_ms RunDemo.cfg <= delay (locals s) <= reconnect_max_ms RunDemo.cfg.
Proof.
  unfold RunDemo.ended, RunDemo.run.
  apply (client_always_reconnects (K := RunDemo.os) RunDemo.cfg RunDemo.sessions [] RunDemo.world CarrierDemo.seed RunDemo.cfg_bounds).
Defined.

Lemma trials_spaced_and_counted_witness :
  let s := RunDemo.ended.2 in
  StronglySorted (λ t t', t + 30 * 1000000 <= t') (trials (locals s))
  ∧ u64 (run_stats s candidate_attempts)
    = u64 (run_stats s candidate_successes + run_stats s candidate_failures + (if warm (locals s) then 1 else 0)).
Proof.
  destruct (trials_spaced_and_counted (K := RunDemo.os) RunDemo.cfg RunDemo.sessions [] RunDemo.world CarrierDemo.seed RunDemo.cfg_bounds)
    as (Hs & _ & _ & Hn).
  split; [exact Hs|]. apply Hn. intros n w. reflexivity.
Defined.

Lemma session_left_for_a_replacement_witness :
  ∃ c hs w w', trial_outcome (K := RunDemo.os) w = (Ok (c, hs), w') ∧ connection (carried (tick_os RunDemo.ticked.2)) = Some (c, hs).
Proof.
  assert (He : RunDemo.ticked.1 = Err warm_switch) by (vm_compute; reflexivity).
  destruct RunDemo.ticked as [r p'] eqn:Ht. simpl in He. subst r.
  destruct (session_left_for_a_replacement (K := RunDemo.os) RunDemo.cfg 0 RunDemo.peer RunDemo.trying _ _ Ht)
    as [(n & w & w' & Hb)|(_ & _ & c & hs & w & w' & Ho & Hr & _)]; [discriminate Hb|].
  by exists c, hs, w, w'.
Defined.
