(* ===== verification/Ptt3.v ===== *)
(** * The handshake of the TLS transport (cdn/src/runtime.cpp, PTT3)

    Over an established TLS connection the server sends a nonce, the client
    answers with its own and a token, and both derive the keys of a session from
    the two nonces and the pre-shared key. The calls of OpenSSL are observed: a
    [Peer] holds their outcomes in order, and where nothing is left [g_stop] was
    set. [g_state] and the lines written to [std::cerr] are left out. *)

From S2P Require Import Prelude.
From S2P Require Import Text Crypto HttpUpgrade Keys Config ConfigBounds LoopOs Outbox.

(** One [SSL_read_ex] or [SSL_write_ex]: what was read, or as many bytes as were
    written; [SSL_ERROR_WANT_READ] or [_WRITE]; or a failure with the text of
    [sslerr]. *)
Inductive TlsCall := TlsMoved (b : bytes) | TlsRetry | TlsBroken (e : bytes).

(** [header_value] src/cdn/src/runtime.cpp:197-197 *)
Definition header_value (s : bytes) (name : string) : bytes :=
  let needle := crlf ++ str name ++ [58] in
  match find needle s with
  | None => []
  | Some p =>
      let value := skip_blanks (drop (p + length needle) s) in
      match find crlf value with None => value | Some e => take e value end
  end.

(** The text before the first line end. *)
Definition first_line (s : bytes) : bytes := match find crlf s with None => s | Some e => take e s end.

Section Ptt3.
Context {C : Crypto} (cfg : Config).

(** [said] and [heard] are the texts given to [ssl_write_all] and returned by
    [ssl_read_headers]; no operation reads them. *)
Record Peer := mkPeer {
  script : list TlsCall; entropy : rng; peer_stats : Stats; peer_events : list bytes; said : list bytes; heard : list bytes }.

Abbreviation Pe := (M Peer).

Definition set_script (l : list TlsCall) (p : Peer) : Peer :=
  mkPeer l (entropy p) (peer_stats p) (peer_events p) (said p) (heard p).
Definition note_said (t : bytes) (p : Peer) : Peer :=
  mkPeer (script p) (entropy p) (peer_stats p) (peer_events p) (said p ++ [t]) (heard p).
Definition note_heard (t : bytes) (p : Peer) : Peer :=
  mkPeer (script p) (entropy p) (peer_stats p) (peer_events p) (said p) (heard p ++ [t]).
Definition peer_event (t : bytes) (p : Peer) : Peer :=
  mkPeer (script p) (entropy p) (peer_stats p) (push_event t (peer_events p)) (said p) (heard p).
Definition peer_count (f : Stats → Stats) (p : Peer) : Peer :=
  mkPeer (script p) (entropy p) (f (peer_stats p)) (peer_events p) (said p) (heard p).

(** The loop of [ssl_write_all] on the bytes that are left.
    [ssl_write_all] src/cdn/src/runtime.cpp:195-195 *)
Fixpoint write_text (data : bytes) (todo : list TlsCall) : res unit * list TlsCall :=
  match data, todo with
  | [], _ | _, [] => (Ok tt, todo)
  | _, TlsMoved b :: todo => write_text (drop (length b) data) todo
  | _, TlsRetry :: todo => write_text data todo
  | _, TlsBroken e :: todo => (Err (str "TLS write failed: " ++ e), todo)
  end.

(** [ssl_write_all] src/cdn/src/runtime.cpp:195-195 *)
Definition ssl_write_all (data : bytes) : Pe unit := λ p,
  let (r, todo) := write_text data (script p) in (r, note_said data (set_script todo p)).

(** The loop of [ssl_read_headers] on what was read so far.
    [ssl_read_headers] src/cdn/src/runtime.cpp:196-196 *)
Fixpoint read_text (s : bytes) (todo : list TlsCall) : res bytes * list TlsCall :=
  if contains (crlf ++ crlf) s then (Ok s, todo)
  else
    match todo with
    | [] => (Ok s, [])
    | call :: todo =>
        if 16384 <? zlen s then (Err (str "HTTP headers too large"), call :: todo)
        else
          match call with
          | TlsMoved b => read_text (s ++ take 2048 b) todo
          | TlsRetry => read_text s todo
          | TlsBroken e => (Err (str "TLS header read failed: " ++ e), todo)
          end
    end.

(** [ssl_read_headers] src/cdn/src/runtime.cpp:196-196 *)
Definition ssl_read_headers : Pe bytes := λ p,
  match read_text [] (script p) with
  | (Ok s, todo) => (Ok s, note_heard s (set_script todo p))
  | (Err e, todo) => (Err e, set_script todo p)
  end.

Definition peer_nonce : Pe bytes := λ p,
  match random_nonce_hex (entropy p) with
  | Ok (n, g) => (Ok n, mkPeer (script p) g (peer_stats p) (peer_events p) (said p) (heard p))
  | Err e => (Err e, p)
  end.

Definition lift_res {A} (r : res A) : Pe A := match r with Ok a => mret a | Err e => throw e end.

(** The request of the client.
    [client_handshake] src/cdn/src/runtime.cpp:198-198 *)
Definition connect_request (cnonce token : bytes) : bytes :=
  str "CONNECT " ++ path cfg ++ str " HTTP/1.1" ++ crlf
  ++ str "Host: " ++ server_name cfg ++ crlf
  ++ str "User-Agent: pacetun-tls/5.0.2-rc3" ++ crlf
  ++ str "X-PaceTun-Client-Nonce: " ++ cnonce ++ crlf
  ++ str "Authorization: Bearer " ++ token ++ crlf
  ++ str "Connection: keep-alive" ++ crlf ++ crlf.

(** The challenge of the server.
    [server_handshake] src/cdn/src/runtime.cpp:199-199 *)
Definition challenge_text (snonce : bytes) : bytes :=
  str "HTTP/1.1 103 PaceTun Challenge" ++ crlf
  ++ str "X-PaceTun-Server-Nonce: " ++ snonce ++ crlf
  ++ str "Cache-Control: no-store" ++ crlf ++ crlf.

(** [client_handshake] src/cdn/src/runtime.cpp:198-198 *)
Definition client_handshake (psk : bytes) : Pe SessionKeys :=
  challenge ← ssl_read_headers ;
  check (negb (starts_with (str "HTTP/1.1 103") challenge)) (str "invalid server challenge") ;;
  let snonce := header_value challenge "X-PaceTun-Server-Nonce" in
  cnonce ← peer_nonce ;
  keys ← lift_res (derive_session_keys psk snonce cnonce) ;
  token ← lift_res (handshake_token (auth keys) (server_name cfg) (path cfg) snonce cnonce) ;
  ssl_write_all (connect_request cnonce token) ;;
  r ← ssl_read_headers ;
  check (negb (starts_with (str "HTTP/1.1 200") r)) (str "server rejected tunnel: " ++ first_line r) ;;
  modify (peer_event (str "online role=client")) ;;
  mret keys.

(** The keys for one pre-shared key, when the request fits it.
    [server_handshake] src/cdn/src/runtime.cpp:200-200 *)
Definition try_psk (snonce cnonce first authorization psk : bytes) : option SessionKeys :=
  match derive_session_keys psk snonce cnonce with
  | Err _ => None
  | Ok k =>
      match handshake_token (auth k) (server_name cfg) (path cfg) snonce cnonce with
      | Err _ => None
      | Ok t =>
          if bool_decide (first = str "CONNECT " ++ path cfg ++ str " HTTP/1.1")
             && bool_decide (authorization = str "Bearer " ++ t)
          then Some k else None
      end
  end.

(** [for (i = 0; i < psks.size() && !matched; i++)], with the index.
    [server_handshake] src/cdn/src/runtime.cpp:200-200 *)
Fixpoint match_psk (snonce cnonce first authorization : bytes) (psks : list bytes) : option (nat * SessionKeys) :=
  match psks with
  | [] => None
  | psk :: psks =>
      match try_psk snonce cnonce first authorization psk with
      | Some k => Some (0%nat, k)
      | None => prod_map S id <$> match_psk snonce cnonce first authorization psks
      end
  end.

Definition forbidden : bytes :=
  str "HTTP/1.1 403 Forbidden" ++ crlf ++ str "Content-Length: 0" ++ crlf ++ str "Connection: close" ++ crlf ++ crlf.
Definition established : bytes :=
  str "HTTP/1.1 200 Connection Established" ++ crlf ++ str "Content-Type: application/octet-stream" ++ crlf
  ++ str "X-PaceTun-Wire: PTT3" ++ crlf ++ str "Connection: keep-alive" ++ crlf ++ crlf.

(** [server_handshake] src/cdn/src/runtime.cpp:199-202 *)
Definition server_handshake (psks : list bytes) : Pe SessionKeys :=
  snonce ← peer_nonce ;
  ssl_write_all (challenge_text snonce) ;;
  r ← ssl_read_headers ;
  let cnonce := header_value r "X-PaceTun-Client-Nonce" in
  match match_psk snonce cnonce (first_line r) (header_value r "Authorization") psks with
  | None =>
      modify (peer_count (bump auth_fail 1)) ;;
      modify (peer_event (str "authentication_failure")) ;;
      ssl_write_all forbidden ;;
      throw (str "invalid CONNECT request or challenge response")
  | Some (i, keys) =>
      ssl_write_all established ;;
      modify (peer_event (str "online role=server psk=" ++ str (if (i =? 0)%nat then "current" else "previous"))) ;;
      mret keys
  end.
End Ptt3.

(** ** Header fields are found where they were written *)

(** A line: no line end in it. *)
Definition line (l : bytes) : Prop := 13 ∉ l.

Lemma find_past_line needle l s : line l → find (13 :: needle) (l ++ s) = Nat.add (length l) <$> find (13 :: needle) s.
Proof.
  intros Hl. induction l as [|x l IH]; [by simpl; destruct (find (13 :: needle) s)|]. apply not_elem_of_cons in Hl as [Hx Hl].
  unfold find in *. simpl search. rewrite (proj2 (Z.eqb_neq x 13)) by congruence. simpl.
  rewrite IH by done. by destruct (search Z.eqb (13 :: needle) s).
Qed.

(** Past a line end that does not begin the field. *)
Lemma find_past_end needle s : prefix_by Z.eqb needle s = false →
  find (crlf ++ needle) (crlf ++ s) = Nat.add 2 <$> find (crlf ++ needle) s.
Proof.
  intros Hn. unfold find, crlf. simpl. rewrite Hn. by destruct (search _ _ s).
Qed.

Lemma find_here needle s : find needle (needle ++ s) = Some 0%nat.
Proof.
  unfold find. destruct (needle ++ s) eqn:E; simpl; rewrite <- E;
    rewrite (proj2 (prefix_by_eq needle (needle ++ s))) by eauto; done.
Qed.

Lemma skip_blanks_id c v s : c ≠ 32 → c ≠ 9 → skip_blanks ((c :: v) ++ s) = (c :: v) ++ s.
Proof. intros H1 H2. simpl. by rewrite (proj2 (Z.eqb_neq c 32)), (proj2 (Z.eqb_neq c 9)). Qed.

(** A field is read back when [needle] is first found where the field begins. *)
Lemma header_value_at pre name v post :
  find (crlf ++ str name ++ [58]) (pre ++ (crlf ++ str name ++ [58]) ++ [32] ++ v ++ crlf ++ post) = Some (length pre) →
  line v → (∃ c v', v = c :: v' ∧ c ≠ 32 ∧ c ≠ 9) →
  header_value (pre ++ (crlf ++ str name ++ [58]) ++ [32] ++ v ++ crlf ++ post) name = v.
Proof.
  intros Hf Hl (c & v' & -> & H1 & H2). unfold header_value. rewrite Hf.
  set (needle := crlf ++ str name ++ [58]) in *.
  rewrite <- drop_drop, drop_app_length, drop_app_length.
  change (skip_blanks ([32] ++ ?s)) with (skip_blanks s). rewrite skip_blanks_id by done.
  generalize dependent (c :: v'). intros v Hl _. unfold crlf at 1.
  rewrite find_past_line by done. change (13 :: [10]) with crlf. rewrite find_here. simpl fmap.
  rewrite Nat.add_0_r. by rewrite take_app_length.
Qed.
