(* ===== verification/Ptt3Props.v ===== *)
(** * Agreement of the handshake of the TLS transport

    When both sides return from it and their texts arrived unaltered, they hold
    the same keys, and the server used the client's pre-shared key. *)

From S2P Require Import Prelude.
From S2P Require Import Text Crypto HttpUpgrade Keys Config ConfigBounds LoopOs Outbox Handshake Agreement Ptt3.

(** ** The texts of the two sides *)

Lemma hex_line b : bytes_ok b → line (hex_encode b).
Proof.
  intros Hb. unfold line. induction Hb as [|x b Hx _ IH]; [by apply not_elem_of_nil|]. rewrite hex_encode_cons.
  assert (Hd : ∀ d, 0 <= d < 16 → 13 ≠ hex_digit d) by (intros d Hd; unfold hex_digit; destruct (Z.ltb_spec d 10); lia).
  unfold byte_ok in Hx. rewrite !not_elem_of_cons. split_and!; [apply Hd; dlia..|done].
Qed.

Lemma hex_digit_first b : length b = 32%nat → bytes_ok b → ∃ c v, hex_encode b = c :: v ∧ c ≠ 32 ∧ c ≠ 9.
Proof.
  destruct b as [|x b]; [done|]. intros _ Hb. rewrite hex_encode_cons. eexists _, _. split; [done|].
  apply Forall_cons in Hb as [Hx _]. unfold byte_ok, hex_digit in *.
  assert (0 <= x / 16) by (apply Z.div_pos; lia). destruct (x / 16 <? 10); lia.
Qed.

Lemma lit_line (s : string) : find_char 13 (str s) = None → line (str s).
Proof. apply find_char_none. Qed.

(** A field after a first line. *)
Lemma find_second needle l s : line l → find (crlf ++ needle) (l ++ (crlf ++ needle) ++ s) = Some (length l).
Proof.
  intros Hl. unfold crlf at 1. change ([13; 10] ++ needle) with (13 :: 10 :: needle).
  rewrite find_past_line by done. change (13 :: 10 :: needle) with (crlf ++ needle). rewrite find_here. simpl. f_equal. lia.
Qed.

(** A field further down. *)
Lemma find_later needle l s n : line l → prefix_by Z.eqb needle s = false → find (crlf ++ needle) s = Some n →
  find (crlf ++ needle) (l ++ crlf ++ s) = Some (length l + (2 + n))%nat.
Proof.
  intros Hl Hp Hn. unfold crlf at 1. change ([13; 10] ++ needle) with (13 :: 10 :: needle).
  rewrite find_past_line by done. change (13 :: 10 :: needle) with (crlf ++ needle).
  rewrite find_past_end by done. by rewrite Hn.
Qed.

Lemma first_line_app l s : line l → first_line (l ++ crlf ++ s) = l.
Proof.
  intros Hl. unfold first_line. pose proof (find_second [] l s Hl) as Hf. rewrite app_nil_r in Hf.
  rewrite Hf. by rewrite take_app_length.
Qed.

(** The name of a field with its colon. *)
Lemma server_nonce_field : str "X-PaceTun-Server-Nonce: " = (str "X-PaceTun-Server-Nonce" ++ [58]) ++ [32].
Proof. by vm_compute. Qed.
Lemma client_nonce_field : str "X-PaceTun-Client-Nonce: " = (str "X-PaceTun-Client-Nonce" ++ [58]) ++ [32].
Proof. by vm_compute. Qed.
Lemma authorization_field : str "Authorization: Bearer " = (str "Authorization" ++ [58]) ++ [32] ++ str "Bearer ".
Proof. by vm_compute. Qed.

Lemma challenge_nonce b : length b = 32%nat → bytes_ok b →
  header_value (challenge_text (hex_encode b)) "X-PaceTun-Server-Nonce" = hex_encode b.
Proof.
  intros Hn Hb. unfold challenge_text. rewrite server_nonce_field.
  replace (str "HTTP/1.1 103 PaceTun Challenge" ++ crlf ++ ((str "X-PaceTun-Server-Nonce" ++ [58]) ++ [32]) ++ hex_encode b
      ++ crlf ++ str "Cache-Control: no-store" ++ crlf ++ crlf)
    with (str "HTTP/1.1 103 PaceTun Challenge" ++ (crlf ++ str "X-PaceTun-Server-Nonce" ++ [58]) ++ [32] ++ hex_encode b
      ++ crlf ++ (str "Cache-Control: no-store" ++ crlf ++ crlf)) by by rewrite <- !app_assoc.
  apply header_value_at; [|by apply hex_line|by apply hex_digit_first].
  apply find_second, lit_line. by vm_compute.
Qed.

Section Request.
Context (cfg : Config) (cnonce token : bytes).
Hypothesis path_line : line (path cfg).
Hypothesis name_line : line (server_name cfg).
Hypothesis nonce_line : line cnonce.
Hypothesis token_line : line token.

Lemma line_app a b : line a → line b → line (a ++ b).
Proof using Type. unfold line. rewrite elem_of_app. naive_solver. Qed.

Lemma connect_line : line (str "CONNECT " ++ path cfg ++ str " HTTP/1.1").
Proof using path_line. repeat apply line_app; try done; apply lit_line; by vm_compute. Qed.
Lemma host_line : line (str "Host: " ++ server_name cfg).
Proof using name_line. apply line_app; [apply lit_line; by vm_compute|done]. Qed.
Lemma agent_line : line (str "User-Agent: pacetun-tls/5.0.2-rc3").
Proof using Type. apply lit_line. by vm_compute. Qed.
Lemma bearer_line : line (str "Bearer " ++ token).
Proof using token_line. apply line_app; [apply lit_line; by vm_compute|done]. Qed.

(** The fields after the first line. *)
Definition after_nonce : bytes :=
  (str "Authorization" ++ [58]) ++ [32] ++ (str "Bearer " ++ token) ++ crlf ++ str "Connection: keep-alive" ++ crlf ++ crlf.
Definition after_agent : bytes := (str "X-PaceTun-Client-Nonce" ++ [58]) ++ [32] ++ cnonce ++ crlf ++ after_nonce.

Lemma request_cut : connect_request cfg cnonce token =
  (str "CONNECT " ++ path cfg ++ str " HTTP/1.1") ++ crlf ++ (str "Host: " ++ server_name cfg) ++ crlf
  ++ str "User-Agent: pacetun-tls/5.0.2-rc3" ++ crlf ++ after_agent.
Proof using Type.
  unfold connect_request, after_agent, after_nonce. rewrite client_nonce_field, authorization_field.
  by rewrite <- !app_assoc.
Qed.

Lemma request_first_line : first_line (connect_request cfg cnonce token) = str "CONNECT " ++ path cfg ++ str " HTTP/1.1".
Proof using path_line. rewrite request_cut. apply first_line_app, connect_line. Qed.

Lemma request_nonce : (∃ c v, cnonce = c :: v ∧ c ≠ 32 ∧ c ≠ 9) →
  header_value (connect_request cfg cnonce token) "X-PaceTun-Client-Nonce" = cnonce.
Proof using path_line name_line nonce_line.
  intros Hd. set (l1 := str "CONNECT " ++ path cfg ++ str " HTTP/1.1"). set (l2 := str "Host: " ++ server_name cfg).
  set (l3 := str "User-Agent: pacetun-tls/5.0.2-rc3").
  assert (E : connect_request cfg cnonce token = (l1 ++ crlf ++ l2 ++ crlf ++ l3)
    ++ (crlf ++ str "X-PaceTun-Client-Nonce" ++ [58]) ++ [32] ++ cnonce ++ crlf ++ after_nonce)
    by (rewrite request_cut; unfold after_agent, l1, l2, l3; by rewrite <- !app_assoc).
  rewrite E. apply header_value_at; [|done|done].
  pose proof (find_second (str "X-PaceTun-Client-Nonce" ++ [58]) l3 ([32] ++ cnonce ++ crlf ++ after_nonce) agent_line) as H3.
  apply (find_later _ l2) in H3; [|apply host_line|by vm_compute].
  apply (find_later _ l1) in H3; [|apply connect_line|by vm_compute].
  rewrite <- !app_assoc in *. rewrite H3. f_equal. rewrite !length_app. simpl. lia.
Qed.

Lemma request_authorization : header_value (connect_request cfg cnonce token) "Authorization" = str "Bearer " ++ token.
Proof using path_line name_line nonce_line token_line.
  set (l1 := str "CONNECT " ++ path cfg ++ str " HTTP/1.1"). set (l2 := str "Host: " ++ server_name cfg).
  set (l3 := str "User-Agent: pacetun-tls/5.0.2-rc3"). set (l4 := (str "X-PaceTun-Client-Nonce" ++ [58]) ++ [32] ++ cnonce).
  set (post := str "Connection: keep-alive" ++ crlf ++ crlf).
  assert (E : connect_request cfg cnonce token = (l1 ++ crlf ++ l2 ++ crlf ++ l3 ++ crlf ++ l4)
    ++ (crlf ++ str "Authorization" ++ [58]) ++ [32] ++ (str "Bearer " ++ token) ++ crlf ++ post)
    by (rewrite request_cut; unfold after_agent, after_nonce, l1, l2, l3, l4, post; by rewrite <- !app_assoc).
  assert (H4l : line l4) by (apply line_app; [|apply line_app; [|done]]; apply find_char_none; by vm_compute).
  rewrite E. apply header_value_at; [|apply bearer_line|by eexists _, _; vm_compute].
  pose proof (find_second (str "Authorization" ++ [58]) l4 ([32] ++ (str "Bearer " ++ token) ++ crlf ++ post) H4l) as H4.
  apply (find_later _ l3) in H4; [|apply agent_line|by vm_compute].
  apply (find_later _ l2) in H4; [|apply host_line|by vm_compute].
  apply (find_later _ l1) in H4; [|apply connect_line|by vm_compute].
  rewrite <- !app_assoc in *. rewrite H4. f_equal. rewrite !length_app. simpl. lia.
Qed.
End Request.

(** ** What a side that returns has said and heard *)

Section Returns.
Context {C : Crypto} (cfg : Config).

Lemma write_ok t p r p' : ssl_write_all t p = (r, p') → said p' = said p ++ [t] ∧ heard p' = heard p ∧ entropy p' = entropy p.
Proof using Type. unfold ssl_write_all. destruct (write_text _ _). by intros [= <- <-]. Qed.

Lemma read_ok p t p' : ssl_read_headers p = (Ok t, p') → said p' = said p ∧ heard p' = heard p ++ [t] ∧ entropy p' = entropy p.
Proof using Type. unfold ssl_read_headers. destruct (read_text _ _) as [[] ?]; [|done]. by intros [= <- <-]. Qed.

Lemma nonce_ok p n p' : peer_nonce p = (Ok n, p') →
  said p' = said p ∧ heard p' = heard p ∧ random_nonce_hex (entropy p) = Ok (n, entropy p').
Proof using Type. unfold peer_nonce. destruct (random_nonce_hex _) as [[n0 g]|]; [|done]. by intros [= <- <-]. Qed.

Lemma lift_ok {A} (r : res A) p a p' : lift_res r p = (Ok a, p') → r = Ok a ∧ p' = p.
Proof using Type. destruct r; [by intros [= -> ->]|done]. Qed.

Lemma two {A} (l : list A) a b : (l ++ [a]) ++ [b] = l ++ [a; b].
Proof using Type. by rewrite <- app_assoc. Qed.

(** Run through the steps of an operation that returned. *)
Ltac steps :=
  repeat match goal with
  | H : (_ ≫= _) _ = (Ok _, _) |- _ => apply M_bind_ok in H as (? & ? & ? & H)
  | H : ssl_write_all _ _ = _ |- _ => apply write_ok in H as (? & ? & ?)
  | H : ssl_read_headers _ = _ |- _ => apply read_ok in H as (? & ? & ?)
  | H : peer_nonce _ = _ |- _ => apply nonce_ok in H as (? & ? & ?)
  | H : lift_res _ _ = _ |- _ => apply lift_ok in H as [? ->]
  | H : check _ _ _ = _ |- _ => apply check_ok in H as [? ->]
  | H : modify _ _ = _ |- _ => injection H as <- <-
  | H : mret _ _ = _ |- _ => injection H as <- <-
  end.

(** The steps that led to a list of texts. *)
Ltac traced :=
  rewrite <- ?two; repeat match goal with H : heard ?x = _ |- context [heard ?x] => rewrite H
                          | H : said ?x = _ |- context [said ?x] => rewrite H end; reflexivity.

Lemma client_said psk p k p' : client_handshake cfg psk p = (Ok k, p') →
  ∃ challenge cnonce token r g g',
    said p' = said p ++ [connect_request cfg cnonce token] ∧ heard p' = heard p ++ [challenge; r]
    ∧ derive_session_keys psk (header_value challenge "X-PaceTun-Server-Nonce") cnonce = Ok k
    ∧ handshake_token (auth k) (server_name cfg) (path cfg) (header_value challenge "X-PaceTun-Server-Nonce") cnonce = Ok token
    ∧ random_nonce_hex g = Ok (cnonce, g').
Proof using Type.
  unfold client_handshake. intros H. steps. eexists _, _, _, _, _, _. split_and!; try eassumption; simpl; [congruence|].
  traced.
Qed.

Lemma match_psk_ok snonce cnonce first authorization psks i k :
  match_psk cfg snonce cnonce first authorization psks = Some (i, k) →
  ∃ psk, psks !! i = Some psk ∧ try_psk cfg snonce cnonce first authorization psk = Some k.
Proof using Type.
  revert i. induction psks as [|psk psks IH]; intros i; simpl; [done|].
  destruct (try_psk _ _ _ _ _ psk) eqn:E; [intros [= <- <-]; by exists psk|].
  destruct (match_psk _ _ _ _ _ psks) as [[j k']|]; [|done]. intros [= <- <-]. by apply IH.
Qed.

Lemma try_psk_ok snonce cnonce first authorization psk k :
  try_psk cfg snonce cnonce first authorization psk = Some k →
  derive_session_keys psk snonce cnonce = Ok k ∧ first = str "CONNECT " ++ path cfg ++ str " HTTP/1.1"
  ∧ ∃ t, handshake_token (auth k) (server_name cfg) (path cfg) snonce cnonce = Ok t ∧ authorization = str "Bearer " ++ t.
Proof using Type.
  unfold try_psk. destruct (derive_session_keys _ _ _) as [k0|] eqn:E; [|done].
  destruct (handshake_token _ _ _ _ _) as [t|] eqn:Et; [|done]. destruct (_ && _) eqn:Ec; [|done].
  intros [= ->]. bool_to_prop. eauto.
Qed.

Lemma server_said psks p k p' : server_handshake cfg psks p = (Ok k, p') →
  ∃ snonce r psk g g',
    said p' = said p ++ [challenge_text snonce; established] ∧ heard p' = heard p ++ [r]
    ∧ psk ∈ psks
    ∧ try_psk cfg snonce (header_value r "X-PaceTun-Client-Nonce") (first_line r) (header_value r "Authorization") psk = Some k
    ∧ random_nonce_hex g = Ok (snonce, g').
Proof using Type.
  unfold server_handshake. intros H. steps. destruct (match_psk _ _ _ _ _ _) as [[i k0]|] eqn:E; steps; [|discriminate].
  apply match_psk_ok in E as (psk & Hi & Hk). eexists _, _, psk, _, _.
  split_and!; try eassumption; simpl; [traced|traced|by eapply list_elem_of_lookup_2].
Qed.
End Returns.

(** ** Agreement *)

(** The text under the token. *)
Definition tls_token_input (host path snonce cnonce : bytes) : bytes :=
  str "pacetun-tls-v3" ++ nl ++ host ++ nl ++ path ++ nl ++ snonce ++ nl ++ cnonce.
(** The two steps of the key schedule that lead to the key of the token. *)
Definition auth_label : bytes := str "pacetun-v3 handshake-auth" ++ [1].

Section Agree.
Context {C : Crypto} {L : CryptoLaws C} {HL : HandshakeLaws C}.

Lemma nonce_hex g n g' : random_nonce_hex g = Ok (n, g') → ∃ b, n = hex_encode b ∧ bytes_ok b ∧ length b = 32%nat.
Proof using L.
  unfold random_nonce_hex. destruct (rand_bytes 32 g) as [[b g1]|] eqn:E; [|done]. intros [= <- _].
  exists b. split_and!; [done|by eapply rand_bytes_ok|by eapply rand_bytes_length].
Qed.

Lemma tls_token_ok key host path snonce cnonce t : handshake_token key host path snonce cnonce = Ok t →
  ∃ o, hmac_sha256 key (tls_token_input host path snonce cnonce) = Some o ∧ t = hex_encode o ∧ bytes_ok o.
Proof using HL.
  unfold handshake_token, mac. intros Ht. apply bind_ok in Ht as (m & Hm & [= <-]). res_inv.
  eexists. split; [eassumption|]. split; [done|]. by eapply hmac_bytes.
Qed.

Lemma auth_ok psk snonce cnonce k : derive_session_keys psk snonce cnonce = Ok k →
  ∃ salt prk, decode_nonces snonce cnonce ≫= (λ '(s, c), Ok (s ++ c)) = Ok salt
    ∧ hmac_sha256 salt psk = Some prk ∧ hmac_sha256 prk auth_label = Some (auth k).
Proof using Type.
  unfold derive_session_keys, expand_keys, hkdf_expand_one, mac. intros H. res_inv. eexists _, _. by split_and!.
Qed.

Lemma decode_nonces_hex bs bc : bytes_ok bs → bytes_ok bc → length bs = 32%nat → length bc = 32%nat →
  decode_nonces (hex_encode bs) (hex_encode bc) = Ok (bs, bc).
Proof using Type.
  intros Hs Hc Ls Lc. unfold decode_nonces. rewrite !hex_decode_encode by done. simpl.
  unfold zlen. by rewrite Ls, Lc.
Qed.

Lemma tls_input_inj host path host' path' s c : 10 ∉ host → 10 ∉ host' →
  tls_token_input host' path' s c = tls_token_input host path s c → host' = host ∧ path' = path.
Proof using Type.
  intros Hh Hh'. unfold tls_token_input, nl. intros E%app_inv_head%app_inv_head.
  assert (Hcut : ∀ h p : bytes, h ++ [10] ++ p ++ [10] ++ s ++ [10] ++ c = (h ++ 10 :: p) ++ [10] ++ s ++ [10] ++ c)
    by (intros; by rewrite <- app_assoc).
  rewrite !Hcut in E. apply app_inv_tail in E. by apply split_at_newline in E.
Qed.

(** C24: when the two sides of the TLS transport both return from their handshake and the
    challenge and the request arrived unaltered, they hold the same session
    keys, the server used the client's pre-shared key and both name the same
    host and path, unless two different inputs of HMAC had the same tag in this
    run: under the token, or in one of the two steps of the key schedule. *)
Theorem ptt3_agreement cfg cfg' psk psks pc pc' ps ps' kc ks :
  client_handshake cfg psk pc = (Ok kc, pc') → server_handshake cfg' psks ps = (Ok ks, ps') →
  said pc = [] → heard pc = [] → said ps = [] → heard ps = [] →
  head (heard pc') = head (said ps') → head (heard ps') = head (said pc') →
  (∀ z, z ∈ server_name cfg ++ path cfg ++ server_name cfg' → 32 < z) →
  ∃ used bs bc t, used ∈ psks
  ∧ said ps' = [challenge_text (hex_encode bs); established] ∧ said pc' = [connect_request cfg (hex_encode bc) t]
  ∧ ((used = psk ∧ ks = kc ∧ server_name cfg' = server_name cfg ∧ path cfg' = path cfg)
   ∨ same_tag (auth kc) (tls_token_input (server_name cfg) (path cfg) (hex_encode bs) (hex_encode bc))
       (auth ks) (tls_token_input (server_name cfg') (path cfg') (hex_encode bs) (hex_encode bc))
   ∨ (∃ prk prk', hmac_sha256 (bs ++ bc) psk = Some prk ∧ hmac_sha256 (bs ++ bc) used = Some prk'
        ∧ same_tag prk auth_label prk' auth_label)
   ∨ same_tag (bs ++ bc) psk (bs ++ bc) used).
Proof using L HL.
  intros Hc Hs Fsc Fhc Fss Fhs Hcs Hsc Hclean.
  apply client_said in Hc as (challenge & cn & tok & r & g & g' & Sc & Ec & Dc & Tc & Nc).
  apply server_said in Hs as (sn & r' & used & g2 & g2' & Ss & Es & Hin & Tr & Ns).
  rewrite Fsc in Sc. rewrite Fhc in Ec. rewrite Fss in Ss. rewrite Fhs in Es. simpl in *.
  rewrite Ec, Ss in Hcs. rewrite Es, Sc in Hsc. simpl in Hcs, Hsc. injection Hcs as ->. injection Hsc as ->.
  apply nonce_hex in Nc as (bc & -> & Hbc & Hbc'). apply nonce_hex in Ns as (bs & -> & Hbs & Hbs').
  rewrite challenge_nonce in Dc, Tc by done.
  apply tls_token_ok in Tc as (o & Ho & -> & Hob).
  assert (Hp : line (path cfg)) by (intros H; specialize (Hclean 13); rewrite !elem_of_app in Hclean; lia || intuition lia).
  assert (Hn : line (server_name cfg)) by (intros H; specialize (Hclean 13); rewrite !elem_of_app in Hclean; intuition lia).
  rewrite request_nonce, request_first_line, request_authorization in Tr by (done || by apply hex_line || by apply hex_digit_first).
  apply try_psk_ok in Tr as (Ds & _ & t & Ts & Et%app_inv_head). subst t.
  apply tls_token_ok in Ts as (o' & Ho' & Eo & Hob'). apply hex_encode_inj in Eo as <-; [|done..].
  exists used, bs, bc, (hex_encode o). split_and!; [done..|].
  destruct (decide ((auth kc, tls_token_input (server_name cfg) (path cfg) (hex_encode bs) (hex_encode bc))
    = (auth ks, tls_token_input (server_name cfg') (path cfg') (hex_encode bs) (hex_encode bc)))) as [E|E];
    [|right; left; split; eauto].
  assert (Ea : auth kc = auth ks) by congruence. apply (f_equal snd) in E. simpl in E. symmetry in E.
  apply tls_input_inj in E as [En Ep]; [|intros H; specialize (Hclean 10); rewrite !elem_of_app in Hclean; intuition lia..].
  destruct (decide (used = psk)) as [->|Hu]; [left; split_and!; congruence|]. right. right.
  apply auth_ok in Dc as (salt & prk & Hsalt & Hprk & Hak). apply auth_ok in Ds as (salt' & prk' & Hsalt' & Hprk' & Hak').
  rewrite (decode_nonces_hex bs bc) in Hsalt, Hsalt' by done. simpl in Hsalt, Hsalt'. injection Hsalt as <-. injection Hsalt' as <-.
  destruct (decide (prk = prk')) as [->|Hp']; [right; split; [congruence|eauto]|left].
  exists prk, prk'. split_and!; [done..|]. split; [congruence|]. rewrite Ea in Hak. eauto.
Qed.
End Agree.

Lemma same_tag_irrefl {C : Crypto} k d : ¬ same_tag k d k d.
Proof. by intros [H _]. Qed.

(** ** A run of both sides *)
Module Ptt3Demo.
Import Toy.

Definition cfg : Config := ConfigDemo.client_config.
Definition psk : bytes := repeat 9 32.
Definition taken : TlsCall := TlsMoved (repeat 0 4096).
Definition peer (g : Z) (l : list TlsCall) : Peer (C:=crypto) := mkPeer (C:=crypto) l g new_stats [] [] [].

Definition client_peer (challenge answer : bytes) := peer 5 [TlsMoved challenge; TlsRetry; taken; TlsMoved answer].
Definition server_peer (request : bytes) := peer 77 [taken; TlsMoved request; taken].
Abbreviation client challenge answer := (client_handshake (C:=crypto) cfg psk (client_peer challenge answer)).
Abbreviation server request := (server_handshake (C:=crypto) cfg [psk] (server_peer request)).

Definition texts : bytes * bytes := Eval vm_compute in
  let challenge := default [] (head (said (server []).2)) in
  (challenge, default [] (head (said (client challenge established).2))).

Definition keys_or (r : res SessionKeys) : SessionKeys :=
  match r with Ok k => k | Err _ => {| client_tx := []; server_tx := []; auth := [] |} end.
Definition kc : SessionKeys := keys_or (client texts.1 established).1.
Definition ks : SessionKeys := keys_or (server texts.2).1.

Lemma ptt3_client_returns : client texts.1 established = (Ok kc, (client texts.1 established).2).
Proof. unfold kc. destruct (client _ _) as [[k|e] p] eqn:E; [done|]. apply (f_equal (λ r, is_ok r.1)) in E. by vm_compute in E. Qed.
Lemma ptt3_server_returns : server texts.2 = (Ok ks, (server texts.2).2).
Proof. unfold ks. destruct (server _) as [[k|e] p] eqn:E; [done|]. apply (f_equal (λ r, is_ok r.1)) in E. by vm_compute in E. Qed.

(** Another key is refused, and counted. *)
Example wrong_key :
  let r := server_handshake (C:=crypto) cfg [repeat 8 32] (peer 77 [taken; TlsMoved texts.2; taken]) in
  r.1 = Err (str "invalid CONNECT request or challenge response") ∧ peer_stats r.2 auth_fail = 1.
Proof. by vm_compute. Qed.

Lemma clean z : z ∈ server_name cfg ++ path cfg ++ server_name cfg → 32 < z.
Proof. revert z. apply Forall_forall. vm_compute. repeat constructor. Qed.

Lemma challenge_arrives : head (heard (client texts.1 established).2) = head (said (server texts.2).2).
Proof. vm_compute. reflexivity. Qed.
Lemma request_arrives : head (heard (server texts.2).2) = head (said (client texts.1 established).2).
Proof. vm_compute. reflexivity. Qed.
Lemma same_auth : auth ks = auth kc.
Proof. vm_compute. reflexivity. Qed.
End Ptt3Demo.
Import Ptt3Demo.

Lemma ptt3_agreement_witness : Ptt3Demo.ks = Ptt3Demo.kc.
Proof.
  destruct (ptt3_agreement (C:=Toy.crypto) (L:=Toy.crypto_laws) (HL:=HandshakeDemo.laws) Ptt3Demo.cfg Ptt3Demo.cfg psk [psk]
    (client_peer texts.1 established) (client texts.1 established).2 (server_peer texts.2) (server texts.2).2 Ptt3Demo.kc Ptt3Demo.ks
    ptt3_client_returns ptt3_server_returns eq_refl eq_refl eq_refl eq_refl challenge_arrives request_arrives clean)
    as (used & bs & bc & t & Hin & _ & _ & H).
  apply list_elem_of_singleton in Hin as ->. rewrite same_auth in H.
  destruct H as [(_ & H & _)|[H|[(prk & prk' & Hp & Hp' & H)|H]]]; [exact H|exfalso..].
  - by apply same_tag_irrefl in H.
  - rewrite Hp in Hp'. injection Hp' as <-. by apply same_tag_irrefl in H.
  - by apply same_tag_irrefl in H.
Defined.
