(* ===== verification/NetOs.v ===== *)
(** * Sockets, name resolution and OpenSSL, with the resources that are open

    What connecting, listening and the TLS handshake need from the system, on
    the world of LoopOs.v, and the state [Net] of the code that calls it.
    [opened] and [tls_opened], the descriptors and the TLS objects that were made
    and not yet given back, and [tried], the addresses for which a socket was asked,
    are not in the code; no operation reads them. Socket options are left out. *)

From S2P Require Import Prelude.
From S2P Require Import Text LoopOs.

(** [ai_family] of an [addrinfo]. *)
Inductive NetFamily := V4 | V6 | OtherFamily.
Record Address := mkAddress { ai_family : NetFamily; ai_name : bytes }.

(** [connect] on a non-blocking socket: 0, -1 with [EINPROGRESS], or -1 with
    another [errno]. *)
Inductive ConnectNow := Connected | InProgress | Refused (errno : Z).

(** [poll] on one descriptor: 0; -1 with [EINTR] or another [errno]; or events:
    [POLLNVAL], those asked for, and [POLLERR] or [POLLHUP]. *)
Inductive PollOne := PollTimeout | PollEintr | PollFailed (errno : Z) | PollReady (invalid wanted bad : bool).

(** [SSL_connect] or [SSL_accept] with [SSL_get_error]. *)
Inductive TlsStep := TlsEstablished | TlsWantRead | TlsWantWrite | TlsRefused.

Class NetOs (K : LoopOs) := {
  (** [getaddrinfo]: the text of its error, or addresses in their order *)
  resolve : bytes → bytes → bytes → lworld → (bytes + list Address) * lworld;
  (** [strerror] *)
  error_text : Z → bytes;
  (** [socket]; [fcntl] with [O_NONBLOCK]; [connect]; [poll]; [getsockopt] of
      [SO_ERROR], where [inr] is its own failure; [shutdown] and [close] *)
  open_socket : Address → lworld → (Z + Z) * lworld;
  nonblocking : Z → lworld → option Z * lworld;
  start_connect : Z → Address → lworld → ConnectNow * lworld;
  poll_one : Z → Events → Z → lworld → PollOne * lworld;
  socket_error : Z → lworld → (Z + Z) * lworld;
  shut : Z → lworld → lworld;
  (** [bind] and [listen]: the [errno] of the one that failed *)
  bind_listen : Z → Address → Z → lworld → option Z * lworld;
  (** [accept4]: a descriptor, or -1 with [EINTR] or another [errno] *)
  accept_socket : Z → lworld → option (option Z) * lworld;
  (** the local socket of the adapter, and what it says *)
  local_socket : lworld → option Z * lworld;
  local_connect : Z → bytes → lworld → ConnectNow * lworld;
  receive : Z → nat → lworld → TunRead * lworld;
  (** [SSL_new]; [SSL_set_fd]; [SSL_set_tlsext_host_name]; [SSL_set1_host];
      [SSL_connect] and [SSL_accept]; [SSL_get0_alpn_selected]; [SSL_free] *)
  tls_new : lworld → option Z * lworld;
  tls_set_fd : Z → Z → lworld → bool * lworld;
  tls_set_name : Z → bytes → lworld → bool * lworld;
  tls_set_host : Z → bytes → lworld → bool * lworld;
  tls_step : bool → Z → lworld → TlsStep * lworld;
  tls_alpn : Z → lworld → bytes * lworld;
  tls_free : Z → lworld → lworld;
  (** the contents of a file; [st_mode] of [stat] *)
  file_contents : bytes → lworld → option bytes * lworld;
  file_mode : bytes → lworld → option Z * lworld;
}.

(** A bound on the polls that report nothing and on the handshake steps and
    reads that ask for more. *)
Class NetPatience (K : LoopOs) {N : NetOs K} := {
  calm : lworld → nat;
  calm_clock w : (calm (clock_ns w).2 <= calm w)%nat;
  calm_stop w : (calm (stop_flag w).2 <= calm w)%nat;
  calm_poll fd e t w : (calm (poll_one fd e t w).2 <= calm w)%nat
    ∧ ((poll_one fd e t w).1 ≠ PollReady false true false → (calm (poll_one fd e t w).2 < calm w)%nat);
  calm_step server ssl w : (calm (tls_step server ssl w).2 <= calm w)%nat
    ∧ ((tls_step server ssl w).1 ≠ TlsEstablished → (calm (tls_step server ssl w).2 < calm w)%nat);
  calm_receive fd n w : (calm (receive fd n w).2 <= calm w)%nat
    ∧ ((∀ e, (receive fd n w).1 ≠ TunBroken e) → (calm (receive fd n w).2 < calm w)%nat);
}.

Section Net.
Context {K : LoopOs} {N : NetOs K}.

Record Net := mkNet { net : lworld; opened : list Z; tls_opened : list Z; tried : list Address; dial_sequence : Z }.

Abbreviation Nt := (M Net).

Definition with_net (w : lworld) (s : Net) : Net := mkNet w (opened s) (tls_opened s) (tried s) (dial_sequence s).
Definition with_resources (o t : list Z) (s : Net) : Net := mkNet (net s) o t (tried s) (dial_sequence s).
Definition with_tried (a : Address) (s : Net) : Net := mkNet (net s) (opened s) (tls_opened s) (tried s ++ [a]) (dial_sequence s).
Definition with_dial (n : Z) (s : Net) : Net := mkNet (net s) (opened s) (tls_opened s) (tried s) n.

Definition call {A} (f : lworld → A * lworld) : Nt A := λ s, let (a, w) := f (net s) in (Ok a, with_net w s).

(** A list without the first occurrence of an element. *)
Fixpoint remove_one (x : Z) (l : list Z) : list Z :=
  match l with [] => [] | y :: l => if y =? x then l else y :: remove_one x l end.

(** A call that makes a descriptor, and its [close]. *)
Definition obtained (fd : Z) : Nt unit := modify (λ s, with_resources (fd :: opened s) (tls_opened s) s).
Definition close_fd (fd : Z) : Nt unit :=
  call (λ w, (tt, shut fd w)) ;; modify (λ s, with_resources (remove_one fd (opened s)) (tls_opened s) s).
Definition obtained_tls (ssl : Z) : Nt unit := modify (λ s, with_resources (opened s) (ssl :: tls_opened s) s).
Definition free_tls (ssl : Z) : Nt unit :=
  call (λ w, (tt, tls_free ssl w)) ;; modify (λ s, with_resources (opened s) (remove_one ssl (tls_opened s)) s).

(** [try { m } catch (...) { h; throw; }]: what a destructor does on the way out. *)
Definition on_exception {A} (m : Nt A) (h : Nt unit) : Nt A := λ s,
  match m s with (Ok a, s') => (Ok a, s') | (Err e, s') => (Err e, (h s').2) end.

(** An operation on the network as one on a state that has it as a part. *)
Definition zoom {S A} (get : S → Net) (set : Net → S → S) (m : Nt A) : M S A := λ s, let (r, n) := m (get s) in (r, set n s).
End Net.
