(* ===== verification/Dial.v ===== *)
(** * Connecting and listening (cdn/src/runtime.cpp)

    Endpoints, the TCP connection over several addresses, the listening socket,
    the TLS handshake with its waits, the local socket of the uTLS adapter, and
    [dial_websocket], which puts them together with the authenticated handshake. A descriptor or a TLS object is
    closed where the code closes it: in the error paths, in [close_ssl], and in the destructor of
    [AdmittedConnection], whose attempt to send a close frame is left out. Lines
    written to [std::cerr] and socket options are left out. A wait goes round at most [fuel] times and
    would then be [spent]; DialProps.v shows that, with the fuel it is given, it is not. *)

From S2P Require Import Prelude.
From S2P Require Import Text Crypto HttpUpgrade Keys Config Traffic Tun LoopOs Outbox Handshake NetOs.

(** [split_hostport] src/cdn/src/runtime.cpp:90-94 *)
Definition split_hostport (s : bytes) : res (bytes * bytes) :=
  if is_empty s then Err (str "empty host:port")
  else if first_is 91 s then
    match find_char 93 s with
    | None => Err (str "expected [ipv6]:port: " ++ s)
    | Some rb =>
        throw_if ((length s <=? rb + 1)%nat || negb (at_ s (rb + 1) =? 58) || (rb =? 1)%nat || (length s <=? rb + 2)%nat)
          (str "expected [ipv6]:port: " ++ s) ;;
        Ok (substr 1 (rb - 1) s, drop (rb + 2) s)
    end
  else
    match rfind_char 58 s with
    | None => Err (str "expected host:port (IPv6 must use [addr]:port): " ++ s)
    | Some p =>
        throw_if ((p =? 0)%nat || (length s <=? p + 1)%nat || negb (bool_decide (find_char 58 s = Some p)))
          (str "expected host:port (IPv6 must use [addr]:port): " ++ s) ;;
        Ok (take p s, drop (p + 1) s)
    end.

Definition ETIMEDOUT : Z := 110.
Definition EBADF : Z := 9.
Definition ECONNRESET : Z := 104.

Section Dial.
Context {H : HttpLib} {C : Crypto} {K : LoopOs} {N : NetOs K} {NP : NetPatience K} (cfg : Config).

Abbreviation Nt := (M Net).

Definition lift_net {A} (r : res A) : Nt A := match r with Ok a => mret a | Err e => throw e end.

(** ** TCP *)

(** The wait for one connection; the answer is whether it was made and the last
    error. [remaining] is read from the clock after the test of the deadline.
    [connect_tcp] src/cdn/src/runtime.cpp:160-174 *)
Fixpoint await_connect (spent : Nt (bool * Z)) (fuel : nat) (fd deadline last : Z) : Nt (bool * Z) :=
  match fuel with
  | O => spent
  | S fuel' =>
      stop ← call stop_flag ;
      if (stop : bool) then mret (false, last)
      else
        t ← call clock_ns ;
        if negb (t <? deadline) then mret (false, last)
        else
          t ← call clock_ns ;
          r ← call (poll_one fd (mkEvents false true) (Z.min (millis (deadline - t)) 250)) ;
          match r with
          | PollEintr | PollTimeout => await_connect spent fuel' fd deadline last
          | PollFailed e => mret (false, e)
          | PollReady invalid out _ =>
              if (invalid : bool) then mret (false, EBADF)
              else
                so ← call (socket_error fd) ;
                match so with
                | inr e => mret (false, e)
                | inl soerr =>
                    if (soerr =? 0) && out then mret (true, last)
                    else mret (false, if soerr =? 0 then ECONNRESET else soerr)
                end
          end
  end.

(** One address, when [remaining] milliseconds are left for [left] of them. The
    answer is a descriptor, or the last error.
    [connect_tcp] src/cdn/src/runtime.cpp:148-176 *)
Definition try_address (address : Address) (overall remaining left : Z) : Nt (Z + Z) :=
  t ← call clock_ns ;
  let deadline := Z.min overall (t + Z.max 250 (Z.quot remaining left) * 1000000) in
  modify (with_tried address) ;;
  r ← call (open_socket address) ;
  match r with
  | inr e => mret (inr e)
  | inl fd =>
      obtained fd ;;
      failed ← call (nonblocking fd) ;
      match failed with
      | Some e => close_fd fd ;; mret (inr e)
      | None =>
          c ← call (start_connect fd address) ;
          match c with
          | Connected => mret (inl fd)
          | Refused e => close_fd fd ;; mret (inr e)
          | InProgress =>
              s ← gets id ;
              made ← await_connect (mret (false, ETIMEDOUT)) (S (calm (net s))) fd deadline ETIMEDOUT ;
              if (made : bool * Z).1 then mret (inl fd) else close_fd fd ;; mret (inr made.2)
          end
      end
  end.

(** [for (std::size_t i = 0; i < attempts && !g_stop; ++i)], over the values of
    [i]; the answer is a descriptor, or the last error.
    [connect_tcp] src/cdn/src/runtime.cpp:146-177 *)
Fixpoint try_addresses (turns : list Z) (candidates : list Address) (dial attempts overall last : Z) : Nt (Z + Z) :=
  match turns with
  | [] => mret (inr last)
  | i :: turns =>
      stop ← call stop_flag ;
      if (stop : bool) then mret (inr last)
      else
        idx ← lift_net (edge_address_index (zlen candidates) dial i (edge_dns_rotation cfg)) ;
        t ← call clock_ns ;
        let remaining := millis (overall - t) in
        if remaining <=? 0 then mret (inr last)
        else
          match candidates !! Z.to_nat idx with
          | None => mret (inr last)
          | Some address =>
              r ← try_address address overall remaining (attempts - i) ;
              match r with
              | inl fd => mret (inl fd)
              | inr e => try_addresses turns candidates dial attempts overall e
              end
          end
  end.

Definition usable (a : Address) : bool := match ai_family a with OtherFamily => false | _ => true end.

(** [dial_sequence.fetch_add(1)]
    [connect_tcp] src/cdn/src/runtime.cpp:138-139 *)
Definition next_dial_number : Nt Z :=
  if edge_dns_rotation cfg then
    s ← gets id ; modify (with_dial (u64 (dial_sequence s + 1))) ;; mret (dial_sequence s)
  else mret 0.

(** [connect_tcp] src/cdn/src/runtime.cpp:124-180 *)
Definition connect_tcp (hp : bytes) : Nt Z :=
  parts ← lift_net (split_hostport hp) ;
  let '(host, port) := (parts : bytes * bytes) in
  found ← call (resolve host port (address_family cfg)) ;
  addresses ← (match found with
               | inl e => throw (str "DNS resolution failed for " ++ host ++ str ": " ++ e)
               | inr l => mret l
               end : Nt (list Address)) ;
  let candidates := take 8 (List.filter usable addresses) in
  check (zlen candidates =? 0) (str "DNS returned no usable TCP addresses for " ++ host) ;;
  dial ← next_dial_number ;
  let attempts := if edge_dns_rotation cfg then Z.min (zlen candidates) 3 else zlen candidates in
  t ← call clock_ns ;
  r ← try_addresses (map Z.of_nat (seq 0 (Z.to_nat attempts))) candidates dial attempts
        (t + connect_timeout_sec cfg * 10 ^ 9) ETIMEDOUT ;
  match r with
  | inl fd => mret fd
  | inr last =>
      stop ← call stop_flag ;
      check stop (str "shutdown requested") ;;
      throw (str "TCP connect failed to " ++ hp ++ str ": " ++ error_text last)
  end.

(** The loop over the addresses of a listening endpoint.
    [listen_tcp] src/cdn/src/runtime.cpp:187-192 *)
Fixpoint listen_on (addresses : list Address) (backlog last : Z) : Nt (Z + Z) :=
  match addresses with
  | [] => mret (inr last)
  | a :: addresses =>
      r ← call (open_socket a) ;
      match r with
      | inr e => listen_on addresses backlog e
      | inl fd =>
          obtained fd ;;
          failed ← call (bind_listen fd a backlog) ;
          match failed with
          | None => mret (inl fd)
          | Some e => close_fd fd ;; listen_on addresses backlog e
          end
      end
  end.

(** The empty host stands for [nullptr]; the [errno] left when no address was
    found is [0] here.
    [listen_tcp] src/cdn/src/runtime.cpp:182-194 *)
Definition listen_tcp (hp : bytes) (backlog : Z) : Nt Z :=
  parts ← lift_net (split_hostport hp) ;
  let '(host, port) := (parts : bytes * bytes) in
  found ← call (resolve (if text_is host "0.0.0.0" then [] else host) port []) ;
  addresses ← (match found with
               | inl e => throw (str "getaddrinfo failed for listen endpoint: " ++ e)
               | inr l => mret l
               end : Nt (list Address)) ;
  r ← listen_on addresses backlog 0 ;
  match r with inl fd => mret fd | inr last => throw (str "listen failed: " ++ error_text last) end.

(** ** TLS *)

(** [set_nonblock] src/cdn/src/runtime.cpp:203-208 *)
Definition set_nonblock (fd : Z) : Nt unit :=
  failed ← call (nonblocking fd) ;
  check (bool_decide (is_Some (failed : option Z))) (str "set nonblocking failed").

(** The loop of [wait_for_ssl_io].
    [wait_for_ssl_io] src/cdn/src/runtime.cpp:217-232 *)
Fixpoint wait_tls_loop (spent : Nt unit) (fuel : nat) (fd : Z) (events : Events) (timeout_ms : Z) : Nt unit :=
  match fuel with
  | O => spent
  | S fuel' =>
      stop ← call stop_flag ;
      if (stop : bool) then throw (str "shutdown requested")
      else
        let later := if timeout_ms - 250 <=? 0 then throw (str "TLS handshake timeout")
                     else wait_tls_loop spent fuel' fd events (timeout_ms - 250) in
        r ← call (poll_one fd events (Z.min timeout_ms 250)) ;
        match r with
        | PollReady invalid wanted bad =>
            check invalid (str "TLS socket invalid during handshake") ;;
            if (wanted : bool) then mret tt
            else check bad (str "TLS socket closed during handshake") ;; wait_tls_loop spent fuel' fd events timeout_ms
        | PollFailed _ => throw (str "TLS handshake poll failed")
        | PollEintr | PollTimeout => later
        end
  end.

(** [SSL_ERROR_WANT_READ] or [_WRITE] is the only argument it is called with.
    [wait_for_ssl_io] src/cdn/src/runtime.cpp:210-233 *)
Definition wait_for_ssl_io (fd : Z) (want_write : bool) (timeout_ms : Z) : Nt unit :=
  s ← gets id ;
  wait_tls_loop (throw (str "TLS handshake timeout")) (S (calm (net s))) fd (mkEvents (negb want_write) want_write) timeout_ms.

(** The loop of [ssl_handshake].
    [ssl_handshake] src/cdn/src/runtime.cpp:238-249 *)
Fixpoint handshake_loop (spent : Nt unit) (fuel : nat) (server : bool) (ssl fd deadline : Z) : Nt unit :=
  match fuel with
  | O => spent
  | S fuel' =>
      stop ← call stop_flag ;
      if (stop : bool) then throw (str "shutdown requested")
      else
        let again want_write :=
          t ← call clock_ns ;
          let remain := millis (deadline - t) in
          check (remain <=? 0) (str "TLS handshake timeout") ;;
          wait_for_ssl_io fd want_write remain ;; handshake_loop spent fuel' server ssl fd deadline in
        r ← call (tls_step server ssl) ;
        match r with
        | TlsEstablished => mret tt
        | TlsWantRead => again false
        | TlsWantWrite => again true
        | TlsRefused =>
            e ← call ssl_error ;
            throw ((if server then str "TLS accept failed: " else str "TLS connect failed: ") ++ e)
        end
  end.

(** [ssl_handshake] src/cdn/src/runtime.cpp:235-250 *)
Definition ssl_handshake (ssl fd : Z) (server : bool) (timeout_sec : Z) : Nt unit :=
  set_nonblock fd ;;
  t ← call clock_ns ;
  s ← gets id ;
  handshake_loop (throw (str "TLS handshake timeout")) (S (calm (net s))) server ssl fd (t + timeout_sec * 10 ^ 9).

(** [close_ssl] src/cdn/src/runtime.cpp:252-263 *)
Definition close_ssl (ssl : option Z) (fd : option Z) : Nt unit :=
  (match ssl with Some x => free_tls x | None => mret tt end) ;;
  match fd with Some x => close_fd x | None => mret tt end.

(** ** The uTLS adapter *)

(** [sizeof(sockaddr_un::sun_path)] *)
Definition kUnixPath : Z := 108.

(** [connect_utls_adapter] src/cdn/src/runtime.cpp:999-1011 *)
Definition connect_utls_adapter (path : bytes) (timeout_sec : Z) : Nt Z :=
  made ← call local_socket ;
  match made with
  | None => throw (str "uTLS adapter socket creation failed")
  | Some fd =>
      obtained fd ;;
      if kUnixPath <=? zlen path then close_fd fd ;; throw (str "uTLS adapter socket path too long")
      else
        r ← call (local_connect fd path) ;
        up ← (match r with
              | Connected => mret true
              | Refused _ => mret false
              | InProgress =>
                  p ← call (poll_one fd (mkEvents false true) (Z.max 1 timeout_sec * 1000)) ;
                  match p with
                  | PollReady _ _ _ => so ← call (socket_error fd) ; mret (bool_decide (so = inl 0))
                  | _ => mret false
                  end
              end : Nt bool) ;
        if (up : bool) then mret fd
        else close_fd fd ;; throw (str "uTLS adapter unavailable or connection failed (no TLS fallback)")
  end.

(** [marker]: what the adapter sends when its TLS connection is verified. *)
Definition utls_marker : bytes := str "UTLSOK1" ++ [10].

(** The loop of [wait_utls_tls_ready] on what was received.
    [wait_utls_tls_ready] src/cdn/src/runtime.cpp:1017-1029 *)
Fixpoint read_marker (spent : Nt bytes) (fuel : nat) (fd deadline : Z) (received : bytes) : Nt bytes :=
  match fuel with
  | O => spent
  | S fuel' =>
      if zlen utls_marker <=? zlen received then mret received
      else
        t ← call clock_ns ;
        let remaining := millis (deadline - t) in
        check (remaining <=? 0) (str "uTLS adapter TLS handshake timeout") ;;
        r ← call (poll_one fd (mkEvents true false) (Z.min remaining 250)) ;
        match r with
        | PollEintr | PollTimeout => read_marker spent fuel' fd deadline received
        | PollFailed _ => throw (str "uTLS adapter readiness poll failed")
        | PollReady _ _ _ =>
            n ← call (receive fd (length utls_marker - length received)) ;
            match n with
            | TunPacket b => read_marker spent fuel' fd deadline (received ++ b)
            | TunClosed => throw (str "uTLS adapter closed before verified TLS handshake; check sidecar logs")
            | TunAgain | TunInterrupted => read_marker spent fuel' fd deadline received
            | TunBroken _ => throw (str "uTLS adapter readiness read failed")
            end
        end
  end.

(** [wait_utls_tls_ready] src/cdn/src/runtime.cpp:1012-1032 *)
Definition wait_utls_tls_ready (fd timeout_sec : Z) : Nt unit :=
  t ← call clock_ns ;
  s ← gets id ;
  received ← read_marker (throw (str "uTLS adapter TLS handshake timeout")) (S (calm (net s))) fd (t + (Z.max 1 timeout_sec * 2 + 2) * 10 ^ 9) [] ;
  check (negb (bool_decide (received = utls_marker))) (str "uTLS adapter protocol version mismatch").

(** ** A WebSocket connection *)

(** What the session of a handshake will observe (Handshake.v). *)
Record Observed := mkObserved {
  o_entropy : rng; o_clock : list bool; o_reads : list (res (list bytes)); o_flushes : list (res bool);
  o_times : list Z; o_io : list TextIo }.
End Dial.

(** The observations of the session on a descriptor and a TLS object; [g_phase]. *)
Class UpgradeOs {C : Crypto} (K : LoopOs) := {
  observe : Z → option Z → lworld → Observed * lworld;
  phase_is : Z → lworld → lworld;
}.

Section DialWebSocket.
Context {H : HttpLib} {C : Crypto} {K : LoopOs} {N : NetOs K} {NP : NetPatience K} {U : UpgradeOs K} (cfg : Config).

Abbreviation Nt := (M Net).

(** The members of [AdmittedConnection] that [dial_websocket] fills. *)
Record Dialled := mkDialled { d_fd : Z; d_ssl : option Z; d_handshake : WsHandshakeResult }.

Definition show_phase (background : bool) (n : Z) : Nt unit :=
  if background then mret tt else call (λ w, (tt, phase_is n w)).

(** The descriptor of the connection: the adapter's, or a TCP connection.
    [dial_websocket] src/cdn/src/runtime.cpp:1037-1043 *)
Definition dial_descriptor (background : bool) : Nt Z :=
  show_phase background 3 ;;
  if text_is (tls_backend cfg) "utls" then
    show_phase background 4 ;;
    fd ← connect_utls_adapter (tls_adapter_socket cfg) (connect_timeout_sec cfg) ;
    on_exception (wait_utls_tls_ready fd (connect_timeout_sec cfg)) (close_ssl None (Some fd)) ;;
    mret fd
  else connect_tcp cfg (server cfg).

(** The TLS set-up on a new TLS object.
    [dial_websocket] src/cdn/src/runtime.cpp:1048-1052 *)
Definition dial_tls (ssl fd : Z) : Nt unit :=
  ok ← call (tls_set_fd ssl fd) ;
  named ← (if (ok : bool) then call (tls_set_name ssl (server_name cfg)) else mret false) ;
  check (negb named) (str "TLS setup failed") ;;
  (if verify_peer cfg then
     ok ← call (tls_set_host ssl (server_name cfg)) ; check (negb ok) (str "TLS hostname setup failed")
   else mret tt) ;;
  ssl_handshake ssl fd false (connect_timeout_sec cfg) ;;
  alpn ← call (tls_alpn ssl) ;
  check (negb (length alpn =? 0)%nat && negb (text_is alpn "http/1.1")) (str "CDN TLS ALPN did not negotiate http/1.1").

(** The TLS object of a connection that needs one.
    [dial_websocket] src/cdn/src/runtime.cpp:1044-1053 *)
Definition dial_object (background : bool) (fd : Z) : Nt (option Z) :=
  if websocket_tls cfg && text_is (tls_backend cfg) "openssl" then
    show_phase background 4 ;;
    made ← call tls_new ;
    match made with
    | None => throw (str "SSL_new failed")
    | Some x => obtained_tls x ;; on_exception (dial_tls x fd) (close_ssl (Some x) None) ;; mret (Some x)
    end
  else mret None.

(** The upgrade and the checks on its result.
    [dial_websocket] src/cdn/src/runtime.cpp:1054-1058 *)
Definition dial_upgrade (background : bool) (limit fd : Z) (ssl : option Z) : Nt WsHandshakeResult :=
  show_phase background 5 ;;
  contents ← call (file_contents (psk_file cfg)) ;
  psk ← lift_net (read_psk (psk_file cfg) contents) ;
  o ← call (observe fd ssl) ;
  let party := mkParty true (browser_profile cfg) false false [] [] (o_entropy o) (o_clock o) (o_reads o) (o_flushes o)
                 (o_times o) (o_io o) [] [] [] in
  hs ← lift_net (websocket_client_upgrade (if is_empty (host_header cfg) then server_name cfg else host_header cfg)
                   (path cfg) psk limit background (max_connections cfg) party).1 ;
  check (negb (websocket_control_padding_bytes cfg =? 0) && negb (peer_envelope hs))
    (str "peer lacks envelope-v2; upgrade both peers or disable control padding") ;;
  check (negb (websocket_padding_max_bytes cfg =? 0) && negb (peer_padding hs)) (str "peer lacks padding-v1") ;;
  check (background && negb (confirmed hs)) (str "replacement peer lacks key confirmation; upgrade foreign peer first") ;;
  mret hs.

(** The destructor of [AdmittedConnection] closes what was opened when an
    exception leaves the function.
    [dial_websocket] src/cdn/src/runtime.cpp:1033-1060 *)
Definition dial_websocket (background : bool) (limit : Z) : Nt Dialled :=
  fd ← dial_descriptor background ;
  ssl ← on_exception (dial_object background fd) (close_ssl None (Some fd)) ;
  hs ← on_exception (dial_upgrade background limit fd ssl) (close_ssl ssl (Some fd)) ;
  mret (mkDialled fd ssl hs).
End DialWebSocket.
