(* ===== verification/DialProps.v ===== *)
(** * Properties of connecting

    Whatever goes wrong on the way, what was opened is closed again, and what a
    connection that succeeds holds is what its caller gets; the waits end; an
    endpoint that passed the checks of the configuration is split as it was
    checked; and no more addresses are tried than the code means to. *)

From S2P Require Import Prelude.
From S2P Require Import Text Crypto HttpUpgrade Keys Config Traffic Tun LoopOs Outbox Handshake NetOs Dial.

(** ** Resources *)

Section Resources.
Context {H : HttpLib} {C : Crypto} {K : LoopOs} {N : NetOs K} {NP : NetPatience K} {U : UpgradeOs K} (cfg : Config).

(** The descriptors and TLS objects that are open. *)
Definition holds (s : Net) : list Z * list Z := (opened s, tls_opened s).

(** [m] leaves the resources as they are, whether it returns or throws. *)
Abbreviation neutral m := (∀ r, keeps (λ s, holds s = r) m).

(** [m] returns with one more descriptor, or throws with none. *)
Definition opens (m : M Net Z) : Prop := ∀ s,
  ends (λ fd s', holds s' = (fd :: opened s, tls_opened s)) (λ s', holds s' = holds s) (m s).

Create HintDb neutral.
Hint Resolve keeps_throw : neutral.

Lemma neutral_call {A} (f : lworld → A * lworld) : neutral (call f).
Proof using Type. intros r s Hs. unfold call. by destruct (f _). Qed.
Lemma neutral_lift {A} (r : res A) : neutral (lift_net r).
Proof using Type. intros q s Hs. by destruct r. Qed.
Lemma neutral_tried a : neutral (modify (with_tried a)).
Proof using Type. intros r. by apply keeps_modify. Qed.
Lemma neutral_dial n : neutral (modify (with_dial n)).
Proof using Type. intros r. by apply keeps_modify. Qed.

Ltac neutral_walk :=
  repeat first
    [ solve [auto with nocore neutral] | progress keep | apply neutral_call | apply neutral_lift | apply neutral_tried | apply neutral_dial | assumption
    | match goal with |- keeps _ (match ?x with _ => _ end) => destruct x end ].

Lemma neutral_at {A} (m : M Net A) s : neutral m → ends (λ _ s', holds s' = holds s) (λ s', holds s' = holds s) (m s).
Proof using Type. intros Hm. specialize (Hm _ s eq_refl). by destruct (m s) as [[] s']. Qed.

(** [m] returns, and leaves the resources as they are. *)
Definition quiet {A} (m : M Net A) : Prop := ∀ s, ends (λ _ s', holds s' = holds s) (λ _, False) (m s).

Lemma quiet_call {A} (f : lworld → A * lworld) : quiet (call f).
Proof using Type. intros s. unfold call. by destruct (f _). Qed.
Lemma quiet_ret {A} (a : A) : quiet (mret a).
Proof using Type. by intros s. Qed.
Lemma quiet_gets {A} (f : Net → A) : quiet (gets f).
Proof using Type. by intros s. Qed.
Lemma quiet_tried a : quiet (modify (with_tried a)).
Proof using Type. by intros s. Qed.
Lemma quiet_dial n : quiet (modify (with_dial n)).
Proof using Type. by intros s. Qed.
Lemma quiet_both {A B} (m : M Net A) (f : A → M Net B) : quiet m → (∀ a, quiet (f a)) → quiet (m ≫= f).
Proof using Type.
  intros Hm Hf s. eapply ends_bind; [apply Hm|]. intros a s' Hs'. eapply ends_weaken; [apply Hf| |done].
  intros b s2 Hs2. congruence.
Qed.

Ltac quietly :=
  repeat first
    [ apply quiet_call | apply quiet_ret | apply quiet_gets | apply quiet_tried | apply quiet_dial | assumption
    | apply quiet_both; [|intros ?] | match goal with |- quiet (match ?x with _ => _ end) => destruct x end ].

Lemma close_top fd s o t : holds s = (fd :: o, t) → holds (close_fd fd s).2 = (o, t).
Proof using Type. intros [= Ho Ht]. unfold holds. simpl. rewrite Ho, Ht. simpl. by rewrite Z.eqb_refl. Qed.

Lemma free_top ssl s o t : holds s = (o, ssl :: t) → holds (free_tls ssl s).2 = (o, t).
Proof using Type. intros [= Ho Ht]. unfold holds. simpl. rewrite Ho, Ht. simpl. by rewrite Z.eqb_refl. Qed.

(** Steps that begin an operation: one that is neutral, one that opens a descriptor or
    makes a TLS object, one that closes or frees the last one. [s] holds [h]. *)
Section Steps.
Context {A B : Type} (Q : B → Net → Prop) (E : Net → Prop) (s : Net).

Lemma neutral_then h (m : M Net A) (f : A → M Net B) :
  holds s = h → neutral m → (∀ s', holds s' = h → E s') → (∀ a s', holds s' = h → ends Q E (f a s')) → ends Q E ((m ≫= f) s).
Proof using Type.
  intros <- Hm HE Hf. eapply ends_bind; [|apply Hf].
  eapply ends_weaken; [by apply neutral_at|done|exact HE].
Qed.

(** A step that neither throws nor opens or closes anything. *)
Lemma quiet_step h (m : M Net A) (f : A → M Net B) :
  holds s = h → quiet m → (∀ a s', holds s' = h → ends Q E (f a s')) → ends Q E ((m ≫= f) s).
Proof using Type.
  intros <- Hm Hf. eapply ends_bind; [eapply ends_weaken; [apply Hm|done|done]|]. intros a s' Hs'. by apply Hf.
Qed.

Lemma obtained_then fd (m : M Net B) o t :
  holds s = (o, t) → (∀ s', holds s' = (fd :: o, t) → ends Q E (m s')) → ends Q E ((obtained fd ;; m) s).
Proof using Type. intros [= Ho Ht] Hm. apply Hm. unfold holds. simpl. by rewrite Ho, Ht. Qed.

Lemma made_then x (m : M Net B) o t :
  holds s = (o, t) → (∀ s', holds s' = (o, x :: t) → ends Q E (m s')) → ends Q E ((obtained_tls x ;; m) s).
Proof using Type. intros [= Ho Ht] Hm. apply Hm. unfold holds. simpl. by rewrite Ho, Ht. Qed.

Lemma close_then fd (m : M Net B) o t :
  holds s = (fd :: o, t) → (∀ s', holds s' = (o, t) → ends Q E (m s')) → ends Q E ((close_fd fd ;; m) s).
Proof using Type. intros Hs%close_top Hm. by apply Hm. Qed.
End Steps.

Lemma quiet_await spent fuel fd deadline last : quiet spent → quiet (await_connect spent fuel fd deadline last).
Proof using Type. intros Hspent. revert last. induction fuel as [|fuel IH]; intros last; cbn [await_connect]; quietly; apply IH. Qed.

Ltac after := eapply quiet_step; [eassumption|quietly; apply quiet_await; quietly|intros ? ? ?].
Ltac closing := eapply close_then; [eassumption|intros ? ?; done].

(** The answer of an address: a descriptor, or nothing that is open. *)
Definition answers (h : list Z * list Z) (r : Z + Z) (s' : Net) : Prop :=
  holds s' = match r with inl fd => (fd :: h.1, h.2) | inr _ => h end.

Lemma try_address_holds address overall remaining left s h :
  holds s = h → ends (answers h) (λ s', holds s' = h) (try_address address overall remaining left s).
Proof using Type.
  intros Hs. destruct h as [o t]. unfold try_address, answers. after. after. after.
  destruct a1 as [fd|e]; [|done]. eapply obtained_then; [eassumption|]. intros s3 Hs3. after.
  destruct a1; [closing|]. after. destruct a1; [done| |closing]. after. after.
  destruct a2.1; [done|closing].
Qed.

Lemma try_addresses_holds turns candidates dial attempts overall last s h :
  holds s = h → ends (answers h) (λ s', holds s' = h) (try_addresses cfg turns candidates dial attempts overall last s).
Proof using Type.
  revert last s. induction turns as [|i turns IH]; intros last s Hs; cbn [try_addresses]; [done|].
  after. destruct a; [done|]. eapply neutral_then; [eassumption|intros ?; apply neutral_lift|tauto|intros idx s1 Hs1].
  after. destruct (_ <=? 0); [done|]. destruct (candidates !! _) as [address|]; [|done].
  eapply ends_bind; [by apply try_address_holds|]. intros [fd|e] s3 Hs3; [done|]. by apply IH.
Qed.

Lemma connect_tcp_opens hp : opens (connect_tcp cfg hp).
Proof using Type.
  intros s. remember (holds s) as h eqn:Hs. symmetry in Hs. destruct h as [o t].
  assert (Ho : opened s = o ∧ tls_opened s = t) by (unfold holds in Hs; by injection Hs). destruct Ho as [-> ->].
  unfold connect_tcp, next_dial_number.
  eapply neutral_then; [eassumption|intros ?; apply neutral_lift|tauto|intros [host port] s1 Hs1].
  after. eapply neutral_then; [eassumption|intros ?; destruct a; neutral_walk|tauto|intros addresses s3 Hs3].
  eapply neutral_then; [eassumption|intros ?; neutral_walk|tauto|intros ? s4 Hs4].
  after. after. eapply ends_bind; [by apply try_addresses_holds|]. intros [fd|last] s7 Hs7; [done|].
  after. eapply neutral_then; [eassumption|intros ?; neutral_walk|tauto|done].
Qed.
Lemma listen_on_holds addresses backlog last s h :
  holds s = h → ends (answers h) (λ s', holds s' = h) (listen_on addresses backlog last s).
Proof using Type.
  destruct h as [o t]. revert last s. induction addresses as [|a addresses IH]; intros last s Hs; cbn [listen_on]; [done|].
  eapply quiet_step; [eassumption|quietly|]. intros [fd|e] s1 Hs1; [|by apply IH].
  eapply obtained_then; [eassumption|]. intros s2 Hs2. eapply quiet_step; [eassumption|quietly|].
  intros [e|] s3 Hs3; [|done]. eapply close_then; [eassumption|]. intros s4 Hs4. by apply IH.
Qed.

Lemma listen_tcp_opens hp backlog : opens (listen_tcp hp backlog).
Proof using Type.
  intros s. remember (holds s) as h eqn:Hs. symmetry in Hs. destruct h as [o t].
  assert (Ho : opened s = o ∧ tls_opened s = t) by (unfold holds in Hs; by injection Hs). destruct Ho as [-> ->].
  unfold listen_tcp.
  eapply neutral_then; [eassumption|intros ?; apply neutral_lift|tauto|intros [host port] s1 Hs1].
  after. eapply neutral_then; [eassumption|intros ?; destruct a; neutral_walk|tauto|intros addresses s3 Hs3].
  eapply ends_bind; [by apply listen_on_holds|]. by intros [fd|last] s7 Hs7.
Qed.

Lemma adapter_opens path seconds : opens (connect_utls_adapter path seconds).
Proof using Type.
  intros s. remember (holds s) as h eqn:Hs. symmetry in Hs. destruct h as [o t].
  assert (Ho : opened s = o ∧ tls_opened s = t) by (unfold holds in Hs; by injection Hs). destruct Ho as [-> ->].
  unfold connect_utls_adapter. after. destruct a as [fd|]; [|done]. eapply obtained_then; [eassumption|]. intros s1 Hs1.
  destruct (_ <=? _); [closing|]. after. after. destruct a0; [done|closing].
Qed.

Lemma neutral_wait spent fuel fd events ms : neutral spent → neutral (wait_tls_loop spent fuel fd events ms).
Proof using Type.
  intros Hspent r. revert ms. induction fuel as [|fuel IH]; intros ms; cbn [wait_tls_loop]; neutral_walk; apply IH.
Qed.
Hint Resolve neutral_wait : neutral.

Lemma neutral_steps spent fuel srv ssl fd deadline : neutral spent → neutral (handshake_loop spent fuel srv ssl fd deadline).
Proof using Type.
  intros Hspent r. induction fuel as [|fuel IH]; cbn [handshake_loop]; unfold wait_for_ssl_io; neutral_walk.
Qed.
Hint Resolve neutral_steps : neutral.

Lemma neutral_handshake ssl fd srv seconds : neutral (ssl_handshake ssl fd srv seconds).
Proof using Type. intros r. unfold ssl_handshake, set_nonblock. neutral_walk. Qed.

Lemma neutral_read_marker spent fuel fd deadline b : neutral spent → neutral (read_marker spent fuel fd deadline b).
Proof using Type. intros Hspent r. revert b. induction fuel as [|fuel IH]; intros b; cbn [read_marker]; neutral_walk. Qed.
Hint Resolve neutral_handshake neutral_read_marker : neutral.

Lemma neutral_ready fd seconds : neutral (wait_utls_tls_ready fd seconds).
Proof using Type. intros r. unfold wait_utls_tls_ready. neutral_walk. Qed.

Lemma neutral_phase background n : neutral (show_phase background n).
Proof using Type. intros r. unfold show_phase. neutral_walk. Qed.
Hint Resolve neutral_ready neutral_phase : neutral.

Lemma neutral_dial_tls ssl fd : neutral (dial_tls cfg ssl fd).
Proof using Type. intros r. unfold dial_tls. neutral_walk. Qed.

Lemma neutral_dial_upgrade background limit fd ssl : neutral (dial_upgrade cfg background limit fd ssl).
Proof using Type. intros r. unfold dial_upgrade. neutral_walk. Qed.
Hint Resolve neutral_dial_tls neutral_dial_upgrade : neutral.

(** A step whose exceptions run a destructor. *)
Lemma cleanup_then {A B} (Q : B → Net → Prop) (E : Net → Prop) r s (m : M Net A) (h : M Net unit) (f : A → M Net B) :
  holds s = r → neutral m → (∀ s', holds s' = r → E (h s').2) → (∀ a s', holds s' = r → ends Q E (f a s')) →
  ends Q E ((on_exception m h ≫= f) s).
Proof using Type.
  intros Hs Hm Hh Hf. specialize (Hm r s Hs). apply (ends_bind (λ _ s', holds s' = r)); [|exact Hf].
  unfold on_exception. destruct (m s) as [[a|e] s']; cbn; [exact Hm|by apply Hh].
Qed.

Lemma close_one fd o t s : holds s = (fd :: o, t) → holds (close_ssl None (Some fd) s).2 = (o, t).
Proof using Type. apply close_top. Qed.

Lemma close_both ssl fd o t s :
  holds s = (fd :: o, option_list ssl ++ t) → holds (close_ssl ssl (Some fd) s).2 = (o, t).
Proof using Type.
  destruct ssl as [x|]; [|apply close_top]. intros Hs. unfold close_ssl.
  assert (Hf := free_top x s (fd :: o) t Hs). unfold free_tls in *.
  exact (close_top fd (free_tls x s).2 o t Hf).
Qed.

(** An operation that opens one descriptor begins another. *)
Lemma opens_then {B} (Q : B → Net → Prop) (E : Net → Prop) s o t (m : M Net Z) (f : Z → M Net B) :
  holds s = (o, t) → opens m → (∀ s', holds s' = (o, t) → E s') →
  (∀ fd s', holds s' = (fd :: o, t) → ends Q E (f fd s')) → ends Q E ((m ≫= f) s).
Proof using Type.
  intros [= <- <-] Hm HE Hf. eapply ends_bind; [|apply Hf]. eapply ends_weaken; [apply Hm|done|exact HE].
Qed.

Lemma dial_descriptor_opens background : opens (dial_descriptor cfg background).
Proof using Type.
  intros s. remember (opened s) as o eqn:Ho. remember (tls_opened s) as t eqn:Ht.
  assert (Hs : holds s = (o, t)) by (unfold holds; congruence). rewrite Hs. clear Ho Ht. unfold dial_descriptor.
  eapply neutral_then; [eassumption|intros ?; apply neutral_phase|tauto|intros ? s1 Hs1].
  destruct (text_is _ _).
  - eapply neutral_then; [eassumption|intros ?; apply neutral_phase|tauto|intros ? s2 Hs2].
    eapply opens_then; [eassumption|apply adapter_opens|tauto|]. intros fd s3 Hs3.
    eapply cleanup_then; [exact Hs3|intros ?; apply neutral_ready|intros s4; apply close_one|done].
  - pose proof (connect_tcp_opens (server cfg) s1) as Hc. injection Hs1 as Ho Ht.
    by rewrite <- Ho, <- Ht; unfold holds at 3 in Hc; exact Hc.
Qed.

(** What the connection holds: its descriptor, and its TLS object if it has one. *)
Lemma dial_object_made background fd o t s :
  holds s = (fd :: o, t) →
  ends (λ ssl s', holds s' = (fd :: o, option_list ssl ++ t)) (λ s', holds s' = (o, t))
    (on_exception (dial_object cfg background fd) (close_ssl None (Some fd)) s).
Proof using Type.
  intros Hs. unfold on_exception.
  assert (Hm : ends (λ ssl s', holds s' = (fd :: o, option_list ssl ++ t)) (λ s', holds s' = (fd :: o, t))
                 (dial_object cfg background fd s)).
  { unfold dial_object. destruct (_ && _); [|done].
    eapply neutral_then; [eassumption|intros ?; apply neutral_phase|tauto|intros ? s1 Hs1].
    after. destruct a0 as [x|]; [|done]. eapply made_then; [eassumption|]. intros s2 Hs2.
    eapply cleanup_then; [exact Hs2|intros ?; apply neutral_dial_tls|intros s3; apply free_top|done]. }
  destruct (dial_object _ _ _ _) as [[a|e] s']; [done|]. by apply (close_one fd o t).
Qed.

(** What the operations that open, close, make and free return with. *)
Lemma close_returns fd o t n : holds n = (fd :: o, t) → ends (λ _ n', holds n' = (o, t)) (λ _, False) (close_fd fd n).
Proof using Type. intros H'. exact (close_top fd n o t H'). Qed.
Lemma free_returns ssl o t n : holds n = (o, ssl :: t) → ends (λ _ n', holds n' = (o, t)) (λ _, False) (free_tls ssl n).
Proof using Type. intros H'. exact (free_top ssl n o t H'). Qed.
Lemma close_ssl_returns ssl fd o t n :
  holds n = (option_list fd ++ o, option_list ssl ++ t) → ends (λ _ n', holds n' = (o, t)) (λ _, False) (close_ssl ssl fd n).
Proof using Type.
  destruct fd as [fd|]; [intros H'; pose proof (close_both ssl fd o t n H') as Hc|].
  - by destruct ssl.
  - destruct ssl as [ssl|]; [|done]. intros H'. exact (free_top ssl n o t H').
Qed.
Lemma obtained_returns fd o t n : holds n = (o, t) → ends (λ _ n', holds n' = (fd :: o, t)) (λ _, False) (obtained fd n).
Proof using Type. unfold holds. cbn. by intros [= -> ->]. Qed.
Lemma made_returns ssl o t n : holds n = (o, t) → ends (λ _ n', holds n' = (o, ssl :: t)) (λ _, False) (obtained_tls ssl n).
Proof using Type. unfold holds. cbn. by intros [= -> ->]. Qed.
Lemma call_quiet {A} (c : lworld → A * lworld) r n : holds n = r → ends (λ _ n', holds n' = r) (λ _, False) (call c n).
Proof using Type. intros <-. apply quiet_call. Qed.

(** ** Operations of a process that has the network as a part

    [I h] says that the process holds [h], and what else there is to say. *)
Section Zoom.
Context {S : Type} (get : S → Net) (put : Net → S → S) (I : list Z * list Z → S → Prop).
Hypothesis I_get : ∀ h s, I h s → holds (get s) = h.
Hypothesis I_put : ∀ h h' s n, I h s → holds n = h' → I h' (put n s).

Lemma zoom_ends {A} h h' (m : M Net A) s :
  I h s → (∀ n, holds n = h → ends (λ _ n', holds n' = h') (λ _, False) (m n)) →
  ends (λ _, I h') (λ _, False) (zoom get put m s).
Proof using I_get I_put.
  intros Hs Hm. unfold zoom. specialize (Hm (get s) (I_get _ _ Hs)). destruct (m (get s)) as [[a|e] n]; [|done].
  by apply (I_put h).
Qed.

Lemma zoom_then {A B} (Q : B → S → Prop) (E : S → Prop) h h' (m : M Net A) (f : A → M S B) s :
  I h s → (∀ n, holds n = h → ends (λ _ n', holds n' = h') (λ _, False) (m n)) →
  (∀ a s', I h' s' → ends Q E (f a s')) → ends Q E ((zoom get put m ≫= f) s).
Proof using I_get I_put.
  intros Hs Hm Hf. apply (ends_bind (λ _, I h')); [|exact Hf].
  eapply ends_weaken; [by eapply zoom_ends|done|done].
Qed.
End Zoom.

(** C27: [dial_websocket] returns with the descriptor and the TLS object of the connection it made as the only
    new ones, or throws with all it opened on the way closed and freed. *)
Theorem dial_releases_everything background limit s :
  ends (λ c s', opened s' = d_fd c :: opened s ∧ tls_opened s' = option_list (d_ssl c) ++ tls_opened s)
       (λ s', opened s' = opened s ∧ tls_opened s' = tls_opened s) (dial_websocket cfg background limit s).
Proof using Type.
  eapply (ends_weaken (λ c s', holds s' = (d_fd c :: opened s, option_list (d_ssl c) ++ tls_opened s)) _
            (λ s', holds s' = (opened s, tls_opened s))); [|by intros c s' [= -> ->]|by intros s' [= -> ->]].
  unfold dial_websocket. eapply opens_then; [done|apply dial_descriptor_opens|done|]. intros fd s1 Hs1.
  eapply ends_bind; [by apply dial_object_made|]. intros ssl s2 Hs2.
  eapply cleanup_then; [exact Hs2|intros ?; apply neutral_dial_upgrade|intros s3; apply close_both|done].
Qed.
End Resources.

(** ** The waits end *)

Section Waits.
Context {K : LoopOs} {N : NetOs K} {NP : NetPatience K}.

(** Two loops that begin with the same call, when the world has at most [b] turns: a
    call that uses none of them, and one that uses one unless its answer is good. *)
Lemma same_step {A B} (c : lworld → A * lworld) (f g : A → M Net B) (b : nat) s :
  (∀ w, (calm (c w).2 <= calm w)%nat) → (calm (net s) <= b)%nat →
  (∀ a s', (calm (net s') <= b)%nat → f a s' = g a s') → (call c ≫= f) s = (call c ≫= g) s.
Proof using Type.
  intros Hc Hb Hf. apply bind_same. unfold call. intros a s'. specialize (Hc (net s)). destruct (c (net s)) as [x w].
  intros [= -> <-]. apply Hf. cbn in *. lia.
Qed.

Lemma same_turn {A B} (good : A → Prop) (c : lworld → A * lworld) (f g : A → M Net B) (b : nat) s :
  (∀ w, (calm (c w).2 <= calm w)%nat ∧ (¬ good (c w).1 → (calm (c w).2 < calm w)%nat)) → (calm (net s) <= b)%nat →
  (∀ a s', (calm (net s') <= b)%nat → (¬ good a → (calm (net s') < b)%nat) → f a s' = g a s') →
  (call c ≫= f) s = (call c ≫= g) s.
Proof using Type.
  intros Hc Hb Hf. apply bind_same. unfold call. intros a s'. destruct (Hc (net s)) as [Hle Hlt].
  destruct (c (net s)) as [x w]. intros [= -> <-]. apply Hf; cbn in *; [lia|]. intros Ha. specialize (Hlt Ha). lia.
Qed.

(** Two runs of a loop, each with more fuel than the world has turns, agree, whatever
    they would do without fuel. *)
Definition settled {A} (m : M Net A → nat → M Net A) : Prop :=
  ∀ p q b n n' s, (calm (net s) <= b)%nat → (b < n)%nat → (b < n')%nat → m p n s = m q n' s.

Ltac same :=
  first [ eapply (same_step _ _ _ _ _ calm_clock); [eassumption|intros ? ? ?]
        | eapply (same_step _ _ _ _ _ calm_stop); [eassumption|intros ? ? ?]
        | eapply (same_turn (λ r, r = PollReady false true false) _ _ _ _ _ (calm_poll _ _ _)); [eassumption|intros ? ? ? ?]
        | eapply (same_turn (λ r, r = TlsEstablished) _ _ _ _ _ (calm_step _ _)); [eassumption|intros ? ? ? ?] ].

Lemma await_settled fd deadline last : settled (λ p n, await_connect p n fd deadline last).
Proof using Type.
  intros p q b n. revert b. induction n as [|n IH]; intros b [|n'] s Hb Hn Hn'; [lia..|]. cbn [await_connect].
  same. destruct a; [done|]. same. destruct (negb _); [done|]. same. same. destruct a1; try done.
  all: assert (Hlt : (calm (net s'2) < b)%nat) by auto; apply (IH (pred b)); lia.
Qed.

Lemma wait_settled fd events ms : settled (λ p n, wait_tls_loop p n fd events ms).
Proof using Type.
  intros p q b n. revert b ms. induction n as [|n IH]; intros b ms [|n'] s Hb Hn Hn'; [lia..|]. cbn [wait_tls_loop].
  same. destruct a; [done|]. same.
  assert (Hlater : (calm (net s'0) < b)%nat → ∀ ms, wait_tls_loop p n fd events ms s'0 = wait_tls_loop q n' fd events ms s'0)
    by (intros Hlt ms'; apply (IH (pred b)); lia).
  destruct a as [| | |[] [] bad]; try done; try (destruct (_ <=? 0); [done|]); try (apply Hlater; naive_solver).
  cbn. destruct bad; [done|]. apply Hlater. naive_solver.
Qed.

(** A wait leaves the world at most the turns it had. *)
Lemma calm_kept {A} (c : lworld → A * lworld) (b : nat) :
  (∀ w, (calm (c w).2 <= calm w)%nat) → keeps (λ s, (calm (net s) <= b)%nat) (call c).
Proof using Type. intros Hc s Hs. unfold call. specialize (Hc (net s)). destruct (c (net s)). cbn in *. lia. Qed.

Lemma calm_waiting (b : nat) e fuel fd events ms : keeps (λ s, (calm (net s) <= b)%nat) (wait_tls_loop (throw e) fuel fd events ms).
Proof using Type.
  revert ms. induction fuel as [|fuel IH]; intros ms; cbn [wait_tls_loop]; [keep|].
  apply keeps_bind; [apply calm_kept, calm_stop|]. intros []; [keep|].
  apply keeps_bind; [apply calm_kept; intros w; apply calm_poll|]. intros [| | |[] [] []]; keep; apply IH.
Qed.

Lemma handshake_settled srv ssl fd deadline : settled (λ p n, handshake_loop p n srv ssl fd deadline).
Proof using Type.
  intros p q b n. revert b. induction n as [|n IH]; intros b [|n'] s Hb Hn Hn'; [lia..|]. cbn [handshake_loop].
  same. destruct a; [done|]. same. destruct a; [done| | |done].
  all: assert (Hlt : (calm (net s'0) <= pred b)%nat ∧ (pred b < b)%nat) by (assert (calm (net s'0) < b)%nat by auto; lia).
  all: destruct Hlt as [Hlt Hb'].
  all: same; unfold check; destruct (_ <=? 0); [done|]; apply bind_same; intros [] s2 Hs2; injection Hs2 as <-.
  all: apply bind_same; intros [] s3 Hs3; apply (IH (pred b)); [|lia..].
  all: match type of Hs3 with ?m _ = _ => change s3 with (Ok tt, s3).2; rewrite <- Hs3 end.
  all: apply (keeps_at (λ s, (calm (net s) <= pred b)%nat)); [|assumption].
  all: apply keeps_bind; [apply keeps_gets|intros s4; apply calm_waiting].
Qed.

Lemma marker_settled fd deadline received : settled (λ p n, read_marker p n fd deadline received).
Proof using Type.
  intros p q b n. revert b received. induction n as [|n IH]; intros b received [|n'] s Hb Hn Hn'; [lia..|]. cbn [read_marker].
  destruct (_ <=? _); [done|]. same. unfold check. destruct (_ <=? 0); [done|].
  apply bind_same; intros [] s2 Hs2; injection Hs2 as <-. same.
  assert (Hlater : (calm (net s'0) < b)%nat → ∀ b, read_marker p n fd deadline b s'0 = read_marker q n' fd deadline b s'0)
    by (intros Hlt l; apply (IH (pred b)); lia).
  destruct a0 as [| | |invalid wanted bad]; [apply Hlater; auto..|done|].
  apply bind_same. unfold call. intros r s3. destruct (calm_receive fd (length utls_marker - length received) (net s'0)) as [Hle Hlt].
  destruct (receive _ _ _) as [x w]. intros [= -> <-]. cbn in *.
  destruct r; try done; apply (IH (pred b)); cbn; assert (calm w < calm (net s'0))%nat by (by apply Hlt); lia.
Qed.

(** Every wait on the way to a connection ends: as soon as it may go round once
    more than the world has turns left, it ends, and the same way however often it may go round; what it
    would do without a turn is never done. *)
Theorem dial_waits_end s (fd deadline last ssl ms : Z) events srv received n :
  (calm (net s) < n)%nat →
  (∀ p q, await_connect p n fd deadline last s = await_connect q (S (calm (net s))) fd deadline last s)
  ∧ (∀ p q, wait_tls_loop p n fd events ms s = wait_tls_loop q (S (calm (net s))) fd events ms s)
  ∧ (∀ p q, handshake_loop p n srv ssl fd deadline s = handshake_loop q (S (calm (net s))) srv ssl fd deadline s)
  ∧ (∀ p q, read_marker p n fd deadline received s = read_marker q (S (calm (net s))) fd deadline received s).
Proof using Type.
  intros Hn. repeat split; intros p q.
  - apply (await_settled fd deadline last p q (calm (net s))); lia.
  - apply (wait_settled fd events ms p q (calm (net s))); lia.
  - apply (handshake_settled srv ssl fd deadline p q (calm (net s))); lia.
  - apply (marker_settled fd deadline received p q (calm (net s))); lia.
Qed.
End Waits.

(** ** Addresses *)

Section Addresses.
Context {K : LoopOs} {N : NetOs K} {NP : NetPatience K} (cfg : Config).

(** [l] from its [r]-th element on, then what is before it. *)
Definition rotated {A} (r : nat) (l : list A) : list A := drop r l ++ take r l.

Lemma rotated_lookup {A} (r i : nat) (l : list A) :
  (r < length l)%nat → (i < length l)%nat → rotated r l !! i = l !! ((r + i) mod length l)%nat.
Proof using Type.
  intros Hr Hi. unfold rotated. destruct (Nat.lt_ge_cases (r + i) (length l)) as [Hlt|Hge].
  - rewrite lookup_app_l by (rewrite length_drop; lia). rewrite lookup_drop. by rewrite Nat.mod_small.
  - rewrite lookup_app_r by (rewrite length_drop; lia). rewrite length_drop, lookup_take_lt by lia.
    f_equal. replace (r + i)%nat with ((r + i - length l) + 1 * length l)%nat by lia.
    rewrite Nat.Div0.mod_add, Nat.mod_small; lia.
Qed.

Abbreviation tries l m := (keeps (λ s, tried s = l) m).

Lemma tries_call {A} l (c : lworld → A * lworld) : tries l (call c).
Proof using Type. intros s Hs. unfold call. by destruct (c _). Qed.
Lemma tries_lift {A} l (r : res A) : tries l (lift_net r).
Proof using Type. intros s Hs. by destruct r. Qed.
Lemma tries_resources l f : tries l (modify (λ s, with_resources (f s).1 (f s).2 s)).
Proof using Type. by apply keeps_modify. Qed.
Lemma tries_close l fd : tries l (close_fd fd).
Proof using Type. apply keeps_bind; [apply tries_call|]. intros ?. by apply keeps_modify. Qed.
Lemma tries_obtained l fd : tries l (obtained fd).
Proof using Type. by apply keeps_modify. Qed.
Create HintDb tries.
Hint Resolve keeps_ret @tries_call @tries_lift @tries_close @tries_obtained : tries.

Ltac tries_walk :=
  repeat first [ solve [auto with nocore tries] | solve [by apply keeps_modify] | progress keep
               | match goal with |- keeps _ (match ?x with _ => _ end) => destruct x end ].

Lemma tries_await l spent fuel fd deadline last : tries l spent → tries l (await_connect spent fuel fd deadline last).
Proof using Type.
  intros Hp. revert last. induction fuel as [|fuel IH]; intros last; cbn [await_connect]; tries_walk.
Qed.
Hint Resolve @tries_await : tries.

(** A call before an operation, for a property of what was tried at its end. *)
Lemma tried_call {A B} (P : list Address → Prop) (c : lworld → A * lworld) (f : A → M Net B) s :
  (∀ a s', tried s' = tried s → a = (c (net s)).1 → P (tried (f a s').2)) → P (tried ((call c ≫= f) s).2).
Proof using Type. intros Hf. unfold mbind, M_bind, call. destruct (c (net s)) as [a w] eqn:Hc. by apply Hf. Qed.

Lemma try_address_tried address overall remaining left s :
  tried (try_address address overall remaining left s).2 = tried s ++ [address].
Proof using Type.
  unfold try_address. apply (tried_call (λ l, l = tried s ++ [address])). intros t s1 Hs1 _. rewrite <- Hs1.
  refine (keeps_at (λ s', tried s' = tried s1 ++ [address]) _ (with_tried address s1) _ eq_refl). tries_walk.
Qed.

(** The index of a turn, and the address it stands for. *)
Definition first_of_round (dial : Z) (candidates : list Address) : nat :=
  if edge_dns_rotation cfg then Z.to_nat (dial mod zlen candidates) else O.

Lemma turn_address (candidates : list Address) dial i :
  (i < length candidates)%nat → 0 <= dial →
  ∃ idx, edge_address_index (zlen candidates) dial (Z.of_nat i) (edge_dns_rotation cfg) = Ok idx
    ∧ candidates !! Z.to_nat idx = rotated (first_of_round dial candidates) candidates !! i.
Proof using Type.
  intros Hi Hd. unfold edge_address_index, first_of_round, throw_if, zlen.
  rewrite (proj2 (Z.eqb_neq _ 0)), (proj2 (Z.leb_gt _ _)) by lia. cbn. eexists. split; [reflexivity|].
  destruct (edge_dns_rotation cfg).
  - pose proof (Z.mod_pos_bound dial (Z.of_nat (length candidates)) ltac:(lia)).
    rewrite rotated_lookup by lia. f_equal. rewrite Z2Nat.inj_mod by lia. rewrite Z2Nat.inj_add by lia. by rewrite !Nat2Z.id.
  - rewrite rotated_lookup by lia. f_equal. rewrite Nat2Z.id, Nat.mod_small; lia.
Qed.

(** The addresses tried are a beginning of what is left of the round. *)
Definition begins (s s' : Net) (m : nat) (l : list Address) : Prop := ∃ k, (k <= m)%nat ∧ tried s' = tried s ++ take k l.

Lemma begins_none s s' m l : tried s' = tried s → begins s s' m l.
Proof using Type. intros Hs. exists O. split; [lia|]. by rewrite app_nil_r. Qed.

Lemma begins_call {A B} (c : lworld → A * lworld) (f : A → M Net B) s s0 m l :
  tried s = tried s0 → (∀ a s', tried s' = tried s0 → begins s0 (f a s').2 m l) → begins s0 ((call c ≫= f) s).2 m l.
Proof using Type.
  intros Hs Hf. apply (tried_call (λ x, ∃ k, (k <= m)%nat ∧ x = tried s0 ++ take k l)). intros a s' Hs' _.
  apply Hf. congruence.
Qed.

Lemma begins_returned {A B} (m : M Net A) (f : A → M Net B) a s s1 s0 n l :
  m s = (Ok a, s1) → begins s0 (f a s1).2 n l → begins s0 ((m ≫= f) s).2 n l.
Proof using Type. unfold mbind, M_bind. by intros ->. Qed.

Lemma call_returns {A} (c : lworld → A * lworld) s a : (c (net s)).1 = a → call c s = (Ok a, with_net (c (net s)).2 s).
Proof using Type. unfold call. destruct (c (net s)). by intros <-. Qed.

Lemma begins_then {A B} (m : M Net A) (f : A → M Net B) s s0 n l :
  begins s0 (m s).2 n l → (∀ a q, tries q (f a)) → begins s0 ((m ≫= f) s).2 n l.
Proof using Type.
  intros (k & Hk & Hm) Hf. exists k. split; [done|]. unfold mbind, M_bind.
  destruct (m s) as [[a|e] s']; [|done]. exact (Hf a _ s' Hm).
Qed.

Lemma try_addresses_tried candidates dial attempts overall m i last s :
  (i + m <= length candidates)%nat → 0 <= dial →
  begins s (try_addresses cfg (map Z.of_nat (seq i m)) candidates dial attempts overall last s).2 m
    (drop i (rotated (first_of_round dial candidates) candidates)).
Proof using Type.
  intros Him Hd. revert i last s Him. induction m as [|m IH]; intros i last s Him; cbn [seq map try_addresses].
  { by apply begins_none. }
  apply begins_call; [done|]. intros stop s1 Hs1. destruct stop; [by apply begins_none|].
  destruct (turn_address candidates dial i) as (idx & -> & Hidx); [lia..|].
  unfold lift_net. unfold mbind at 1, M_bind at 1. cbn [mret M_ret].
  apply begins_call; [done|]. intros t s2 Hs2. destruct (_ <=? 0); [by apply begins_none|]. rewrite Hidx.
  assert (Hlen : length (rotated (first_of_round dial candidates) candidates) = length candidates)
    by (unfold rotated; rewrite length_app, length_drop, length_take; lia).
  destruct (lookup_lt_is_Some_2 (rotated (first_of_round dial candidates) candidates) i) as [x Hx]; [lia|]. rewrite Hx.
  rewrite (drop_S _ x i Hx).
  match goal with |- context [try_address ?a ?b ?c ?d] => pose proof (try_address_tried a b c d s2) as Ht;
    unfold mbind, M_bind; destruct (try_address a b c d s2) as [[[fd|e]|e] s3] end; cbn [snd] in *.
  1,3: exists 1%nat; split; [lia|]; cbn; by rewrite Ht, Hs2.
  destruct (IH (S i) e s3) as (k & Hk & Hr); [lia|]. exists (S k). split; [lia|].
  rewrite Hr, Ht, Hs2, <- app_assoc. done.
Qed.

(** Of the first eight IPv4 and IPv6 addresses of a name, a connection tries the
    ones from where the rotation stands, in turn and each at most once; with rotation no more than three. *)
Theorem addresses_tried_in_turn hp host port found s :
  split_hostport hp = Ok (host, port) → (resolve host port (address_family cfg) (net s)).1 = inr found →
  0 <= dial_sequence s →
  let candidates := take 8 (List.filter usable found) in
  let dial := if edge_dns_rotation cfg then dial_sequence s else 0 in
  ∃ k, (k <= length candidates)%nat ∧ (edge_dns_rotation cfg = true → (k <= 3)%nat)
    ∧ tried (connect_tcp cfg hp s).2 = tried s ++ take k (rotated (first_of_round dial candidates) candidates).
Proof using Type.
  intros Hsplit Hfound Hdial candidates dial.
  cut (begins s (connect_tcp cfg hp s).2 (if edge_dns_rotation cfg then Nat.min (length candidates) 3 else length candidates)
    (rotated (first_of_round dial candidates) candidates)).
  { intros (k & Hk & Ht). exists k. split; [|split; [|done]]; destruct (edge_dns_rotation cfg); intros; try lia; done. }
  destruct (Z.eqb_spec (zlen candidates) 0) as [Hz|Hz].
  { unfold connect_tcp. rewrite Hsplit. eapply begins_returned; [done|].
    eapply begins_returned; [by apply call_returns, Hfound|]. eapply begins_returned; [done|]. fold candidates.
    rewrite Hz. by apply begins_none. }
  assert (Hs1 : ∃ s1, next_dial_number cfg (with_net (resolve host port (address_family cfg) (net s)).2 s) = (Ok dial, s1)
                      ∧ tried s1 = tried s).
  { unfold next_dial_number, dial. destruct (edge_dns_rotation cfg); eexists; by split. }
  destruct Hs1 as (s1 & Hd & Hs1). unfold connect_tcp. rewrite Hsplit. eapply begins_returned; [done|].
  eapply begins_returned; [by apply call_returns, Hfound|]. eapply begins_returned; [done|]. fold candidates.
  eapply begins_returned; [by unfold check; rewrite (proj2 (Z.eqb_neq _ _) Hz)|].
  eapply begins_returned; [exact Hd|]. apply begins_call; [done|].
  intros t s2 Hs2. apply begins_then.
  - assert (Hm : Z.to_nat (if edge_dns_rotation cfg then Z.min (zlen candidates) 3 else zlen candidates) =
                 (if edge_dns_rotation cfg then Nat.min (length candidates) 3 else length candidates))
      by (unfold zlen; destruct (edge_dns_rotation cfg); lia).
    rewrite Hm. unfold begins. rewrite <- Hs2. apply (try_addresses_tried _ _ _ _ _ 0).
    + destruct (edge_dns_rotation cfg); lia.
    + unfold dial. destruct (edge_dns_rotation cfg); lia.
  - intros r q. destruct r; tries_walk.
Qed.
End Addresses.

(** ** Endpoints *)

Lemma throw_if_both {A} b e (m : res A) a : (throw_if b e ;; m) = Ok a ↔ b = false ∧ m = Ok a.
Proof. unfold throw_if. destruct b; cbn; split; try done; by intros []. Qed.

(** Connecting and listening split an endpoint as the checks of the configuration
    do: where either finds a host and a port, the other finds the same. *)
Theorem endpoint_split_as_checked name s h p :
  s ≠ [] → split_hostport s = Ok (h, p) ↔ endpoint_parts name s = Ok (h, p).
Proof.
  intros Hs. unfold split_hostport, endpoint_parts.
  assert (is_empty s = false) as -> by (by destruct s).
  destruct (first_is 91 s).
  - destruct (find_char 93 s) as [rb|]; [|done]. rewrite !throw_if_both, !orb_false_iff. tauto.
  - destruct (rfind_char 58 s) as [l|] eqn:Hl, (find_char 58 s) as [f|] eqn:Hf.
    + rewrite !throw_if_both, !orb_false_iff, !negb_false_iff, !bool_decide_eq_true. split.
      * intros [[[? ?] [= ->]] ?]. by repeat split.
      * intros [[[? [= ->]] ?] ?]. by repeat split.
    + rewrite throw_if_both, !orb_false_iff, negb_false_iff, bool_decide_eq_true. by split; [intros [[_ ?] _]|].
    + rewrite throw_if_both, !orb_false_iff, negb_false_iff, bool_decide_eq_true. by split; [|intros [[[_ ?] _] _]].
    + by split.
Qed.

(** ** A concrete network

    A name has the two addresses [a] and [b] and one of an unknown family; [a] refuses,
    [b] takes as many turns as the world has, and so does the TLS handshake; a local
    socket receives what waits in [tun_packets]; the clock moves by
    [step] at every look. [pieces] collects the timeouts that [poll] was given. *)
Module DialDemo.
Import World ConfigDemo.

Section Os.
Variable step : Z.

#[export] Instance os : LoopOs := {|
  lworld := World;
  clock_ns w := (ticks w, mkWorld (tun_packets w) (pieces w) (ticks w + step) (turns w));
  stop_flag := stop_flag (LoopOs := loop_os);
  take_disconnect := take_disconnect (LoopOs := loop_os);
  poll_both := poll_both (LoopOs := loop_os);
  read_packet := next_packet;
  write_packet := write_packet (LoopOs := loop_os);
  uniform := uniform (LoopOs := loop_os);
  tls_write := tls_write (LoopOs := loop_os);
  tls_read := next_piece;
  tls_pending := tls_pending (LoopOs := loop_os);
  ssl_error := ssl_error (LoopOs := loop_os);
|}.

(** One of the turns passes, with [ms] noted. *)
Definition turn_passes (ms : list bytes) (w : World) : bool * World :=
  (negb (turns w =? 0)%nat, mkWorld (tun_packets w) (pieces w ++ ms) (ticks w) (pred (turns w))).

Definition a := mkAddress V4 (str "a").
Definition b := mkAddress V6 (str "b").

#[export] Instance net_os : NetOs os := {|
  resolve _ _ _ w := (inr [a; mkAddress OtherFamily (str "x"); b], w);
  error_text e := to_string e;
  open_socket x w := (inl (if text_is (ai_name x) "a" then 7 else 8), w);
  nonblocking _ w := (None, w);
  start_connect _ x w := (if text_is (ai_name x) "a" then Refused 111 else InProgress, w);
  poll_one _ _ ms w := let (t, w') := turn_passes [[ms]] w in (if t then PollTimeout else PollReady false true false, w');
  socket_error _ w := (inl 0, w);
  shut _ w := w;
  bind_listen _ _ _ w := (None, w);
  accept_socket _ w := (Some (Some 9), w);
  local_socket w := (Some 6, w);
  local_connect _ _ w := (Refused 2, w);
  receive _ _ w :=
    match tun_packets w with
    | p :: l => (TunPacket p, mkWorld l (pieces w) (ticks w) (turns w))
    | [] => (TunBroken (str "down"), w)
    end;
  tls_new w := (Some 70, w);
  tls_set_fd _ _ w := (true, w);
  tls_set_name _ _ w := (true, w);
  tls_set_host _ _ w := (true, w);
  tls_step _ _ w := let (t, w') := turn_passes [] w in (if t then TlsWantRead else TlsEstablished, w');
  tls_alpn _ w := ([], w);
  tls_free _ w := w;
  file_contents _ w := (None, w);
  file_mode _ w := (Some 384, w);
|}.

#[export] Instance net_patience : NetPatience os.
Proof.
  refine {| calm (w : lworld (LoopOs := os)) := (turns w + length (tun_packets w))%nat |}; simpl; try done; try lia.
  1,2: intros; unfold turn_passes; destruct (turns w) eqn:E; simpl; rewrite ?E; split; try done; lia.
  intros _ _ w. destruct (tun_packets w) as [|p l] eqn:E; simpl; rewrite ?E; simpl; split; try lia.
  intros H. by destruct (H (str "down")).
Defined.
End Os.

Definition cfg : Config :=
  match load_config [] (Some (lines (client ++ ["edge_dns_rotation=true"]%string))) with Ok c => c | Err _ => default_config end.
(** A clock in milliseconds, and one of steps of two. *)
Abbreviation slow := (os 1000000).
Abbreviation fast := (os 2000000).
Definition start (n : nat) : Net (K := slow) := mkNet (mkWorld [] [] 0 n : lworld (LoopOs := slow)) [3] [] [] 4.

(** The descriptor of [a], which refused, is closed again, that of [b] is open; the rotation
    stood at an even number and moves on. *)
Example second_address_connects :
  connect_tcp (K := slow) cfg (str "cdn.example:443") (start 2) =
  (Ok 8, mkNet (mkWorld [] [[250]; [250]; [250]] 11000000 0 : lworld (LoopOs := slow)) [8; 3] [] [a; b] 5).
Proof. vm_compute. reflexivity. Qed.

(** The wait for a connection reads the clock again after it found the deadline in the
    future. When that takes a millisecond too long, [poll] is given a
    negative timeout, and that means to wait without limit. *)
Example connect_wait_without_limit :
  let s := mkNet (mkWorld [] [] 0 0 : lworld (LoopOs := fast)) [8] [] [] 0 in
  pieces (net (await_connect (K := fast) (throw []) 3 8 1 ETIMEDOUT s).2) = [[-1]].
Proof. vm_compute. reflexivity. Qed.
End DialDemo.

Section Witnesses.
Import DialDemo.

Lemma dial_waits_end_witness :
  await_connect (K := slow) (throw []) 7 8 1 ETIMEDOUT (start 2) =
  await_connect (K := slow) (mret (true, 0)) 3 8 1 ETIMEDOUT (start 2).
Proof.
  refine (proj1 (dial_waits_end (K := slow) (start 2) 8 1 ETIMEDOUT 70 5 (mkEvents true false) true [] 7 _) _ _).
  change (2 < 7)%nat. lia.
Defined.

Lemma addresses_tried_in_turn_witness :
  ∃ k, (k <= 2)%nat ∧ (true = true → (k <= 3)%nat) ∧
    tried (connect_tcp (K := slow) cfg (str "cdn.example:443") (start 2)).2 =
    [] ++ take k [a; b].
Proof.
  apply (addresses_tried_in_turn (K := slow) cfg (str "cdn.example:443") (str "cdn.example") (str "443")
           [a; mkAddress OtherFamily (str "x"); b] (start 2)).
  - vm_compute. reflexivity.
  - vm_compute. reflexivity.
  - vm_compute. discriminate.
Defined.

Lemma endpoint_split_as_checked_witness :
  split_hostport (str "[::1]:443") = Ok (str "::1", str "443") ↔ endpoint_parts "listen" (str "[::1]:443") = Ok (str "::1", str "443").
Proof. apply (endpoint_split_as_checked "listen" (str "[::1]:443")). vm_compute. discriminate. Defined.
End Witnesses.
