(* ===== verification/TlsRun.v ===== *)
(** * [run] for the TLS transport (cdn/src/runtime.cpp)

    The server accepts one connection after the other, the client connects again
    after a failure, with a delay that doubles up to a limit; both do the TLS handshake of Dial.v and
    the authenticated one of Ptt3.v on a connection and then run the tunnel of TlsLoop.v on it.
    [SSL_CTX] and its options, [g_state], socket options and the lines written to
    [std::cerr] are left out. [t_waits], the waits before a new attempt, are not in the code. *)

From S2P Require Import Prelude.
From S2P Require Import Text Crypto Keys Config Tun LoopOs Outbox TlsLoop Ptt3 NetOs Dial.

(** The outcomes of the OpenSSL calls that the handshake of Ptt3.v will make on a
    TLS object, and [sleep_for]. *)
Class TlsRunOs (K : LoopOs) := {
  tls_calls : Z → lworld → list TlsCall * lworld;
  pause_ms : Z → lworld → lworld;
}.

Section TlsRun.
Context {C : Crypto} {K : LoopOs} {Pt : Patience K} {N : NetOs K} {NP : NetPatience K} {T : TlsRunOs K} (cfg : Config).

(** ** Secrets *)

(** The files that hold secrets.
    [check_secret_permissions] src/cdn/src/runtime.cpp:990-990 *)
Definition secret_files : list bytes := [psk_file cfg; psk_previous_file cfg; tls_key cfg].

(** One turn of the loop over them.
    [check_secret_permissions] src/cdn/src/runtime.cpp:991-994 *)
Definition check_mode (f : bytes) : M Net unit :=
  if is_empty f then mret tt
  else
    m ← call (file_mode f) ;
    match m with
    | None => throw (str "cannot stat secret file: " ++ f)
    | Some mode => check (negb (Z.land mode 63 =? 0)) (str "insecure secret permissions (expected 0600): " ++ f)
    end.

(** [check_secret_permissions] src/cdn/src/runtime.cpp:990-995 *)
Fixpoint check_modes (files : list bytes) : M Net unit :=
  match files with [] => mret tt | f :: files => check_mode f ;; check_modes files end.

(** [check_secret_permissions] src/cdn/src/runtime.cpp:988-996 *)
Definition check_secret_permissions : M Net unit :=
  if strict_file_permissions cfg then check_modes secret_files else mret tt.

(** ** State *)

(** [run] src/cdn/src/runtime.cpp:1438-1438 *)
Record TlsState := mkTlsState {
  tls_net : Net; tls_stats : Stats; tls_events : list bytes; tls_entropy : rng;
  held_fd : option Z; held_ssl : option Z; t_delay : Z; t_waits : list Z }.

Abbreviation Ts := (M TlsState).

Definition put_net (n : Net) (s : TlsState) : TlsState :=
  mkTlsState n (tls_stats s) (tls_events s) (tls_entropy s) (held_fd s) (held_ssl s) (t_delay s) (t_waits s).
Definition put_process (st : Stats) (ev : list bytes) (g : rng) (s : TlsState) : TlsState :=
  mkTlsState (tls_net s) st ev g (held_fd s) (held_ssl s) (t_delay s) (t_waits s).
Definition hold (fd ssl : option Z) (s : TlsState) : TlsState :=
  mkTlsState (tls_net s) (tls_stats s) (tls_events s) (tls_entropy s) fd ssl (t_delay s) (t_waits s).
Definition put_delay (d : Z) (w : list Z) (s : TlsState) : TlsState :=
  mkTlsState (tls_net s) (tls_stats s) (tls_events s) (tls_entropy s) (held_fd s) (held_ssl s) d w.

Definition on_net {A} (m : M Net A) : Ts A := zoom tls_net put_net m.
Definition tls_note (text : bytes) : Ts unit :=
  modify (λ s, put_process (tls_stats s) (push_event text (tls_events s)) (tls_entropy s) s).

(** The handshake of Ptt3.v on the TLS object. *)
Definition with_peer {A} (m : M Peer A) (calls : list TlsCall) : Ts A := λ s,
  let (r, p) := m (mkPeer calls (tls_entropy s) (tls_stats s) (tls_events s) [] []) in
  (r, put_process (peer_stats p) (peer_events p) (entropy p) s).
Definition authenticated {A} (ssl : Z) (m : M Peer A) : Ts A :=
  calls ← on_net (call (tls_calls ssl)) ; with_peer m calls.

(** [tunnel_loop], at most [turns] turns of it. *)
Definition tunnel (turns : nat) (tx rx : bytes) : Ts unit := λ s,
  let (r, t) := tunnel_loop cfg tx turns (enter cfg rx (tls_stats s) (tls_events s) (net (tls_net s))) in
  (r, put_net (with_net (outside t) (tls_net s)) (put_process (counters (box t)) (events t) (tls_entropy s) s)).

Definition read_secret (file : bytes) : Ts bytes :=
  contents ← on_net (call (file_contents file)) ;
  on_net (lift_net (read_psk file contents)).

(** ** The server *)

(** The pre-shared keys: the current one, then the previous one if there is one.
    [run] src/cdn/src/runtime.cpp:1436-1436 *)
Definition server_psks : Ts (list bytes) :=
  psk ← read_secret (psk_file cfg) ;
  if is_empty (psk_previous_file cfg) then mret [psk]
  else previous ← read_secret (psk_previous_file cfg) ; mret [psk; previous].

(** The body of the [try].
    [run] src/cdn/src/runtime.cpp:1436-1436 *)
Definition tls_server_session (turns : nat) (ssl fd : Z) : Ts unit :=
  on_net (ssl_handshake ssl fd true (connect_timeout_sec cfg)) ;;
  psks ← server_psks ;
  keys ← authenticated ssl (server_handshake cfg psks) ;
  tunnel turns (server_tx keys) (client_tx keys).

(** [try { m } catch (const std::exception& e) { h }]
    [run] src/cdn/src/runtime.cpp:1436-1436 *)
Definition caught (m : Ts unit) (h : bytes → Ts unit) : Ts unit := λ s,
  match m s with (Ok _, s') => (Ok tt, s') | (Err e, s') => h e s' end.

(** An accepted connection.
    [run] src/cdn/src/runtime.cpp:1436-1436 *)
Definition tls_serve (turns : nat) (fd : Z) : Ts unit :=
  made ← on_net (call tls_new) ;
  match made with
  | None => on_net (close_fd fd) ;; throw (str "SSL_new failed")
  | Some ssl =>
      on_net (obtained_tls ssl) ;;
      ok ← on_net (call (tls_set_fd ssl fd)) ;
      if negb ok then on_net (free_tls ssl) ;; on_net (close_fd fd) ;; throw (str "SSL_set_fd failed")
      else
        caught (tls_server_session turns ssl fd)
          (λ e, stop ← on_net (call stop_flag) ;
                if (stop : bool) then mret tt else tls_note (str "disconnected error=" ++ e)) ;;
        on_net (close_ssl (Some ssl) (Some fd))
  end.

(** One turn of [while(!g_stop)]. [accept_socket] answers [None] for [EINTR] and
    [Some None] for another [errno].
    [run] src/cdn/src/runtime.cpp:1436-1436 *)
Definition tls_server_turn (turns : nat) (lfd : Z) : Ts unit :=
  r ← on_net (call (poll_one lfd (mkEvents true false) 250)) ;
  match r with
  | PollEintr | PollTimeout => mret tt
  | PollFailed _ => throw (str "listen poll failed")
  | PollReady _ _ _ =>
      got ← on_net (call (accept_socket lfd)) ;
      match got with
      | None => mret tt
      | Some None => throw (str "accept failed")
      | Some (Some fd) => on_net (obtained fd) ;; tls_serve turns fd
      end
  end.

(** [while(!g_stop)]: one turn for every number of the list, which bounds the
    turns of the tunnel in it.
    [run] src/cdn/src/runtime.cpp:1436-1436 *)
Fixpoint tls_server_loop (turns : list nat) (lfd : Z) : Ts unit :=
  match turns with
  | [] => mret tt
  | n :: turns =>
      stop ← on_net (call stop_flag) ;
      if (stop : bool) then mret tt else tls_server_turn n lfd ;; tls_server_loop turns lfd
  end.

(** [run] src/cdn/src/runtime.cpp:1434-1436 *)
Definition tls_server (turns : list nat) : Ts unit :=
  lfd ← on_net (listen_tcp (listen cfg) (listen_backlog cfg)) ;
  tls_server_loop turns lfd ;;
  on_net (close_fd lfd).

(** ** The client *)

(** The set-up of the TLS object, the handshakes, and the tunnel.
    [run] src/cdn/src/runtime.cpp:1438-1438 *)
Definition tls_client_handshakes (turns : nat) (ssl fd : Z) : Ts unit :=
  ok ← on_net (call (tls_set_fd ssl fd)) ;
  check (negb ok) (str "SSL_set_fd failed") ;;
  ok ← on_net (call (tls_set_name ssl (server_name cfg))) ;
  check (negb ok) (str "failed to set TLS SNI") ;;
  (if verify_peer cfg then
     ok ← on_net (call (tls_set_host ssl (server_name cfg))) ;
     check (negb ok) (str "failed to set TLS hostname verification")
   else mret tt) ;;
  on_net (ssl_handshake ssl fd false (connect_timeout_sec cfg)) ;;
  psk ← read_secret (psk_file cfg) ;
  keys ← authenticated ssl (client_handshake cfg psk) ;
  modify (λ s, put_delay (reconnect_initial_ms cfg) (t_waits s) s) ;;
  tunnel turns (client_tx keys) (server_tx keys).

(** The body of the [try]. [held_fd] and [held_ssl] are the locals [fd] and [ssl] of
    one attempt.
    [run] src/cdn/src/runtime.cpp:1438-1438 *)
Definition tls_client_session (turns : nat) : Ts unit :=
  fd ← on_net (connect_tcp cfg (server cfg)) ;
  modify (hold (Some fd) None) ;;
  made ← on_net (call tls_new) ;
  match made with
  | None => throw (str "SSL_new failed")
  | Some ssl =>
      on_net (obtained_tls ssl) ;;
      modify (hold (Some fd) (Some ssl)) ;;
      tls_client_handshakes turns ssl fd
  end.

(** [close_ssl(ssl, fd)] on the locals.
    [run] src/cdn/src/runtime.cpp:1438-1438 *)
Definition close_held : Ts unit := s ← gets id ; on_net (close_ssl (held_ssl s) (held_fd s)).

(** [for(int left=wait;left>0&&!g_stop;left-=100)]
    [run] src/cdn/src/runtime.cpp:1438-1438 *)
Fixpoint tls_sleep (fuel : nat) (left : Z) : Ts unit :=
  match fuel with
  | O => mret tt
  | S fuel' =>
      if 0 <? left then
        stop ← on_net (call stop_flag) ;
        if (stop : bool) then mret tt
        else on_net (call (λ w, (tt, pause_ms (Z.min left 100) w))) ;; tls_sleep fuel' (left - 100)
      else mret tt
  end.

(** The [catch] when [g_stop] is not set.
    [run] src/cdn/src/runtime.cpp:1438-1438 *)
Definition tls_back_off (e : bytes) : Ts unit :=
  modify (λ s, put_process (bump reconnects 1 (tls_stats s)) (tls_events s) (tls_entropy s) s) ;;
  s ← gets id ;
  wait ← on_net (call (jittered (t_delay s) (reconnect_jitter_pct cfg))) ;
  modify (λ s, put_delay (t_delay s) (t_waits s ++ [wait]) s) ;;
  tls_note (str "reconnecting error=" ++ e) ;;
  close_held ;;
  tls_sleep (Z.to_nat wait) wait ;;
  modify (λ s, put_delay (Z.min (t_delay s * 2) (reconnect_max_ms cfg)) (t_waits s) s).

(** One turn of [while(!g_stop)].
    [run] src/cdn/src/runtime.cpp:1438-1438 *)
Definition tls_client_turn (turns : nat) : Ts unit := λ s,
  match tls_client_session turns (hold None None s) with
  | (Ok _, s') => close_held s'
  | (Err e, s') => (stop ← on_net (call stop_flag) ; if (stop : bool) then close_held else tls_back_off e) s'
  end.

(** [run] src/cdn/src/runtime.cpp:1438-1438 *)
Fixpoint tls_client_loop (turns : list nat) : Ts unit :=
  match turns with
  | [] => mret tt
  | n :: turns =>
      stop ← on_net (call stop_flag) ;
      if (stop : bool) then mret tt else tls_client_turn n ;; tls_client_loop turns
  end.

(** [int delay=cfg.reconnect_initial_ms]
    [run] src/cdn/src/runtime.cpp:1438-1438 *)
Definition tls_client (turns : list nat) : Ts unit :=
  modify (λ s, put_delay (reconnect_initial_ms cfg) (t_waits s) s) ;; tls_client_loop turns.
End TlsRun.
