(* ===== verification/TlsRunProps.v ===== *)
(** * Properties of [run] for the TLS transport

    The client comes back from every failure and closes what it opened; its waits stay within
    the bounds of the configuration; the server holds one connection at a time beside its
    listening socket; and a process whose secrets others may read does not start. *)

From S2P Require Import Prelude.
From S2P Require Import Text Crypto Keys Config ConfigBounds Tun LoopOs Pacing Outbox TlsLoop Ptt3 NetOs Dial DialProps TlsRun.

Section Tls.
Context {C : Crypto} {K : LoopOs} {Pt : Patience K} {N : NetOs K} {NP : NetPatience K} {T : TlsRunOs K} (cfg : Config).

(** ** What the steps of a session leave alone

    [I] looks at nothing of the world but the resources, and not at the counters and events. *)
Section Stable.
Variable I : TlsState → Prop.
Hypothesis I_net : ∀ s n, holds n = holds (tls_net s) → I s → I (put_net n s).
Hypothesis I_process : ∀ s st ev g, I s → I (put_process st ev g s).

Create HintDb stable.

Lemma stable_net {A} (m : M Net A) : (∀ r, keeps (λ s, holds s = r) m) → keeps I (on_net m).
Proof using I_net.
  intros Hm s Hs. unfold on_net, zoom. specialize (Hm _ (tls_net s) eq_refl). destruct (m (tls_net s)) as [r n]. by apply I_net.
Qed.
Lemma stable_note text : keeps I (tls_note text).
Proof using I_process. apply keeps_modify. intros s. apply I_process. Qed.
Lemma stable_peer {A} (m : M Peer A) calls : keeps I (with_peer m calls).
Proof using I_process. intros s Hs. unfold with_peer. destruct (m _) as [r p]. by apply I_process. Qed.
Lemma stable_tunnel turns tx rx : keeps I (tunnel cfg turns tx rx).
Proof using I_net I_process.
  intros s Hs. unfold tunnel. destruct (tunnel_loop _ _ _ _) as [r u]. apply I_net; [done|by apply I_process].
Qed.
Hint Resolve stable_net stable_note @stable_peer stable_tunnel neutral_call neutral_lift neutral_handshake : stable.

Ltac stable_walk :=
  repeat first [ solve [auto with nocore stable] | progress keep
               | match goal with |- keeps _ (match ?x with _ => _ end) => destruct x end ].

Lemma stable_secret file : keeps I (read_secret file).
Proof using I_net. unfold read_secret. stable_walk. Qed.
Hint Resolve stable_secret : stable.
Lemma stable_psks : keeps I (server_psks cfg).
Proof using I_net. unfold server_psks. stable_walk. Qed.
Hint Resolve stable_psks : stable.
Lemma stable_authenticated {A} ssl (m : M Peer A) : keeps I (authenticated ssl m).
Proof using I_net I_process. unfold authenticated. stable_walk. Qed.
Hint Resolve @stable_authenticated : stable.
Lemma stable_server_session turns ssl fd : keeps I (tls_server_session cfg turns ssl fd).
Proof using I_net I_process. unfold tls_server_session. stable_walk. Qed.
Lemma stable_sleep fuel left : keeps I (tls_sleep fuel left).
Proof using I_net. revert left. induction fuel as [|fuel IH]; intros left; cbn [tls_sleep]; stable_walk. Qed.
(** The part of a client session that begins when the TLS object is there. *)
Lemma stable_client_handshakes turns ssl fd :
  (∀ s, I s → I (put_delay (reconnect_initial_ms cfg) (t_waits s) s)) → keeps I (tls_client_handshakes cfg turns ssl fd).
Proof using I_net I_process.
  intros Hd. pose proof (keeps_modify I _ Hd). unfold tls_client_handshakes. stable_walk.
Qed.
End Stable.

(** ** The server *)

(** The resources of the process are [r]. *)
Definition has (r : list Z * list Z) (s : TlsState) : Prop := holds (tls_net s) = r.

Lemma has_net r s n : holds n = holds (tls_net s) → has r s → has r (put_net n s).
Proof using Type. unfold has. simpl. congruence. Qed.
Lemma has_process r s st ev g : has r s → has r (put_process st ev g s).
Proof using Type. done. Qed.

(** Calls on the network that begin an operation. *)
Section Steps.
Context {A B : Type} (Q : B → TlsState → Prop) (E : TlsState → Prop) (s : TlsState).

Lemma step_then (r : list Z * list Z) (m : M TlsState A) (f : A → M TlsState B) :
  has r s → keeps (has r) m → (∀ s', has r s' → E s') → (∀ a s', has r s' → ends Q E (f a s')) → ends Q E ((m ≫= f) s).
Proof using Type.
  intros Hs Hm HE Hf. apply (ends_bind (λ _, has r)); [|exact Hf]. specialize (Hm s Hs).
  destruct (m s) as [[a|e] s']; [done|by apply HE].
Qed.

End Steps.

(** A step on the network that returns with other resources. *)
Lemma on_net_then {A B} (Q : B → TlsState → Prop) E r r' (m : M Net A) (f : A → M TlsState B) s :
  has r s → (∀ n, holds n = r → ends (λ _ n', holds n' = r') (λ _, False) (m n)) →
  (∀ a s', has r' s' → ends Q E (f a s')) → ends Q E ((on_net m ≫= f) s).
Proof using Type. apply (zoom_then tls_net put_net has); [done|by intros]. Qed.

Lemma on_net_ends {A} Q E (m : M Net A) s :
  ends (λ a n, Q a (put_net n s)) (λ n, E (put_net n s)) (m (tls_net s)) → ends Q E (on_net m s).
Proof using Type. unfold on_net, zoom. by destruct (m (tls_net s)) as [[a|e] n]. Qed.

Ltac look_at := eapply on_net_then; [eassumption|intros ? ?; by apply call_quiet|].
Ltac gives_back := eapply on_net_then; [eassumption|intros ? ?; first [by apply close_returns|by apply free_returns]|intros _ ? ?].

Lemma serve_closes turns fd o t s :
  has (fd :: o, t) s → ends (λ _, has (o, t)) (has (o, t)) (tls_serve cfg turns fd s).
Proof using Type.
  intros Hs. unfold tls_serve. look_at. intros [ssl|] s1 Hs1; [|by gives_back].
  eapply on_net_then; [eassumption|intros ? ?; by apply made_returns|]. intros _ s2 Hs2.
  look_at. intros [] s3 Hs3; cbn [negb]; [|gives_back; by gives_back].
  apply (ends_bind (λ _, has (fd :: o, ssl :: t))).
  - unfold caught. pose proof (stable_server_session _ (has_net (fd :: o, ssl :: t)) (has_process _) turns ssl fd s3 Hs3) as Hk.
    destruct (tls_server_session _ _ _ _ _) as [[u|e] s4]; [done|].
    look_at. intros [] s5 Hs5; [done|exact Hs5].
  - intros _ s4 Hs4. apply on_net_ends.
    eapply ends_weaken; [by apply (close_ssl_returns (Some ssl) (Some fd) o t)|done|done].
Qed.

Lemma server_turn_closes turns lfd r s : has r s → ends (λ _, has r) (has r) (tls_server_turn cfg turns lfd s).
Proof using Type.
  intros Hs. destruct r as [o t]. unfold tls_server_turn. look_at. intros [| | |? ? ?] s1 Hs1; try done.
  look_at. intros [[fd|]|] s2 Hs2; try done.
  eapply on_net_then; [eassumption|intros ? ?; by apply obtained_returns|]. intros _ s3 Hs3. by apply serve_closes.
Qed.

Lemma server_loop_closes turns lfd r s : has r s → ends (λ _, has r) (has r) (tls_server_loop cfg turns lfd s).
Proof using Type.
  revert s. induction turns as [|n turns IH]; intros s Hs; cbn [tls_server_loop]; [done|].
  look_at. intros [] s1 Hs1; [done|]. eapply ends_bind; [by apply server_turn_closes|]. intros ? s2 Hs2. by apply IH.
Qed.

(** C29: the TLS server leaves no descriptor and no TLS object of a connection open,
    however its sessions end: when it stops, all is as before, and when an error ends the process, at most the
    listening socket is left. *)
Theorem tls_server_closes_connections turns s :
  ends (λ _ s', holds (tls_net s') = holds (tls_net s))
       (λ s', holds (tls_net s') = holds (tls_net s) ∨ ∃ lfd, holds (tls_net s') = (lfd :: opened (tls_net s), tls_opened (tls_net s)))
       (tls_server cfg turns s).
Proof using Type.
  unfold tls_server. set (o := opened (tls_net s)). set (t := tls_opened (tls_net s)).
  apply (ends_bind (λ lfd, has (lfd :: o, t))).
  - apply on_net_ends. eapply ends_weaken; [apply listen_tcp_opens|done|]. intros n Hn. by left.
  - intros lfd s1 Hs1. eapply ends_bind.
    + eapply ends_weaken; [by apply (server_loop_closes turns lfd (lfd :: o, t))|intros a s2 Hs2; exact Hs2|].
      intros s2 Hs2. right. by exists lfd.
    + intros ? s2 Hs2. apply on_net_ends. eapply ends_weaken; [by apply (close_returns lfd o t)|done|done].
Qed.

(** ** The client *)

(** What is open besides [o] and [t] is what the locals name. *)
Definition held (o t : list Z) (s : TlsState) : Prop := has (option_list (held_fd s) ++ o, option_list (held_ssl s) ++ t) s.

Lemma held_net o t s n : holds n = holds (tls_net s) → held o t s → held o t (put_net n s).
Proof using Type. unfold held, has. simpl. congruence. Qed.
Lemma held_process o t s st ev g : held o t s → held o t (put_process st ev g s).
Proof using Type. done. Qed.


(** The end of a session, with the locals of the attempt. *)
Abbreviation ends_held o t r := (ends (λ _, held o t) (held o t) r).

Lemma keeps_ends {A} (I : TlsState → Prop) (m : M TlsState A) s : keeps I m → I s → ends (λ _, I) I (m s).
Proof using Type. intros Hm Hs. specialize (Hm s Hs). by destruct (m s) as [[] s']. Qed.

Lemma client_session_held turns s o t : has (o, t) s → ends_held o t (tls_client_session cfg turns (hold None None s)).
Proof using Type.
  intros Hs. unfold tls_client_session.
  apply (ends_bind (λ fd, has (fd :: o, t))).
  { apply on_net_ends. injection Hs as <- <-. eapply ends_weaken; [apply connect_tcp_opens|done|done]. }
  intros fd s1 Hs1. apply (ends_bind (λ _ s', has (fd :: o, t) s' ∧ held_fd s' = Some fd ∧ held_ssl s' = None)); [done|].
  intros _ s2 (Hs2 & Hf & Hl).
  apply (ends_bind (λ _ s', has (fd :: o, t) s' ∧ held_fd s' = Some fd ∧ held_ssl s' = None)).
  { apply on_net_ends. eapply ends_weaken; [apply (call_quiet tls_new _ _ Hs2)|done|done]. }
  intros [ssl|] s3 (Hs3 & Hf3 & Hl3); [|unfold held; cbn; by rewrite Hf3, Hl3].
  eapply on_net_then; [exact Hs3|intros ? ?; by apply made_returns|]. intros ? s4 Hs4.
  apply (ends_bind (λ _, held o t)); [exact Hs4|]. intros ? s5 Hs5.
  apply keeps_ends; [|done]. apply stable_client_handshakes; [apply held_net|apply held_process|done].
Qed.

Lemma close_held_returns o t s : held o t s → ends (λ _, has (o, t)) (λ _, False) (close_held s).
Proof using Type.
  intros Hs. unfold close_held. change (ends (λ _, has (o, t)) (λ _, False) (on_net (close_ssl (held_ssl s) (held_fd s)) s)).
  apply on_net_ends. eapply ends_weaken; [by apply (close_ssl_returns (held_ssl s) (held_fd s) o t)|done|done].
Qed.

(** An operation that returns. *)
Lemma sleep_ends r fuel left s : has r s → ends (λ _, has r) (λ _, False) (tls_sleep fuel left s).
Proof using Type.
  revert left s. induction fuel as [|fuel IH]; intros left s Hs; cbn [tls_sleep]; [done|]. destruct (_ <? _); [|done].
  look_at. intros [] s1 Hs1; [done|]. look_at. intros ? s2 Hs2. by apply IH.
Qed.

Lemma look_held {A} (c : lworld → A * lworld) o t s : held o t s → ends (λ _, held o t) (λ _, False) (on_net (call c) s).
Proof using Type.
  intros Hs. apply on_net_ends. eapply ends_weaken; [apply (call_quiet c _ _ Hs)|done|done].
Qed.

Lemma back_off_closes e s o t : held o t s → ends (λ _, has (o, t)) (λ _, False) (tls_back_off cfg e s).
Proof using Type.
  intros Hs. unfold tls_back_off. apply (ends_bind (λ _, held o t)); [exact Hs|]. intros ? s1 Hs1.
  apply (ends_bind (λ _, held o t)); [exact Hs1|]. intros ? s2 Hs2.
  apply (ends_bind (λ _, held o t)); [by apply look_held|]. intros wait s3 Hs3.
  apply (ends_bind (λ _, held o t)); [exact Hs3|]. intros ? s4 Hs4.
  apply (ends_bind (λ _, held o t)); [exact Hs4|]. intros ? s5 Hs5.
  apply (ends_bind (λ _, has (o, t))); [by apply close_held_returns|]. intros ? s6 Hs6.
  apply (ends_bind (λ _, has (o, t))); [by apply sleep_ends|]. intros ? s7 Hs7. exact Hs7.
Qed.

Lemma client_turn_closes turns s o t : has (o, t) s → ends (λ _, has (o, t)) (λ _, False) (tls_client_turn cfg turns s).
Proof using Type.
  intros Hs. unfold tls_client_turn. pose proof (client_session_held turns s o t Hs) as Hh.
  destruct (tls_client_session _ _ _) as [[u|e] s1]; [by apply close_held_returns|]. cbn in Hh.
  apply (ends_bind (λ _, held o t)); [by apply look_held|]. intros [] s2 Hs2; [by apply close_held_returns|by apply back_off_closes].
Qed.

Lemma client_loop_closes turns s o t : has (o, t) s → ends (λ _, has (o, t)) (λ _, False) (tls_client_loop cfg turns s).
Proof using Type.
  revert s. induction turns as [|n turns IH]; intros s Hs; cbn [tls_client_loop]; [done|].
  look_at. intros [] s1 Hs1; [done|]. eapply ends_bind; [by apply client_turn_closes|]. intros ? s2 Hs2. by apply IH.
Qed.

(** C28: whatever goes wrong in a session, the TLS client survives it: the loop throws nothing, and
    when it ends every descriptor and TLS object that its attempts opened is closed and freed. *)
Theorem tls_client_survives turns s :
  ends (λ _ s', opened (tls_net s') = opened (tls_net s) ∧ tls_opened (tls_net s') = tls_opened (tls_net s))
       (λ _, False) (tls_client cfg turns s).
Proof using Type.
  unfold tls_client.
  apply (ends_bind (λ _, has (opened (tls_net s), tls_opened (tls_net s)))); [done|]. intros ? s1 Hs1.
  eapply ends_weaken; [by apply client_loop_closes|by intros _ s2 [= -> ->]|done].
Qed.

(** ** The waits of the client *)

(** The delay and the waits so far are within the bounds of the configuration. *)
Definition paced (s : TlsState) : Prop :=
  reconnect_initial_ms cfg <= t_delay s <= reconnect_max_ms cfg ∧ Forall (wait_ok cfg) (t_waits s).

Lemma paced_net s n : holds n = holds (tls_net s) → paced s → paced (put_net n s).
Proof using Type. done. Qed.
Lemma paced_call {A} (m : M Net A) : keeps paced (on_net m).
Proof using Type. intros s Hs. unfold on_net, zoom. by destruct (m _). Qed.

Context {LL : LoopLaws K} (HB : bounds cfg).

Lemma paced_initial s : paced s → paced (put_delay (reconnect_initial_ms cfg) (t_waits s) s).
Proof using HB. intros [_ Hw]. split; [|done]. pose proof (b_reconnect_max _ HB). cbn. lia. Qed.

Lemma paced_session turns : keeps paced (tls_client_session cfg turns).
Proof using HB.
  unfold tls_client_session. apply keeps_bind; [apply paced_call|]. intros fd.
  apply keeps_bind; [by apply keeps_modify|]. intros _. apply keeps_bind; [apply paced_call|]. intros [ssl|]; [|keep].
  apply keeps_bind; [apply paced_call|]. intros _. apply keeps_bind; [by apply keeps_modify|]. intros _.
  apply stable_client_handshakes; [done|done|apply paced_initial].
Qed.

Lemma paced_sleep fuel left : keeps paced (tls_sleep fuel left).
Proof using Type. apply stable_sleep. done. Qed.

Lemma paced_back_off e : keeps paced (tls_back_off cfg e).
Proof using HB LL.
  unfold tls_back_off. apply keeps_bind; [by apply keeps_modify|]. intros _.
  apply keeps_read. intros s Hs.
  assert (Hj : wait_ok cfg (jittered (t_delay s) (reconnect_jitter_pct cfg) (net (tls_net s))).1)
    by exact (jittered_range cfg _ _ HB (proj1 Hs)).
  unfold mbind at 1, M_bind at 1, on_net at 1, zoom at 1, call at 1. destruct (jittered _ _ _) as [wait w]. cbn [fst] in Hj.
  apply (keeps_at paced); [|exact Hs].
  apply keeps_bind; [|intros _].
  { apply keeps_modify. intros s' [Hd Hw]. split; [done|]. cbn. by apply Forall_app_2; [|constructor]. }
  apply keeps_bind; [by apply keeps_modify|intros _]. apply keeps_bind; [apply keeps_bind; [apply keeps_gets|intros ?; apply paced_call]|intros _].
  apply keeps_bind; [apply paced_sleep|intros _]. apply keeps_modify. intros s' [Hd Hw]. split; [|done]. cbn.
  pose proof (b_reconnect_initial _ HB). lia.
Qed.

Lemma paced_turn turns : keeps paced (tls_client_turn cfg turns).
Proof using HB LL.
  intros s Hs. unfold tls_client_turn. pose proof (paced_session turns (hold None None s) Hs) as Hp.
  destruct (tls_client_session _ _ _) as [[u|e] s1]; cbn in Hp.
  - by apply (keeps_at paced); [apply keeps_bind; [apply keeps_gets|intros ?; apply paced_call]|].
  - apply (keeps_at paced); [|done]. apply keeps_bind; [apply paced_call|]. intros []; [|apply paced_back_off].
    apply keeps_bind; [apply keeps_gets|intros ?; apply paced_call].
Qed.

(** Every wait of the TLS client before a new attempt comes from a delay between the two limits of
    the configuration and strays from it by at most the configured percentage. *)
Theorem tls_client_waits turns s :
  t_waits s = [] → Forall (wait_ok cfg) (t_waits (tls_client cfg turns s).2).
Proof using HB LL.
  intros Hs.
  change (tls_client cfg turns s) with (tls_client_loop cfg turns (put_delay (reconnect_initial_ms cfg) (t_waits s) s)).
  assert (Hk : keeps paced (tls_client_loop cfg turns)).
  { clear Hs. induction turns as [|n turns IH]; cbn [tls_client_loop]; [keep|].
    apply keeps_bind; [apply paced_call|]. intros []; [keep|]. apply keeps_bind; [apply paced_turn|intros _; apply IH]. }
  apply (Hk (put_delay (reconnect_initial_ms cfg) (t_waits s) s)). split; cbn; [pose proof (b_reconnect_max _ HB); lia|by rewrite Hs].
Qed.

(** ** Secrets *)

Section Secrets.
Variable modes : bytes → option Z.
Hypothesis modes_seen : ∀ f w, (file_mode f w).1 = modes f.

(** Nobody but the owner may read, write or execute the file. *)
Definition private (f : bytes) : Prop := ∃ mode, modes f = Some mode ∧ ∀ i, 0 <= i < 6 → Z.testbit mode i = false.

Lemma low_bits mode : Z.land mode 63 = 0 ↔ ∀ i, 0 <= i < 6 → Z.testbit mode i = false.
Proof using Type.
  change 63 with (Z.ones 6). split.
  - intros H i Hi. pose proof (Z.land_spec mode (Z.ones 6) i) as Hb. rewrite H, Z.bits_0 in Hb.
    rewrite Z.ones_spec_low in Hb by lia. by rewrite andb_true_r in Hb.
  - intros H. apply Z.bits_inj'. intros i Hi. rewrite Z.land_spec, Z.bits_0. destruct (Z.lt_ge_cases i 6).
    + by rewrite H by lia.
    + rewrite Z.ones_spec_high by lia. apply andb_false_r.
Qed.

Lemma mode_private f s : (∃ s', check_mode f s = (Ok tt, s')) ↔ (f ≠ [] → private f).
Proof using modes_seen.
  unfold check_mode, private. destruct f as [|c f]; [cbn; split; [by intros _ []|intros _; by exists s]|].
  change (is_empty (c :: f)) with false. cbv iota. pose proof (modes_seen (c :: f) (net s)) as Hm.
  unfold mbind, M_bind. rewrite (call_returns _ s _ Hm).
  destruct (modes (c :: f)) as [mode|].
  - unfold check. destruct (Z.eqb_spec (Z.land mode 63) 0) as [H0|H0]; cbn; split.
    + intros _ _. exists mode. by rewrite <- low_bits.
    + intros _. eexists; reflexivity.
    + by intros [? ?].
    + intros Hp. destruct (Hp ltac:(done)) as (m & [= <-] & Hb). by apply low_bits in Hb.
  - split; [by intros [? ?]|]. intros Hp. by destruct (Hp ltac:(done)) as (m & ? & ?).
Qed.

Lemma modes_private files s : (∃ s', check_modes files s = (Ok tt, s')) ↔ Forall (λ f, f ≠ [] → private f) files.
Proof using modes_seen.
  revert s. induction files as [|f files IH]; intros s; cbn [check_modes]; [split; [constructor|by exists s]|].
  rewrite Forall_cons, <- (mode_private f s). setoid_rewrite M_bind_ok. split.
  - intros (s' & [] & s1 & H1 & H2). split; [by exists s1|]. apply (IH s1). by exists s'.
  - intros [[s1 H1] H2]. apply (IH s1) in H2 as [s' H2]. by exists s', tt, s1.
Qed.

(** With [strict_file_permissions] the process starts exactly when every secret file it is configured
    with exists and gives its group and others no permission at all; without it the files are not looked at. *)
Theorem secrets_must_be_private s :
  (∃ s', check_secret_permissions cfg s = (Ok tt, s')) ↔
  (strict_file_permissions cfg = true → Forall (λ f, f ≠ [] → private f) [psk_file cfg; psk_previous_file cfg; tls_key cfg]).
Proof using modes_seen.
  unfold check_secret_permissions. destruct (strict_file_permissions cfg).
  - rewrite (modes_private (secret_files cfg)). unfold secret_files. tauto.
  - split; [done|]. intros _. by exists s.
Qed.
End Secrets.
End Tls.

(** ** A concrete process

    On the network of DialProps.v, where a pause moves the clock and no file can be
    read. *)
Module TlsRunDemo.
Import Toy World ConfigDemo DialDemo.

#[export] Instance slow_laws : LoopLaws slow.
Proof. split; [exact (read_packet_ip (K := loop_os))|exact (tls_write_fits (K := loop_os))
  |exact (tls_read_fits (K := loop_os))|exact (uniform_range (K := loop_os))]. Qed.

#[export] Instance slow_patience : Patience slow.
Proof.
  refine {| patience (w : lworld (LoopOs := slow)) := patience (K := loop_os) w |}.
  - done.
  - done.
  - done.
  - exact (patience_packet (K := loop_os)).
  - exact (patience_read (K := loop_os)).
Defined.

#[export] Instance refusing : TlsRunOs slow := {|
  tls_calls _ w := ([TlsBroken (str "refused")], w);
  pause_ms ms w := mkWorld (tun_packets w) (pieces w) (ticks w + ms * 1000000) (turns w);
|}.

Definition first_state : TlsState (K := slow) := mkTlsState (start 0) new_stats [] 5 None None 0 [].

Lemma client_bounds : bounds client_config.
Proof. apply validated_bounds; [split; vm_compute; intuition discriminate|by vm_compute]. Qed.

(** The key cannot be read after the TLS handshake; the client waits and tries again: the delays double, and
    everything is closed. *)
Abbreviation three_attempts := (tls_client (K := slow) client_config [1; 1; 1]%nat first_state).

Example three_failures :
  (t_waits three_attempts.2, opened (tls_net three_attempts.2), tls_opened (tls_net three_attempts.2)) = ([400; 800; 1600], [3], []).
Proof. vm_compute. reflexivity. Qed.
End TlsRunDemo.

Section Witnesses.
Import Toy World ConfigDemo DialDemo TlsRunDemo.

Lemma tls_client_waits_witness :
  t_waits three_attempts.2 = [400; 800; 1600] ∧ Forall (wait_ok client_config) (t_waits three_attempts.2).
Proof.
  split; [vm_compute; reflexivity|].
  apply (tls_client_waits (K := slow) client_config client_bounds [1; 1; 1]%nat first_state). reflexivity.
Defined.

Lemma secrets_must_be_private_witness :
  let modes := λ _ : bytes, Some 384 in
  (∃ s', check_secret_permissions (K := slow) client_config (start 0) = (Ok tt, s')) ↔
  (strict_file_permissions client_config = true →
   Forall (λ f, f ≠ [] → private modes f) [psk_file client_config; psk_previous_file client_config; tls_key client_config]).
Proof. intros modes. apply (secrets_must_be_private (K := slow) client_config modes). reflexivity. Defined.
End Witnesses.
