(* ===== verification/TlsContext.v ===== *)
(** * The TLS contexts (cdn/src/runtime.cpp, [server_ctx], [client_ctx], [log_certificate])

    What a TLS object of Dial.v and TlsRun.v inherits: protocol versions, ALPN, the
    certificate and whether peers are verified. [live] lists the contexts
    that were made and not freed, each with the settings that calls which
    succeeded made on it; it is not in the code, and no operation reads it.
    The line [log_certificate] writes to [std::cerr] is left out. *)

From S2P Require Import Prelude.
From S2P Require Import Text Config LoopOs Outbox.

Definition TLS1_2_VERSION : Z := 771.
Definition TLS1_3_VERSION : Z := 772.

(** What is set on a context, one call each. *)
Inductive Setting :=
| MinVersion (v : Z)
| MaxVersion (v : Z)
| Chain (file : bytes)
| PrivateKey (file : bytes)
| KeyChecked
| ClientCache
| Alpn (protocols : bytes)
| VerifyPeer
| VerifyNone
| TrustFile (file : bytes).
#[export] Instance setting_eq_dec : EqDecision Setting.
Proof. solve_decision. Defined.

(** [SSL_CTX_new], for a server or a client; the setters that can fail, [true] for
    success, and those that cannot; [SSL_CTX_free]; a certificate, as the difference
    between its end and now in days and seconds, if [ASN1_TIME_diff] can tell. *)
Class ContextOs (K : LoopOs) := {
  context_new : bool → lworld → option Z * lworld;
  context_set : Z → Setting → lworld → bool * lworld;
  context_always : Z → Setting → lworld → lworld;
  context_free : Z → lworld → lworld;
  read_certificate : bytes → lworld → option (option (Z * Z)) * lworld;
}.

Record Context := mkContext { context : Z; settings : list Setting }.

Section Contexts.
Context {K : LoopOs} {N : ContextOs K} (cfg : Config).

Record TlsSetup := mkSetup { setup_os : lworld; live : list Context; setup_events : list bytes }.

Abbreviation Cx := (M TlsSetup).

Definition setup_call {A} (f : lworld → A * lworld) : Cx A := λ s,
  let (a, w) := f (setup_os s) in (Ok a, mkSetup w (live s) (setup_events s)).
Definition on_live (f : list Context → list Context) : Cx unit := modify (λ s, mkSetup (setup_os s) (f (live s)) (setup_events s)).

(** The first context of a list with this address. *)
Fixpoint on_first (x : Z) (f : Context → list Context) (l : list Context) : list Context :=
  match l with
  | [] => []
  | c :: l => if context c =? x then f c ++ l else c :: on_first x f l
  end.

Definition note_setting (x : Z) (o : Setting) : Cx unit :=
  on_live (on_first x (λ c, [mkContext x (settings c ++ [o])])).

(** A setter that can fail, and one that cannot. *)
Definition set_context (x : Z) (o : Setting) : Cx bool :=
  ok ← setup_call (context_set x o) ;
  (if (ok : bool) then note_setting x o else mret tt) ;;
  mret ok.
Definition set_always (x : Z) (o : Setting) : Cx unit :=
  setup_call (λ w, (tt, context_always x o w)) ;; note_setting x o.

Definition free_context (x : Z) : Cx unit :=
  setup_call (λ w, (tt, context_free x w)) ;; on_live (on_first x (λ _, [])).

(** [SSL_CTX_new], or the exception of the caller. *)
Definition new_context (server : bool) : Cx Z :=
  made ← setup_call (context_new server) ;
  match made with
  | None => throw (str "SSL_CTX_new failed")
  | Some x => on_live (cons (mkContext x [])) ;; mret x
  end.

(** [if (a!=1 || b!=1 ...)]: the calls in their order, up to the first that fails. *)
Fixpoint set_all (x : Z) (l : list Setting) : Cx bool :=
  match l with
  | [] => mret true
  | o :: l => ok ← set_context x o ; if (ok : bool) then set_all x l else mret false
  end.

(** [auto e=sslerr();SSL_CTX_free(x);throw ...] when a setting failed; [sslerr] is
    [LoopOs]'s. *)
Definition settled_or (x : Z) (ok : bool) (what : bytes) : Cx unit :=
  if ok then mret tt
  else e ← setup_call ssl_error ; free_context x ;; throw (what ++ e).

(** ** The certificate of the server *)

(** The days that are left, rounded up.
    [log_certificate] src/cdn/src/runtime.cpp:790-790 *)
Definition days_remaining (gap : option (Z * Z)) : Z :=
  match gap with Some (d, s) => d + (if 0 <? s then 1 else 0) | None => -1 end.

(** [log_certificate] src/cdn/src/runtime.cpp:790-790 *)
Definition log_certificate (path : bytes) : Cx unit :=
  found ← setup_call (read_certificate path) ;
  match found with
  | None => mret tt
  | Some gap =>
      let days := days_remaining gap in
      if (0 <=? days) && (days <=? 30) then
        modify (λ s, mkSetup (setup_os s) (live s) (push_event (str "certificate_expiring days=" ++ to_string days) (setup_events s)))
      else mret tt
  end.

(** ** The contexts *)

(** What the limits of the protocol versions answer is not looked at.
    [server_ctx] src/cdn/src/runtime.cpp:791-796 *)
Definition server_ctx : Cx Z :=
  x ← new_context true ;
  set_context x (MinVersion TLS1_3_VERSION) ;;
  set_context x (MaxVersion TLS1_3_VERSION) ;;
  ok ← set_all x [Chain (tls_cert cfg); PrivateKey (tls_key cfg); KeyChecked] ;
  settled_or x ok (str "load certificate/key failed: ") ;;
  log_certificate (tls_cert cfg) ;;
  mret x.

(** [http/1.1], with its length before it.
    [client_ctx] src/cdn/src/runtime.cpp:803-803 *)
Definition alpn_http11 : bytes := 8 :: str "http/1.1".

(** [client_ctx] src/cdn/src/runtime.cpp:799-799 *)
Definition min_tls : Z := if text_is (transport cfg) "websocket" then TLS1_2_VERSION else TLS1_3_VERSION.

(** [client_ctx] src/cdn/src/runtime.cpp:802-805 *)
Definition set_alpn (x : Z) : Cx unit :=
  if text_is (transport cfg) "websocket" then
    ok ← set_context x (Alpn alpn_http11) ;
    if (ok : bool) then mret tt else free_context x ;; throw (str "configure WSS ALPN failed")
  else mret tt.

(** [client_ctx] src/cdn/src/runtime.cpp:806-806 *)
Definition set_verification (x : Z) : Cx unit :=
  if verify_peer cfg then
    set_always x VerifyPeer ;;
    ok ← set_context x (TrustFile (tls_ca cfg)) ;
    settled_or x ok (str "load tls_ca failed: ")
  else set_always x VerifyNone.

(** [client_ctx] src/cdn/src/runtime.cpp:797-808 *)
Definition client_ctx : Cx Z :=
  x ← new_context false ;
  ok ← set_all x [MinVersion min_tls; MaxVersion TLS1_3_VERSION] ;
  settled_or x ok (str "configure TLS versions failed: ") ;;
  set_always x ClientCache ;;
  set_alpn x ;;
  set_verification x ;;
  mret x.

(** ** What comes of it *)

(** The settings of a client: the versions, the cache, ALPN for the WebSocket
    transport, and the verification that is configured. *)
Definition client_settings : list Setting :=
  [MinVersion min_tls; MaxVersion TLS1_3_VERSION; ClientCache]
  ++ (if text_is (transport cfg) "websocket" then [Alpn alpn_http11] else [])
  ++ (if verify_peer cfg then [VerifyPeer; TrustFile (tls_ca cfg)] else [VerifyNone]).

(** The first contexts of a process, with the one that is being made in front. *)
Definition making (rest : list Context) (x : Z) (l : list Setting) (s : TlsSetup) : Prop :=
  live s = mkContext x l :: rest.

Lemma set_context_making E rest x l o s :
  making rest x l s →
  ends (λ (ok : bool) s', making rest x (if ok then l ++ [o] else l) s' ∧ setup_events s' = setup_events s) E (set_context x o s).
Proof using Type.
  unfold making, set_context, setup_call, mbind, M_bind. intros H. destruct (context_set x o (setup_os s)) as [[] w]; cbn; [|done].
  by rewrite H; cbn; rewrite Z.eqb_refl.
Qed.

Lemma set_always_making E rest x l o s :
  making rest x l s →
  ends (λ _ s', making rest x (l ++ [o]) s' ∧ setup_events s' = setup_events s) E (set_always x o s).
Proof using Type.
  unfold making, set_always, setup_call, mbind, M_bind. intros H. cbn. by rewrite H; cbn; rewrite Z.eqb_refl.
Qed.

Lemma set_all_making E rest x os : ∀ l s,
  making rest x l s →
  ends (λ (ok : bool) s', (∃ l', making rest x l' s' ∧ (ok = true → l' = l ++ os)) ∧ setup_events s' = setup_events s) E
    (set_all x os s).
Proof using Type.
  induction os as [|o os IH]; intros l s H; cbn [set_all].
  { split; [|done]. exists l. by rewrite app_nil_r. }
  eapply ends_bind; [by apply set_context_making|]. intros [] s1 [H1 He]; cbn.
  - eapply ends_weaken; [by apply (IH (l ++ [o]))| |by intros ? H'; exact H'].
    intros ok s2 [(l' & Hl & Hok) He2]. split; [|congruence]. exists l'. split; [done|]. by rewrite <- app_assoc in Hok.
  - split; [|done]. by exists l.
Qed.

Lemma freed_making {B} rest x l e s :
  making rest x l s →
  ends (λ _ _, False) (λ s', live s' = rest ∧ setup_events s' = setup_events s) ((free_context x ;; throw e : Cx B) s).
Proof using Type.
  unfold making, free_context, setup_call, mbind, M_bind. intros H. cbn. by rewrite H; cbn; rewrite Z.eqb_refl.
Qed.

(** A context is used when all went well, and freed otherwise. *)
Lemma settled_making rest x l ok what s :
  making rest x l s →
  ends (λ _ s', ok = true ∧ s' = s) (λ s', live s' = rest ∧ setup_events s' = setup_events s) (settled_or x ok what s).
Proof using Type.
  unfold settled_or. intros H. destruct ok; [done|]. unfold mbind at 1, M_bind at 1, setup_call.
  destruct (ssl_error (setup_os s)) as [e w]. by eapply ends_weaken; [by eapply freed_making|..].
Qed.

Lemma new_context_making server s :
  ends (λ x s', making (live s) x [] s' ∧ setup_events s' = setup_events s) (λ s', live s' = live s ∧ setup_events s' = setup_events s)
    (new_context server s).
Proof using Type.
  unfold new_context, making, mbind, M_bind, setup_call. by destruct (context_new server (setup_os s)) as [[x|] w].
Qed.

(** A setting that cannot fail, and the rest. *)
Lemma always_then {B} (Q : B → TlsSetup → Prop) E rest x l o ev (f : unit → Cx B) s :
  making rest x l s → setup_events s = ev →
  (∀ s', making rest x (l ++ [o]) s' → setup_events s' = ev → ends Q E (f tt s')) →
  ends Q E ((set_always x o ≫= f) s).
Proof using Type.
  intros H He Hf. eapply ends_bind; [by apply set_always_making|]. intros [] s' [H' He']. apply Hf; congruence.
Qed.

Lemma set_alpn_making rest x l s :
  making rest x l s →
  ends (λ _ s', making rest x (l ++ if text_is (transport cfg) "websocket" then [Alpn alpn_http11] else []) s'
         ∧ setup_events s' = setup_events s)
    (λ s', live s' = rest ∧ setup_events s' = setup_events s) (set_alpn x s).
Proof using Type.
  intros H. unfold set_alpn. destruct (text_is _ _); [|by rewrite app_nil_r].
  eapply ends_bind; [by apply set_context_making|]. intros [] s1 [H1 He1]; [done|].
  eapply ends_weaken; [by eapply freed_making|done|]. intros s2 [? ?]. split; congruence.
Qed.

Lemma set_verification_making rest x l s :
  making rest x l s →
  ends (λ _ s', making rest x (l ++ if verify_peer cfg then [VerifyPeer; TrustFile (tls_ca cfg)] else [VerifyNone]) s'
         ∧ setup_events s' = setup_events s)
    (λ s', live s' = rest ∧ setup_events s' = setup_events s) (set_verification x s).
Proof using Type.
  intros H. unfold set_verification. destruct (verify_peer cfg); [|by apply set_always_making].
  eapply always_then; [done..|]. intros s1 H1 He1.
  eapply ends_bind; [by apply set_context_making|]. intros ok s2 [H2 He2].
  eapply ends_weaken; [by eapply settled_making| |intros s3 [? ?]; split; congruence].
  intros [] s3 [-> ->]. rewrite <- app_assoc in H2. split; [done|congruence].
Qed.

(** A client's context, or none. *)
Lemma client_ctx_ends s :
  ends (λ x s', live s' = mkContext x client_settings :: live s ∧ setup_events s' = setup_events s)
       (λ s', live s' = live s ∧ setup_events s' = setup_events s) (client_ctx s).
Proof using Type.
  unfold client_ctx. eapply ends_bind; [apply new_context_making|]. intros x s1 [H1 He1].
  eapply ends_bind; [by apply set_all_making|]. intros ok s2 [(l & H2 & Hl) He2].
  eapply ends_bind; [eapply ends_weaken; [eapply settled_making; exact H2|intros ? ? H; exact H|intros ? [? ?]; split; congruence]|].
  intros [] s3 [-> ->]. rewrite (Hl eq_refl) in H2. eapply always_then; [done..|]. intros s4 H4 He4.
  eapply ends_bind; [eapply ends_weaken; [by apply set_alpn_making|intros ? ? H; exact H|intros ? [? ?]; split; congruence]|].
  intros [] s5 [H5 He5].
  eapply ends_bind; [eapply ends_weaken; [by apply set_verification_making|intros ? ? H; exact H|intros ? [? ?]; split; congruence]|].
  intros [] s6 [H6 He6]. unfold making in H6. rewrite <- app_assoc in H6. split; [exact H6|congruence].
Qed.

(** What [log_certificate] adds to the events. *)
Lemma log_certificate_events path s :
  ∃ w ev, log_certificate path s = (Ok tt, mkSetup w (live s) ev)
  ∧ (ev = setup_events s ∨ ∃ gap, (read_certificate path (setup_os s)).1 = Some gap ∧ 0 <= days_remaining gap <= 30
       ∧ ev = push_event (str "certificate_expiring days=" ++ to_string (days_remaining gap)) (setup_events s)).
Proof using Type.
  unfold log_certificate, mbind, M_bind, setup_call. destruct (read_certificate path (setup_os s)) as [[gap|] w]; cbn; [|by eauto].
  destruct (_ && _) eqn:Hd; [|by eauto]. bool_to_prop. eexists _, _. split; [done|]. right. by exists gap.
Qed.

(** A server's context, or none. *)
Lemma server_ctx_ends s :
  ends (λ x s', ∃ v, v `sublist_of` [MinVersion TLS1_3_VERSION; MaxVersion TLS1_3_VERSION]
          ∧ live s' = mkContext x (v ++ [Chain (tls_cert cfg); PrivateKey (tls_key cfg); KeyChecked]) :: live s)
       (λ s', live s' = live s) (server_ctx s).
Proof using Type.
  unfold server_ctx. eapply ends_bind; [eapply ends_weaken; [apply new_context_making|intros ? ? H; exact H|by intros ? [? _]]|].
  intros x s1 [H1 He1].
  eapply ends_bind; [by apply set_context_making|]. intros b1 s2 [H2 _].
  eapply ends_bind; [by apply set_context_making|]. intros b2 s3 [H3 _].
  eapply ends_bind; [by apply set_all_making|]. intros ok s4 [(l & H4 & Hl) _].
  eapply ends_bind; [eapply ends_weaken; [eapply settled_making; exact H4|intros ? ? H; exact H|by intros ? [? _]]|].
  intros [] s5 [-> ->]. rewrite (Hl eq_refl) in H4.
  destruct (log_certificate_events (tls_cert cfg) s4) as (w & ev & Hlog & _). unfold mbind, M_bind. rewrite Hlog. cbn.
  exists (if b2 then (if b1 then [] ++ [MinVersion TLS1_3_VERSION] else []) ++ [MaxVersion TLS1_3_VERSION]
          else if b1 then [] ++ [MinVersion TLS1_3_VERSION] else []).
  split; [|exact H4]. destruct b1, b2; cbn; repeat constructor.
Qed.

(** C32: [client_ctx] returns a new context on which exactly the settings of the configuration were made and
    succeeded: its trust file and verification whenever [verify_peer] asks for it, at least TLS 1.3 unless it
    carries a WebSocket. [server_ctx] returns a new context with the certificate and its key loaded and checked against each
    other, and nothing else set but limits of the protocol versions. Otherwise both throw, with every context
    they made freed. *)
Theorem contexts_as_configured s :
  ends (λ x s', live s' = mkContext x client_settings :: live s ∧ setup_events s' = setup_events s)
       (λ s', live s' = live s ∧ setup_events s' = setup_events s) (client_ctx s)
  ∧ ends (λ x s', ∃ v, v `sublist_of` [MinVersion TLS1_3_VERSION; MaxVersion TLS1_3_VERSION]
            ∧ live s' = mkContext x (v ++ [Chain (tls_cert cfg); PrivateKey (tls_key cfg); KeyChecked]) :: live s)
         (λ s', live s' = live s) (server_ctx s)
  ∧ (verify_peer cfg = true → VerifyPeer ∈ client_settings ∧ TrustFile (tls_ca cfg) ∈ client_settings)
  ∧ (text_is (transport cfg) "websocket" = false → MinVersion TLS1_3_VERSION ∈ client_settings).
Proof using Type.
  split; [apply client_ctx_ends|]. split; [apply server_ctx_ends|]. unfold client_settings, min_tls.
  split; intros ->; [|left]. destruct (text_is _ _); cbn; rewrite !elem_of_cons; naive_solver.
Qed.

(** A context that was made last is freed. *)
Lemma free_context_ends rest x l s : making rest x l s → ends (λ _ s', live s' = rest) (λ _, False) (free_context x s).
Proof using Type.
  unfold making, free_context, setup_call, mbind, M_bind. intros H. cbn. by rewrite H; cbn; rewrite Z.eqb_refl.
Qed.
End Contexts.
