(* ===== verification/Run.v ===== *)
(** * [run] (cdn/src/runtime.cpp)

    The whole of the tunnel process: the check of the secret files, the TUN
    device, the two threads beside the loop, the loop of the transport and mode
    that are configured, and the way all of it is wound down. The loops are
    those of TlsRun.v, RunLoop.v and PoolLoop.v, the contexts those of
    TlsContext.v, on one world. What the threads do is in Control.v and StatsLoop.v; here
    [running] says which of them were started and not joined. A thread that cannot be
    started is an exception of [std::thread], and one that is still joinable when its
    scope ends is the end of the process ([Terminated]). [g_state], signals and the
    lines written to [std::cerr] are left out. *)

From S2P Require Import Prelude.
From S2P Require Import Text Crypto Keys Pool Config Tun LoopOs Logging Outbox Transport Carrier CarrierLoop.
From S2P Require Import PoolLane PoolLoop RunLoop NetOs Dial TlsRun TlsContext.
From S2P Require Import CarrierProps DialProps TlsRunProps.

Inductive Thread := StatsLoop | ControlLoop.

(** How [run] ends: it returns, throws, or the process ends in [std::terminate]. *)
Inductive Ending := Returned | Threw (e : bytes) | Terminated.

(** The start of a thread and [std::random_device], which may throw
    [std::system_error] and the like; [done=true; g_stop=true]; the threads of the
    [AdmissionServer] of a listener begin, which may throw as well, and end. *)
Class ProcessOs (K : LoopOs) := {
  begin_thread : Thread → lworld → res unit * lworld;
  draw_seed : lworld → res unit * lworld;
  stop_everything : lworld → lworld;
  begin_admission : list bytes → Z → lworld → res unit * lworld;
  end_admission : lworld → lworld;
}.

Section Run.
Context {C : Crypto} {K : LoopOs} {Pt : Patience K} {N : NetOs K} {NP : NetPatience K} {TO : TlsRunOs K} {XO : ContextOs K}.
Context {R : Carrier} {RO : RunOs K} {T : Transport} {PO : PoolOs K} {IO : IterationOrder} {TS : TunSystem} {PrO : ProcessOs K}.
Context (cfg : Config).

(** [run] src/cdn/src/runtime.cpp:1427-1430 *)
Record Process := mkProcess {
  p_net : Net; p_stats : Stats; p_kinds : Reconnects; p_events : list bytes; p_rng : rng;
  p_tun : TunDevice; p_contexts : list Context; running : list Thread; finished : bool }.

Abbreviation Pr := (M Process).

Definition p_world (s : Process) : lworld := net (p_net s).

(** The part of the process that the loops work on. *)
Definition put_loop (n : Net) (st : Stats) (k : Reconnects) (ev : list bytes) (g : rng) (s : Process) : Process :=
  mkProcess n st k ev g (p_tun s) (p_contexts s) (running s) (finished s).
Definition put_tun (d : TunDevice) (s : Process) : Process :=
  mkProcess (p_net s) (p_stats s) (p_kinds s) (p_events s) (p_rng s) d (p_contexts s) (running s) (finished s).
Definition put_contexts (l : list Context) (s : Process) : Process :=
  mkProcess (p_net s) (p_stats s) (p_kinds s) (p_events s) (p_rng s) (p_tun s) l (running s) (finished s).
Definition put_threads (l : list Thread) (f : bool) (s : Process) : Process :=
  mkProcess (p_net s) (p_stats s) (p_kinds s) (p_events s) (p_rng s) (p_tun s) (p_contexts s) l f.

(** ** The components on the state of the process *)

Definition in_net {A} (m : M Net A) : Pr A :=
  zoom p_net (λ n s, put_loop n (p_stats s) (p_kinds s) (p_events s) (p_rng s) s) m.
Definition tell_world (f : lworld → lworld) : Pr unit := in_net (call (λ w, (tt, f w))).
Definition ask_world (f : lworld → res unit * lworld) : Pr unit :=
  r ← in_net (call f) ; match r with Ok _ => mret tt | Err e => throw e end.
Definition in_tun (m : M TunDevice unit) : Pr unit := λ s, let (r, d) := m (p_tun s) in (r, put_tun d s).
Definition note_event (text : bytes) : Pr unit := modify (λ s,
  put_loop (p_net s) (p_stats s) (p_kinds s) (push_event text (p_events s)) (p_rng s) s).

Definition in_contexts {A} (m : M TlsSetup A) : Pr A := λ s,
  let (r, t) := m (mkSetup (p_world s) (p_contexts s) (p_events s)) in
  (r, put_contexts (live t) (put_loop (with_net (setup_os t) (p_net s)) (p_stats s) (p_kinds s) (setup_events t) (p_rng s) s)).

Definition in_tls {A} (m : M TlsState A) : Pr A := λ s,
  let (r, t) := m (mkTlsState (p_net s) (p_stats s) (p_events s) (p_rng s) None None (reconnect_initial_ms cfg) []) in
  (r, put_loop (tls_net t) (tls_stats t) (p_kinds s) (tls_events t) (tls_entropy t) s).

(** The sessions of RunLoop.v, one connection after the other. *)
Definition in_sessions {A} (m : M RunState A) : Pr A := λ s,
  let (r, t) := m (mkRun (first_locals cfg (p_stats s)) (p_stats s) (p_kinds s) (p_events s) (p_world s) (p_rng s)) in
  (r, put_loop (with_net (run_os t) (p_net s)) (run_stats t) (kinds t) (run_events t) (run_rng t) s).

(** The pool of PoolLoop.v, with the windows of round trips it begins with. *)
Definition in_pool {A} (m : M PoolState A) : Pr A := λ s,
  let (r, t) := m (new_pool cfg (p_stats s) (Telemetry.mkHistory [] [] []) (p_events s) (p_world s)) in
  (r, put_loop (with_net (sh_os (shared t)) (p_net s)) (sh_stats (shared t)) (p_kinds s) (sh_events (shared t)) (p_rng s) s).

(** What happens at the end of a scope, whether it is left by an exception or not. *)
Definition at_end {A} (m : Pr A) (h : Pr unit) : Pr A := λ s, let (r, s') := m s in (r, (h s').2).

(** ** The transports *)

Section Branches.
Context (sessions : list nat) (rounds : nat).

(** [run] src/cdn/src/runtime.cpp:1434-1436 *)
Definition run_tls_server : Pr unit :=
  x ← in_contexts (server_ctx cfg) ;
  in_tls (tls_server cfg sessions) ;;
  in_contexts (free_context x).

(** [run] src/cdn/src/runtime.cpp:1438-1438 *)
Definition run_tls_client : Pr unit :=
  x ← in_contexts (client_ctx cfg) ;
  in_tls (tls_client cfg sessions) ;;
  in_contexts (free_context x).

(** The constructor: it closes the listener when it throws. Of the limits it checks
    only the size of the pool depends on the configuration.
    [AdmissionServer] src/cdn/src/admission.cpp:9-13 *)
Definition construct_admission (lfd : Z) (psks : list bytes) : Pr unit :=
  if (max_connections cfg <? 1) || (4 <? max_connections cfg) then
    in_net (close_fd lfd) ;; throw (str "invalid admission limits")
  else on_error (ask_world (begin_admission psks lfd)) (in_net (close_fd lfd)).

(** The scope of [admission] and the loop in it.
    [run] src/cdn/src/runtime.cpp:1444-1464 *)
Definition run_admitted (lfd : Z) (psks : list bytes) : Pr unit :=
  construct_admission lfd psks ;;
  at_end
    (if 1 <? max_connections cfg then in_pool (pool_tunnel_loop cfg true rounds)
     else if max_connections cfg =? 1 then in_sessions (server_loop cfg sessions) else mret tt)
    (tell_world end_admission ;; in_net (close_fd lfd)).

(** [run] src/cdn/src/runtime.cpp:1441-1464 *)
Definition run_websocket_server : Pr unit :=
  lfd ← in_net (listen_tcp (listen cfg) (listen_backlog cfg)) ;
  tell_world (set_phase 2) ;;
  psks ← in_tls (server_psks cfg) ;
  run_admitted lfd psks.

(** The context, if there is one, with its deleter.
    [run] src/cdn/src/runtime.cpp:1467-1467 *)
Definition optional_context : Pr (option Z) :=
  if websocket_tls cfg && text_is (tls_backend cfg) "openssl" then x ← in_contexts (client_ctx cfg) ; mret (Some x)
  else mret None.
Definition free_optional (x : option Z) : Pr unit :=
  match x with Some x => in_contexts (free_context x) | None => mret tt end.

(** [run] src/cdn/src/runtime.cpp:1467-1538 *)
Definition run_websocket_client : Pr unit :=
  x ← optional_context ;
  at_end
    (if 1 <? max_connections cfg then in_pool (pool_tunnel_loop cfg false rounds)
     else if max_connections cfg =? 1 then in_sessions (client_loop cfg sessions) else mret tt)
    (free_optional x).

(** The body of the [try].
    [run] src/cdn/src/runtime.cpp:1432-1542 *)
Definition run_transport : Pr unit :=
  if text_is (transport cfg) "tls" then
    if text_is (mode cfg) "server" then run_tls_server else run_tls_client
  else if text_is (transport cfg) "websocket" then
    if text_is (mode cfg) "server" then run_websocket_server else run_websocket_client
  else throw (str "unsupported transport").

(** [done=true;g_stop=true;if(sl.joinable())sl.join();if(cl.joinable())cl.join();]
    [run] src/cdn/src/runtime.cpp:1543-1544 *)
Definition wind_down : Pr unit :=
  tell_world stop_everything ;; modify (put_threads [] true).

(** [std::thread sl(...); std::thread cl(...);]
    [run] src/cdn/src/runtime.cpp:1428-1429 *)
Definition start_thread (t : Thread) : Pr unit :=
  ask_world (begin_thread t) ;; modify (λ s, put_threads (running s ++ [t]) (finished s) s).

(** The two threads and the generator, before the [try].
    [run] src/cdn/src/runtime.cpp:1428-1430 *)
Definition start_threads : Pr unit :=
  start_thread StatsLoop ;; start_thread ControlLoop ;; ask_world draw_seed.

(** What follows the threads.
    [run] src/cdn/src/runtime.cpp:1430-1544 *)
Definition run_started : Pr unit :=
  (if text_is (transport cfg) "websocket" then mret tt else tell_world (set_phase 10)) ;;
  note_event (str "started mode=" ++ mode cfg ++ str " transport=" ++ transport cfg) ;;
  on_error run_transport wind_down ;;
  wind_down ;;
  note_event (str "stopped").

(** What follows the TUN device.
    [run] src/cdn/src/runtime.cpp:1423-1544 *)
Definition run_with_tun : Pr unit := tell_world (set_phase 1) ;; start_threads ;; run_started.

(** The scope of [sl] and [cl]: the destructor of a thread that is still joinable
    ends the process.
    [run] src/cdn/src/runtime.cpp:1428-1544 *)
Definition thread_scope (m : Pr unit) : Process → Ending * Process := λ s,
  let (r, s') := m s in
  match running s', r with
  | [], Ok _ => (Returned, s')
  | [], Err e => (Threw e, s')
  | _ :: _, _ => (Terminated, s')
  end.

(** The scope of [tun]; nothing is destroyed after [std::terminate].
    [run] src/cdn/src/runtime.cpp:1423-1544 *)
Definition tun_scope (s : Process) : Ending * Process :=
  match thread_scope run_with_tun s with
  | (Terminated, s') => (Terminated, s')
  | (x, s') => (x, put_tun (destruct_tun (p_tun s')) s')
  end.

(** The secrets are private and the device is there.
    [run] src/cdn/src/runtime.cpp:1422-1423 *)
Definition open_device : Pr unit :=
  in_net (check_secret_permissions cfg) ;; in_tun (construct (dev cfg) (cidr cfg) (peer_cidr cfg) (mtu cfg)).

(** [run] src/cdn/src/runtime.cpp:1419-1545 *)
Definition run (s : Process) : Ending * Process :=
  match open_device s with
  | (Ok _, s') => tun_scope s'
  | (Err e, s') => (Threw e, s')
  end.

(** ** What is left when it ends *)

(** The part of the process that the loops do not touch, and its contexts. *)
Definition beside (d : TunDevice) (l : list Thread) (f : bool) (s : Process) : Prop :=
  p_tun s = d ∧ running s = l ∧ finished s = f.
Definition with_contexts (c : list Context) (s : Process) : Prop := p_contexts s = c.

Section Keeps.
Context (P : Process → Prop).
Hypothesis P_loop : ∀ n st k ev g s, P s → P (put_loop n st k ev g s).

Lemma in_net_keeps {A} (m : M Net A) : keeps P (in_net m).
Proof using P_loop. intros s Hs. unfold in_net, zoom. destruct (m (p_net s)). by apply P_loop. Qed.
Lemma tell_world_keeps f : keeps P (tell_world f).
Proof using P_loop. apply in_net_keeps. Qed.
Lemma ask_world_keeps f : keeps P (ask_world f).
Proof using P_loop. unfold ask_world. apply keeps_bind; [apply in_net_keeps|intros []; keep]. Qed.
Lemma note_event_keeps text : keeps P (note_event text).
Proof using P_loop. apply keeps_modify. intros s. apply P_loop. Qed.
Lemma in_tls_keeps {A} (m : M TlsState A) : keeps P (in_tls m).
Proof using P_loop. intros s Hs. unfold in_tls. destruct (m _). by apply P_loop. Qed.
Lemma in_sessions_keeps {A} (m : M RunState A) : keeps P (in_sessions m).
Proof using P_loop. intros s Hs. unfold in_sessions. destruct (m _). by apply P_loop. Qed.
Lemma in_pool_keeps {A} (m : M PoolState A) : keeps P (in_pool m).
Proof using P_loop. intros s Hs. unfold in_pool. destruct (m _). by apply P_loop. Qed.
Lemma on_error_keeps {A} (m : Pr A) (h : Pr unit) : keeps P m → keeps P h → keeps P (on_error m h).
Proof using Type.
  intros Hm Hh s Hs. unfold on_error. specialize (Hm s Hs). destruct (m s) as [[a|e] s']; [done|].
  specialize (Hh s' Hm). by destruct (h s').
Qed.
Lemma at_end_keeps {A} (m : Pr A) (h : Pr unit) : keeps P m → keeps P h → keeps P (at_end m h).
Proof using Type. intros Hm Hh s Hs. unfold at_end. specialize (Hm s Hs). destruct (m s). by apply Hh. Qed.
End Keeps.

Lemma beside_loop d l f n st k ev g s : beside d l f s → beside d l f (put_loop n st k ev g s).
Proof using Type. done. Qed.
Lemma contexts_loop c n st k ev g s : with_contexts c s → with_contexts c (put_loop n st k ev g s).
Proof using Type. done. Qed.
Hint Resolve beside_loop contexts_loop in_net_keeps tell_world_keeps ask_world_keeps note_event_keeps in_tls_keeps in_sessions_keeps
  in_pool_keeps at_end_keeps on_error_keeps : pt.

Lemma in_contexts_beside {A} d l f (m : M TlsSetup A) : keeps (beside d l f) (in_contexts m).
Proof using Type. intros s Hs. unfold in_contexts. by destruct (m _). Qed.
Hint Resolve @in_contexts_beside : pt.

Lemma run_transport_beside d l f : keeps (beside d l f) run_transport.
Proof using Type.
  unfold run_transport, run_tls_server, run_tls_client, run_websocket_server, run_admitted, construct_admission, run_websocket_client, optional_context, free_optional.
  keep; destruct a; keep.
Qed.
(** *** Contexts *)

(** A context is made, in front of those that were there, or none. *)
Definition one_more (c : list Context) (x : Z) (s : Process) : Prop := ∃ l, p_contexts s = mkContext x l :: c.

Lemma in_contexts_ends {A} (Q : A → TlsSetup → Prop) (E : TlsSetup → Prop) (Q' : A → Process → Prop) (E' : Process → Prop)
    (m : M TlsSetup A) s :
  ends Q E (m (mkSetup (p_world s) (p_contexts s) (p_events s))) →
  (∀ a t s', Q a t → p_contexts s' = live t → Q' a s') → (∀ t s', E t → p_contexts s' = live t → E' s') →
  ends Q' E' (in_contexts m s).
Proof using Type.
  intros H HQ HE. unfold in_contexts. destruct (m _) as [[a|e] t]; cbn in *; [by eapply HQ|by eapply HE].
Qed.

Lemma client_context_made c s :
  with_contexts c s → ends (one_more c) (with_contexts c) (in_contexts (client_ctx cfg) s).
Proof using Type.
  unfold with_contexts, one_more. intros H. eapply in_contexts_ends; [apply client_ctx_ends|cbn..].
  - intros x t s' [Hl _] ->. rewrite Hl, H. eauto.
  - intros t s' [Hl _] ->. congruence.
Qed.

Lemma server_context_made c s :
  with_contexts c s → ends (one_more c) (with_contexts c) (in_contexts (server_ctx cfg) s).
Proof using Type.
  unfold with_contexts, one_more. intros H. eapply in_contexts_ends; [apply server_ctx_ends|cbn..].
  - intros x t s' (v & _ & Hl) ->. rewrite Hl, H. eauto.
  - intros t s' Hl ->. congruence.
Qed.

Lemma context_freed c x s : one_more c x s → ends (λ _, with_contexts c) (λ _, False) (in_contexts (free_context x) s).
Proof using Type.
  intros [l H]. eapply in_contexts_ends; [by apply (free_context_ends c x l)|cbn|done]. unfold with_contexts. congruence.
Qed.

(** The loops leave the contexts alone. *)
Lemma kept_ends {A} (P : Process → Prop) (m : Pr A) s : keeps P m → P s → ends (λ _, P) P (m s).
Proof using Type. intros Hm Hs. specialize (Hm s Hs). by destruct (m s) as [[]]. Qed.

Lemma one_more_loop c x n st k ev g s : one_more c x s → one_more c x (put_loop n st k ev g s).
Proof using Type. done. Qed.
Hint Resolve one_more_loop : pt.

(** Made, used and freed by the TLS transport: what is thrown in between leaves it. *)
Lemma with_context_ends c (make : Pr Z) (use : Pr unit) s :
  with_contexts c s → ends (one_more c) (with_contexts c) (make s) → (∀ x, keeps (one_more c x) use) →
  ends (λ _, with_contexts c) (λ _, True) ((x ← make ; use ;; in_contexts (free_context x)) s).
Proof using Type.
  intros Hs Hm Hu. eapply ends_bind; [by eapply ends_weaken; [exact Hm|intros x s' H; exact H|]|].
  intros x s1 H1. apply (ends_bind (λ _, one_more c x)); [by eapply ends_weaken; [by apply (kept_ends (one_more c x)); [apply Hu|]|..]|].
  intros [] s2 H2. eapply ends_weaken; [by apply context_freed|done|done].
Qed.

(** Made if it is asked for, and freed at the end of the scope. *)
Lemma client_contexts_kept c : keeps (with_contexts c) run_websocket_client.
Proof using Type.
  intros s Hs. unfold run_websocket_client, optional_context. destruct (websocket_tls cfg && _).
  - unfold mbind, M_bind. pose proof (client_context_made c s Hs) as H. destruct (in_contexts _ s) as [[x|e] s1]; [|done].
    unfold mret, M_ret, at_end, free_optional. cbn in H.
    match goal with |- context [let (_, _) := ?m s1 in _] => assert (H2 : one_more c x (m s1).2); [|destruct (m s1) as [r s2]] end.
    { apply (keeps_at (one_more c x)); [|exact H]. keep; by intros ?. }
    cbn in *. pose proof (context_freed c x s2 H2) as H3. by destruct (in_contexts _ s2) as [[]].
  - change (with_contexts c (at_end (if 1 <? max_connections cfg then in_pool (pool_tunnel_loop cfg false rounds)
      else if max_connections cfg =? 1 then in_sessions (client_loop cfg sessions) else mret tt) (mret tt) s).2).
    apply (keeps_at (with_contexts c)); [|done]. keep.
Qed.

Lemma run_transport_contexts c s :
  with_contexts c s → ends (λ _, with_contexts c) (λ s', text_is (transport cfg) "tls" = false → with_contexts c s') (run_transport s).
Proof using Type.
  intros Hs. unfold run_transport. destruct (text_is (transport cfg) "tls").
  - assert (Htls : ends (λ _, with_contexts c) (λ _, True) ((if text_is (mode cfg) "server" then run_tls_server else run_tls_client) s));
      [|by eapply ends_weaken; [exact Htls|..]].
    destruct (text_is (mode cfg) "server");
      [apply (with_context_ends c (in_contexts (server_ctx cfg)) (in_tls (tls_server cfg sessions)))
      |apply (with_context_ends c (in_contexts (client_ctx cfg)) (in_tls (tls_client cfg sessions)))];
      try done; try (by apply server_context_made); try (by apply client_context_made); intros x; keep.
  - eapply ends_weaken; [apply (kept_ends (with_contexts c)); [|exact Hs]|done|done].
    destruct (text_is (transport cfg) "websocket"); [|keep]. destruct (text_is (mode cfg) "server"); [|apply client_contexts_kept].
    unfold run_websocket_server, run_admitted, construct_admission. keep.
Qed.
(** *** The end *)

Lemma construct_failed d e d' :
  construct (dev cfg) (cidr cfg) (peer_cidr cfg) (mtu cfg) d = (Err e, d') → tun_open d = false → tun_open d' = false.
Proof using Type.
  unfold construct, pure_call, mbind, M_bind, modify. destruct (validate_tun_inputs _ _ _ _); [|by intros [= _ <-]].
  cbn. destruct open_tun; [by intros [= _ <-]|]. destruct (tunsetiff _); [|by intros [= _ <-]].
  unfold on_error. destruct (configure_tun _ _ _ _) as [[] d1]; [done|]. by intros [= _ <-].
Qed.

Lemma open_device_keeps s r s1 :
  open_device s = (r, s1) → running s1 = running s ∧ finished s1 = finished s ∧ p_contexts s1 = p_contexts s.
Proof using Type.
  unfold open_device, in_net, in_tun, zoom, mbind, M_bind. destruct (check_secret_permissions _ _) as [[[]|e] n]; [|by intros [= _ <-]].
  destruct (construct _ _ _ _ _). by intros [= _ <-].
Qed.

Lemma open_device_failed s e s1 : open_device s = (Err e, s1) → tun_open (p_tun s) = false → tun_open (p_tun s1) = false.
Proof using Type.
  unfold open_device, in_net, in_tun, zoom, mbind, M_bind. destruct (check_secret_permissions _ _) as [[[]|e'] n]; [|by intros [= _ <-]].
  destruct (construct _ _ _ _ _) as [r d] eqn:Hd. intros [= -> <-]. by apply (construct_failed _ _ _ Hd).
Qed.

Lemma destruct_tun_closes d : tun_open (destruct_tun d) = false.
Proof using Type. unfold destruct_tun. by destruct (tun_open d) eqn:H. Qed.

Lemma last_event text l : last (push_event text l) = Some text.
Proof using Type. unfold push_event. by rewrite last_snoc. Qed.

(** However the loop ends, it is wound down: then "stopped" is noted, or the exception goes on. *)
Definition wound_down (d : TunDevice) (c : list Context) (r : res unit) (s' : Process) : Prop :=
  p_tun s' = d ∧ running s' = [] ∧ finished s' = true ∧ (r = Ok tt → last (p_events s') = Some (str "stopped"))
  ∧ (r = Ok tt ∨ text_is (transport cfg) "tls" = false → p_contexts s' = c).

Lemma transport_wound_down d l f c s :
  beside d l f s → with_contexts c s →
  let (r, s') := (on_error run_transport wind_down ;; wind_down ;; note_event (str "stopped")) s in wound_down d c r s'.
Proof using Type.
  intros Hb Hc. pose proof (run_transport_beside d l f s Hb) as Hb'. pose proof (run_transport_contexts c s Hc) as Hc'.
  unfold mbind, M_bind, on_error. destruct (run_transport s) as [[[]|e] s1]; cbn in *; unfold wound_down; cbn.
  - destruct Hb' as (? & _). repeat split; try done. intros _. apply last_event.
  - destruct Hb' as (? & _). repeat split; try done. intros [?|?]; [done|]. by apply Hc'.
Qed.

(** The start of the threads: all is there, or an exception with some of them running. *)
Definition start_failed (e : bytes) (l : list Thread) : Prop :=
  ∃ w w', (l = [] ∧ begin_thread StatsLoop w = (Err e, w'))
    ∨ (l = [StatsLoop] ∧ begin_thread ControlLoop w = (Err e, w'))
    ∨ (l = [StatsLoop; ControlLoop] ∧ draw_seed w = (Err e, w')).

Lemma ask_world_ends d l f c (g : lworld → res unit * lworld) s :
  beside d l f s → with_contexts c s →
  let (r, s') := ask_world g s in
  beside d l f s' ∧ with_contexts c s' ∧ ∀ e, r = Err e → ∃ w w', g w = (Err e, w').
Proof using Type.
  intros Hb Hc. unfold ask_world, in_net, zoom, call, mbind, M_bind. destruct (g _) as [[u|e] w] eqn:Hg;
    (split; [done|]); (split; [done|]); intros e' [=]; subst. by eexists _, _.
Qed.

Lemma start_thread_ends d l f c t s :
  beside d l f s → with_contexts c s →
  let (r, s') := start_thread t s in
  with_contexts c s'
  ∧ match r with
    | Ok _ => beside d (l ++ [t]) f s'
    | Err e => beside d l f s' ∧ ∃ w w', begin_thread t w = (Err e, w')
    end.
Proof using Type.
  intros Hb Hc. pose proof (ask_world_ends d l f c (begin_thread t) s Hb Hc) as H.
  unfold start_thread, mbind, M_bind, modify. destruct (ask_world _ s) as [[u|e] s1]; destruct H as ((Ht & Hr & Hf) & Hc1 & He).
  - split; [done|]. unfold beside. cbn. by rewrite Hr.
  - split; [done|]. split; [done|]. by apply He.
Qed.

Lemma start_threads_ends s :
  running s = [] →
  match start_threads s with
  | (Ok _, s') => beside (p_tun s) [StatsLoop; ControlLoop] (finished s) s' ∧ with_contexts (p_contexts s) s'
  | (Err e, s') => p_tun s' = p_tun s ∧ finished s' = finished s ∧ p_contexts s' = p_contexts s ∧ start_failed e (running s')
  end.
Proof using Type.
  intros Hr. unfold start_threads, mbind, M_bind.
  pose proof (start_thread_ends (p_tun s) [] (finished s) (p_contexts s) StatsLoop s ltac:(done) eq_refl) as H1.
  destruct (start_thread StatsLoop s) as [[u|e] s1]; destruct H1 as [Hc1 H1].
  2:{ destruct H1 as ((? & Hl & ?) & w & w' & Hw). repeat (split; [done|]). rewrite Hl. exists w, w'. by left. }
  pose proof (start_thread_ends _ _ _ _ ControlLoop s1 H1 Hc1) as H2.
  destruct (start_thread ControlLoop s1) as [[u'|e] s2]; destruct H2 as [Hc2 H2].
  2:{ destruct H2 as ((? & Hl & ?) & w & w' & Hw). repeat (split; [done|]). rewrite Hl. exists w, w'. by right; left. }
  pose proof (ask_world_ends _ _ _ _ draw_seed s2 H2 Hc2) as H3.
  destruct (ask_world draw_seed s2) as [[u''|e] s3]; destruct H3 as ((? & Hl & ?) & Hc3 & He); [done|].
  destruct (He e eq_refl) as (w & w' & Hw). repeat (split; [done|]). rewrite Hl. exists w, w'. by right; right.
Qed.

Lemma run_with_tun_ends s :
  running s = [] →
  match start_threads (tell_world (set_phase 1) s).2 with
  | (Ok _, _) => let (r, s') := run_with_tun s in wound_down (p_tun s) (p_contexts s) r s'
  | (Err e, s2) => run_with_tun s = (Err e, s2)
  end.
Proof using Type.
  intros Hr. set (s1 := (tell_world (set_phase 1) s).2).
  assert (Hrun : run_with_tun s = match start_threads s1 with (Ok _, s2) => run_started s2 | (Err e, s2) => (Err e, s2) end)
    by (change (run_with_tun s) with ((start_threads ;; run_started) s1); unfold mbind, M_bind; by destruct (start_threads s1) as [[[]|] ?]).
  rewrite Hrun. pose proof (start_threads_ends s1 Hr) as H. destruct (start_threads s1) as [[u|e] s2]; [|done].
  change (p_tun s1) with (p_tun s) in H. change (p_contexts s1) with (p_contexts s) in H. destruct H as [Hb Hc].
  unfold run_started. unfold mbind at 1 2, M_bind at 1 2. unfold note_event at 1, modify at 1.
  destruct (text_is (transport cfg) "websocket");
    apply (transport_wound_down (p_tun s) [StatsLoop; ControlLoop] (finished s1)); done.
Qed.

(** C31: how [run] ends. When the secrets are not private, or the device cannot be made, it throws that error before
    a thread is started or a context is made. When the thread of [stats_loop] cannot be started, it throws that error,
    and the device is closed. Once that thread runs, a failing start of the other, or of the random generator, ends the
    process in [std::terminate], with nothing wound down. Otherwise the threads are told to stop and joined on every
    path and the device is closed; a normal return is noted as "stopped" with every TLS context freed, and so are they
    when an exception ends a WebSocket process. *)
Theorem run_winds_down s :
  running s = [] → tun_open (p_tun s) = false →
  let (r, s') := run s in
  match open_device s with
  | (Err e, s1) => r = Threw e ∧ s' = s1 ∧ running s' = [] ∧ tun_open (p_tun s') = false
      ∧ finished s' = finished s ∧ p_contexts s' = p_contexts s
  | (Ok _, s1) =>
      match start_threads (tell_world (set_phase 1) s1).2 with
      | (Err e, s2) =>
          start_failed e (running s2)
          ∧ if (length (running s2) =? 0)%nat
            then r = Threw e ∧ s' = put_tun (destruct_tun (p_tun s2)) s2 ∧ tun_open (p_tun s') = false
                 ∧ finished s' = finished s ∧ p_contexts s' = p_contexts s
            else r = Terminated ∧ s' = s2
      | (Ok _, _) =>
          r ≠ Terminated ∧ running s' = [] ∧ tun_open (p_tun s') = false ∧ finished s' = true
          ∧ (r = Returned → last (p_events s') = Some (str "stopped"))
          ∧ (r = Returned ∨ text_is (transport cfg) "tls" = false → p_contexts s' = p_contexts s)
      end
  end.
Proof using Type.
  intros Hr Ht. unfold run. destruct (open_device s) as [[u|e] s1] eqn:Ho.
  - assert (Hs1 : running s1 = [] ∧ finished s1 = finished s ∧ p_contexts s1 = p_contexts s)
      by (apply open_device_keeps in Ho; by destruct Ho as (-> & -> & ->)).
    destruct Hs1 as (Hr1 & <- & <-). unfold tun_scope, thread_scope.
    pose proof (run_with_tun_ends s1 Hr1) as H.
    pose proof (start_threads_ends (tell_world (set_phase 1) s1).2 Hr1) as Hstart.
    destruct (start_threads _) as [[u'|e] s2].
    + destruct (run_with_tun s1) as [[[]|e] s3]; destruct H as (_ & Hrun & Hfin & Hlast & Hctx); rewrite Hrun; cbn;
        (split; [done|]); (split; [done|]); (split; [apply destruct_tun_closes|]); (split; [done|]).
      * split; [by intros _; apply Hlast|]. intros _. apply Hctx. by left.
      * split; [done|]. intros [?|?]; [done|]. apply Hctx. by right.
    + rewrite H. destruct Hstart as (_ & Hf & Hc & Hfail). destruct (running s2) as [|t ts] eqn:Hl; cbn; (split; [done|]); [|done].
      split; [done|]. split; [done|]. split; [apply destruct_tun_closes|done].
  - pose proof (open_device_keeps _ _ _ Ho) as (Hr1 & Hf1 & Hc1).
    split; [done|]. split; [done|]. split; [congruence|]. split; [by eapply open_device_failed|done].
Qed.
End Branches.
End Run.

(** ** Witness *)

(** A WebSocket client whose dials fail, on the world of TlsRunProps.v. *)
Module ProcessDemo.
Import Toy World ConfigDemo DialDemo TlsRunDemo.

#[export] Instance context_os : ContextOs slow := {|
  context_new _ w := (Some 50, w);
  context_set _ _ w := (true, w);
  context_always _ _ w := w;
  context_free _ w := w;
  read_certificate _ w := (None, w);
|}.

#[export] Instance failing : RunOs (R := CarrierDemo.mailbox) slow := {|
  dial_now w := (Err (str "connect failed"), w);
  begin_trial _ w := (Ok tt, w);
  trial_ready w := (false, w);
  trial_outcome w := (Err (str "connect failed"), w);
  read_phase w := (3, w);
  set_phase _ w := w;
  sleep_ms _ w := w;
  take_admitted w := (None, w);
  next_admitted w := (false, w);
|}.

#[export] Instance no_pool : PoolOs (C := crypto) (T := Loop.transport) slow := {|
  poll_pool _ _ _ w := (PoolPollInterrupted, w);
  server_ready w := (false, w);
  server_take w := (None, w);
  begin_dial w := (Ok tt, w);
  dial_outcome w := (None, w);
  nonblock_fails w := (false, w);
  current_phase w := (0, w);
  ready_bound _ := 0%nat;
|}.

#[export] Instance process_os : ProcessOs slow := {|
  begin_thread _ w := (Ok tt, w); draw_seed w := (Ok tt, w);
  stop_everything w := w; begin_admission _ _ w := (Ok tt, w); end_admission w := w |}.

(** The same where only one thread can be started. *)
Definition one_thread : ProcessOs slow := {|
  begin_thread t w := (match t with StatsLoop => Ok tt | ControlLoop => Err (str "Resource temporarily unavailable") end, w);
  draw_seed w := (Ok tt, w);
  stop_everything w := w; begin_admission _ _ w := (Ok tt, w); end_admission w := w |}.

Definition fresh : Process (C := crypto) (K := slow) :=
  mkProcess (start 0) new_stats (reconnect_counts 0 0 0 0 0 0 0) [] 5 (mkTun false [] []) [] [] false.

Abbreviation ran_client := (run (R := CarrierDemo.mailbox) (TS := TunDemo.system) (T := Loop.transport) (PO := no_pool) (IO := PoolDemo.by_key) client_config [1; 1]%nat 0 fresh).

Example client_ran :
  (ran_client.1, p_events ran_client.2, length (ran (p_tun ran_client.2)))
  = (Returned, [str "started mode=client transport=websocket"; str "failure stage=TCP_CONNECTING code=TCP_CONNECT_FAILED";
            str "failure stage=TCP_CONNECTING code=TCP_CONNECT_FAILED"; str "stopped"], 4%nat).
Proof. vm_compute. reflexivity. Qed.

Example client_terminated :
  let x := run (R := CarrierDemo.mailbox) (TS := TunDemo.system) (T := Loop.transport) (PO := no_pool) (IO := PoolDemo.by_key)
             (PrO := one_thread) client_config [1; 1]%nat 0 fresh in
  (x.1, running x.2, tun_open (p_tun x.2)) = (Terminated, [StatsLoop], true).
Proof. vm_compute. reflexivity. Qed.
End ProcessDemo.

Section Witnesses.
Import Toy World ConfigDemo DialDemo TlsRunDemo ProcessDemo.

Lemma run_winds_down_witness :
  ran_client.1 = Returned ∧ running ran_client.2 = [] ∧ finished ran_client.2 = true ∧ p_contexts ran_client.2 = [].
Proof.
  assert (Hr : ran_client.1 = Returned) by (vm_compute; reflexivity). split; [exact Hr|].
  pose proof (run_winds_down (R := CarrierDemo.mailbox) (TS := TunDemo.system) (T := Loop.transport) (PO := no_pool)
    (IO := PoolDemo.by_key) client_config [1; 1]%nat 0 fresh eq_refl eq_refl) as H.
  assert (Ho : (open_device (TS := TunDemo.system) client_config fresh).1 = Ok tt) by (vm_compute; reflexivity).
  assert (Hs : (start_threads (tell_world (set_phase (R := CarrierDemo.mailbox) 1)
    (open_device (TS := TunDemo.system) client_config fresh).2).2).1 = Ok tt) by (vm_compute; reflexivity).
  destruct ran_client as [r s']. cbn in Hr. subst r.
  destruct (open_device client_config fresh) as [o s1]. cbn in Ho, Hs. subst o.
  destruct (start_threads _) as [o s2]. cbn in Hs. subst o. destruct H as (_ & H1 & _ & H2 & _ & H3).
  split; [exact H1|]. split; [exact H2|]. apply H3. left. reflexivity.
Defined.
End Witnesses.
