(* ===== verification/Control.v ===== *)
(** * The control socket (cdn/src/runtime.cpp, [control_loop] and [control_command])

    A thread of the process answers one request per connection on a local socket:
    reports for everybody, and two orders, to reconnect and to stop, for root and the user of the
    process. The texts of the reports, which print counters, are parameters; time limits of the
    connection and the lines written to [std::cerr] are left out. [orders], what was ordered by whom, is
    not in the code. *)

From S2P Require Import Prelude.
From S2P Require Import Text Crypto Config Tun LoopOs NetOs Dial DialProps.

(** [send]: bytes taken, [EINTR], or another failure. *)
Inductive SendCall := SendSome (n : nat) | SendInterrupted | SendBroken.

Class ControlOs (K : LoopOs) := {
  done_flag : lworld → bool * lworld;
  (** [unlink], [bind] with [listen], [chmod] of the path *)
  unlink_path : bytes → lworld → lworld;
  bind_path : Z → bytes → lworld → bool * lworld;
  chmod_path : bytes → Z → lworld → lworld;
  (** the user id of [SO_PEERCRED], and [geteuid] *)
  peer_uid : Z → lworld → option Z * lworld;
  effective_uid : Z;
  (** the outcomes of the calls of [send] for one answer; a blocking [write] and [read] *)
  send_calls : Z → lworld → list SendCall * lworld;
  write_all : Z → bytes → lworld → bool * lworld;
  (** [g_force_disconnect = true], and [g_stop = true] with [g_state] and [g_phase] *)
  raise_disconnect : lworld → lworld;
  raise_stop : lworld → lworld;
}.

(** [readable_status], [overview_text], [status_text] and [health_text] when a request is answered. *)
Class Reports (K : LoopOs) := {
  readable_status : lworld → bytes;
  overview_text : lworld → bytes;
  status_text : lworld → bytes;
  health_text : lworld → bytes;
  recent_events : lworld → list bytes;
}.

Inductive Order := OrderReconnect | OrderStop.

Section Control.
Context {K : LoopOs} {N : NetOs K} {CO : ControlOs K} {P : Reports K} (cfg : Config).

Record Control := mkControl { ctl_net : Net; orders : list (option Z * Order) }.
Abbreviation Ct := (M Control).

Definition ctl_call {A} (m : M Net A) : Ct A := zoom ctl_net (λ n s, mkControl n (orders s)) m.
Definition ctl_tell (f : lworld → lworld) : Ct unit := ctl_call (call (λ w, (tt, f w))).

(** [events_text] src/cdn/src/runtime.cpp:979-979 *)
Definition events_text (events : list bytes) : bytes := events ≫= λ e, e ++ [10].

(** [privileged]: root, or the user of the process; nobody when the credentials cannot be read.
    [control_loop] src/cdn/src/runtime.cpp:981-981 *)
Definition privileged (uid : option Z) : bool :=
  match uid with Some u => (u =? 0) || (u =? effective_uid) | None => false end.

(** The request without its line ends; nothing when the read failed.
    [control_loop] src/cdn/src/runtime.cpp:981-981 *)
Definition command_of (r : TunRead) : bytes :=
  match r with TunPacket b => List.filter (λ c, negb (c =? 10)) b | _ => [] end.

(** What a request orders, and its answer.
    [control_loop] src/cdn/src/runtime.cpp:981-984 *)
Definition answer (privilege : bool) (cmd : bytes) (w : lworld) : option Order * bytes :=
  let denied := (None, str "error permission denied" ++ [10]) in
  if text_is cmd "status" then (None, readable_status w ++ [10])
  else if text_is cmd "overview" then (None, overview_text w)
  else if text_is cmd "stats" then (None, status_text w)
  else if text_is cmd "health" then (None, health_text w)
  else if text_is cmd "events" then (None, events_text (recent_events w))
  else if text_is cmd "diagnose" then
    (None, overview_text w ++ [10] ++ str "--- Detailed metrics (for support/benchmarking) ---" ++ [10] ++ status_text w
           ++ str "origin_family_note=the foreign PaceTun socket is Nginx loopback; verify external IPv6 on Nginx port 443 with ss -6" ++ [10])
  else if text_is cmd "reconnect" then
    if privilege then (Some OrderReconnect, str "ok reconnect requested" ++ [10]) else denied
  else if text_is cmd "stop" then
    if privilege then (Some OrderStop, str "ok stopping" ++ [10]) else denied
  else (None, str "error commands: overview status stats health events diagnose reconnect stop" ++ [10]).

(** [g_force_disconnect=true], or [g_stop=true] with [g_state] and [g_phase].
    [control_loop] src/cdn/src/runtime.cpp:984-984 *)
Definition carry_out (uid : option Z) (order : option Order) : Ct unit :=
  match order with
  | None => mret tt
  | Some o =>
      modify (λ s, mkControl (ctl_net s) (orders s ++ [(uid, o)])) ;;
      ctl_tell (match o with OrderReconnect => raise_disconnect | OrderStop => raise_stop end)
  end.

(** How much of the answer is sent.
    [control_loop] src/cdn/src/runtime.cpp:984-984 *)
Fixpoint send_answer (calls : list SendCall) (left : nat) : nat :=
  match left, calls with
  | O, _ | _, [] | _, SendBroken :: _ => 0
  | _, SendInterrupted :: calls => send_answer calls left
  | _, SendSome O :: _ => 0
  | _, SendSome n :: calls => n + send_answer calls (left - n)
  end.

(** One accepted connection; the answer that was sent.
    [control_loop] src/cdn/src/runtime.cpp:981-984 *)
Definition control_request (c : Z) : Ct bytes :=
  uid ← ctl_call (call (peer_uid c)) ;
  r ← ctl_call (call (receive c 127)) ;
  s ← gets id ;
  let (order, out) := answer (privileged uid) (command_of r) (net (ctl_net s)) in
  carry_out uid order ;;
  calls ← ctl_call (call (send_calls c)) ;
  ctl_call (close_fd c) ;;
  mret (take (send_answer calls (length out)) out).

(** One turn of [while(!done&&!g_stop)].
    [control_loop] src/cdn/src/runtime.cpp:981-981 *)
Definition control_turn (fd : Z) : Ct unit :=
  pr ← ctl_call (call (poll_one fd (mkEvents true false) 250)) ;
  match pr with
  | PollReady _ _ _ =>
      got ← ctl_call (call (accept_socket fd)) ;
      match got with
      | Some (Some c) => ctl_call (obtained c) ;; control_request c ;; mret tt
      | _ => mret tt
      end
  | _ => mret tt
  end.

(** [while(!done&&!g_stop)]
    [control_loop] src/cdn/src/runtime.cpp:981-981 *)
Fixpoint control_turns (turns : nat) (fd : Z) : Ct unit :=
  match turns with
  | O => mret tt
  | S n =>
      finished ← ctl_call (call done_flag) ;
      stop ← (if (finished : bool) then mret true else ctl_call (call stop_flag)) ;
      if (stop : bool) then mret tt else control_turn fd ;; control_turns n fd
  end.

(** [control_loop], at most [turns] turns of it.
    [control_loop] src/cdn/src/runtime.cpp:981-984 *)
Definition control_loop (turns : nat) : Ct unit :=
  let p := control_socket cfg in
  made ← ctl_call (call local_socket) ;
  match made with
  | None => mret tt
  | Some fd =>
      ctl_call (obtained fd) ;;
      if kUnixPath <=? zlen p then ctl_call (close_fd fd)
      else
        ctl_tell (unlink_path p) ;;
        ok ← ctl_call (call (bind_path fd p)) ;
        if negb ok then ctl_call (close_fd fd)
        else
          ctl_tell (chmod_path p (control_mode cfg)) ;;
          control_turns turns fd ;;
          ctl_tell (unlink_path p) ;;
          ctl_call (close_fd fd)
  end.

(** The command line's side: the answer it prints.
    [control_command] src/cdn/src/runtime.cpp:1546-1546 *)
Definition control_command (path command : bytes) : M Net bytes :=
  made ← call local_socket ;
  match made with
  | None => throw (str "control socket create failed")
  | Some fd =>
      obtained fd ;;
      if kUnixPath <=? zlen path then close_fd fd ;; throw (str "control socket path too long")
      else
        r ← call (local_connect fd path) ;
        match r with
        | Connected =>
            ok ← call (write_all fd (command ++ [10])) ;
            if negb ok then close_fd fd ;; throw (str "control write failed")
            else
              n ← call (receive fd (Z.to_nat 16384)) ;
              close_fd fd ;;
              match n with
              | TunPacket b => mret b
              | TunClosed => mret []
              | _ => throw (str "control read failed")
              end
        | Refused e => close_fd fd ;; throw (str "control connect failed: " ++ error_text e)
        | InProgress (* not on a blocking socket *) => close_fd fd ;; throw (str "control connect failed: " ++ error_text 115)
        end
  end.

(** ** Orders need a privilege *)

(** Resources are [h], and nobody else than root and the user of the process has ordered anything. *)
Definition orderly (h : list Z * list Z) (s : Control) : Prop :=
  holds (ctl_net s) = h ∧ Forall (λ o, o.1 = Some 0 ∨ o.1 = Some effective_uid) (orders s).

Lemma orderly_net h h' s n : orderly h s → holds n = h' → orderly h' (mkControl n (orders s)).
Proof using Type. by intros [_ Ho]. Qed.

Lemma ctl_ends {A} h h' (m : M Net A) s :
  orderly h s → (∀ n, holds n = h → ends (λ _ n', holds n' = h') (λ _, False) (m n)) →
  ends (λ _, orderly h') (λ _, False) (ctl_call m s).
Proof using Type. apply (zoom_ends ctl_net (λ n s, mkControl n (orders s)) orderly); [by intros ? ? []|by intros; eapply orderly_net]. Qed.

Lemma ctl_then {A B} h h' (m : M Net A) (f : A → Ct B) g s :
  orderly h s → (∀ n, holds n = h → ends (λ _ n', holds n' = h') (λ _, False) (m n)) →
  (∀ a s', orderly h' s' → ends (λ _, orderly g) (λ _, False) (f a s')) →
  ends (λ _, orderly g) (λ _, False) ((ctl_call m ≫= f) s).
Proof using Type. intros Hs Hm Hf. eapply ends_bind; [by eapply ctl_ends|]. intros a s' Hs'. by apply Hf. Qed.

Ltac look_at := cbv beta in *; eapply ctl_then; [eassumption|intros ? ?; by apply call_quiet|].
Ltac gives_back := cbv beta in *; eapply ctl_ends; [eassumption|intros ? ?; by apply close_returns].

(** Only for a privileged peer does a request order anything. *)
Lemma answer_orders uid cmd w o : (answer (privileged uid) cmd w).1 = Some o → uid = Some 0 ∨ uid = Some effective_uid.
Proof using Type.
  unfold answer. intros H. assert (Hp : privileged uid = true).
  { destruct (privileged uid); [done|]. by repeat case_match. }
  unfold privileged in Hp. destruct uid as [u|]; [|done]. apply orb_true_iff in Hp as [Hu|Hu]; apply Z.eqb_eq in Hu as ->; auto.
Qed.

Lemma carry_out_orderly h uid cmd w s :
  orderly h s → ends (λ _, orderly h) (λ _, False) (carry_out uid (answer (privileged uid) cmd w).1 s).
Proof using Type.
  intros Hs. destruct (answer _ _ _).1 as [o|] eqn:Ha; [|exact Hs]. apply answer_orders in Ha. cbn [carry_out].
  apply (ends_bind (λ _, orderly h)).
  { destruct Hs as [Hh Ho]. split; [done|]. by apply Forall_app_2; [|constructor]. }
  intros ? s1 Hs1. eapply ctl_ends; [done|]. intros n Hn. by apply call_quiet.
Qed.

Lemma request_orderly c o t s : orderly (c :: o, t) s → ends (λ _, orderly (o, t)) (λ _, False) (control_request c s).
Proof using Type.
  intros Hs. unfold control_request. look_at. intros uid s1 Hs1. look_at. intros r s2 Hs2.
  apply (ends_bind (λ _ s', s' = s2)); [done|]. intros v s3 ->.
  pose proof (carry_out_orderly (c :: o, t) uid (command_of r) (net (ctl_net v)) s2 Hs2) as Hc.
  destruct (answer _ _ _) as [order out]. eapply ends_bind; [exact Hc|]. intros ? s4 Hs4.
  look_at. intros calls s5 Hs5.
  eapply ends_bind; [gives_back|]. intros ? s6 Hs6. exact Hs6.
Qed.

Lemma turn_orderly fd h s : orderly h s → ends (λ _, orderly h) (λ _, False) (control_turn fd s).
Proof using Type.
  intros Hs. destruct h as [o t]. unfold control_turn. look_at. intros [| | |? ? ?] s1 Hs1; try exact Hs1.
  look_at. intros [[c|]|] s2 Hs2; try exact Hs2. eapply ctl_then; [eassumption|intros n Hn; by apply obtained_returns|].
  intros ? s3 Hs3. eapply ends_bind; [by apply request_orderly|]. by intros ? s4 Hs4.
Qed.

Lemma turns_orderly turns fd h s : orderly h s → ends (λ _, orderly h) (λ _, False) (control_turns turns fd s).
Proof using Type.
  revert s. induction turns as [|n IH]; intros s Hs; cbn [control_turns]; [exact Hs|].
  look_at. intros finished s1 Hs1. apply (ends_bind (λ _, orderly h)).
  { destruct finished; [exact Hs1|]. eapply ctl_ends; [eassumption|intros ? ?; by apply call_quiet]. }
  intros [] s2 Hs2; [exact Hs2|]. eapply ends_bind; [by apply turn_orderly|]. intros ? s3 Hs3. by apply IH.
Qed.

(** C33: whoever connects to the control socket, whatever he sends and however the calls fail: the process is told to
    reconnect or to stop for root and for its own user only; the thread throws nothing, and every
    connection and the socket itself are closed when it ends. *)
Theorem control_orders_need_privilege turns s :
  orders s = [] →
  ends (λ _ s', Forall (λ o, o.1 = Some 0 ∨ o.1 = Some effective_uid) (orders s')
                ∧ opened (ctl_net s') = opened (ctl_net s) ∧ tls_opened (ctl_net s') = tls_opened (ctl_net s))
       (λ _, False) (control_loop turns s).
Proof using Type.
  intros Ho. set (o := opened (ctl_net s)). set (t := tls_opened (ctl_net s)).
  assert (Hs : orderly (o, t) s) by (split; [done|by rewrite Ho]). clearbody o t.
  eapply (ends_weaken (λ _, orderly (o, t)) _ (λ _, False)); [|intros ? s1 [Hh Hf]; by injection Hh|done].
  unfold control_loop. look_at. intros [fd|] s1 Hs1; [|exact Hs1].
  eapply ctl_then; [eassumption|intros n Hn; by apply obtained_returns|]. intros ? s2 Hs2.
  destruct (_ <=? _); [gives_back|]. look_at. intros ? s3 Hs3. look_at. intros ok s4 Hs4. destruct (negb ok); [gives_back|].
  look_at. intros ? s5 Hs5. eapply ends_bind; [by apply turns_orderly|]. intros ? s6 Hs6. look_at. intros ? s7 Hs7. gives_back.
Qed.

(** What the command line prints is what it read; its socket is closed in every case. *)
Lemma control_command_closes path command n :
  ends (λ _ n', holds n' = holds n) (λ n', holds n' = holds n) (control_command path command n).
Proof using Type.
  destruct (holds n) as [o t] eqn:Hn. unfold control_command.
  eapply quiet_step; [exact Hn|apply quiet_call|]. intros [fd|] n1 H1; [|exact H1].
  eapply obtained_then; [exact H1|]. intros n2 H2.
  assert (Hthrow : ∀ e n', holds n' = (fd :: o, t) →
    ends (λ _ n', holds n' = (o, t)) (λ n', holds n' = (o, t)) ((close_fd fd ;; throw e : M Net bytes) n'))
    by (intros e n' Hn'; eapply close_then; [exact Hn'|by intros]).
  destruct (_ <=? _); [by apply Hthrow|]. eapply quiet_step; [exact H2|apply quiet_call|].
  intros [] n3 H3; [|by apply Hthrow..]. eapply quiet_step; [exact H3|apply quiet_call|].
  intros [] n4 H4; cbn [negb]; [|by apply Hthrow]. eapply quiet_step; [exact H4|apply quiet_call|].
  intros r n5 H5. eapply close_then; [exact H5|]. intros n6 H6. by destruct r.
Qed.
End Control.

(** ** A concrete control socket

    On the network of DialProps.v: two requests to stop wait, the first from user 1000, the
    second from root. *)
Module ControlDemo.
Import World ConfigDemo DialDemo.

#[export] Instance control_os : ControlOs slow := {|
  done_flag w := ((length (tun_packets w) =? 0)%nat, w);
  unlink_path _ w := w;
  bind_path _ _ w := (true, w);
  chmod_path _ _ w := w;
  peer_uid _ w := (Some (1000 * (zlen (tun_packets w) - 1)), w);
  effective_uid := 500;
  send_calls _ w := ([SendInterrupted; SendSome 4; SendSome 400], w);
  write_all _ _ w := (true, w);
  raise_disconnect w := w;
  raise_stop w := w;
|}.

#[export] Instance reports : Reports slow := {|
  readable_status _ := str "status"; overview_text _ := str "overview"; status_text _ := str "stats";
  health_text _ := str "health"; recent_events _ := [str "started"; str "online"];
|}.

Definition waiting : Control (K := slow) :=
  mkControl (mkNet (mkWorld [str "stop" ++ [10]; str "stop"] [] 0 0 : lworld (LoopOs := slow)) [3] [] [] 0) [].
Abbreviation ended := (control_loop (K := slow) client_config 9 waiting).

Example only_root_stops : (orders ended.2, opened (ctl_net ended.2)) = ([(Some 0, OrderStop)], [3]).
Proof. vm_compute. reflexivity. Qed.

Example first_is_denied :
  (control_request (K := slow) 9 waiting).1 = Ok (str "error permission denied" ++ [10]).
Proof. vm_compute. reflexivity. Qed.
End ControlDemo.

Section Witnesses.
Import World ConfigDemo DialDemo ControlDemo.

Lemma control_orders_need_privilege_witness :
  ends (λ _ s', Forall (λ o, o.1 = Some 0 ∨ o.1 = Some effective_uid) (orders s')
                ∧ opened (ctl_net s') = opened (ctl_net waiting) ∧ tls_opened (ctl_net s') = tls_opened (ctl_net waiting))
       (λ _, False) ended.
Proof. exact (control_orders_need_privilege (K := slow) client_config 9 waiting eq_refl). Defined.
End Witnesses.
