(* ===== verification/DoubleText.v ===== *)
(** * Numbers on a C++ stream

    What [operator<<] writes for a [double], in the default format and with
    [std::fixed << std::setprecision(1)]: the exact value of the binary64 number,
    rounded half to even. Nothing here is code of the repository. *)

From Stdlib Require Import SpecFloat.
From S2P Require Import Prelude.
From S2P Require Import Text Budget.

(** [n / d] rounded to the nearest integer, a tie to the even one. *)
Definition round_div (n d : Z) : Z :=
  let q := n / d in let r := n mod d in
  if (d <? 2 * r) || (d =? 2 * r) && Z.odd q then q + 1 else q.

(** [n] with at least [k] digits. *)
Definition padded (k : nat) (n : Z) : bytes := let t := to_string n in repeat 48 (k - length t) ++ t.

(** The value of a finite number without its sign, as a fraction. *)
Definition fraction (m : BinNums.positive) (e : Z) : Z * Z := if e <? 0 then (Zpos m, 2 ^ (- e)) else (Zpos m * 2 ^ e, 1).

Definition with_sign (s : bool) (t : bytes) : bytes := if s then 45 :: t else t.

(** With [decimals] digits behind the point. *)
Definition decimal_text (n d : Z) (decimals : nat) : bytes :=
  let v := round_div (n * 10 ^ Z.of_nat decimals) d in
  let p := 10 ^ Z.of_nat decimals in
  match decimals with O => to_string v | _ => to_string (v / p) ++ 46 :: padded decimals (v mod p) end.

(** [std::fixed << std::setprecision(1)] *)
Definition fixed1 (x : double) : bytes :=
  match x with
  | S754_zero s => with_sign s (str "0.0")
  | S754_infinity s => with_sign s (str "inf")
  | S754_nan => str "nan"
  | S754_finite s m e => let (n, d) := fraction m e in with_sign s (decimal_text n d 1)
  end.

(** Zeros, and then a point, taken away from the end. *)
Fixpoint strip_zeros (t : bytes) : bytes :=
  match t with
  | [] => []
  | c :: t' =>
      match strip_zeros t' with
      | [] => if (c =? 48) || (c =? 46) then [] else [c]
      | r => c :: r
      end
  end.
Definition stripped (whole fractional : bytes) : bytes :=
  match strip_zeros (46 :: fractional) with [] => whole | r => whole ++ r end.

(** The decimal exponent: [10^x <= n/d < 10^(x+1)]. *)
Fixpoint small_exponent (fuel : nat) (n d : Z) (x : Z) : Z :=
  match fuel with
  | O => x
  | S fuel' => if d <=? n then x else small_exponent fuel' (n * 10) d (x - 1)
  end.
Definition exponent (n d : Z) : Z := if d <=? n then zlen (to_string (n / d)) - 1 else small_exponent 400 n d 0.

(** Six significant digits: as an integer below [10^6], with the exponent of the first. *)
Definition six_digits (n d : Z) : Z * Z :=
  let x := exponent n d in
  let v := if x <=? 5 then round_div (n * 10 ^ (5 - x)) d else round_div n (d * 10 ^ (x - 5)) in
  if 1000000 <=? v then (v / 10, x + 1) else (v, x).

(** The default format of a stream ([%g]). *)
Definition general_text (n d : Z) : bytes :=
  let (v, x) := six_digits n d in
  let t := padded 6 v in
  if (x <? -4) || (5 <? x) then
    stripped (take 1 t) (drop 1 t) ++ (if x <? 0 then str "e-" else str "e+") ++ padded 2 (Z.abs x)
  else if x <? 0 then stripped (str "0") (repeat 48 (Z.to_nat (- x - 1)) ++ t)
  else stripped (take (S (Z.to_nat x)) t) (drop (S (Z.to_nat x)) t).

Definition general (x : double) : bytes :=
  match x with
  | S754_zero s => with_sign s (str "0")
  | S754_infinity s => with_sign s (str "inf")
  | S754_nan => str "nan"
  | S754_finite s m e => let (n, d) := fraction m e in with_sign s (general_text n d)
  end.

(** [double(z) / k] *)
Definition over (z k : Z) : double := d_div (to_double z) (to_double k).

Example some_doubles :
  map general [over 123456789 1000; over 1234567890 1000; over (-1) 1; over 1500 1000; over 1 1000000; over 12 10000; over 0 7; over 95 100; over 999999500 1000]
  = map str ["123457"; "1.23457e+06"; "-1"; "1.5"; "1e-06"; "0.0012"; "0"; "0.95"; "1e+06"]%string
  ∧ map fixed1 [over 1250 1000; over 1350 1000; over 99949 1000; over (-1) 1; over 999950 1000; over 0 3; over 12345 100]
  = map str ["1.2"; "1.4"; "99.9"; "-1.0"; "1000.0"; "0.0"; "123.5"]%string.
Proof. vm_compute. done. Qed.
