(* ===== verification/Status.v ===== *)
(** * What the process tells about itself (cdn/src/runtime.cpp)

    The texts of the commands [status], [overview], [stats] and [health], and
    what a program that reads the latter two gets back. The counters, which other threads change,
    are taken as they were at one moment: [Observed]. The rates that
    [stats_loop] computes are here, the loop is in StatsLoop.v. *)

From Stdlib Require Import SpecFloat.
From S2P Require Import Prelude.
From S2P Require Import Text Config Logging Telemetry Budget DoubleText LoopOs Outbox CarrierLoop RunLoop Control.

(** Members of [struct Stats] that are not counters of the loops: what the kernel
    says about the carrier, and the rates. *)
Record Gauges := mkGauges {
  tcp_rtt_us : Z; tcp_cwnd : Z; tcp_unacked : Z; tcp_retrans : Z; tcp_total_retrans : Z; tcp_snd_mss : Z; tcp_pmtu : Z;
  carrier_local_family : Z; carrier_peer_family : Z; payload_tx_rate_bps : Z; payload_rx_rate_bps : Z }.

(** [Stats], [g_state] and [g_phase]. *)
Record Observed := mkObserved {
  o_stats : Stats; o_kinds : Reconnects; o_history : RttHistory; o_gauges : Gauges; g_state : Z; g_phase : Z }.

(** ** Names *)

(** [state_name] src/cdn/src/runtime.cpp:55-55 *)
Definition state_name (s : Z) : bytes :=
  str (if s =? 1 then "LISTENING" else if s =? 2 then "CONNECTING" else if s =? 3 then "ONLINE"
       else if s =? 4 then "RECONNECTING" else if s =? 5 then "STOPPING" else "STARTING").

(** [wire_name] src/cdn/src/runtime.cpp:57-57 *)
Definition wire_name (c : Config) : bytes :=
  str (if text_is (transport c) "websocket" then if 1 <? max_connections c then "PTT8-POOL" else "PTT5" else "PTT3").

(** [AF_INET6] and [AF_INET].
    [address_family] src/cdn/src/runtime.cpp:100-100 *)
Definition family_name (family : Z) : bytes :=
  str (if family =? 10 then "IPv6" else if family =? 2 then "IPv4" else "unavailable").

(** [format_bytes_rate] src/cdn/include/pacetun/logging.hpp:84-90 *)
Definition format_bytes_rate (r : Z) : bytes :=
  if 1024 * 1024 <=? r then fixed1 (d_div (to_double r) (to_double (1024 * 1024))) ++ str " MiB/s"
  else if 1024 <=? r then fixed1 (over r 1024) ++ str " KiB/s"
  else to_string r ++ str " B/s".

(** A double on a stream whose format may have been changed before. *)
Definition number (fixed : bool) (x : double) : bytes := if fixed then fixed1 x else general x.

Definition minus_one : double := to_double (-1).
(** A percentile in milliseconds. *)
Definition percentile_ms (p : RttPercentiles → Z) (s : option RttPercentiles) : double :=
  match s with Some s => over (p s) 1000 | None => minus_one end.
Definition sample_count (s : option RttPercentiles) : Z := match s with Some s => Z.of_nat (count s) | None => 0 end.

Section Texts.
Context (s : Observed) (cfg : Config).

Definition cnt (c : Counter) : bytes := to_string (o_stats s c).
Definition online : bool := g_state s =? 3.
Definition late : bool := negb (o_stats s degraded =? 0).
Definition drops : Z := u64 (o_stats s drop_queue + o_stats s drop_delay + o_stats s drop_malformed).
Definition is_client : bool := text_is (mode cfg) "client".
Definition is_server : bool := text_is (mode cfg) "server".
Definition sidecar : bool := is_client && text_is (tls_backend cfg) "utls".
Definition newline : bytes := [10].

(** ** For people *)

(** The round trip that was measured last, with its age; [now] and [again] are the
    two times the clock is read.
    [readable_status] src/cdn/src/runtime.cpp:811-813 *)
Definition measured : bool := online && negb (o_stats s rtt_sample_us =? 0) && (0 <=? o_stats s rtt_us).
Definition last_rtt (now again : Z) : bytes :=
  let sample := o_stats s rtt_sample_us in
  if measured then
    str " | tunnel_rtt_last=" ++ fixed1 (over (o_stats s rtt_us) 1000) ++ str "ms (sample_age="
    ++ to_string (u64 (now - sample) / 1000000) ++ str "s, "
    ++ str (if (30000000 <? u64 (again - sample)) || late then "stale" else "fresh") ++ str ")"
  else str " | tunnel_rtt=unavailable".

(** [readable_status] src/cdn/src/runtime.cpp:814-817 *)
Definition next_hop : bytes :=
  if online then
    if sidecar then str " | cdn_next_hop_tcp_rtt=unavailable(sidecar)"
    else str " | " ++ str (if is_server then "local_nginx_tcp_rtt=" else "cdn_next_hop_tcp_rtt=")
         ++ number measured (over (tcp_rtt_us (o_gauges s)) 1000) ++ str "ms"
  else [].

(** [readable_status] src/cdn/src/runtime.cpp:809-826 *)
Definition readable_status (now again : Z) : bytes :=
  let hist := snapshot 0 (o_history s) in
  str "[" ++ (if online && late then str "DEGRADED" else state_name (g_state s)) ++ str "] role="
  ++ str (if is_client then "iran-client" else "foreign-server") ++ str " | phase=" ++ phase_name (g_phase s)
  ++ last_rtt now again ++ next_hop
  ++ str " | rtt_samples=" ++ to_string (sample_count hist) ++ str " rtt_p50=" ++ number measured (percentile_ms p50_us hist)
  ++ str "ms rtt_p95=" ++ number measured (percentile_ms p95_us hist) ++ str "ms rtt_p99="
  ++ number measured (percentile_ms p99_us hist) ++ str "ms"
  ++ str " | carrier_local_family=" ++ family_name (carrier_local_family (o_gauges s))
  ++ str " carrier_peer_family=" ++ family_name (carrier_peer_family (o_gauges s))
  ++ str " | authenticated_probe=enabled pending_age=" ++ to_string (o_stats s probe_pending_age_ms / 1000) ++ str "s"
  ++ (if 1 <? max_connections cfg then str " | pool=" ++ cnt pool_active ++ str "/" ++ to_string (max_connections cfg) else [])
  ++ str " | ws_probe=" ++ str (if 0 <? websocket_ping_sec cfg then "enabled" else "disabled")
  ++ str " | queue=" ++ cnt queue_pkts ++ str " packets/" ++ cnt queue_bytes_now ++ str "B"
  ++ str " | drops_total=" ++ to_string drops ++ str " | reconnects_total=" ++ cnt reconnects
  ++ str " | auth_errors_total=" ++ cnt auth_fail.

(** Whether and how old the measurement is that the overview shows.
    [overview_text] src/cdn/src/runtime.cpp:833-835 *)
Definition sample_age (now : Z) : Z :=
  let sample := o_stats s rtt_sample_us in if sample =? 0 then 0 else u64 (now - sample) / 1000000.
Definition verified (now : Z) : bool := measured && (sample_age now <=? 30) && negb late.

(** [overview_text] src/cdn/src/runtime.cpp:830-832 *)
Definition overview_head : bytes :=
  str "Connection: "
  ++ str (if online then if late then "DEGRADED (online but probe replies are overdue)" else "ONLINE (authenticated)"
          else if g_state s =? 1 then "WAITING for client" else if g_state s =? 2 then "CONNECTING"
          else if g_state s =? 4 then "RECONNECTING" else "NOT ONLINE") ++ newline
  ++ str "Role: " ++ str (if is_client then "Iran client" else "Foreign server")
  ++ str " | Stage: " ++ phase_name (g_phase s) ++ newline.

(** [overview_text] src/cdn/src/runtime.cpp:836-846 *)
Definition overview_rtt (now : Z) : bytes :=
  let hist := snapshot 0 (o_history s) in
  (if verified now then str "Tunnel round-trip: " ++ fixed1 (over (o_stats s rtt_us) 1000) ++ str " ms (verified "
     ++ to_string (sample_age now) ++ str " s ago)"
   else str "Tunnel round-trip: unavailable or outdated (do not interpret this as 0 ms)") ++ newline
  ++ (if 5 <=? sample_count hist then
        str "Recent verified RTT: median " ++ number (verified now) (percentile_ms p50_us hist)
        ++ str " ms; 95th percentile " ++ number (verified now) (percentile_ms p95_us hist)
        ++ str " ms (" ++ to_string (sample_count hist) ++ str " samples)"
      else str "RTT trend: waiting for at least 5 authenticated measurements (" ++ to_string (sample_count hist) ++ str " so far)")
  ++ newline
  ++ (if online then
        (if sidecar then str "CDN TCP RTT: unavailable (TLS handled by the optional uTLS sidecar)"
         else str (if is_client then "Client-to-CDN TCP RTT: " else "Local Nginx-to-PaceTun TCP RTT: ")
              ++ number (verified now) (over (tcp_rtt_us (o_gauges s)) 1000) ++ str " ms (NOT the full CDN-to-origin path)") ++ newline
      else []).

(** [overview_text] src/cdn/src/runtime.cpp:847-858 *)
Definition overview_tail : bytes :=
  str "This process's TCP peer: " ++ family_name (carrier_peer_family (o_gauges s))
  ++ str "; the CDN origin address family must be checked in Nginx, not inferred here." ++ newline
  ++ (if 1 <? max_connections cfg then
        str "Physical WebSocket lanes: " ++ cnt pool_active ++ str "/" ++ to_string (max_connections cfg)
        ++ str " | failed lanes: " ++ cnt pool_failures ++ newline
      else [])
  ++ str "Actual data rate: sent " ++ format_bytes_rate (payload_tx_rate_bps (o_gauges s))
  ++ str ", received " ++ format_bytes_rate (payload_rx_rate_bps (o_gauges s)) ++ newline
  ++ str "Local queued packets: " ++ cnt queue_pkts ++ str " | Local drops (since process start): " ++ to_string drops
  ++ str " | Reconnects: " ++ cnt reconnects ++ str " | Authentication failures: " ++ cnt auth_fail ++ newline
  ++ (if late then str "WARNING: authenticated probe replies are late. Inspect CDN buffering/path and check whether fresh RTT measurements return." ++ newline else [])
  ++ (if o_stats s auth_fail =? 0 then []
      else str "WARNING: authentication failures occurred. Verify PSK and matching protocol versions on both peers." ++ newline)
  ++ (if drops =? 0 then []
      else str "NOTE: drops are cumulative since startup; compare two readings before deciding they are ongoing." ++ newline)
  ++ str "For raw metrics: --control SOCKET stats | For recent events: --control SOCKET events" ++ newline.

(** [overview_text] src/cdn/src/runtime.cpp:827-860 *)
Definition overview_text (now : Z) : bytes := overview_head ++ overview_rtt now ++ overview_tail.

(** ** For programs *)

Definition flag (b : bool) : bytes := str (if b then "1" else "0").
Definition is_websocket : bool := text_is (transport cfg) "websocket".

(** [carrier_tls]: unknown at the server.
    [status_text] src/cdn/src/runtime.cpp:924-924 *)
Definition carrier_tls : bytes := if is_websocket && is_client then flag (websocket_tls cfg) else str "-1".

(** [rtt_ms], [ws_rtt_ms], [tcp_rtt_ms]
    [status_text] src/cdn/src/runtime.cpp:927-929 *)
Definition rtt_fields : list (bytes * bytes) :=
  [(str "rtt_ms", general (if negb online || (o_stats s rtt_us <? 0) then minus_one else over (o_stats s rtt_us) 1000));
   (str "ws_rtt_ms", general (if o_stats s ws_rtt_us <? 0 then to_double 0 else over (o_stats s ws_rtt_us) 1000));
   (str "tcp_rtt_ms", general (over (tcp_rtt_us (o_gauges s)) 1000))].

(** [status_text] src/cdn/src/runtime.cpp:922-926 *)
Definition identity_fields (up instance : Z) : list (bytes * bytes) :=
  [(str "version", str "6.0.0-alpha1"); (str "state", state_name (g_state s)); (str "phase", phase_name (g_phase s));
   (str "mode", mode cfg); (str "transport", transport cfg); (str "wire", wire_name cfg);
   (str "forward_secrecy", flag is_websocket); (str "carrier_tls", carrier_tls);
   (str "max_connections", to_string (max_connections cfg)); (str "pool_active", cnt pool_active);
   (str "pool_dials", cnt pool_dials); (str "pool_dial_failures", cnt pool_dial_failures);
   (str "pool_failures", cnt pool_failures); (str "profile", profile cfg); (str "resource_profile", resource_profile cfg);
   (str "uptime_sec", to_string up); (str "daemon_instance", to_string instance)].

(** [status_text] src/cdn/src/runtime.cpp:929-936 *)
Definition carrier_fields : list (bytes * bytes) :=
  let g := o_gauges s in
  let all := snapshot 0 (o_history s) in let active := snapshot 1 (o_history s) in let idle := snapshot 2 (o_history s) in
  [(str "tcp_cwnd", to_string (tcp_cwnd g)); (str "tcp_unacked", to_string (tcp_unacked g));
   (str "tcp_retrans", to_string (tcp_retrans g)); (str "tcp_total_retrans", to_string (tcp_total_retrans g));
   (str "tcp_snd_mss", to_string (tcp_snd_mss g)); (str "tcp_pmtu", to_string (tcp_pmtu g));
   (str "carrier_local_family", family_name (carrier_local_family g)); (str "carrier_peer_family", family_name (carrier_peer_family g));
   (str "origin_family", str (if is_server then "unavailable_via_local_nginx" else "unavailable_from_client"));
   (str "rtt_samples", to_string (sample_count all)); (str "rtt_p50_ms", general (percentile_ms p50_us all));
   (str "rtt_p95_ms", general (percentile_ms p95_us all)); (str "rtt_p99_ms", general (percentile_ms p99_us all));
   (str "active_rtt_samples", to_string (sample_count active)); (str "active_rtt_p95_ms", general (percentile_ms p95_us active));
   (str "idle_rtt_samples", to_string (sample_count idle)); (str "idle_rtt_p95_ms", general (percentile_ms p95_us idle));
   (str "payload_tx_rate_Bps", to_string (payload_tx_rate_bps g)); (str "payload_rx_rate_Bps", to_string (payload_rx_rate_bps g))].

(** A counter under its name. *)
Definition field (name : string) (c : Counter) : bytes * bytes := (str name, cnt c).

(** [now] is the time of the only look at the clock.
    [status_text] src/cdn/src/runtime.cpp:937-947 *)
Definition health_fields_of (now : Z) : list (bytes * bytes) :=
  [(str "degraded", flag late); (str "authenticated_probe", str "enabled"); field "rtt_sample_seq" rtt_sample_seq;
   (str "rtt_sample_age_ms",
      if online && negb (o_stats s rtt_sample_us =? 0) then to_string (u64 (now - o_stats s rtt_sample_us) / 1000) else str "-1");
   field "probe_pending_age_ms" probe_pending_age_ms; field "reply_timeouts" reply_timeouts;
   field "candidate_attempts" candidate_attempts; field "candidate_failures" candidate_failures;
   field "candidate_successes" candidate_successes; field "last_rx_age_ms" last_rx_age_ms; field "queue_pkts" queue_pkts;
   field "queue_bytes" queue_bytes_now; field "queue_peak_pkts" queue_peak_pkts; field "queue_peak_bytes" queue_peak_bytes;
   (str "traffic_shaping", flag (traffic_shaping cfg)); field "padding_extra_tx" padding_extra_tx;
   field "padding_control_extra_tx" padding_control_extra_tx; field "adaptive_batch_packets" adaptive_batch_packets;
   field "ws_tx_pending_bytes" ws_tx_pending_bytes; field "reconnects" reconnects; (str "drops", to_string drops);
   field "auth_fail" auth_fail; field "replay_drop" replay_drop; field "sequence_gap" sequence_gap].

(** [status_text] src/cdn/src/runtime.cpp:948-958 *)
Definition total_fields : list (bytes * bytes) :=
  let kind name (f : Reconnects → Z) := (str name, to_string (f (o_kinds s))) in
  [field "tun_in_bytes" tun_in_bytes; field "tun_out_bytes" tun_out_bytes; field "payload_tx" payload_tx;
   field "payload_rx" payload_rx; field "wire_tx" wire_tx; field "wire_rx" wire_rx; field "keepalive_tx" keepalive_tx;
   field "keepalive_rx" keepalive_rx; field "ping_tx" ping_tx; field "pong_rx" pong_rx;
   field "ws_messages_tx" ws_messages_tx; field "ws_messages_rx" ws_messages_rx; field "ws_control_tx" ws_control_tx;
   field "ws_control_rx" ws_control_rx; field "ws_ping_tx" ws_ping_tx; field "ws_ping_rx" ws_ping_rx;
   field "ws_pong_tx" ws_pong_tx; field "ws_pong_rx" ws_pong_rx; field "ws_missed_pongs" ws_missed_pongs;
   field "session_renewals" session_renewals; field "ptt5_sessions" ptt5_sessions; field "tx_stalls" tx_stalls;
   field "event_loop_delay_us" event_loop_delay_us; field "queue_oldest_age_us" queue_oldest_age_us;
   kind "reconnect_pong_timeout" reconnect_pong_timeout; kind "reconnect_tx_timeout" reconnect_tx_timeout;
   kind "reconnect_idle" reconnect_idle; kind "reconnect_session" reconnect_session;
   kind "reconnect_network" reconnect_network; kind "reconnect_manual" reconnect_manual;
   field "latency_renewals" latency_renewals; field "reply_renewals" reply_renewals].

(** The fields of the status, the totals only when they are asked for; [now] is the time when the age of the sample is taken.
    [status_text] src/cdn/src/runtime.cpp:922-958 *)
Definition status_fields (up instance now : Z) (totals : bool) : list (bytes * bytes) :=
  identity_fields up instance ++ rtt_fields ++ carrier_fields ++ health_fields_of now ++ (if totals then total_fields else []).

(** Names and values, with blanks between them and a line end behind. *)
Definition field_text (f : bytes * bytes) : bytes := f.1 ++ 61 :: f.2.
Fixpoint fields_text (l : list (bytes * bytes)) : bytes :=
  match l with
  | [] => newline
  | [f] => field_text f ++ newline
  | f :: l => field_text f ++ 32 :: fields_text l
  end.

(** [started] and the two looks at the clock, in nanoseconds.
    [status_text] src/cdn/src/runtime.cpp:919-960 *)
Definition status_text (started now again : Z) (totals : bool) : bytes :=
  fields_text (status_fields (Z.quot (now - started) 1000000000) (Z.quot started 1000) (u64 (micros again)) totals).

(** The queue, as a share of what it may hold.
    [health_text] src/cdn/src/runtime.cpp:963-963 *)
Definition pressure : double :=
  if Config.queue_bytes cfg =? 0 then to_double 0
  else d_div (d_mul (to_double 100) (to_double (o_stats s queue_bytes_now))) (to_double (Config.queue_bytes cfg)).

(** [health_text] src/cdn/src/runtime.cpp:964-967 *)
Definition healthy : bool :=
  online && (o_stats s last_rx_age_ms <? u64 (idle_timeout_sec cfg * 1000)) && SFltb pressure (to_double 95) && negb late.

(** [health_text] src/cdn/src/runtime.cpp:968-977 *)
Definition health_fields : list (bytes * bytes) :=
  [(str "healthy", str (if healthy then "true" else "false")); (str "state", state_name (g_state s)); (str "phase", phase_name (g_phase s));
   (str "wire", wire_name cfg); (str "forward_secrecy", flag is_websocket); (str "carrier_tls", carrier_tls)]
  ++ rtt_fields
  ++ [(str "queue_pressure_pct", fixed1 pressure); field "last_rx_age_ms" last_rx_age_ms; field "auth_fail_total" auth_fail;
      field "replay_drop_total" replay_drop; (str "max_connections", to_string (max_connections cfg)); field "pool_active" pool_active;
      field "reconnects" reconnects; field "ws_missed_pongs" ws_missed_pongs; field "tx_stalls" tx_stalls;
      (str "payload_tx_rate_Bps", to_string (payload_tx_rate_bps (o_gauges s)));
      (str "payload_rx_rate_Bps", to_string (payload_rx_rate_bps (o_gauges s)))].

(** [health_text] src/cdn/src/runtime.cpp:962-978 *)
Definition health_text : bytes := fields_text health_fields.
End Texts.

(** ** Rates *)

(** [std::max(0.001, std::chrono::duration<double>(now-prev).count())]
    [human_stats_loop] src/cdn/src/runtime.cpp:867-867 *)
Definition interval (ns : Z) : double := d_max (over 1 1000) (d_div (to_double ns) (to_double 1000000000)).

(** The bytes of an interval as a rate.
    [human_stats_loop] src/cdn/src/runtime.cpp:868-870 *)
Definition human_rate (ns before after : Z) : Z := u64 (to_int (d_div (to_double (u64 (after - before))) (interval ns))).

(** [stats_loop] src/cdn/src/runtime.cpp:904-904 *)
Definition plain_rate (sec before after : Z) : Z := u64 (after - before) / Z.max 1 sec.

(** ** The reports of the control socket

    [Control.v] asks for them as a class; [observe] is what the process is like. *)
Section Reports.
Context {K : LoopOs} (observe : lworld → Observed) (cfg : Config) (started : Z) (events : lworld → list bytes).

#[export] Instance process_reports : Reports K := {|
  Control.readable_status w :=
    let (t, w') := clock_ns w in readable_status (observe w) cfg (u64 (micros t)) (u64 (micros (clock_ns w').1));
  Control.overview_text w := overview_text (observe w) cfg (u64 (micros (clock_ns w).1));
  Control.status_text w := let (t, w') := clock_ns w in status_text (observe w) cfg started t (clock_ns w').1 true;
  Control.health_text w := health_text (observe w) cfg;
  Control.recent_events := events;
|}.
End Reports.
