(* ===== verification/StatusProps.v ===== *)
(** * What a program reads from the status

    The answers to [stats] and [health] are names and values that are read back as they
    were written, and [health] says that the process is healthy exactly when it is. *)

From Stdlib Require Import SpecFloat.
From S2P Require Import Prelude.
From S2P Require Import Text Numerals Config Logging Telemetry Budget DoubleText LoopOs Outbox RunLoop NetOs Control Status.

(** ** Reading *)

(** The pieces of a text between the characters [c]. *)
Fixpoint split_on (c : Z) (t : bytes) : list bytes :=
  match t with
  | [] => [[]]
  | x :: t => if x =? c then [] :: split_on c t
              else match split_on c t with w :: ws => (x :: w) :: ws | [] => [[x]] end
  end.

(** A name and a value. *)
Definition read_field (w : bytes) : option (bytes * bytes) :=
  i ← find_char 61 w ; Some (take i w, drop (S i) w).

(** The fields of the first line of a text. *)
Definition read_fields (t : bytes) : list (bytes * bytes) := omap read_field (split_on 32 (default [] (head (split_on 10 t)))).

(** Text that can be a value, and one that can be a name. *)
Definition value_char (c : Z) : bool := negb (c =? 32) && negb (c =? 10).
Definition name_char (c : Z) : bool := value_char c && negb (c =? 61).
Definition is_value (t : bytes) : Prop := forallb value_char t = true.
Definition is_name (t : bytes) : Prop := forallb name_char t = true.

Lemma split_on_word c w : c ∉ w → split_on c w = [w].
Proof.
  induction w as [|x w IH]; intros Hc; [done|]. apply not_elem_of_cons in Hc as [Hx Hc]. cbn [split_on].
  rewrite (proj2 (Z.eqb_neq x c)) by congruence. by rewrite IH.
Qed.

Lemma split_on_app c w rest : c ∉ w → split_on c (w ++ c :: rest) = w :: split_on c rest.
Proof.
  induction w as [|x w IH]; intros Hc; [by cbn; rewrite Z.eqb_refl|]. apply not_elem_of_cons in Hc as [Hx Hc]. cbn [split_on app].
  rewrite (proj2 (Z.eqb_neq x c)) by congruence. by rewrite IH.
Qed.

Lemma value_chars t : is_value t ↔ (32 ∉ t) ∧ (10 ∉ t).
Proof.
  unfold is_value. rewrite forallb_forall. split.
  - intros H. split; intros Hc%list_elem_of_In%H; done.
  - intros [H1 H2] c Hc%list_elem_of_In. unfold value_char. rewrite andb_true_iff, !negb_true_iff, !Z.eqb_neq. split; congruence.
Qed.

Lemma name_value t : is_name t → is_value t ∧ (61 ∉ t).
Proof.
  unfold is_value, is_name. rewrite !forallb_forall. intros H. split.
  - intros c Hc. by apply H, andb_true_iff in Hc as [? _].
  - by intros Hc%list_elem_of_In%H.
Qed.

Lemma read_field_text f : is_name f.1 → read_field (field_text f) = Some f.
Proof.
  intros [_ H]%name_value. destruct f as [k v]. unfold read_field, field_text. cbn [fst snd] in *.
  rewrite find_char_app by done. cbn. rewrite take_app_length. replace (S (length k)) with (length k + 1)%nat by lia.
  by rewrite drop_app_add.
Qed.

(** The line of fields that can be read. *)
Definition readable (f : bytes * bytes) : Prop := is_name f.1 ∧ is_value f.2.

Lemma field_value f : readable f → is_value (field_text f).
Proof.
  intros [[Hk _]%name_value Hv]. unfold field_text, is_value in *. rewrite forallb_app, Hk. exact Hv.
Qed.

Lemma fields_read_back l : l ≠ [] → Forall readable l → read_fields (fields_text l) = l.
Proof.
  intros Hl Hr.
  assert (H : ∃ t, fields_text l = t ++ newline ∧ (10 ∉ t) ∧ omap read_field (split_on 32 t) = l).
  { clear Hl. induction Hr as [|f l Hf Hr IH].
    - exists []. split; [done|]. split; [apply not_elem_of_nil|done].
    - pose proof (proj1 (value_chars _) (field_value f Hf)) as [H32 H10]. destruct l as [|g l].
      + exists (field_text f). split; [done|]. split; [done|]. rewrite split_on_word by done. cbn.
        by rewrite read_field_text by apply Hf.
      + destruct IH as (t & Ht & Ht10 & Hs). exists (field_text f ++ 32 :: t). split; [|split].
        * change (fields_text (f :: g :: l)) with (field_text f ++ 32 :: fields_text (g :: l)). rewrite Ht. by rewrite <- app_assoc.
        * rewrite elem_of_app, elem_of_cons. intros [?|[?|?]]; done.
        * rewrite split_on_app by done. cbn [omap list_omap]. rewrite read_field_text by apply Hf. by rewrite Hs. }
  destruct H as (t & -> & Ht & Hs). unfold read_fields, newline. rewrite split_on_app by done. cbn [head default]. exact Hs.
Qed.

(** ** Values *)

Create HintDb values discriminated.
#[local] Hint Constants Opaque : values.

Lemma value_app a b : is_value a → is_value b → is_value (a ++ b).
Proof. unfold is_value. rewrite forallb_app. by intros -> ->. Qed.
Lemma value_subset a b : a ⊆ b → is_value b → is_value a.
Proof. unfold is_value. rewrite !forallb_forall. intros Hs Hb c Hc%list_elem_of_In%Hs%list_elem_of_In. by apply Hb. Qed.
Lemma value_take n t : is_value t → is_value (take n t).
Proof. apply value_subset. intros c Hc. rewrite <- (take_drop n t). apply elem_of_app. by left. Qed.
Lemma value_drop n t : is_value t → is_value (drop n t).
Proof. apply value_subset. intros c Hc. rewrite <- (take_drop n t). apply elem_of_app. by right. Qed.
Lemma value_zeros n : is_value (repeat 48 n).
Proof. unfold is_value. induction n; [done|exact IHn]. Qed.
Lemma value_cons c t : value_char c = true → is_value t → is_value (c :: t).
Proof. unfold is_value. cbn. by intros ->. Qed.
Lemma value_if (b : bool) x y : is_value x → is_value y → is_value (if b then x else y).
Proof. by destruct b. Qed.
Hint Resolve value_app value_take value_drop value_zeros value_cons value_if : values.
#[local] Hint Extern 1 (is_value (str (String _ _))) => vm_compute; reflexivity : values.

Lemma value_integer z : is_value (to_string z).
Proof.
  unfold is_value. apply forallb_forall. intros c Hc%list_elem_of_In. pose proof (to_string_numeral z) as H.
  rewrite Forall_forall in H. destruct (H c Hc) as [Hd| ->]; [|done]. unfold isdigit in Hd. bool_to_prop.
  unfold value_char. rewrite andb_true_iff, !negb_true_iff, !Z.eqb_neq. lia.
Qed.
Hint Resolve value_integer : values.

Lemma strip_zeros_subset t : strip_zeros t ⊆ t.
Proof.
  induction t as [|c t IH]; [done|]. cbn [strip_zeros]. destruct (strip_zeros t) as [|x r] eqn:E.
  - destruct (_ || _); [apply list_subseteq_nil|]. intros y Hy%list_elem_of_singleton. subst. by left.
  - intros y [->|Hy]%elem_of_cons; [by left|]. right. by apply IH.
Qed.

Lemma value_sign s t : is_value t → is_value (with_sign s t).
Proof. destruct s; [|done]. by apply value_cons. Qed.
Lemma value_padded k n : is_value (padded k n).
Proof. unfold padded. auto with values. Qed.
Hint Resolve value_sign value_padded : values.

Lemma value_stripped w f : is_value w → is_value f → is_value (stripped w f).
Proof.
  intros Hw Hf. unfold stripped. assert (H : is_value (strip_zeros (46 :: f))).
  { eapply value_subset; [apply strip_zeros_subset|]. by apply value_cons. }
  destruct (strip_zeros _); [done|]. by apply value_app.
Qed.
Hint Resolve value_stripped : values.

Lemma value_fixed1 x : is_value (fixed1 x).
Proof.
  destruct x as [| | |s m e]; cbn [fixed1]; auto with values. unfold fraction, decimal_text.
  destruct (e <? 0); auto 10 with values.
Qed.

Lemma value_general x : is_value (general x).
Proof.
  destruct x as [| | |s m e]; cbn [general]; auto with values. destruct (fraction m e) as [n d]. apply value_sign.
  unfold general_text. destruct (six_digits n d) as [v x]. repeat apply value_if; auto 10 with values.
Qed.
Hint Resolve value_fixed1 value_general : values.

Lemma value_str_if (b : bool) x y : is_value (str x) → is_value (str y) → is_value (str (if b then x else y)).
Proof. by destruct b. Qed.
Hint Resolve value_str_if : values.

Lemma value_state n : is_value (state_name n).
Proof. unfold state_name. auto 10 with values. Qed.
Lemma value_phase n : is_value (phase_name n).
Proof. unfold phase_name. auto 15 with values. Qed.
Lemma value_wire c : is_value (wire_name c).
Proof. unfold wire_name. auto with values. Qed.
Lemma value_family n : is_value (family_name n).
Proof. unfold family_name. auto with values. Qed.
Lemma value_flag b : is_value (flag b).
Proof. unfold flag. auto with values. Qed.
Lemma value_count s c : is_value (cnt s c).
Proof. unfold cnt. auto with values. Qed.
Hint Resolve value_state value_phase value_wire value_family value_flag value_count : values.

Lemma value_carrier_tls c : is_value (carrier_tls c).
Proof. unfold carrier_tls. auto with values. Qed.
Hint Resolve value_carrier_tls : values.

(** Each name is one, and each value. *)
Ltac fields_readable :=
  repeat (apply Forall_cons; split; [split; [cbn [fst field]; vm_compute; reflexivity|cbn [snd field]; auto with values]|]); apply Forall_nil_2.

Lemma rtt_readable s : Forall readable (rtt_fields s).
Proof. unfold rtt_fields. fields_readable. Qed.
Lemma carrier_readable s c : Forall readable (carrier_fields s c).
Proof. unfold carrier_fields. cbv zeta. fields_readable. Qed.
Lemma health_of_readable s c now : Forall readable (health_fields_of s c now).
Proof. unfold health_fields_of. fields_readable. Qed.
Lemma total_readable s : Forall readable (total_fields s).
Proof. unfold total_fields. cbv zeta. fields_readable. Qed.

(** The words of a configuration that are shown are among those that validation allows. *)
Lemma validated_words c : validate_config c = Ok tt →
  is_value (mode c) ∧ is_value (transport c) ∧ is_value (profile c) ∧ is_value (resource_profile c).
Proof.
  assert (Hword : ∀ t x, text_is t x = true → is_value (str x) → is_value t) by (by intros t x ->%bool_decide_eq_true).
  unfold validate_config. intros (u1 & _ & (u2 & Hi & _)%bind_ok)%bind_ok. unfold validate_identity in Hi. cbv zeta in Hi.
  repeat match type of Hi with
  | (throw_if _ _ ;; _) = _ => let H := fresh in apply bind_ok in Hi as (? & H%throw_if_ok & Hi)
  | (_ ;; _) = _ => apply bind_ok in Hi as (? & _ & Hi)
  end.
  apply throw_if_ok in Hi.
  repeat match goal with
  | |- _ ∧ _ => split
  | H : negb (text_is ?t _) && _ = false |- is_value ?t =>
      repeat (apply andb_false_iff in H as [H|H]); apply negb_false_iff in H; by eapply Hword
  | H : (negb (text_is ?t _) && _) && _ = false |- is_value ?t =>
      repeat (apply andb_false_iff in H as [H|H]); apply negb_false_iff in H; by eapply Hword
  | H : ((negb (text_is ?t _) && _) && _) && _ = false |- is_value ?t =>
      repeat (apply andb_false_iff in H as [H|H]); apply negb_false_iff in H; by eapply Hword
  end.
Qed.

Lemma identity_readable s c up instance : validate_config c = Ok tt → Forall readable (identity_fields s c up instance).
Proof. intros (? & ? & ? & ?)%validated_words. unfold identity_fields. fields_readable. Qed.

Lemma status_readable s c up instance now totals :
  validate_config c = Ok tt → Forall readable (status_fields s c up instance now totals).
Proof.
  intros Hc. unfold status_fields. repeat apply Forall_app_2;
    auto using identity_readable, rtt_readable, carrier_readable, health_of_readable.
  destruct totals; [apply total_readable|constructor].
Qed.

Lemma health_readable s c : Forall readable (health_fields s c).
Proof. unfold health_fields. apply Forall_app_2; [fields_readable|]. apply Forall_app_2; [apply rtt_readable|fields_readable]. Qed.

(** Each name is there once; the names do not depend on the values. *)
Ltac names_distinct :=
  cbv zeta; cbn [app fmap list_fmap fst field]; apply (bool_decide_eq_true_1 _); vm_compute; reflexivity.

Lemma status_names s c up instance now totals : NoDup (status_fields s c up instance now totals).*1.
Proof.
  unfold status_fields, identity_fields, rtt_fields, carrier_fields, health_fields_of, total_fields.
  destruct totals; names_distinct.
Qed.
Lemma health_names s c : NoDup (health_fields s c).*1.
Proof. unfold health_fields, rtt_fields. names_distinct. Qed.

(** The value of the first name. *)
Lemma first_field (k v x : bytes) l : NoDup (((k, v) :: l).*1) → (k, x) ∈ (k, v) :: l ↔ x = v.
Proof.
  cbn. intros [Hk _]%NoDup_cons. rewrite elem_of_cons. split; [|by intros ->; left].
  intros [[= ->]|Hx]; [done|]. destruct Hk. by apply (list_elem_of_fmap_2 fst) in Hx.
Qed.

Lemma healthy_field s c : (str "healthy", str "true") ∈ health_fields s c ↔ healthy s c = true.
Proof.
  etransitivity; [apply first_field, (health_names s c)|]. by destruct (healthy s c).
Qed.

Lemma healthy_when s c :
  healthy s c = true ↔ g_state s = 3 ∧ o_stats s last_rx_age_ms < u64 (idle_timeout_sec c * 1000)
    ∧ SFltb (pressure s c) (to_double 95) = true ∧ o_stats s degraded = 0.
Proof.
  unfold healthy, online, late. rewrite !andb_true_iff, Z.eqb_eq, Z.ltb_lt, negb_involutive, Z.eqb_eq. tauto.
Qed.

Section Answers.
Context {K : LoopOs} (observe : lworld → Observed) (c : Config) (started : Z) (events : lworld → list bytes).

(** What a program reads of the answer to a command. *)
Definition told (privilege : bool) (w : lworld) (cmd : string) : list (bytes * bytes) :=
  read_fields (answer (P := process_reports observe c started events) privilege (str cmd) w).2.

Lemma stats_answer privilege w :
  (answer (P := process_reports observe c started events) privilege (str "stats") w).2
  = let (t, w') := clock_ns w in status_text (observe w) c started t (clock_ns w').1 true.
Proof. reflexivity. Qed.
Lemma health_answer privilege w :
  (answer (P := process_reports observe c started events) privilege (str "health") w).2 = health_text (observe w) c.
Proof. reflexivity. Qed.

(** C39: A program that asks for [stats] or [health] over the control socket gets a line of names and values; read back, they
    are the fields of the process, each name once. It reads that the process is healthy exactly when the tunnel is online, has heard
    from its peer within [idle_timeout_sec], has its queue below 95 percent and no late replies. *)
Theorem reports_read_back privilege w :
  validate_config c = Ok tt →
  let s := observe w in
  (∃ up instance now, told privilege w "stats" = status_fields s c up instance now true
     ∧ NoDup (status_fields s c up instance now true).*1)
  ∧ told privilege w "health" = health_fields s c ∧ NoDup (health_fields s c).*1
  ∧ ((str "healthy", str "true") ∈ told privilege w "health" ↔
       g_state s = 3 ∧ o_stats s last_rx_age_ms < u64 (idle_timeout_sec c * 1000)
       ∧ SFltb (pressure s c) (to_double 95) = true ∧ o_stats s degraded = 0).
Proof.
  intros Hc s. unfold told. rewrite stats_answer, health_answer.
  assert (Hh : read_fields (health_text s c) = health_fields s c) by (apply fields_read_back; [done|apply health_readable]).
  split; [|split; [exact Hh|split; [apply health_names|]]].
  - destruct (clock_ns w) as [t w']. unfold status_text. eexists _, _, _. split; [|apply status_names].
    apply fields_read_back; [done|by apply status_readable].
  - fold s. rewrite Hh, healthy_field. apply healthy_when.
Qed.
End Answers.

(** ** Witness *)

Module StatusDemo.
Import World ConfigDemo.

(** An online client that heard from its peer three milliseconds ago. *)
Definition observed : Observed :=
  mkObserved (put last_rx_age_ms 3 (put payload_tx 123456 (put rtt_us 41500 (put rtt_sample_us 9000000 new_stats))))
    (reconnect_counts 0 0 0 0 0 0 0) (mkHistory [41500] [] [41500]) (mkGauges 20250 10 0 0 0 1448 1500 2 2 1000 0) 3 7.
Definition world : World := mkWorld [] [] 10000000000 0.

Definition told_client := told (K := loop_os) (λ _, observed) client_config 0 (λ _, []) false world.

Example client_status :
  readable_status observed client_config 10000000 10000000
  = str "[ONLINE] role=iran-client | phase=ONLINE | tunnel_rtt_last=41.5ms (sample_age=1s, fresh) | cdn_next_hop_tcp_rtt=20.2ms | rtt_samples=1 rtt_p50=41.5ms rtt_p95=41.5ms rtt_p99=41.5ms | carrier_local_family=IPv4 carrier_peer_family=IPv4 | authenticated_probe=enabled pending_age=0s | ws_probe=disabled | queue=0 packets/0B | drops_total=0 | reconnects_total=0 | auth_errors_total=0"
  ∧ filter (λ f, f.1 ∈ map str ["state"; "rtt_ms"; "tcp_rtt_ms"; "active_rtt_p95_ms"; "payload_tx"; "reconnect_idle"]%string) (told_client "stats")
    = [(str "state", str "ONLINE"); (str "rtt_ms", str "41.5"); (str "tcp_rtt_ms", str "20.25"); (str "active_rtt_p95_ms", str "-1");
       (str "payload_tx", str "123456"); (str "reconnect_idle", str "0")].
Proof. split; vm_compute; reflexivity. Qed.
End StatusDemo.

Import World ConfigDemo.

Lemma reports_read_back_witness :
  validate_config client_config = Ok tt ∧ (str "healthy", str "true") ∈ StatusDemo.told_client "health".
Proof.
  assert (Hc : validate_config client_config = Ok tt) by (vm_compute; reflexivity). split; [exact Hc|].
  destruct (reports_read_back (K := loop_os) (λ _, StatusDemo.observed) client_config 0 (λ _, []) false StatusDemo.world Hc)
    as (_ & _ & _ & H).
  apply H. repeat split; vm_compute; reflexivity.
Defined.
