(* ===== verification/StatsLoop.v ===== *)
(** * The periodic statistics (cdn/src/runtime.cpp, [stats_loop])

    The thread that publishes the rates of an interval and writes a line about it
    to [std::cerr]: [stats_loop] and, for [log_format=human], [human_stats_loop].
    The counters are taken as they were at one moment of a turn ([observe]).
    [shown] is not in the code: the increments of the lines. *)

From Stdlib Require Import SpecFloat.
From S2P Require Import Prelude.
From S2P Require Import Text Config Logging Telemetry Budget DoubleText LoopOs Outbox CarrierLoop RunLoop Control Status.

(** [done], [std::this_thread::sleep_for(100ms)] and the counters. *)
Class StatsOs (K : LoopOs) := {
  done_flag : lworld → bool * lworld;
  nap : lworld → lworld;
  observe : lworld → Observed;
}.

Section StatsLoop.
Context {K : LoopOs} {SO : StatsOs K} (cfg : Config).

(** The world, the lines written, and [payload_tx_rate_bps] with
    [payload_rx_rate_bps]. *)
Record Reporter := mkReporter {
  rep_os : lworld; cerr : list bytes; tx_rate : Z; rx_rate : Z; shown : list Stats }.

Definition consult {A} (f : lworld → A * lworld) : M Reporter A := λ s,
  let (a, w) := f (rep_os s) in (Ok a, mkReporter w (cerr s) (tx_rate s) (rx_rate s) (shown s)).
Definition publish (tx rx : Z) : M Reporter unit := modify (λ s, mkReporter (rep_os s) (cerr s) tx rx (shown s)).
Definition say (line : bytes) : M Reporter unit :=
  modify (λ s, mkReporter (rep_os s) (cerr s ++ [line]) (tx_rate s) (rx_rate s) (shown s)).
Definition show (i : Stats) : M Reporter unit :=
  modify (λ s, mkReporter (rep_os s) (cerr s) (tx_rate s) (rx_rate s) (shown s ++ [i])).
Definition counters_now : M Reporter Observed := gets (λ s, observe (rep_os s)).

(** [!done&&!g_stop] *)
Definition going_on : M Reporter bool :=
  d ← consult done_flag ;
  if (d : bool) then mret false else stop ← consult stop_flag ; mret (negb stop).

(** [for(int i=0;i<cfg.stats_interval_sec*10&&!done&&!g_stop;++i)]
    [stats_loop] src/cdn/src/runtime.cpp:901-901 *)
Fixpoint nap_slices (left : nat) : M Reporter unit :=
  match left with
  | O => mret tt
  | S left' =>
      go ← going_on ;
      if (go : bool) then consult (λ w, (tt, nap w)) ;; nap_slices left' else mret tt
  end.
Definition wait_interval : M Reporter unit := nap_slices (Z.to_nat (stats_interval_sec cfg * 10)).

(** The differences of the unsigned counters. *)
Definition increments (before now : Stats) : Stats := λ c, u64 (now c - before c).

(** ** For machines *)

(** [(r<0?0.0:double(r)/1000.0)] *)
Definition millis_text (us : Z) : bytes := if us <? 0 then general (to_double 0) else general (over us 1000).

(** [stats_loop] src/cdn/src/runtime.cpp:905-913 *)
Definition stats_line (o : Observed) (i : Stats) : bytes :=
  let n c := cnt o c in
  let d c := to_string (i c) in
  let g := o_gauges o in
  str "[STATS]/" ++ to_string (stats_interval_sec cfg) ++ str "s state=" ++ state_name (g_state o)
  ++ str " tun_in+=" ++ d tun_in_bytes ++ str " tun_out+=" ++ d tun_out_bytes
  ++ str " payload_tx+=" ++ d payload_tx ++ str " payload_rx+=" ++ d payload_rx
  ++ str " wire_tx+=" ++ d wire_tx ++ str " wire_rx+=" ++ d wire_rx
  ++ str " queue=" ++ n queue_pkts ++ str "/" ++ n queue_bytes_now ++ str "B"
  ++ str " peak_queue=" ++ n queue_peak_pkts ++ str "/" ++ n queue_peak_bytes
  ++ str "B batch_now=" ++ n adaptive_batch_packets
  ++ str " rtt_ms=" ++ millis_text (o_stats o rtt_us) ++ str " ws_rtt_ms=" ++ millis_text (o_stats o ws_rtt_us)
  ++ str " tcp_rtt_ms=" ++ general (over (tcp_rtt_us g) 1000) ++ str " ws_tx_pending=" ++ n ws_tx_pending_bytes ++ str "B"
  ++ str " cwnd=" ++ to_string (tcp_cwnd g) ++ str " unacked=" ++ to_string (tcp_unacked g)
  ++ str " retrans=" ++ to_string (tcp_retrans g)
  ++ str " drop_queue+=" ++ d drop_queue ++ str " drop_delay+=" ++ d drop_delay
  ++ str " malformed=" ++ n drop_malformed ++ str " replay_drop=" ++ n replay_drop
  ++ str " sequence_gap=" ++ n sequence_gap ++ str " auth_fail=" ++ n auth_fail
  ++ str " reconnects=" ++ n reconnects ++ str " tx_stalls=" ++ n tx_stalls
  ++ str " ws_missed_pongs=" ++ n ws_missed_pongs ++ newline.

(** The body of the loop; [before] are the counters of the last line (the code
    keeps the eight whose increments it writes), the result those of this one.
    [stats_loop] src/cdn/src/runtime.cpp:900-914 *)
Definition stats_turn (before : Stats) : M Reporter Stats :=
  wait_interval ;;
  o ← counters_now ;
  let now := o_stats o in
  publish (plain_rate (stats_interval_sec cfg) (before payload_tx) (now payload_tx))
          (plain_rate (stats_interval_sec cfg) (before payload_rx) (now payload_rx)) ;;
  say (stats_line o (increments before now)) ;;
  show (increments before now) ;;
  mret now.

(** At most [n] turns.
    [stats_loop] src/cdn/src/runtime.cpp:900-915 *)
Fixpoint stats_turns (n : nat) (before : Stats) : M Reporter Stats :=
  match n with
  | O => mret before
  | S n' => go ← going_on ; if (go : bool) then now ← stats_turn before ; stats_turns n' now else mret before
  end.

(** ** For people *)

(** [fresh], with the time [now].
    [human_stats_loop] src/cdn/src/runtime.cpp:872-873 *)
Definition fresh_sample (o : Observed) (now : Z) : bool :=
  measured o && (u64 (now - o_stats o rtt_sample_us) <=? 30000000) && negb (late o).

(** [human_stats_loop] src/cdn/src/runtime.cpp:874-884 *)
Definition human_health (o : Observed) (fresh : bool) (prevdrops : Z) : bytes :=
  let hist := snapshot 0 (o_history o) in
  (if 1 <? max_connections cfg then
     str "[POOL] active=" ++ cnt o pool_active ++ str "/" ++ to_string (max_connections cfg)
     ++ str " dial_failures=" ++ cnt o pool_dial_failures ++ str " lane_failures=" ++ cnt o pool_failures ++ newline
   else [])
  ++ str "[HEALTH] "
  ++ str (if online o then if late o then "DEGRADED" else "ONLINE"
          else if g_state o =? 1 then "WAITING FOR CLIENT" else if g_state o =? 2 then "CONNECTING"
          else if g_state o =? 4 then "RECONNECTING" else "NOT ONLINE")
  ++ (if fresh then str " | authenticated round-trip " ++ fixed1 (over (o_stats o rtt_us) 1000) ++ str " ms"
      else str " | authenticated round-trip unavailable/stale")
  ++ (if 5 <=? sample_count hist then
        str " | RTT p95 " ++ fixed1 (percentile_ms p95_us hist) ++ str " ms (" ++ to_string (sample_count hist) ++ str " samples)"
      else [])
  ++ str " | queued " ++ cnt o queue_pkts ++ str " packets"
  ++ str " | dropped this interval " ++ to_string (if prevdrops <=? drops o then drops o - prevdrops else 0)
  ++ str " | reconnects total " ++ cnt o reconnects ++ newline.

(** [human_stats_loop] src/cdn/src/runtime.cpp:885-892 *)
Definition human_traffic (o : Observed) (idle : bool) (send receive : Z) : bytes :=
  str "[TRAFFIC] " ++ str (if idle then "idle" else "active")
  ++ str " | sent " ++ format_bytes_rate send ++ str " | received " ++ format_bytes_rate receive ++ str " | TCP "
  ++ (if online o && sidecar cfg then str "Iran-to-CDN RTT unavailable (Go sidecar)"
      else if online o then
        str (if is_client cfg then "Iran-to-CDN peer " else "foreign-to-local-Nginx ")
        ++ fixed1 (over (tcp_rtt_us (o_gauges o)) 1000) ++ str " ms"
      else str "unavailable")
  ++ str " | TCP retransmissions cumulative " ++ to_string (tcp_total_retrans (o_gauges o))
  ++ str " (local socket only)" ++ newline.

(** [tx], [rx], [prevdrops] and [prev].
    [human_stats_loop] src/cdn/src/runtime.cpp:862-863 *)
Record Previous := mkPrevious { pr_tx : Z; pr_rx : Z; pr_drops : Z; pr_at : Z }.

(** The body of the loop after the wait.
    [human_stats_loop] src/cdn/src/runtime.cpp:867-893 *)
Definition human_report (p : Previous) : M Reporter Previous :=
  now ← consult clock_ns ;
  o ← counters_now ;
  let nt := o_stats o payload_tx in
  let nr := o_stats o payload_rx in
  let send := human_rate (now - pr_at p) (pr_tx p) nt in
  let receive := human_rate (now - pr_at p) (pr_rx p) nr in
  publish send receive ;;
  t ← (if measured o then t ← consult clock_ns ; mret (u64 (micros t)) else mret 0) ;
  say (human_health o (fresh_sample o t) (pr_drops p)
       ++ human_traffic o ((nt =? pr_tx p) && (nr =? pr_rx p)) send receive) ;;
  mret (mkPrevious nt nr (drops o) now).

(** At most [n] turns; a stop during the wait ends the loop without a line.
    [human_stats_loop] src/cdn/src/runtime.cpp:864-894 *)
Fixpoint human_turns (n : nat) (p : Previous) : M Reporter Previous :=
  match n with
  | O => mret p
  | S n' =>
      go ← going_on ;
      if negb go then mret p
      else
        wait_interval ;;
        go ← going_on ;
        if negb go then mret p else p' ← human_report p ; human_turns n' p'
  end.

(** [human_stats_loop] src/cdn/src/runtime.cpp:861-894 *)
Definition human_stats_loop (n : nat) : M Reporter unit :=
  o ← counters_now ;
  at_ ← consult clock_ns ;
  human_turns n (mkPrevious (o_stats o payload_tx) (o_stats o payload_rx) (drops o) at_) ;;
  mret tt.

(** [stats_loop] src/cdn/src/runtime.cpp:896-916 *)
Definition stats_loop (n : nat) : M Reporter unit :=
  if text_is (log_format cfg) "human" then human_stats_loop n
  else stats_turns n (λ _, 0) ;; mret tt.

(** ** What the lines say over time *)

Definition total_of (c : Counter) (l : list Stats) : Z := foldr (λ i n, i c + n) 0 l.

Lemma going_on_same s : ∃ go w, going_on s = (Ok go, mkReporter w (cerr s) (tx_rate s) (rx_rate s) (shown s)).
Proof using Type.
  unfold going_on, consult, mbind, M_bind, mret, M_ret. destruct (done_flag (rep_os s)) as [[] w]; [by eexists _, _|].
  simpl. destruct (stop_flag w) as [stop w']. by eexists _, _.
Qed.

Lemma wait_same n : ∀ s, ∃ w, nap_slices n s = (Ok tt, mkReporter w (cerr s) (tx_rate s) (rx_rate s) (shown s)).
Proof using Type.
  induction n as [|n IH]; intros s; [exists (rep_os s); by destruct s|]. cbn [nap_slices].
  unfold mbind, M_bind. destruct (going_on_same s) as ([|] & w & ->); [|by eexists].
  unfold consult. cbn [rep_os cerr tx_rate rx_rate shown]. by destruct (IH (mkReporter (nap w) (cerr s) (tx_rate s) (rx_rate s) (shown s))) as [w' ->]; eexists.
Qed.

(** One turn writes one line, whose increments lead from the last counters to the
    present ones. *)
Lemma stats_turn_reports before s : ∃ now s', stats_turn before s = (Ok now, s')
  ∧ cerr s' = cerr s ++ [stats_line (observe (rep_os s')) (increments before now)]
  ∧ shown s' = shown s ++ [increments before now] ∧ now = o_stats (observe (rep_os s')).
Proof using Type.
  unfold stats_turn, wait_interval, mbind, M_bind. destruct (wait_same (Z.to_nat (stats_interval_sec cfg * 10)) s) as [w ->].
  unfold counters_now, gets, publish, say, show, modify, mret, M_ret. cbn. by eexists _, _.
Qed.

(** However the counters change meanwhile (they may wrap), the increments written
    for each of them add up to what the last line saw, and no report is lost or
    repeated: a line for every one of them. *)
Lemma stats_lines_add_up n : ∀ before s, ∃ last s' new, stats_turns n before s = (Ok last, s')
  ∧ shown s' = shown s ++ new ∧ length (cerr s') = (length (cerr s) + length new)%nat
  ∧ (length new <= n)%nat ∧ ∀ c, u64 (before c + total_of c new) = u64 (last c).
Proof using Type.
  induction n as [|n IH]; intros before s; cbn [stats_turns].
  { exists before, s, []. rewrite app_nil_r. repeat split; [simpl; lia..|]. intros c. f_equal. simpl. lia. }
  unfold mbind, M_bind. destruct (going_on_same s) as ([|] & w & ->).
  - destruct (stats_turn_reports before (mkReporter w (cerr s) (tx_rate s) (rx_rate s) (shown s)))
      as (now & s1 & -> & Hl & Hs & _).
    destruct (IH now s1) as (last & s' & new & -> & Hs' & Hl' & Hn & Hsum).
    exists last, s', (increments before now :: new). split; [done|]. split; [by rewrite Hs', Hs, <- app_assoc|].
    split; [rewrite Hl', Hl, length_app; simpl; lia|]. split; [simpl; lia|]. intros c. rewrite <- Hsum.
    change (total_of c (increments before now :: new)) with (increments before now c + total_of c new).
    unfold increments, u64. rewrite (Z.mod_eq (now c - before c)) by done.
    rewrite <- (Z_mod_plus_full (now c + _) (- ((now c - before c) / 2 ^ 64))). f_equal. lia.
  - exists before, (mkReporter w (cerr s) (tx_rate s) (rx_rate s) (shown s)), []. rewrite app_nil_r.
    repeat split; [simpl; lia..|]. intros c. f_equal. simpl. lia.
Qed.
End StatsLoop.

(** *** A process that sends a megabyte per second *)
Module StatsDemo.
Import World ConfigDemo.

(** Ten waits of a tenth of a second pass between two lines. *)
#[export] Instance stats_os : StatsOs loop_os := {|
  done_flag w := (false, w);
  nap w := mkWorld (tun_packets w) (pieces w) (ticks w + 100000000) (turns w);
  observe w :=
    mkObserved (put payload_tx (ticks w / 1000) (put rtt_us (-1) new_stats)) (reconnect_counts 0 0 0 0 0 0 0)
      (mkHistory [] [] []) (mkGauges 20250 10 0 0 0 1448 1500 2 2 0 0) 3 7;
|}.

Definition told_in (n : nat) : Reporter :=
  (human_stats_loop client_config n (mkReporter (mkWorld [] [] 0 0) [] 0 0 [])).2.

Example human_lines :
  cerr (told_in 1) = [str "[HEALTH] ONLINE | authenticated round-trip unavailable/stale | queued 0 packets | dropped this interval 0 | reconnects total 0"
    ++ newline ++ str "[TRAFFIC] active | sent 976.8 KiB/s | received 0 B/s | TCP Iran-to-CDN peer 20.2 ms | TCP retransmissions cumulative 0 (local socket only)"
    ++ newline] ∧ tx_rate (told_in 2) = 999999.
Proof. split; vm_compute; reflexivity. Qed.

Example machine_line :
  cerr (stats_turns client_config 1 (λ _, 0) (mkReporter (mkWorld [] [] 0 0) [] 0 0 [])).2
  = [str "[STATS]/5s state=ONLINE tun_in+=0 tun_out+=0 payload_tx+=5000000 payload_rx+=0 wire_tx+=0 wire_rx+=0 queue=0/0B peak_queue=0/0B batch_now=1 rtt_ms=0 ws_rtt_ms=0 tcp_rtt_ms=20.25 ws_tx_pending=0B cwnd=10 unacked=0 retrans=0 drop_queue+=0 drop_delay+=0 malformed=0 replay_drop=0 sequence_gap=0 auth_fail=0 reconnects=0 tx_stalls=0 ws_missed_pongs=0"
     ++ newline].
Proof. vm_compute. reflexivity. Qed.
End StatsDemo.
