(* ===== verification/CommandLine.v ===== *)
(** * The command line (cdn/src/main.cpp)

    What a call of the program asks for, and how far it gets: a text, a request
    over the control socket, or [run] with a configuration. The text of
    [effective_config], [run] and [control_command] are not part of this file. *)

From S2P Require Import Prelude.
From S2P Require Import Text Config Tun Logging.

(** What the rest of the program is asked for: text on [std::cout], one of the two
    calls, or the settings in effect. *)
Inductive Request :=
| Say (text : bytes)
| CallControl (socket command : bytes)
| ShowConfig (c : Config)
| RunWith (c : Config).

(** The variables of the loop over the arguments.
    [main] src/cdn/src/main.cpp:22-23 *)
Record Options := mkOptions { o_path : bytes; o_control : bytes; o_command : bytes; o_check : bool; o_print : bool }.

Definition no_options : Options := mkOptions [] [] [] false false.

Definition newline_ : bytes := [10].
Definition version_text : bytes := str "pacetun-cdn 6.0.0-alpha1-linux" ++ newline_.
Definition platform_text : bytes :=
  str "os=linux backend=linux-tun windows=unsupported macos=unsupported freebsd=unsupported socks5=not-implemented release=6.0.0-alpha1" ++ newline_.
Definition usage_text : bytes :=
  version_text ++ str "Usage:" ++ newline_
  ++ str "  pacetun-cdn --config FILE [--check-config|--print-effective-config]" ++ newline_
  ++ str "  pacetun-cdn --platform" ++ newline_
  ++ str "  pacetun-cdn diagnose" ++ newline_
  ++ str "  pacetun-cdn --explain ERROR_CODE" ++ newline_
  ++ str "  pacetun-cdn --control SOCKET {overview|status|stats|health|events|diagnose|reconnect|stop}" ++ newline_.

(** The loop over the arguments: options, or a text that ends the program at once.
    [main] src/cdn/src/main.cpp:24-43 *)
Fixpoint read_options (args : list bytes) (o : Options) : res (bytes + Options) :=
  match args with
  | [] => Ok (inr o)
  | a :: rest =>
      if text_is a "--config" then
        match rest with
        | path :: rest => read_options rest (mkOptions path (o_control o) (o_command o) (o_check o) (o_print o))
        | [] => Err (str "unknown argument: " ++ a)
        end
      else if text_is a "--check-config" then
        read_options rest (mkOptions (o_path o) (o_control o) (o_command o) true (o_print o))
      else if text_is a "--print-effective-config" then
        read_options rest (mkOptions (o_path o) (o_control o) (o_command o) (o_check o) true)
      else if text_is a "--control" then
        match rest with
        | control :: command :: rest => read_options rest (mkOptions (o_path o) control command (o_check o) (o_print o))
        | _ => Err (str "unknown argument: " ++ a)
        end
      else if text_is a "--version" then Ok (inl version_text)
      else if text_is a "--help" || text_is a "-h" then Ok (inl usage_text)
      else Err (str "unknown argument: " ++ a)
  end.

(** ** What the options mean *)

(** An option, its words, and what it sets. *)
Inductive Choice := ConfigFile (path : bytes) | CheckConfig | PrintConfig | ControlCall (socket command : bytes).

Definition spell_one (c : Choice) : list bytes :=
  match c with
  | ConfigFile p => [str "--config"; p]
  | CheckConfig => [str "--check-config"]
  | PrintConfig => [str "--print-effective-config"]
  | ControlCall s c => [str "--control"; s; c]
  end.
Definition spell (l : list Choice) : list bytes := l ≫= spell_one.

Definition choose (o : Options) (c : Choice) : Options :=
  match c with
  | ConfigFile p => mkOptions p (o_control o) (o_command o) (o_check o) (o_print o)
  | CheckConfig => mkOptions (o_path o) (o_control o) (o_command o) true (o_print o)
  | PrintConfig => mkOptions (o_path o) (o_control o) (o_command o) (o_check o) true
  | ControlCall s c => mkOptions (o_path o) s c (o_check o) (o_print o)
  end.

Lemma text_is_true t l : text_is t l = true ↔ t = str l.
Proof. apply bool_decide_eq_true. Qed.

(** The words of options are read as these options, and nothing else is. *)
Lemma options_read_back args o o' :
  read_options args o = Ok (inr o') ↔ ∃ l, args = spell l ∧ o' = fold_left choose l o.
Proof.
  split.
  - revert o. induction args as [args IH] using (induction_ltof1 _ (@length bytes)). unfold ltof in IH.
    intros o. destruct args as [|a rest]; cbn [read_options]; [intros [= <-]; by exists []|].
    assert (Hone : ∀ c rest', a :: rest = spell_one c ++ rest' → read_options rest' (choose o c) = Ok (inr o') →
                     ∃ l, a :: rest = spell l ∧ o' = fold_left choose l o).
    { intros c rest' E Hr. apply IH in Hr as (l & -> & ->); [by exists (c :: l)|]. rewrite E. destruct c; cbn; lia. }
    destruct (text_is a "--config") eqn:E1.
    { apply text_is_true in E1 as ->. destruct rest as [|p rest]; [done|]. by apply (Hone (ConfigFile p)). }
    destruct (text_is a "--check-config") eqn:E2; [apply text_is_true in E2 as ->; by apply (Hone CheckConfig)|].
    destruct (text_is a "--print-effective-config") eqn:E3; [apply text_is_true in E3 as ->; by apply (Hone PrintConfig)|].
    destruct (text_is a "--control") eqn:E4.
    { apply text_is_true in E4 as ->. destruct rest as [|s [|c rest]]; [done..|]. by apply (Hone (ControlCall s c)). }
    destruct (text_is a "--version"); [done|]. by destruct (text_is a "--help" || text_is a "-h").
  - intros (l & -> & ->). revert o. induction l as [|[p| | |s c] l IH]; intros o; cbn; [done|apply IH..].
Qed.

Lemma chosen l o :
  (o_check (fold_left choose l o) = false ↔ o_check o = false ∧ CheckConfig ∉ l)
  ∧ (o_print (fold_left choose l o) = false ↔ o_print o = false ∧ PrintConfig ∉ l).
Proof.
  revert o. induction l as [|c l IH]; intros o; cbn.
  { pose proof (not_elem_of_nil CheckConfig). pose proof (not_elem_of_nil PrintConfig). tauto. }
  rewrite !not_elem_of_cons. destruct (IH (choose o c)) as [-> ->]. clear IH.
  destruct c; cbn; intuition discriminate.
Qed.

Section CommandLine.
Context `{UndeclaredFields} `{KeyOrder} `{TunSystem} (files : bytes → option bytes).

(** What follows the loop.
    [main] src/cdn/src/main.cpp:44-50 *)
Definition act_on (o : Options) : res Request :=
  if negb (is_empty (o_control o)) then Ok (CallControl (o_control o) (o_command o))
  else
    throw_if (is_empty (o_path o)) (str "--config FILE is required") ;;
    c ← load_config (o_path o) (files (o_path o)) ;
    validate_tun_inputs (dev c) (cidr c) (peer_cidr c) (mtu c) ;;
    Ok (if o_check o then Say (str "configuration OK" ++ newline_)
        else if o_print o then ShowConfig c
        else RunWith c).

Definition by_options (args : list bytes) : res Request :=
  r ← read_options args no_options ;
  match r with inl text => Ok (Say text) | inr o => act_on o end.

(** [args] are the arguments after the name of the program; an error is printed with
    [fatal: ] in front, and ends the program with 1.
    [main] src/cdn/src/main.cpp:9-54 *)
Definition main (args : list bytes) : res Request :=
  match args with
  | [a] =>
      if text_is a "--platform" then Ok (Say platform_text)
      else if text_is a "diagnose" then Ok (CallControl (str "/run/pacetun-cdn/control.sock") (str "diagnose"))
      else by_options args
  | [a; code] =>
      if text_is a "--explain" then
        let e := explain_problem code [] in
        Ok (Say (str "Code: " ++ code ++ newline_ ++ str "Meaning: " ++ meaning e ++ newline_
                 ++ str "Next step: " ++ next_step e ++ newline_))
      else by_options args
  | _ => by_options args
  end.

Lemma act_on_runs o c :
  act_on o = Ok (RunWith c) ↔
  o_check o = false ∧ o_print o = false ∧ o_control o = [] ∧ o_path o ≠ []
  ∧ load_config (o_path o) (files (o_path o)) = Ok c ∧ validate_tun_inputs (dev c) (cidr c) (peer_cidr c) (mtu c) = Ok tt.
Proof using Type.
  unfold act_on, throw_if, is_empty. destruct o as [[|x p] [|y k] m ch pr]; cbn; try (split; [done|by intros (_ & _ & ? & ? & _)]).
  destruct (load_config _ _) as [c'|e]; cbn; [|split; [done|by intros (_ & _ & _ & _ & ? & _)]].
  destruct (validate_tun_inputs _ _ _ _) as [[]|e] eqn:Hv; cbn.
  - destruct ch, pr; split; try done; try (by intros (? & ? & _)).
    + intros [= <-]. by repeat split.
    + by intros (_ & _ & _ & _ & [= ->] & _).
  - split; [done|]. intros (_ & _ & _ & _ & [= ->] & ?). congruence.
Qed.

(** C34: the program runs a tunnel exactly when its arguments are options of which none asks for a check, for the
    settings or for a request, and the file of the last [--config] holds a valid configuration whose
    TUN settings are accepted; and it runs that configuration. *)
Theorem tunnel_runs_when args c :
  (main args = Ok (RunWith c)) ↔
  ∃ l, args = spell l ∧ (CheckConfig ∉ l) ∧ (PrintConfig ∉ l) ∧
    let o := fold_left choose l no_options in
    o_control o = [] ∧ o_path o ≠ [] ∧ load_config (o_path o) (files (o_path o)) = Ok c
    ∧ validate_tun_inputs (dev c) (cidr c) (peer_cidr c) (mtu c) = Ok tt.
Proof using Type.
  assert (Hmain : (main args = Ok (RunWith c)) ↔ (by_options args = Ok (RunWith c))).
  { unfold main. destruct args as [|a [|code [|]]]; try done.
    - destruct (text_is a "--platform") eqn:E1; [apply text_is_true in E1 as ->; by split|].
      destruct (text_is a "diagnose") eqn:E2; [apply text_is_true in E2 as ->; by split|done].
    - destruct (text_is a "--explain") eqn:E1; [apply text_is_true in E1 as ->; by split|done]. }
  rewrite Hmain. unfold by_options. split.
  - destruct (read_options args no_options) as [[t|o]|e] eqn:Hr; [done| |done]. cbn. intros Ha.
    apply options_read_back in Hr as (l & -> & ->). exists l. destruct (chosen l no_options) as [Hc Hp].
    apply act_on_runs in Ha. tauto.
  - intros (l & -> & Hc & Hp & Ho & Hpath & Hl & Hv). destruct (chosen l no_options) as [Hc' Hp'].
    rewrite (proj2 (options_read_back (spell l) no_options _)) by by exists l. cbn. apply act_on_runs. tauto.
Qed.
End CommandLine.

(** ** A concrete call *)
Module CommandLineDemo.
Import ConfigDemo TunDemo.

Definition files (f : bytes) : option bytes := if text_is f "a.conf" then Some (lines client) else None.

Example last_file_runs :
  main files [str "--config"; str "b.conf"; str "--config"; str "a.conf"] = Ok (RunWith client_config).
Proof. vm_compute. reflexivity. Qed.

Example checked_only : main files [str "--check-config"; str "--config"; str "a.conf"] = Ok (Say (str "configuration OK" ++ newline_)).
Proof. vm_compute. reflexivity. Qed.

Example no_such_file : main files [str "--config"; str "b.conf"] = Err (str "cannot open config: b.conf").
Proof. vm_compute. reflexivity. Qed.
End CommandLineDemo.
