(* ===== verification/Effective.v ===== *)
(** * The settings in effect (cdn/src/config.cpp, [effective_config])

    What [--print-effective-config] prints, and what becomes of it when it is
    given back as a configuration file. *)

From stdpp Require Import pretty.
From S2P Require Import Prelude.
From S2P Require Import Text Numerals Record Config ConfigBounds.
Open Scope Z_scope.

(** ** The text *)

(** An [int] written to a stream in octal: the digits of its unsigned value ([std::oct]). *)
Fixpoint octal_digits (fuel : nat) (z : Z) (text : bytes) : bytes :=
  match fuel with
  | O => text
  | S fuel' => let text := 48 + z mod 8 :: text in if z <? 8 then text else octal_digits fuel' (z / 8) text
  end.

(** [effective_config] src/cdn/src/config.cpp:262-262 ([std::oct<<c.control_mode]) *)
Definition octal_text (z : Z) : bytes := octal_digits 11 (u32 z) [].

(** A [bool] written to a stream. *)
Definition bool_text (b : bool) : bytes := if b then str "1" else str "0".

(** The keys and what is written after them, in their order.
    [effective_config] src/cdn/src/config.cpp:262-262 *)
Definition effective_settings (c : Config) : list (bytes * bytes) :=
  let is_server := text_is (mode c) "server" in
  [(str "browser_profile", browser_profile c); (str "traffic_shaping", bool_text (traffic_shaping c));
   (str "shaping_startup_ms", to_string (shaping_startup_ms c)); (str "shaping_delay_ms", to_string (shaping_delay_ms c));
   (str "shaping_rate_bytes", to_string (shaping_rate_bytes c)); (str "shaping_burst_bytes", to_string (shaping_burst_bytes c));
   (str "pool_drain_sec", to_string (pool_drain_sec c)); (str "pool_idle_poll_ms", to_string (pool_idle_poll_ms c));
   (str "address_family", address_family c); (str "reply_degraded_sec", to_string (reply_degraded_sec c));
   (str "reply_renew_sec", to_string (reply_renew_sec c)); (str "reply_timeout_sec", to_string (reply_timeout_sec c));
   (str "candidate_max_rtt_ms", to_string (candidate_max_rtt_ms c)); (str "latency_renew_ms", to_string (latency_renew_ms c));
   (str "latency_renew_samples", to_string (latency_renew_samples c));
   (str "latency_renew_cooldown_sec", to_string (latency_renew_cooldown_sec c));
   (str "idle_probe_sec", to_string (idle_probe_sec c));
   (str "websocket_control_padding_bytes", to_string (websocket_control_padding_bytes c));
   (str "padding_budget_pct", to_string (padding_budget_pct c)); (str "timing_jitter_pct", to_string (timing_jitter_pct c));
   (str "log_format", log_format c); (str "websocket_padding_max_bytes", to_string (websocket_padding_max_bytes c));
   (str "flow_scheduler", bool_text (flow_scheduler c)); (str "mode", mode c); (str "transport", transport c)]
  ++ (if is_server then [(str "listen", listen c)] else [(str "server", server c); (str "server_name", server_name c)])
  ++ [(str "path", path c); (str "host_header", host_header c); (str "tls_backend", tls_backend c);
   (str "tls_adapter_socket", tls_adapter_socket c); (str "max_connections", to_string (max_connections c));
   (str "edge_dns_rotation", bool_text (edge_dns_rotation c)); (str "websocket_tls", bool_text (websocket_tls c));
   (str "websocket_ping_sec", to_string (websocket_ping_sec c));
   (str "websocket_pong_timeout_sec", to_string (websocket_pong_timeout_sec c));
   (str "websocket_poll_ms", to_string (websocket_poll_ms c));
   (str "websocket_upgrade_timeout_sec", to_string (websocket_upgrade_timeout_sec c));
   (str "websocket_io_timeout_sec", to_string (websocket_io_timeout_sec c));
   (str "listen_backlog", to_string (listen_backlog c)); (str "session_max_age_sec", to_string (session_max_age_sec c));
   (str "dev", dev c); (str "cidr", cidr c); (str "peer_cidr", peer_cidr c); (str "mtu", to_string (mtu c))]
  ++ (if is_server then [(str "tls_cert", tls_cert c); (str "tls_key", tls_key c)]
      else [(str "tls_ca", tls_ca c); (str "verify_peer", bool_text (verify_peer c))])
  ++ [(str "psk_file", psk_file c); (str "psk_previous_file", psk_previous_file c); (str "profile", profile c);
   (str "resource_profile", resource_profile c);
   (str "max_record_buffer_bytes", to_string (max_record_buffer_bytes c)); (str "control_mode", octal_text (control_mode c));
   (str "queue_packets", to_string (queue_packets c)); (str "queue_bytes", to_string (queue_bytes c));
   (str "queue_delay_ms", to_string (queue_delay_ms c)); (str "batch_packets", to_string (batch_packets c));
   (str "batch_bytes", to_string (batch_bytes c)); (str "adaptive_batching", bool_text (adaptive_batching c));
   (str "adaptive_batch_min_packets", to_string (adaptive_batch_min_packets c));
   (str "adaptive_batch_max_packets", to_string (adaptive_batch_max_packets c));
   (str "queue_target_delay_ms", to_string (queue_target_delay_ms c));
   (str "connect_timeout_sec", to_string (connect_timeout_sec c)); (str "idle_timeout_sec", to_string (idle_timeout_sec c));
   (str "keepalive_sec", to_string (keepalive_sec c)); (str "rtt_probe_sec", to_string (rtt_probe_sec c));
   (str "reconnect_initial_ms", to_string (reconnect_initial_ms c)); (str "reconnect_max_ms", to_string (reconnect_max_ms c));
   (str "reconnect_jitter_pct", to_string (reconnect_jitter_pct c)); (str "tcp_keepidle_sec", to_string (tcp_keepidle_sec c));
   (str "tcp_keepintvl_sec", to_string (tcp_keepintvl_sec c)); (str "tcp_keepcnt", to_string (tcp_keepcnt c));
   (str "tcp_user_timeout_ms", to_string (tcp_user_timeout_ms c)); (str "sndbuf", to_string (sndbuf c));
   (str "rcvbuf", to_string (rcvbuf c)); (str "stats_interval_sec", to_string (stats_interval_sec c));
   (str "control_socket", control_socket c)].

(** A setting on a line of its own. *)
Definition setting_line (s : bytes * bytes) : bytes := s.1 ++ 61 :: s.2.

(** [effective_config] src/cdn/src/config.cpp:262-262 *)
Definition effective_config (c : Config) : bytes := effective_settings c ≫= λ s, setting_line s ++ [10].

(** ** Numbers are read back *)

(** The octal text of every file mode, by evaluation. *)
Lemma octal_text_read z : 0 <= z <= 511 → stoi_base 8 (octal_text z) = Ok z.
Proof.
  intros Hz.
  assert (Hall : forallb (λ n, match stoi_base 8 (octal_text (Z.of_nat n)) with Ok v => v =? Z.of_nat n | Err _ => false end)
                   (seq 0 512) = true) by (vm_compute; reflexivity).
  rewrite forallb_forall in Hall. specialize (Hall (Z.to_nat z)). rewrite Z2Nat.id in Hall by lia.
  assert (Hin : In (Z.to_nat z) (seq 0 512)) by (apply in_seq; lia). specialize (Hall Hin).
  destruct (stoi_base 8 _) as [v|]; [|done]. by apply Z.eqb_eq in Hall as ->.
Qed.

(** ** Lines are read back *)

(** No white space at either end. *)
Definition tight (s : bytes) : Prop :=
  (∀ c, head s = Some c → isspace c = false) ∧ (∀ c, last s = Some c → isspace c = false).

(** A text that a line of a configuration file can hold as a value. *)
Definition clean (s : bytes) : Prop := (35 ∉ s) ∧ (10 ∉ s) ∧ tight s.

Lemma drop_while_head f s c : head (drop_while f s) = Some c → f c = false.
Proof. induction s as [|x s IH]; simpl; [done|]. destruct (f x) eqn:E; [done|]. by intros [= <-]. Qed.

Lemma drop_while_none f s : (∀ c, head s = Some c → f c = false) → drop_while f s = s.
Proof. destruct s as [|c s]; [done|]. intros H. simpl. by rewrite (H c eq_refl). Qed.

Lemma head_rev {A} (l : list A) : head (rev l) = last l.
Proof. induction l as [|x l _] using rev_ind; [done|]. by rewrite rev_app_distr, last_snoc. Qed.

Lemma trim_tight s : tight s → trim s = s.
Proof.
  intros [Hh Hl]. unfold trim. rewrite (drop_while_none _ s Hh), (drop_while_none isspace (rev s)), rev_involutive; [done|].
  intros c. rewrite head_rev. apply Hl.
Qed.

Lemma tight_trim s : tight (trim s).
Proof.
  unfold trim. set (t := drop_while isspace s). set (u := drop_while isspace (rev t)). split; intros c Hc.
  - destruct (drop_while_suffix isspace (rev t)) as (k & Hk & _). fold u in Hk.
    assert (Ht : t = rev u ++ rev k) by (by rewrite <- rev_app_distr, <- Hk, rev_involutive).
    apply (drop_while_head isspace s). fold t. rewrite Ht. destruct (rev u); [done|exact Hc].
  - apply (drop_while_head isspace (rev t)). fold u. by rewrite <- (rev_involutive u), head_rev.
Qed.

Lemma trim_elem c s : c ∈ trim s → c ∈ s.
Proof.
  unfold trim. intros Hc. apply list_elem_of_In, in_rev, list_elem_of_In in Hc.
  destruct (drop_while_suffix isspace (rev (drop_while isspace s))) as (k & Hk & _).
  assert (Hc2 : c ∈ rev (drop_while isspace s)) by (rewrite Hk, elem_of_app; auto).
  apply list_elem_of_In, in_rev, list_elem_of_In in Hc2.
  destruct (drop_while_suffix isspace s) as (k' & Hk' & _). rewrite Hk', elem_of_app. auto.
Qed.

Lemma getlines_line l rest : 10 ∉ l → getlines (l ++ 10 :: rest) = l :: getlines rest.
Proof.
  induction l as [|c l IH]; intros Hl; [done|]. apply not_elem_of_cons in Hl as [Hc Hl]. cbn [app getlines].
  rewrite (proj2 (Z.eqb_neq c 10)) by congruence. by rewrite IH.
Qed.

Lemma getlines_clean text : Forall (λ l, 10 ∉ l) (getlines text).
Proof.
  induction text as [|c text IH]; [constructor|]. cbn [getlines]. destruct (Z.eqb_spec c 10) as [->|Hc].
  - constructor; [apply not_elem_of_nil|done].
  - destruct (getlines text) as [|l ls]; [apply Forall_singleton|]; [|inversion IH as [|? ? Hl Hls]; subst; constructor; [|done]];
      apply not_elem_of_cons; split; auto. apply not_elem_of_nil.
Qed.

(** A value that was read can be written. *)
Lemma parsed_clean l k v : 10 ∉ l → parse_line l = Setting k v → clean v.
Proof.
  unfold parse_line. intros Hl. set (cut := match find_char 35 l with Some h => take h l | None => l end).
  assert (Hcut : (35 ∉ cut) ∧ (10 ∉ cut)).
  { unfold cut. destruct (find_char 35 l) as [h|] eqn:Hf.
    - split; [by apply find_char_before|]. intros Hc. apply Hl. rewrite <- (take_drop h l), elem_of_app. auto.
    - split; [by apply find_char_none|done]. }
  destruct (is_empty _); [done|]. destruct (find_char 61 _) as [e|]; [|done]. destruct (is_empty _); [done|].
  intros [= _ <-]. assert (Hin : ∀ c, c ∈ trim (drop (e + 1) (trim cut)) → c ∈ cut).
  { intros c Hc%trim_elem. apply trim_elem. rewrite <- (take_drop (e + 1) (trim cut)), elem_of_app. auto. }
  split; [|split]; [..|apply tight_trim]; intros Hc%Hin; tauto.
Qed.

(** Lower case letters, digits and underscores. *)
Definition key_char (c : Z) : bool := (97 <=? c) && (c <=? 122) || (48 <=? c) && (c <=? 57) || (c =? 95).
Definition is_key (k : bytes) : bool := negb (is_empty k) && forallb key_char k.

Lemma key_char_not c k : is_key k = true → key_char c = false → c ∉ k.
Proof.
  unfold is_key. intros [_ Hk]%andb_true_iff Hc Hin. rewrite forallb_forall in Hk.
  apply list_elem_of_In in Hin. by rewrite (Hk c Hin) in Hc.
Qed.

Lemma key_tight k : is_key k = true → tight k.
Proof.
  unfold is_key. intros [_ Hk]%andb_true_iff. rewrite forallb_forall in Hk.
  assert (Hc : ∀ c, c ∈ k → isspace c = false).
  { intros c Hin%list_elem_of_In. specialize (Hk c Hin). unfold key_char, isspace in *. bool_to_prop. lia. }
  split; intros c H; apply Hc; [|by apply last_Some_elem_of]. destruct k; [done|]. injection H as ->. apply elem_of_cons. auto.
Qed.

Lemma setting_line_read k v :
  is_key k = true → clean v → parse_line (setting_line (k, v)) = Setting k v ∧ (10 ∉ setting_line (k, v)).
Proof.
  intros Hk (Hv35 & Hv10 & Hv). unfold setting_line. cbn [fst snd].
  assert (Hno : ∀ c, key_char c = false → c ≠ 61 → c ∉ v → c ∉ k ++ 61 :: v).
  { intros c Hc H61 Hcv. rewrite elem_of_app, elem_of_cons. pose proof (key_char_not c k Hk Hc). tauto. }
  split; [|by apply Hno]. unfold parse_line.
  rewrite (proj2 (find_char_none 35 (k ++ 61 :: v))) by by apply Hno.
  assert (Ht : tight (k ++ 61 :: v)).
  { split; intros c.
    - intros Hc. apply (proj1 (key_tight k Hk)). destruct k; [done|exact Hc].
    - rewrite last_app. destruct v as [|x v]; [by intros [= <-]|]. intros Hc. apply (proj2 Hv).
      rewrite last_cons in Hc. destruct (last (x :: v)) eqn:E; [done|]. by apply last_None in E. }
  rewrite (trim_tight _ Ht). destruct (is_empty (k ++ 61 :: v)) eqn:E; [by destruct k|].
  rewrite find_char_app by by apply key_char_not. rewrite take_app_length, (trim_tight k (key_tight k Hk)).
  replace (length k + 1)%nat with (S (length k)) by lia. change (k ++ 61 :: v) with (k ++ [61] ++ v). rewrite app_assoc.
  rewrite (drop_app_length' (k ++ [61]) v) by (rewrite length_app; simpl; lia). rewrite (trim_tight v Hv).
  unfold is_key in Hk. apply andb_true_iff in Hk as [Hk _]. by destruct (is_empty k).
Qed.

(** The settings of a text of such lines. *)
Lemma settings_read (l : list (bytes * bytes)) :
  Forall (λ k, is_key k = true) l.*1 → Forall clean l.*2 → NoDup l.*1 →
  parse_lines 0 ∅ (getlines (l ≫= λ s, setting_line s ++ [10])) = Ok (list_to_map l).
Proof.
  intros Hk Hv Hn.
  assert (Hl : getlines (l ≫= λ s, setting_line s ++ [10]) = map setting_line l ∧ Forall (λ s, parse_line (setting_line s) = Setting s.1 s.2) l).
  { clear Hn. induction l as [|[k v] l IH]; [done|]. cbn in Hk, Hv. apply Forall_cons in Hk as [Hk1 Hk]. apply Forall_cons in Hv as [Hv1 Hv].
    destruct (setting_line_read k v Hk1 Hv1) as [Hp H10]. destruct (IH Hk Hv) as [Hg Hf]. split; [|by constructor].
    rewrite bind_cons, <- app_assoc. cbn [app]. rewrite getlines_line by done. by rewrite Hg. }
  destruct Hl as [-> Hf]. assert (Hs : settings_of (map setting_line l) = l).
  { clear -Hf. induction Hf as [|[k v] l Hp _ IH]; [done|]. unfold settings_of in *. cbn [map omap list_omap]. rewrite Hp. cbn. f_equal. exact IH. }
  apply parse_lines_ok. rewrite Hs. repeat split.
  - unfold well_formed. rewrite Forall_map. eapply Forall_impl; [exact Hf|]. intros s ->. by split.
  - done.
  - apply Forall_forall. intros k _. apply lookup_empty.
  - by rewrite (right_id_L ∅ (∪)).
Qed.

(** ** What a loaded configuration holds *)

(** Its texts, but for [browser_profile], and its numbers. *)
Definition texts (c : Config) : list bytes :=
  [mode c; transport c; listen c; server c; server_name c; path c; host_header c; address_family c; tls_backend c;
   tls_adapter_socket c; log_format c; dev c; cidr c; peer_cidr c; tls_cert c; tls_key c; tls_ca c; psk_file c;
   psk_previous_file c; profile c; resource_profile c; control_socket c].
Definition ints (c : Config) : list Z :=
  [max_connections c; pool_drain_sec c; pool_idle_poll_ms c; websocket_ping_sec c; websocket_pong_timeout_sec c;
   websocket_poll_ms c; websocket_upgrade_timeout_sec c; websocket_io_timeout_sec c; websocket_padding_max_bytes c;
   websocket_control_padding_bytes c; padding_budget_pct c; timing_jitter_pct c; reply_degraded_sec c; reply_renew_sec c;
   reply_timeout_sec c; candidate_max_rtt_ms c; latency_renew_ms c; latency_renew_samples c; latency_renew_cooldown_sec c;
   idle_probe_sec c; listen_backlog c; session_max_age_sec c; mtu c; queue_delay_ms c; batch_packets c;
   adaptive_batch_min_packets c; adaptive_batch_max_packets c; queue_target_delay_ms c; connect_timeout_sec c;
   idle_timeout_sec c; keepalive_sec c; rtt_probe_sec c; reconnect_initial_ms c; reconnect_max_ms c;
   reconnect_jitter_pct c; tcp_keepidle_sec c; tcp_keepintvl_sec c; tcp_keepcnt c; tcp_user_timeout_ms c; sndbuf c;
   rcvbuf c; stats_interval_sec c; shaping_startup_ms c; shaping_delay_ms c; shaping_rate_bytes c; shaping_burst_bytes c].

(** The low-memory caps are already applied. *)
Definition capped (c : Config) : Prop :=
  text_is (resource_profile c) "lowmem" = true →
  max_record_buffer_bytes c <= 131072 ∧ queue_packets c <= 512 ∧ queue_bytes c <= 1024 * 1024 ∧ queue_delay_ms c <= 250
  ∧ batch_packets c <= 4 ∧ batch_bytes c <= 8192 ∧ sndbuf c <= 524288 ∧ rcvbuf c <= 524288 ∧ 10 <= stats_interval_sec c.

Lemma cap_capped c : capped (apply_resource_cap c (resource_profile c)).
Proof.
  unfold capped, apply_resource_cap. destruct (text_is (resource_profile c) "lowmem") eqn:E; cbn; [intros _; lia|].
  by rewrite E.
Qed.

Lemma capped_id c : capped c → apply_resource_cap c (resource_profile c) = c.
Proof.
  unfold capped, apply_resource_cap. destruct (text_is _ _); cbn [negb]; [|done]. intros Hc. specialize (Hc eq_refl).
  destruct c. unfold with_caps. cbn in *. f_equal; lia.
Qed.

(** A text without the characters of a line is clean, by evaluation. *)
Definition clean_b (s : bytes) : bool :=
  forallb (λ c, negb (c =? 35) && negb (c =? 10)) s && match head s with Some c => negb (isspace c) | None => true end
  && match last s with Some c => negb (isspace c) | None => true end.
Lemma clean_by s : clean_b s = true → clean s.
Proof.
  unfold clean_b. intros [[Hf Hh]%andb_true_iff Hl]%andb_true_iff. rewrite forallb_forall in Hf.
  split; [|split; [|split]].
  - intros Hin%list_elem_of_In%Hf. done.
  - intros Hin%list_elem_of_In%Hf. done.
  - intros c Hc. rewrite Hc in Hh. by apply negb_true_iff.
  - intros c Hc. rewrite Hc in Hl. by apply negb_true_iff.
Qed.

Lemma sval_clean (m : Settings) k d : (∀ k v, m !! k = Some v → clean v) → clean_b d = true → clean (sval m k d).
Proof. intros Hm Hd. unfold sval. destruct (m !! str k) as [v|] eqn:E; [by eapply Hm|by apply clean_by]. Qed.

Lemma zval_typed (m : Settings) k d v : zval m k d = Ok v → u64_ok d → u64_ok v.
Proof. unfold zval. destruct (m !! str k); [intros H _; by eapply stoull_range|by intros [= <-]]. Qed.

Lemma cap_sizes c r : sizes_typed c → sizes_typed (apply_resource_cap c r).
Proof. intros [H1 H2 H3 H4]. unfold apply_resource_cap. destruct (negb _); [done|]. unfold u64_ok in *. split; cbn; unfold u64_ok; lia. Qed.

Lemma cap_texts c r : texts (apply_resource_cap c r) = texts c.
Proof. unfold apply_resource_cap. by destruct (negb _). Qed.

(** The profiles set no text, and sizes that are sizes. *)
Lemma profile_facts `{UndeclaredFields} p : let d := apply_profile default_config p in texts d = texts default_config ∧ sizes_typed d.
Proof.
  unfold apply_profile. do 4 (destruct (text_is _ _); [split; [done|by split; cbn; unfold u64_ok; lia]|]).
  split; [done|by split; cbn; unfold u64_ok; lia].
Qed.

Lemma configured `{UndeclaredFields} m c :
  (∀ k v, m !! k = Some v → clean v) → configure m = Ok c → sizes_typed c ∧ Forall clean (texts c) ∧ capped c.
Proof.
  intros Hm. unfold configure. intros Hc. cbv zeta in Hc.
  destruct (profile_facts (sval m "profile" (profile default_config))) as [Ht [S1 S2 S3 S4]].
  set (d := apply_profile _ _) in *. clearbody d.
  repeat match type of Hc with mbind _ _ = Ok _ => apply bind_ok in Hc as (? & ? & Hc) end.
  injection Hc as <-.
  split; [|split].
  - apply cap_sizes. split; cbn; eapply zval_typed; eassumption.
  - rewrite cap_texts. injection Ht as ? ? ? ? ? ? ? ? ? ? ? ? ? ? ? ? ? ? ? ? ? ?.
    unfold texts. cbn [mode transport listen server server_name path host_header address_family tls_backend
   tls_adapter_socket log_format dev cidr peer_cidr tls_cert tls_key tls_ca psk_file
   psk_previous_file profile resource_profile control_socket].
    repeat (apply Forall_cons; split; [apply sval_clean; [exact Hm|]|]); [..|apply Forall_nil].
    all: first [reflexivity|match goal with E : ?x = _ |- clean_b ?x = true => rewrite E; reflexivity end].
  - apply cap_capped.
Qed.


(** What validation says of the numbers. *)
Lemma validated_numbers c : sizes_typed c → validate_config c = Ok tt →
  Forall (λ z, - 2 ^ 31 <= z < 2 ^ 31) (ints c) ∧ 0 <= control_mode c <= 511.
Proof.
  intros [T1 T2 T3 T4]. unfold validate_config. intros H.
  apply bind_ok in H as (u1 & Ht & H). apply bind_ok in H as (u2 & _ & Hn).
  unfold validate_traffic in Ht. unfold validate_numbers in Hn. passed.
  split; [|lia]. unfold ints. repeat (apply Forall_cons; split; [lia|]). constructor.
Qed.

Lemma validated_browser c : validate_config c = Ok tt → clean (browser_profile c).
Proof.
  unfold validate_config. intros (u & Ht & _)%bind_ok. unfold validate_traffic in Ht. passed.
  match goal with H : negb (text_is (browser_profile c) "none") && _ && _ = false |- _ => rename H into Hb end.
  apply andb_false_iff in Hb as [Hb|Hb]; [apply andb_false_iff in Hb as [Hb|Hb]|];
    apply negb_false_iff in Hb; apply bool_decide_eq_true in Hb; rewrite Hb; by apply clean_by.
Qed.

(** ** What the text stands for *)

(** The settings the text does not tell: those of the other mode, and whether the
    permissions of files are checked. *)
Definition told (c : Config) (server_ : bool) : Config := {|
  mode := mode c; transport := transport c; listen := (if server_ then listen c else []);
  server := (if server_ then [] else server c); server_name := (if server_ then [] else server_name c);
  path := path c; host_header := host_header c; max_connections := max_connections c; pool_drain_sec := pool_drain_sec c;
  pool_idle_poll_ms := pool_idle_poll_ms c; address_family := address_family c; flow_scheduler := flow_scheduler c;
  edge_dns_rotation := edge_dns_rotation c; websocket_tls := websocket_tls c; tls_backend := tls_backend c;
  tls_adapter_socket := tls_adapter_socket c; websocket_ping_sec := websocket_ping_sec c;
  websocket_pong_timeout_sec := websocket_pong_timeout_sec c; websocket_poll_ms := websocket_poll_ms c;
  websocket_upgrade_timeout_sec := websocket_upgrade_timeout_sec c; websocket_io_timeout_sec := websocket_io_timeout_sec c;
  websocket_padding_max_bytes := websocket_padding_max_bytes c;
  websocket_control_padding_bytes := websocket_control_padding_bytes c; padding_budget_pct := padding_budget_pct c;
  timing_jitter_pct := timing_jitter_pct c; reply_degraded_sec := reply_degraded_sec c; reply_renew_sec := reply_renew_sec c;
  reply_timeout_sec := reply_timeout_sec c; candidate_max_rtt_ms := candidate_max_rtt_ms c;
  latency_renew_ms := latency_renew_ms c; latency_renew_samples := latency_renew_samples c;
  latency_renew_cooldown_sec := latency_renew_cooldown_sec c; idle_probe_sec := idle_probe_sec c; log_format := log_format c;
  listen_backlog := listen_backlog c; session_max_age_sec := session_max_age_sec c; dev := dev c; cidr := cidr c;
  peer_cidr := peer_cidr c; mtu := mtu c; tls_cert := (if server_ then tls_cert c else []);
  tls_key := (if server_ then tls_key c else []); tls_ca := (if server_ then [] else tls_ca c);
  verify_peer := (if server_ then true else verify_peer c); psk_file := psk_file c; psk_previous_file := psk_previous_file c;
  profile := profile c; resource_profile := resource_profile c; max_record_buffer_bytes := max_record_buffer_bytes c;
  control_mode := control_mode c; queue_packets := queue_packets c; queue_bytes := queue_bytes c;
  queue_delay_ms := queue_delay_ms c; batch_packets := batch_packets c; batch_bytes := batch_bytes c;
  adaptive_batching := adaptive_batching c; adaptive_batch_min_packets := adaptive_batch_min_packets c;
  adaptive_batch_max_packets := adaptive_batch_max_packets c; queue_target_delay_ms := queue_target_delay_ms c;
  connect_timeout_sec := connect_timeout_sec c; idle_timeout_sec := idle_timeout_sec c; keepalive_sec := keepalive_sec c;
  rtt_probe_sec := rtt_probe_sec c; reconnect_initial_ms := reconnect_initial_ms c; reconnect_max_ms := reconnect_max_ms c;
  reconnect_jitter_pct := reconnect_jitter_pct c; tcp_keepidle_sec := tcp_keepidle_sec c;
  tcp_keepintvl_sec := tcp_keepintvl_sec c; tcp_keepcnt := tcp_keepcnt c; tcp_user_timeout_ms := tcp_user_timeout_ms c;
  sndbuf := sndbuf c; rcvbuf := rcvbuf c; stats_interval_sec := stats_interval_sec c; control_socket := control_socket c;
  strict_file_permissions := true; browser_profile := browser_profile c; traffic_shaping := traffic_shaping c;
  shaping_startup_ms := shaping_startup_ms c; shaping_delay_ms := shaping_delay_ms c;
  shaping_rate_bytes := shaping_rate_bytes c; shaping_burst_bytes := shaping_burst_bytes c |}.

Section Read.
Context `{UndeclaredFields} (c : Config) (l : list (bytes * bytes)).
Hypothesis l_keys : NoDup l.*1.

Lemma key_read i k v : l !! i = Some (k, v) → (list_to_map l : Settings) !! k = Some v.
Proof using l_keys. intros Hi. apply elem_of_list_to_map_1; [done|]. by eapply list_elem_of_lookup_2. Qed.
Lemma key_absent k : bool_decide (k ∈ l.*1) = false → (list_to_map l : Settings) !! k = None.
Proof using Type. intros Hk%bool_decide_eq_false. by apply not_elem_of_list_to_map_1. Qed.

Lemma ival_read i k z d : l !! i = Some (str k, to_string z) → - 2 ^ 31 <= z < 2 ^ 31 → ival (list_to_map l) k d = Ok z.
Proof using l_keys. intros Hi Hz. unfold ival. rewrite (key_read i _ _ Hi). by apply stoi_to_string. Qed.
Lemma zval_read i k z d : l !! i = Some (str k, to_string z) → u64_ok z → zval (list_to_map l) k d = Ok z.
Proof using l_keys. intros Hi Hz. unfold zval. rewrite (key_read i _ _ Hi). by apply stoull_to_string. Qed.
Lemma bopt_read i k b d : l !! i = Some (str k, bool_text b) → bopt (list_to_map l) k d = Ok b.
Proof using l_keys. intros Hi. unfold bopt. rewrite (key_read i _ _ Hi). by destruct b. Qed.
Lemma octal_read i k z d : l !! i = Some (str k, octal_text z) → 0 <= z <= 511 → octal (list_to_map l) k d = Ok z.
Proof using l_keys. intros Hi Hz. unfold octal. rewrite (key_read i _ _ Hi). by apply octal_text_read. Qed.
Lemma sval_read i k v d : l !! i = Some (str k, v) → sval (list_to_map l) k d = v.
Proof using l_keys. intros Hi. unfold sval. by rewrite (key_read i _ _ Hi). Qed.
End Read.

(** One step of a chain that returns. *)
Lemma bind_to {A B} (m : res A) (f : A → res B) a r : m = Ok a → f a = r → (m ≫= f) = r.
Proof. by intros ->. Qed.

Lemma bopt_absent (l : list (bytes * bytes)) k d : bool_decide (str k ∈ l.*1) = false → bopt (list_to_map l) k d = Ok d.
Proof. intros Hk. unfold bopt. by rewrite key_absent. Qed.
Lemma sval_absent (l : list (bytes * bytes)) k d : bool_decide (str k ∈ l.*1) = false → sval (list_to_map l) k d = d.
Proof. intros Hk. unfold sval. by rewrite key_absent. Qed.

Lemma profile_verifies c p : verify_peer (apply_profile c p) = verify_peer c.
Proof. unfold apply_profile. by do 4 (destruct (text_is _ _); [done|]). Qed.
Lemma profile_strict c p : strict_file_permissions (apply_profile c p) = strict_file_permissions c.
Proof. unfold apply_profile. by do 4 (destruct (text_is _ _); [done|]). Qed.

(** The position of a key among concrete ones. *)
Fixpoint index_of (k : bytes) (ks : list bytes) : nat :=
  match ks with [] => O | x :: ks => if bool_decide (x = k) then O else S (index_of k ks) end.

(** Read the settings of a concrete list, whose keys are [ks], one after the other. *)
Ltac at_key ks k tac := let i := eval vm_compute in (index_of (str k) ks) in tac i.
Ltac absent := cbn [fmap list_fmap app fst]; vm_compute; reflexivity.
Ltac read_step l Hn ks :=
  match goal with
  | |- mbind _ (ival _ ?k _) = _ =>
      at_key ks k ltac:(fun i => eapply bind_to; [apply (ival_read l Hn i); [reflexivity|split; assumption]|])
  | |- mbind _ (zval _ ?k _) = _ =>
      at_key ks k ltac:(fun i => eapply bind_to; [apply (zval_read l Hn i); [reflexivity|assumption]|])
  | |- mbind _ (octal _ ?k _) = _ =>
      at_key ks k ltac:(fun i => eapply bind_to; [apply (octal_read l Hn i); [reflexivity|assumption]|])
  | |- mbind _ (bopt _ ?k _) = _ =>
      first [ at_key ks k ltac:(fun i => eapply bind_to; [apply (bopt_read l Hn i); reflexivity|])
            | eapply bind_to; [apply (bopt_absent l); absent|] ]
  end; cbv beta.
Ltac read_texts l Hn ks :=
  repeat match goal with
  | |- context [sval (list_to_map l) ?k ?d] =>
      first [ at_key ks k ltac:(fun i => rewrite (sval_read l Hn i k _ d) by reflexivity)
            | rewrite (sval_absent l k d) by absent ]
  end.

Ltac read_all c srv :=
  match goal with |- configure (list_to_map ?l) = _ =>
    let l' := fresh "l" in set (l' := l);
    let ks := eval cbv [l' app fmap list_fmap fst] in (l'.*1) in
    let Hn := fresh "Hn" in
    assert (Hn : NoDup l'.*1) by (change (NoDup ks); apply (bool_decide_eq_true_1 _); vm_compute; reflexivity);
    unfold configure; cbv zeta;
    repeat (read_step l' Hn ks); read_texts l' Hn ks;
    rewrite ?profile_verifies, ?profile_strict;
    change (Ok (apply_resource_cap (told c srv) (resource_profile (told c srv))) = Ok (told c srv))
  end.

Lemma configure_told `{UndeclaredFields} c srv :
  text_is (mode c) "server" = srv → sizes_typed c → Forall (λ z, - 2 ^ 31 <= z < 2 ^ 31) (ints c) → 0 <= control_mode c <= 511 → capped c →
  configure (list_to_map (effective_settings c)) = Ok (told c srv).
Proof.
  intros Hmode [T1 T2 T3 T4] Hints Hctl Hcap. unfold ints in Hints. rewrite !Forall_cons in Hints. destruct_and! Hints.
  unfold effective_settings. rewrite Hmode. destruct srv.
  - read_all c true. by rewrite capped_id.
  - read_all c false. by rewrite capped_id.
Qed.

(** ** Loading the text *)

(** A text of digits, with a sign or not, is clean. *)
Lemma numeral_clean s : (∀ c, c ∈ s → isdigit c = true ∨ c = 45) → clean s.
Proof.
  intros Hs. assert (Hn : ∀ c, c ∈ s → isspace c = false ∧ c ≠ 35 ∧ c ≠ 10).
  { intros c [Hd| ->]%Hs; [|done]. unfold isdigit, isspace in *. bool_to_prop. lia. }
  split; [|split; [|split]].
  - by intros (_ & ? & _)%Hn.
  - by intros (_ & _ & ?)%Hn.
  - intros c Hc. apply Hn. destruct s; [done|]. injection Hc as ->. apply elem_of_cons. auto.
  - intros c Hc. apply Hn. by apply last_Some_elem_of.
Qed.

Lemma to_string_clean z : clean (to_string z).
Proof. apply numeral_clean. intros c. pose proof (to_string_numeral z) as H. rewrite Forall_forall in H. apply H. Qed.

Lemma octal_clean z : clean (octal_text z).
Proof.
  apply numeral_clean. unfold octal_text. intros c Hc. left. revert c Hc. generalize (u32 z). intros x.
  assert (Hn : ∀ fuel y text, Forall (λ c, isdigit c = true) text → Forall (λ c, isdigit c = true) (octal_digits fuel y text)).
  { intros fuel. induction fuel as [|fuel IH]; intros y text Ht; [done|]. cbn [octal_digits].
    assert (Hc : Forall (λ c, isdigit c = true) (48 + y mod 8 :: text)).
    { constructor; [|done]. pose proof (Z.mod_pos_bound y 8 ltac:(done)). unfold isdigit. apply andb_true_iff. rewrite !Z.leb_le. lia. }
    destruct (_ <? _); [done|by apply IH]. }
  apply Forall_forall, Hn. constructor.
Qed.

Lemma bool_clean b : clean (bool_text b).
Proof. destruct b; by apply clean_by. Qed.

Lemma effective_clean c :
  Forall clean (texts c) → clean (browser_profile c) → Forall clean (effective_settings c).*2.
Proof.
  intros Ht Hb. unfold texts in Ht. rewrite !Forall_cons in Ht. destruct_and! Ht.
  unfold effective_settings. destruct (text_is (mode c) "server"); cbn [app fmap list_fmap snd];
    repeat (apply Forall_cons_2; [first [assumption|apply to_string_clean|apply bool_clean|apply octal_clean]|]); apply Forall_nil_2.
Qed.

Lemma effective_keys c : Forall (λ k, is_key k = true) (effective_settings c).*1 ∧ NoDup (effective_settings c).*1
  ∧ Forall (λ k, k ∈ known_keys) (effective_settings c).*1.
Proof.
  unfold effective_settings. destruct (text_is (mode c) "server"); cbn [app fmap list_fmap fst];
    (split; [|split]; apply (bool_decide_eq_true_1 _); vm_compute; reflexivity).
Qed.

(** Validation looks at nothing a client's text leaves out. *)
Lemma told_client_valid c : text_is (mode c) "server" = false → validate_config (told c false) = validate_config c.
Proof.
  intros Hm. unfold validate_config, validate_identity. cbn [told mode transport listen server server_name]. rewrite Hm. reflexivity.
Qed.

(** A server's text leaves out a name that validation asks for. *)
Lemma told_server_invalid c : text_is (mode c) "server" = true → validate_config c = Ok tt →
  validate_config (told c true) = Err (str "server_name is required in server mode").
Proof.
  intros Hm Hv. unfold validate_config in *. apply bind_ok in Hv as ([] & Ht & Hv). apply bind_ok in Hv as ([] & Hi & _).
  change (validate_traffic (told c true)) with (validate_traffic c). rewrite Ht. cbn [mbind res_bind].
  assert (Hid : validate_identity (told c true) = Err (str "server_name is required in server mode")); [|by rewrite Hid].
  unfold validate_identity in *. cbv zeta in *. cbn [told mode transport listen server server_name]. rewrite Hm in *.
  assert (Hcl : text_is (mode c) "client" = false).
  { apply bool_decide_eq_true in Hm. apply bool_decide_eq_false. rewrite Hm. done. }
  rewrite Hcl in *. apply bind_ok in Hi as (u1 & Hi1 & Hi). apply bind_ok in Hi as (u2 & Hi2 & Hi). apply bind_ok in Hi as (u3 & Hi3 & Hi).
  rewrite Hi1. cbn [mbind res_bind]. rewrite Hi3. reflexivity.
Qed.

Lemma read_clean t m k v : parse_lines 0 ∅ (getlines t) = Ok m → m !! k = Some v → clean v.
Proof.
  intros (_ & _ & _ & ->)%parse_lines_ok. rewrite (right_id_L ∅ (∪)). intros Hk%elem_of_list_to_map_2.
  apply list_elem_of_omap in Hk as (l & Hl & Hp). pose proof (getlines_clean t) as Hc. rewrite Forall_forall in Hc.
  specialize (Hc l Hl). destruct (parse_line l) eqn:E; try done. injection Hp as -> ->. by eapply parsed_clean.
Qed.

(** C38: given back as a configuration file, the settings that a client prints load as the configuration they were
    printed from, but for the check of file permissions, which they do not tell, and the settings of servers; the
    settings that a server prints do not load, because the name of the server is not among them. *)
Theorem effective_config_reloads `{UndeclaredFields} `{KeyOrder} p t c q :
  load_config p (Some t) = Ok c →
  load_config q (Some (effective_config c)) =
    if text_is (mode c) "server" then Err (str "server_name is required in server mode") else Ok (told c false).
Proof.
  intros (m & Hm & Hc & _ & Hv)%load_config_ok.
  destruct (configured m c (λ k v, read_clean t m k v Hm) Hc) as (Hs & Ht & Hcap).
  destruct (validated_numbers c Hs Hv) as [Hints Hctl]. destruct (effective_keys c) as (Hk & Hn & Hkn).
  unfold load_config. cbn [or_throw mbind res_bind]. unfold effective_config.
  rewrite (settings_read _ Hk (effective_clean c Ht (validated_browser c Hv)) Hn). cbn [mbind res_bind].
  rewrite (configure_told c _ eq_refl Hs Hints Hctl Hcap). cbn [mbind res_bind].
  assert (Hknown : check_known (list_to_map (effective_settings c)) = Ok tt).
  { apply check_known_ok. intros k v Hkv%elem_of_list_to_map_2. rewrite Forall_forall in Hkn. apply Hkn.
    apply list_elem_of_fmap. by exists (k, v). }
  rewrite Hknown. cbn [mbind res_bind]. destruct (text_is (mode c) "server") eqn:Hmode.
  - by rewrite told_server_invalid.
  - by rewrite told_client_valid, Hv.
Qed.

(** ** Witnesses *)
Module EffectiveDemo.
Import ConfigDemo.

Definition server_lines : bytes :=
  lines ["mode=server"; "transport=websocket"; "listen=[::1]:8443"; "server_name=cdn.example"; "cidr=10.0.0.1/30";
         "peer_cidr=10.0.0.2/30"; "psk_file=/etc/pacetun/psk"; "control_socket=/run/pacetun.sock"]%string.

Example client_reloads : load_config [] (Some (effective_config client_config)) = Ok client_config.
Proof. vm_compute. reflexivity. Qed.

Example server_does_not :
  match load_config [] (Some server_lines) with Ok c => load_config [] (Some (effective_config c)) | Err e => Err e end
  = Err (str "server_name is required in server mode").
Proof. vm_compute. reflexivity. Qed.
End EffectiveDemo.
Import ConfigDemo.

Lemma effective_config_reloads_witness :
  load_config (str "again.conf") (Some (effective_config client_config)) = Ok (told client_config false).
Proof. exact (effective_config_reloads [] (lines client) client_config (str "again.conf") client_loads). Defined.
